(** * FPGA workload manager: kernel queue, dispatch scheduler, slot table,
      monitoring-window attribution and ring buffers.

    Shallow embedding of the C sources:
    - [queue_ll.c]                 the linked-list kernel queue,
    - [queue_online.c]             the per-slot queue of kernel pointers,
    - [support.c]                  the timespec helpers,
    - [execution_modes_buffers.c]  the M-segment ring of shared buffers,
    - [setup.c]                    producer ([main]), [queue_manager_thread],
                                   [execution_thread], [monitoring_thread] and
                                   [online_processing],
    - [queue_traces.c]             the queue of monitoring windows,
    - [ping_pong_buffers.c]        the ping and pong buffers,
    - [kernels_support.c]          the registration in the per-slot queues,
    - [thread_pool.c]              the pool of workers.

    Conventions.  C [int] and [long] values are integers of [Z]; the
    arithmetic of the modelled code stays far from the type bounds except
    where a definition says otherwise.  A C truth value ([int] 0 / 1 used
    only in conditions) is a [bool].  A singly linked list with [head],
    [next] and [tail] pointers is the Rocq list of its node payloads, head
    first; [tail] is the last node of that list.  [malloc] succeeds. *)

From Stdlib Require Import ZArith List Bool Lia Sorted.
Import ListNotations.
Local Open Scope Z_scope.

(* ================================================================== *)
(** * Part I. The program                                              *)
(* ================================================================== *)

(** ** Scalar limits and application constants *)

Definition INT_MAX : Z := 2147483647.
Definition LONG_MAX : Z := 9223372036854775807.

(** support.h *)
Definition NS_PER_SECOND : Z := 1000000000.

(** data_structures.h *)
Definition POWER_FILE_SIZE : Z := 525 * 1024.
Definition TRACES_FILE_SIZE : Z := 20 * 1024.
Definition ONLINE_FILE_SIZE : Z := 2 * 1024.
Definition TYPES_OF_KERNELS : Z := 11.

(** setup.c, [BOARD == ZCU] (the default of debug.h) *)
Definition NUM_SLOTS : Z := 8.
Definition tmp_cu : list Z := [1; 2; 4; 8].

(** ** struct timespec and the helpers of support.c *)

Record timespec : Type := mk_timespec { tv_sec : Z; tv_nsec : Z }.

Definition greater_than_timespec (l_val r_val : timespec) : bool :=
  if tv_sec l_val =? tv_sec r_val
  then tv_nsec l_val >? tv_nsec r_val
  else tv_sec l_val >? tv_sec r_val.

Definition less_than_timespec (l_val r_val : timespec) : bool :=
  if tv_sec l_val =? tv_sec r_val
  then tv_nsec l_val <? tv_nsec r_val
  else tv_sec l_val <? tv_sec r_val.

Definition equal_to_timespec (l_val r_val : timespec) : bool :=
  if (tv_sec l_val =? tv_sec r_val) && (tv_nsec l_val =? tv_nsec r_val)
  then true
  else false.

Definition add_timespec (a b : timespec) : timespec :=
  let sec := tv_sec a + tv_sec b in
  let nsec := tv_nsec a + tv_nsec b in
  if nsec >? NS_PER_SECOND
  then mk_timespec (sec + 1) (nsec - NS_PER_SECOND)
  else mk_timespec sec nsec.

(** C's [/] and [%] truncate towards zero: [Z.quot] and [Z.rem].  The
    negative-nanoseconds branch only prints a message. *)
Definition update_timer_ms (time : timespec) (msec : Z) : timespec :=
  let sec := tv_sec time + Z.quot msec 1000 in
  let remaining_ms := Z.rem msec 1000 in
  let nsec := tv_nsec time + remaining_ms * 1000000 in
  if nsec >=? NS_PER_SECOND
  then mk_timespec (sec + Z.quot nsec NS_PER_SECOND) (Z.rem nsec NS_PER_SECOND)
  else mk_timespec sec nsec.

(** Value of a timespec in nanoseconds, and its normal form. *)
Definition timespec_ns (t : timespec) : Z := tv_sec t * NS_PER_SECOND + tv_nsec t.

Definition normalized (t : timespec) : Prop := 0 <= tv_nsec t < NS_PER_SECOND.

(** Lexicographic order on [(tv_sec, tv_nsec)]. *)
Definition timespec_lt (a b : timespec) : Prop :=
  tv_sec a < tv_sec b \/ (tv_sec a = tv_sec b /\ tv_nsec a < tv_nsec b).

(** ** data_structures.h *)

Record kernel_data : Type := mk_kernel_data {
  initial_time : timespec;
  temp_id : Z;
  kernel_label : Z;
  num_executions : Z;
  intended_arrival_time_ms : Z;
  commanded_arrival_time : timespec;
  measured_arrival_time : timespec;
  measured_finish_time : timespec;
  measured_pre_execution_time : timespec;
  measured_post_execution_time : timespec;
  cu : Z;
  slot_id : Z
}.

Record monitor_data : Type := mk_monitor_data {
  window_initial_time : timespec;
  measured_starting_time : timespec;
  window_measured_finish_time : timespec
}.

Record online_data : Type := mk_online_data {
  online_kernel_label : Z;
  arrival_time : timespec;
  finish_time : timespec
}.

(** ** queue_ll.c *)

Record queue : Type := mk_queue { nodes : list kernel_data; size : Z }.

Definition init_queue : queue := mk_queue [] 0.

Definition clean_queue (q : queue) : queue := mk_queue [] 0.

Definition enqueue (q : queue) (d : kernel_data) : Z * queue :=
  (0, mk_queue (nodes q ++ [d]) (size q + 1)).

(** The returned pointer is the position of the new node. *)
Definition enqueue_and_modify (q : queue) (d : kernel_data) : nat * queue :=
  (length (nodes q), mk_queue (nodes q ++ [d]) (size q + 1)).

(** Return code, queue afterwards, contents of the out-parameter [d]. *)
Definition dequeue (q : queue) (d : kernel_data) : Z * queue * kernel_data :=
  match nodes q with
  | [] => (-1, q, d)
  | tmp :: next => (0, mk_queue next (size q - 1), tmp)
  end.

(** The [while (i <= pos)] walk of [dequeue_from], entered with [steps]
    iterations still to run after the current one; [prev] is the node the
    walk stands on and [next] the chain after it.  [None]: [prev->next] is
    [NULL]. *)
Fixpoint unlink_at (steps : nat) (prev : kernel_data) (next : list kernel_data)
  : option (kernel_data * list kernel_data) :=
  match next with
  | [] => None
  | tmp :: after =>
      match steps with
      | O => Some (tmp, prev :: after)
      | S k =>
          match unlink_at k tmp after with
          | None => None
          | Some (found, chain) => Some (found, prev :: chain)
          end
      end
  end.

(** [None] stands for the undefined behaviour of a negative [pos]
    ([prev] is still [NULL] when it is dereferenced). *)
Definition dequeue_from (q : queue) (pos : Z) (d : kernel_data)
  : option (Z * queue * kernel_data) :=
  match nodes q with
  | [] => Some (-1, q, d)
  | head :: next =>
      if pos =? 0 then
        let '(ret, q1, d1) := dequeue q d in
        if ret <? 0 then Some (-1, q1, d1)
        else Some (0, mk_queue (nodes q1) (size q1 - 1), d1)
      else if pos <? 0 then None
      else
        match unlink_at (Z.to_nat (pos - 1)) head next with
        | None => Some (-1, q, d)
        | Some (found, chain) => Some (0, mk_queue chain (size q - 1), found)
        end
  end.

(** The [do ... while] of [dequeue_first_executable_kernel]: [prev] is the
    node just rejected, [next] the chain after it. *)
Fixpoint scan_rest (free_slots : Z) (duplicated_kernels : Z -> Z)
    (prev : kernel_data) (next : list kernel_data)
  : option (kernel_data * list kernel_data) :=
  match next with
  | [] => None
  | tmp :: after =>
      if (cu tmp >? free_slots) || (duplicated_kernels (kernel_label tmp) =? 1)
      then match scan_rest free_slots duplicated_kernels tmp after with
           | None => None
           | Some (found, chain) => Some (found, prev :: chain)
           end
      else Some (tmp, prev :: after)
  end.

Definition dequeue_first_executable_kernel (q : queue) (free_slots : Z)
    (duplicated_kernels : Z -> Z) (d : kernel_data)
  : Z * queue * kernel_data :=
  match nodes q with
  | [] => (-1, q, d)
  | tmp :: next =>
      if (cu tmp <=? free_slots) && (duplicated_kernels (kernel_label tmp) =? 0)
      then (0, mk_queue next (size q - 1), tmp)
      else match scan_rest free_slots duplicated_kernels tmp next with
           | None => (-1, q, d)
           | Some (found, chain) => (0, mk_queue chain (size q - 1), found)
           end
  end.

Definition get_size_queue (q : queue) : Z := size q.

(** ** queue_online.c: the per-slot queues hold pointers to kernel records *)

Definition kernel_ptr : Type := nat.

Record queue_online : Type :=
  mk_queue_online { nodes_online : list kernel_ptr; size_online : Z }.

Definition init_queue_online : queue_online := mk_queue_online [] 0.

Definition enqueue_online (q : queue_online) (d : kernel_ptr) : Z * queue_online :=
  (0, mk_queue_online (nodes_online q ++ [d]) (size_online q + 1)).

Definition dequeue_online (q : queue_online) (d : kernel_ptr)
  : Z * queue_online * kernel_ptr :=
  match nodes_online q with
  | [] => (-1, q, d)
  | tmp :: next => (0, mk_queue_online next (size_online q - 1), tmp)
  end.

Definition get_size_queue_online (q : queue_online) : Z := size_online q.

(** ** setup.c: [online_processing]

    The build is the one of the defaults of debug.h: [MONITOR] and
    [TRACES_SOCKET] are 1, [TRACES_RAM], [TRACES_ROM] and [CPU_USAGE] are 0.  The online
    buffer is the block of [ONLINE_FILE_SIZE] bytes that [malloc] returned
    for [online_cloud_ptr] (the call succeeded), as the sequence of the
    objects copied into it.  [mem] gives the contents of the kernel records
    the queued pointers refer to.  [None]: the function called [exit(1)],
    or a [memcpy] wrote past the end of the block, which is undefined
    behaviour. *)

Inductive online_item : Type :=
  | item_window (monitor_window : monitor_data)
  | item_mark (separation_mark : Z)
  | item_kernel (online_tmp : online_data).

(** [sizeof] on the LP64 targets of the application: an [int] has 4 bytes
    and a [struct timespec] is two [long] of 8; [monitor_data] is three
    [struct timespec]; [online_data] is an [int], 4 bytes of padding and
    two [struct timespec]. *)
Definition sizeof_int : Z := 4.
Definition sizeof_monitor_data : Z := 48.
Definition sizeof_online_data : Z := 40.

Definition sizeof_item (x : online_item) : Z :=
  match x with
  | item_window _ => sizeof_monitor_data
  | item_mark _ => sizeof_int
  | item_kernel _ => sizeof_online_data
  end.

(** The local [online_cloud_bytes]: the bytes the objects of the buffer
    take. *)
Fixpoint online_cloud_bytes (buf : list online_item) : Z :=
  match buf with
  | [] => 0
  | x :: rest => sizeof_item x + online_cloud_bytes rest
  end.

(** [memcpy(&(online_cloud_ptr[online_cloud_bytes]), &x, sizeof(x))]
    followed by [online_cloud_bytes += sizeof(x)].  The code has no test
    of the room that is left. *)
Definition copy_item (buf : list online_item) (x : online_item)
  : option (list online_item) :=
  if online_cloud_bytes buf + sizeof_item x <=? ONLINE_FILE_SIZE
  then Some (buf ++ [x])
  else None.

Definition write_decision (t0 tf m0 mf : timespec) : bool :=
  greater_than_timespec tf m0 && less_than_timespec t0 mf.

Definition keep_decision (t0 tf mf : timespec) : bool :=
  greater_than_timespec tf mf || equal_to_timespec t0 tf.

(** Body of the [for (cont ...)] loop. *)
Definition process_kernel (mem : kernel_ptr -> kernel_data)
    (monitor_window : monitor_data) (kernel_tmp0 : kernel_ptr)
    (q : queue_online) (buf : list online_item)
  : option (kernel_ptr * queue_online * list online_item) :=
  let '(ret, q1, kernel_tmp) := dequeue_online q kernel_tmp0 in
  if ret <? 0 then None
  else
    let t0 := measured_arrival_time (mem kernel_tmp) in
    let tf := measured_finish_time (mem kernel_tmp) in
    let m0 := measured_starting_time monitor_window in
    let mf := window_measured_finish_time monitor_window in
    let copied :=
      if write_decision t0 tf m0 mf
      then
        match copy_item buf (item_mark 1) with
        | None => None
        | Some buf1 =>
            copy_item buf1
              (item_kernel (mk_online_data (kernel_label (mem kernel_tmp)) t0 tf))
        end
      else Some buf in
    match copied with
    | None => None
    | Some buf2 =>
        let q2 :=
          if keep_decision t0 tf mf
          then snd (enqueue_online q1 kernel_tmp)
          else q1 in
        Some (kernel_tmp, q2, buf2)
    end.

Fixpoint process_kernels (count : nat) (mem : kernel_ptr -> kernel_data)
    (monitor_window : monitor_data) (kernel_tmp : kernel_ptr)
    (q : queue_online) (buf : list online_item)
  : option (kernel_ptr * queue_online * list online_item) :=
  match count with
  | O => Some (kernel_tmp, q, buf)
  | S count' =>
      match process_kernel mem monitor_window kernel_tmp q buf with
      | None => None
      | Some (kernel_tmp1, q1, buf1) =>
          process_kernels count' mem monitor_window kernel_tmp1 q1 buf1
      end
  end.

(** Body of the [for (i ...)] loop over the slots. *)
Definition process_slot (mem : kernel_ptr -> kernel_data)
    (monitor_window : monitor_data) (kernel_tmp : kernel_ptr)
    (q : queue_online) (buf : list online_item)
  : option (kernel_ptr * queue_online * list online_item) :=
  let num_kernels_in_slot := get_size_queue_online q in
  match process_kernels (Z.to_nat num_kernels_in_slot) mem monitor_window
          kernel_tmp q buf with
  | None => None
  | Some (kernel_tmp1, q1, buf1) =>
      match copy_item buf1 (item_mark 0) with
      | None => None
      | Some buf2 => Some (kernel_tmp1, q1, buf2)
      end
  end.

Fixpoint process_slots (mem : kernel_ptr -> kernel_data)
    (monitor_window : monitor_data) (kernel_tmp : kernel_ptr)
    (online_queue : list queue_online) (buf : list online_item)
  : option (list queue_online * list online_item) :=
  match online_queue with
  | [] => Some ([], buf)
  | q :: others =>
      match process_slot mem monitor_window kernel_tmp q buf with
      | None => None
      | Some (kernel_tmp1, q1, buf1) =>
          match process_slots mem monitor_window kernel_tmp1 others buf1 with
          | None => None
          | Some (others1, buf2) => Some (q1 :: others1, buf2)
          end
      end
  end.

(** [online_queue] is the array of the [NUM_SLOTS] per-slot queues;
    [kernel_tmp] is the initial (indeterminate) value of the local.  The
    result carries the buffer handed to [send_buffer_socket_tcp_inet]. *)
Definition online_processing (mem : kernel_ptr -> kernel_data)
    (monitor_window : monitor_data) (kernel_tmp : kernel_ptr)
    (online_queue : list queue_online)
  : option (Z * list queue_online * list online_item) :=
  match copy_item [] (item_window monitor_window) with
  | None => None
  | Some buf0 =>
      match copy_item buf0 (item_mark NUM_SLOTS) with
      | None => None
      | Some buf =>
          match process_slots mem monitor_window kernel_tmp online_queue buf with
          | None => None
          | Some (online_queue1, buf1) => Some (0, online_queue1, buf1)
          end
      end
  end.

(** ** setup.c: the slot table *)

(** The selection loop of [queue_manager_thread]:
    [for (i = 0, j = 0; i < NUM_SLOTS; i++)], over the part of
    [slots_in_use] from index [i] on. *)
Fixpoint select_slots (kernel_cu : Z) (i j : Z) (slots : list Z) (kernel_slot_id : Z)
  : list Z * Z :=
  match slots with
  | [] => ([], kernel_slot_id)
  | in_use :: rest =>
      if in_use =? 0 then
        let slot_id1 := Z.lor kernel_slot_id (Z.shiftl 1 i) in
        let j1 := j + 1 in
        if kernel_cu =? j1 then (1 :: rest, slot_id1)
        else
          let '(rest1, slot_id2) := select_slots kernel_cu (i + 1) j1 rest slot_id1 in
          (1 :: rest1, slot_id2)
      else
        let '(rest1, slot_id2) := select_slots kernel_cu (i + 1) j rest kernel_slot_id in
        (in_use :: rest1, slot_id2)
  end.

(** The release loop of [execution_thread]:
    [for (i = 0, j = 0; i < kernel->cu; j++)], over the part of
    [slots_in_use] from index [j] on.  The loop has no bound on [j]: when
    [j] leaves the array with [i < cu] the execution runs into an
    out-of-bounds store or an over-wide shift, which is [None]. *)
Fixpoint release_slots (kernel_cu kernel_slot_id : Z) (i j : Z) (slots : list Z)
  : option (list Z) :=
  if i <? kernel_cu then
    match slots with
    | [] => None
    | in_use :: rest =>
        if Z.land kernel_slot_id (Z.shiftl 1 j) >? 0 then
          match release_slots kernel_cu kernel_slot_id (i + 1) (j + 1) rest with
          | None => None
          | Some rest1 => Some (0 :: rest1)
          end
        else
          match release_slots kernel_cu kernel_slot_id i (j + 1) rest with
          | None => None
          | Some rest1 => Some (in_use :: rest1)
          end
    end
  else Some slots.

(** Number of bits set at the [width] positions from [j] on; an [int] has
    31 value bits. *)
Fixpoint bits_from (j : Z) (width : nat) (mask : Z) : Z :=
  match width with
  | O => 0
  | S width' => (if Z.testbit mask j then 1 else 0) + bits_from (j + 1) width' mask
  end.

Definition popcount (mask : Z) : Z := bits_from 0 31 mask.

(** Indices of the free entries of a slot table, in increasing order,
    the table starting at index [i]. *)
Fixpoint free_from (i : Z) (slots : list Z) : list Z :=
  match slots with
  | [] => []
  | in_use :: rest =>
      if in_use =? 0 then i :: free_from (i + 1) rest else free_from (i + 1) rest
  end.

Definition free_indices (slots : list Z) : list Z := free_from 0 slots.

Definition count_free (slots : list Z) : Z := Z.of_nat (length (free_indices slots)).

(** Entry [i] of an [int] array. *)
Definition entry (slots : list Z) (i : Z) : Z :=
  if i <? 0 then 0 else nth (Z.to_nat i) slots 0.

(** ** setup.c: producer, queue manager and workers as a transition system

    Each step is one critical section of one thread, between the lock and
    the unlock of its mutex, with the unshared statements next to it; the
    steps of different threads interleave freely.  [step] is the body of
    the manager's [while (kernels_count < NUM_KERNELS)] loop, from the first
    workload on; the test of that loop and the change of workload, which
    sets [kernels_count] back to 0, are added by [workload_step] further
    down.  The time stamps the workers write into the records are left out.

    The tables [duplicated_kernel_variable] and [duplicated_kernels_tmp],
    arrays of [TYPES_OF_KERNELS] [int]s indexed by the label of a record,
    are functions of the index.  The code does no test of a label, and an
    index outside [0, TYPES_OF_KERNELS) is an access outside the array;
    [labels_in_range] further down states when no index of a run is. *)

Inductive operating_mode_enum : Type := EXECUTION | TRAIN.

(** Where [queue_manager_thread] stands in the body of its [while] loop:
    the critical section it runs next. *)
Inductive manager_pc : Type :=
  | pc_wait          (* [kernel_service_lock]: condition wait, flag cleared *)
  | pc_copy (free_slots_tmp : Z)
                     (* [duplicated_kernel_lock]: memcpy of the table *)
  | pc_scan (free_slots_tmp : Z) (duplicated_kernels_tmp : Z -> Z)
                     (* [kernel_execution_queue_lock]: the scan *)
  | pc_found         (* [kernel_service_lock]: flag set back *)
  | pc_mark          (* [duplicated_kernel_lock]: table entry incremented *)
  | pc_reserve       (* [kernel_service_lock]: free slots decremented *)
  | pc_select        (* [check_slots_lock]: selection of the slots *)
  | pc_handoff       (* output queue and [dispatch] to the pool *)
  | pc_served.       (* [kernel_service_lock]: kernels to serve decremented *)

Record state : Type := mk_state {
  kernel_generation_queue : queue;
  schedule_timer : timespec;
  arrival_pending : bool;     (* [main] between its two critical sections *)
  kernel_execution_queue : queue;
  kernel_output_queue : queue;
  duplicated_kernel_variable : Z -> Z;
  kernels_to_serve_variable : Z;
  kernels_are_executable_variable : Z;
  free_slots_variable : Z;
  slots_in_use : list Z;
  operating_mode : operating_mode_enum;
  kernels_count : Z;
  kernel_tmp : kernel_data;
  running : list kernel_ptr;     (* workers before the release of their slots *)
  released : list kernel_ptr;    (* workers before the table decrement *)
  signalling : list kernel_ptr;  (* workers before the free-slots increment *)
  manager : manager_pc
}.

Definition set_generation (q : queue) (timer : timespec) (s : state) : state :=
  mk_state q timer (arrival_pending s) (kernel_execution_queue s)
    (kernel_output_queue s) (duplicated_kernel_variable s)
    (kernels_to_serve_variable s) (kernels_are_executable_variable s)
    (free_slots_variable s) (slots_in_use s) (operating_mode s) (kernels_count s)
    (kernel_tmp s) (running s) (released s) (signalling s) (manager s).

Definition set_arrival (q g : queue) (pending : bool) (s : state) : state :=
  mk_state g (schedule_timer s) pending q
    (kernel_output_queue s) (duplicated_kernel_variable s)
    (kernels_to_serve_variable s) (kernels_are_executable_variable s)
    (free_slots_variable s) (slots_in_use s) (operating_mode s) (kernels_count s)
    (kernel_tmp s) (running s) (released s) (signalling s) (manager s).

(** The variables under [kernel_service_lock]. *)
Definition set_service (to_serve executable free : Z) (s : state) : state :=
  mk_state (kernel_generation_queue s) (schedule_timer s) (arrival_pending s)
    (kernel_execution_queue s) (kernel_output_queue s)
    (duplicated_kernel_variable s) to_serve executable free
    (slots_in_use s) (operating_mode s) (kernels_count s)
    (kernel_tmp s) (running s) (released s) (signalling s) (manager s).

Definition set_duplicated (table : Z -> Z) (s : state) : state :=
  mk_state (kernel_generation_queue s) (schedule_timer s) (arrival_pending s)
    (kernel_execution_queue s) (kernel_output_queue s) table
    (kernels_to_serve_variable s) (kernels_are_executable_variable s)
    (free_slots_variable s) (slots_in_use s) (operating_mode s) (kernels_count s)
    (kernel_tmp s) (running s) (released s) (signalling s) (manager s).

Definition set_slots (slots : list Z) (s : state) : state :=
  mk_state (kernel_generation_queue s) (schedule_timer s) (arrival_pending s)
    (kernel_execution_queue s) (kernel_output_queue s)
    (duplicated_kernel_variable s)
    (kernels_to_serve_variable s) (kernels_are_executable_variable s)
    (free_slots_variable s) slots (operating_mode s) (kernels_count s)
    (kernel_tmp s) (running s) (released s) (signalling s) (manager s).

Definition set_mode (m : operating_mode_enum) (s : state) : state :=
  mk_state (kernel_generation_queue s) (schedule_timer s) (arrival_pending s)
    (kernel_execution_queue s) (kernel_output_queue s)
    (duplicated_kernel_variable s)
    (kernels_to_serve_variable s) (kernels_are_executable_variable s)
    (free_slots_variable s) (slots_in_use s) m (kernels_count s)
    (kernel_tmp s) (running s) (released s) (signalling s) (manager s).

(** The locals of the manager: pending queue after a scan, the counter,
    the record in hand and the position. *)
Definition set_manager (q : queue) (count : Z) (k : kernel_data) (pc : manager_pc)
    (s : state) : state :=
  mk_state (kernel_generation_queue s) (schedule_timer s) (arrival_pending s)
    q (kernel_output_queue s) (duplicated_kernel_variable s)
    (kernels_to_serve_variable s) (kernels_are_executable_variable s)
    (free_slots_variable s) (slots_in_use s) (operating_mode s) count
    k (running s) (released s) (signalling s) pc.

Definition set_output (out : queue) (s : state) : state :=
  mk_state (kernel_generation_queue s) (schedule_timer s) (arrival_pending s)
    (kernel_execution_queue s) out (duplicated_kernel_variable s)
    (kernels_to_serve_variable s) (kernels_are_executable_variable s)
    (free_slots_variable s) (slots_in_use s) (operating_mode s) (kernels_count s)
    (kernel_tmp s) (running s) (released s) (signalling s) (manager s).

Definition set_workers (run rel sig : list kernel_ptr) (s : state) : state :=
  mk_state (kernel_generation_queue s) (schedule_timer s) (arrival_pending s)
    (kernel_execution_queue s) (kernel_output_queue s)
    (duplicated_kernel_variable s)
    (kernels_to_serve_variable s) (kernels_are_executable_variable s)
    (free_slots_variable s) (slots_in_use s) (operating_mode s) (kernels_count s)
    (kernel_tmp s) run rel sig (manager s).

Definition sentinel : timespec := mk_timespec LONG_MAX LONG_MAX.

(** One iteration of the loop of [main] that fills [kernel_generation_queue].
    [rand] is the value [rand()] returned: a number in [[0, RAND_MAX]]. *)
Definition new_kernel (initial : timespec) (i label executions inter_arrival : Z)
    (rand : nat) (timer : timespec) : kernel_data * timespec :=
  let rand_value := (rand mod 4)%nat in
  let timer1 := update_timer_ms timer inter_arrival in
  (mk_kernel_data initial i label executions inter_arrival timer1
     sentinel sentinel (mk_timespec 0 0) (mk_timespec 0 0)
     (nth rand_value tmp_cu 0) 0,
   timer1).

Definition array_update (f : Z -> Z) (k v : Z) : Z -> Z :=
  fun x => if x =? k then v else f x.

Definition main_generate (initial : timespec) (i label executions inter_arrival : Z)
    (rand : nat) (s : state) : option state :=
  let '(aux_kernel_data, timer1) :=
    new_kernel initial i label executions inter_arrival rand (schedule_timer s) in
  let '(ret, q1) := enqueue (kernel_generation_queue s) aux_kernel_data in
  if ret <? 0 then None else Some (set_generation q1 timer1 s).

(** The admission loop of [main], first critical section
    ([kernel_execution_queue_lock]): the next generated record goes to the
    pending queue. *)
Definition main_arrival (aux0 : kernel_data) (s : state) : option state :=
  if arrival_pending s then None
  else
    let '(ret, g1, aux_kernel_data) := dequeue (kernel_generation_queue s) aux0 in
    if ret <? 0 then None
    else
      let '(ret1, q1) := enqueue (kernel_execution_queue s) aux_kernel_data in
      if negb (ret1 =? 0) then None else Some (set_arrival q1 g1 true s).

(** The admission loop of [main], second critical section
    ([kernel_service_lock]). *)
Definition main_signal (s : state) : option state :=
  if arrival_pending s
  then Some (set_arrival (kernel_execution_queue s) (kernel_generation_queue s) false
               (set_service (kernels_to_serve_variable s + 1) 1
                  (free_slots_variable s) s))
  else None.

Definition set_temp_id (id : Z) (k : kernel_data) : kernel_data :=
  mk_kernel_data (initial_time k) id (kernel_label k)
    (num_executions k) (intended_arrival_time_ms k)
    (commanded_arrival_time k) (measured_arrival_time k)
    (measured_finish_time k) (measured_pre_execution_time k)
    (measured_post_execution_time k) (cu k) (slot_id k).

Definition set_slot_id (mask : Z) (k : kernel_data) : kernel_data :=
  mk_kernel_data (initial_time k) (temp_id k) (kernel_label k)
    (num_executions k) (intended_arrival_time_ms k)
    (commanded_arrival_time k) (measured_arrival_time k)
    (measured_finish_time k) (measured_pre_execution_time k)
    (measured_post_execution_time k) (cu k) mask.

(** One step of [queue_manager_thread], with the values it stored into
    [kernels_are_executable_variable] during the step.  [None]: the thread
    is blocked in [pthread_cond_wait]. *)
Definition queue_manager_thread (s : state) : option (state * list Z) :=
  let q := kernel_execution_queue s in
  let count := kernels_count s in
  let k := kernel_tmp s in
  match manager s with
  | pc_wait =>
      if (kernels_to_serve_variable s =? 0)
         || (kernels_are_executable_variable s =? 0)
         || (free_slots_variable s =? 0)
         || (match operating_mode s with TRAIN => true | EXECUTION => false end)
      then None
      else
        let free_slots_tmp := free_slots_variable s in
        Some (set_manager q count k (pc_copy free_slots_tmp)
                (set_service (kernels_to_serve_variable s) 0
                   (free_slots_variable s) s),
              [0])
  | pc_copy free_slots_tmp =>
      Some (set_manager q count k
              (pc_scan free_slots_tmp (duplicated_kernel_variable s)) s, [])
  | pc_scan free_slots_tmp duplicated_kernels_tmp =>
      let '(ret, q1, kernel_tmp1) :=
        dequeue_first_executable_kernel q free_slots_tmp duplicated_kernels_tmp k in
      let end_of_queue_flag := if ret <? 0 then 1 else 0 in
      Some (set_manager q1 count kernel_tmp1
              (if end_of_queue_flag =? 1 then pc_wait else pc_found) s, [])
  | pc_found =>
      Some (set_manager q count k pc_mark
              (set_service (kernels_to_serve_variable s) 1
                 (free_slots_variable s) s),
            [1])
  | pc_mark =>
      Some (set_manager q count (set_temp_id count k) pc_reserve
              (set_duplicated
                 (array_update (duplicated_kernel_variable s) (kernel_label k)
                    (duplicated_kernel_variable s (kernel_label k) + 1)) s),
            [])
  | pc_reserve =>
      Some (set_manager q count k pc_select
              (set_service (kernels_to_serve_variable s)
                 (kernels_are_executable_variable s)
                 (free_slots_variable s - cu k) s),
            [])
  | pc_select =>
      let '(slots1, slot_id1) := select_slots (cu k) 0 0 (slots_in_use s) (slot_id k) in
      Some (set_manager q count (set_slot_id slot_id1 k) pc_handoff
              (set_slots slots1 s), [])
  | pc_handoff =>
      let '(kernel_tmp_ptr, out1) := enqueue_and_modify (kernel_output_queue s) k in
      Some (set_manager q count k pc_served
              (set_workers (running s ++ [kernel_tmp_ptr]) (released s) (signalling s)
                 (set_output out1 s)),
            [])
  | pc_served =>
      Some (set_manager q (count + 1) k pc_wait
              (set_service (kernels_to_serve_variable s - 1)
                 (kernels_are_executable_variable s)
                 (free_slots_variable s) s),
            [])
  end.

(** Contents of the record a pointer into [kernel_output_queue] refers to
    ([no_record] for a pointer to no node). *)
Definition no_record : kernel_data :=
  mk_kernel_data (mk_timespec 0 0) 0 0 0 0 (mk_timespec 0 0)
    (mk_timespec 0 0) (mk_timespec 0 0) (mk_timespec 0 0) (mk_timespec 0 0) 0 0.

Definition record_at (s : state) (kernel : kernel_ptr) : kernel_data :=
  nth kernel (nodes (kernel_output_queue s)) no_record.

Definition holds (kernel : kernel_ptr) (workers : list kernel_ptr) : bool :=
  existsb (Nat.eqb kernel) workers.

Fixpoint remove_first (kernel : kernel_ptr) (l : list kernel_ptr) : list kernel_ptr :=
  match l with
  | [] => []
  | p :: rest => if Nat.eqb p kernel then rest else p :: remove_first kernel rest
  end.

(** [execution_thread] after the accelerator call has returned, run by the
    pool worker that was handed the pointer [kernel]; first critical section
    ([check_slots_lock]): the slots of the mask are released.  [None]: no
    such worker, or undefined behaviour. *)
Definition execution_thread_release (kernel : kernel_ptr) (s : state) : option state :=
  if negb (holds kernel (running s)) then None
  else
    match nth_error (nodes (kernel_output_queue s)) kernel with
    | None => None
    | Some k =>
        match release_slots (cu k) (slot_id k) 0 0 (slots_in_use s) with
        | None => None
        | Some slots1 =>
            Some (set_workers (remove_first kernel (running s))
                    (released s ++ [kernel]) (signalling s)
                    (set_slots slots1 s))
        end
    end.

(** Second critical section ([duplicated_kernel_lock]). *)
Definition execution_thread_unmark (kernel : kernel_ptr) (s : state) : option state :=
  if negb (holds kernel (released s)) then None
  else
    match nth_error (nodes (kernel_output_queue s)) kernel with
    | None => None
    | Some k =>
        Some (set_workers (running s) (remove_first kernel (released s))
                (signalling s ++ [kernel])
                (set_duplicated
                   (array_update (duplicated_kernel_variable s) (kernel_label k)
                      (duplicated_kernel_variable s (kernel_label k) - 1)) s))
    end.

(** Third critical section ([kernel_service_lock]); the worker returns. *)
Definition execution_thread_signal (kernel : kernel_ptr) (s : state) : option state :=
  if negb (holds kernel (signalling s)) then None
  else
    match nth_error (nodes (kernel_output_queue s)) kernel with
    | None => None
    | Some k =>
        Some (set_workers (running s) (released s)
                (remove_first kernel (signalling s))
                (set_service (kernels_to_serve_variable s) 1
                   (free_slots_variable s + cu k) s))
    end.

(** [monitoring_thread] switching between training and execution. *)
Definition monitoring_thread (m : operating_mode_enum) (s : state) : option state :=
  Some (set_mode m s).

Inductive event : Type :=
  | ev_generate (initial : timespec) (i label executions inter_arrival : Z) (rand : nat)
  | ev_arrival (aux0 : kernel_data)
  | ev_signal
  | ev_manager
  | ev_release (kernel : kernel_ptr)
  | ev_unmark (kernel : kernel_ptr)
  | ev_complete (kernel : kernel_ptr)
  | ev_monitor (m : operating_mode_enum).

Definition step (e : event) (s : state) : option state :=
  match e with
  | ev_generate initial i label executions inter_arrival rand =>
      main_generate initial i label executions inter_arrival rand s
  | ev_arrival aux0 => main_arrival aux0 s
  | ev_signal => main_signal s
  | ev_manager =>
      match queue_manager_thread s with
      | None => None
      | Some (s1, _) => Some s1
      end
  | ev_release kernel => execution_thread_release kernel s
  | ev_unmark kernel => execution_thread_unmark kernel s
  | ev_complete kernel => execution_thread_signal kernel s
  | ev_monitor m => monitoring_thread m s
  end.

Fixpoint run (es : list event) (s : state) : option state :=
  match es with
  | [] => Some s
  | e :: rest =>
      match step e s with
      | None => None
      | Some s1 => run rest s1
      end
  end.

(** State at the creation of the threads; [local] is the indeterminate
    initial content of the manager's [kernel_tmp] and [timer] the producer's
    [schedule_timer]. *)
Definition initial_state (local : kernel_data) (timer : timespec) : state :=
  mk_state init_queue timer false init_queue init_queue
    (fun _ => 0) 0 1 NUM_SLOTS
    (repeat 0 (Z.to_nat NUM_SLOTS)) EXECUTION 0
    local [] [] [] pc_wait.

Definition reachable (s : state) : Prop :=
  exists local timer es, run es (initial_state local timer) = Some s.

Definition sum_Z (l : list Z) : Z := fold_right Z.add 0 l.

(** The live records: the kernels that hold slots.  They are the records of
    the workers that have not released their slots yet and, once the
    manager has selected slots for the record in its hand, that record
    until it is handed to a worker. *)
Definition live_records (s : state) : list kernel_data :=
  map (record_at s) (running s)
  ++ match manager s with
     | pc_handoff => [kernel_tmp s]
     | _ => []
     end.

Definition live_bits (s : state) : Z :=
  sum_Z (map (fun k => popcount (slot_id k)) (live_records s)).

(** Slots in transit: taken from [free_slots_variable] by a dispatch whose
    slot selection has not run yet, or released by a worker that has not
    added them to [free_slots_variable] yet. *)
Definition in_transit (s : state) : Z :=
  sum_Z (map (fun p => cu (record_at s p)) (released s ++ signalling s))
  + match manager s with
    | pc_select => cu (kernel_tmp s)
    | _ => 0
    end.

(** ** execution_modes_buffers.c

    Pointers are addresses.  Sizes and offsets are computed in [int]; a
    result outside the range of [int] is undefined behaviour, [None]. *)

Definition checked_int (z : Z) : option Z :=
  if (- INT_MAX - 1 <=? z) && (z <=? INT_MAX) then Some z else None.

Record execution_modes_buffers_t : Type := mk_buffers {
  power_base_ptr : Z;
  power_current_ptr : Z;
  traces_base_ptr : Z;
  traces_current_ptr : Z;
  online_base_ptr : Z;
  online_current_ptr : Z;
  total_iterations : Z;
  current_iteration : Z
}.

(** [power], [traces] and [online] are the addresses [mmap] returned for
    the three files; a [NULL] makes the function call [exit(1)].  Result:
    return code, the static [buffers], the three out-parameters. *)
Definition execution_modes_buffers_init (measurements_per_training : Z)
    (power traces online : Z)
  : option (Z * execution_modes_buffers_t * (Z * Z * Z)) :=
  match checked_int (POWER_FILE_SIZE * measurements_per_training),
        checked_int (TRACES_FILE_SIZE * measurements_per_training),
        checked_int (ONLINE_FILE_SIZE * measurements_per_training) with
  | Some _, Some _, Some _ =>
      if (power =? 0) || (traces =? 0) || (online =? 0) then None
      else Some (0,
                 mk_buffers power power traces traces online online
                   measurements_per_training 0,
                 (power, traces, online))
  | _, _, _ => None
  end.

Definition execution_modes_buffers_toggle (buffers : execution_modes_buffers_t)
  : option (Z * execution_modes_buffers_t * (Z * Z * Z)) :=
  match checked_int (current_iteration buffers + 1) with
  | None => None
  | Some next =>
      if total_iterations buffers =? 0 then None
      else
        let current := Z.rem next (total_iterations buffers) in
        match checked_int (POWER_FILE_SIZE * current),
              checked_int (TRACES_FILE_SIZE * current),
              checked_int (ONLINE_FILE_SIZE * current) with
        | Some power_off, Some traces_off, Some online_off =>
            let power := power_base_ptr buffers + power_off in
            let traces := traces_base_ptr buffers + traces_off in
            let online := online_base_ptr buffers + online_off in
            Some (0,
                  mk_buffers (power_base_ptr buffers) power
                    (traces_base_ptr buffers) traces
                    (online_base_ptr buffers) online
                    (total_iterations buffers) current,
                  (power, traces, online))
        | _, _, _ => None
        end
  end.

(** [n] consecutive calls of [execution_modes_buffers_toggle]; the result
    carries the out-parameters of the last call. *)
Fixpoint toggles (n : nat) (buffers : execution_modes_buffers_t) (out : Z * Z * Z)
  : option (execution_modes_buffers_t * (Z * Z * Z)) :=
  match n with
  | O => Some (buffers, out)
  | S n' =>
      match toggles n' buffers out with
      | None => None
      | Some (buffers1, _) =>
          match execution_modes_buffers_toggle buffers1 with
          | None => None
          | Some (_, buffers2, out2) => Some (buffers2, out2)
          end
      end
  end.

(** ** Reference behaviour and sample inputs *)

(** A record as the producer leaves it, with the given label and width. *)
Definition sample_kernel (label width : Z) : kernel_data :=
  mk_kernel_data (mk_timespec 0 0) 0 label 1 0 (mk_timespec 0 0)
    sentinel sentinel (mk_timespec 0 0) (mk_timespec 0 0) width 0.

(** The selection rule in the words of the specification: a record is
    executable when [cu <= free_slots] and its label's entry of the
    duplication table is 0; the first such record from the head is removed
    and returned. *)
Definition executable (free_slots : Z) (dup_table : Z -> Z) (k : kernel_data) : bool :=
  (cu k <=? free_slots) && (dup_table (kernel_label k) =? 0).

Fixpoint scan_and_remove_first_executable (free_slots : Z) (dup_table : Z -> Z)
    (pending : list kernel_data) : option (kernel_data * list kernel_data) :=
  match pending with
  | [] => None
  | k :: rest =>
      if executable free_slots dup_table k then Some (k, rest)
      else match scan_and_remove_first_executable free_slots dup_table rest with
           | None => None
           | Some (found, rest1) => Some (found, k :: rest1)
           end
  end.

(** What [online_processing] does with one queued pointer, as functions of
    the record it refers to and of the window. *)
Definition snapshot (mem : kernel_ptr -> kernel_data) (r : kernel_ptr) : online_data :=
  mk_online_data (kernel_label (mem r)) (measured_arrival_time (mem r))
    (measured_finish_time (mem r)).

Definition written (mem : kernel_ptr -> kernel_data) (w : monitor_data)
    (r : kernel_ptr) : bool :=
  write_decision (measured_arrival_time (mem r)) (measured_finish_time (mem r))
    (measured_starting_time w) (window_measured_finish_time w).

Definition kept (mem : kernel_ptr -> kernel_data) (w : monitor_data)
    (r : kernel_ptr) : bool :=
  keep_decision (measured_arrival_time (mem r)) (measured_finish_time (mem r))
    (window_measured_finish_time w).

Definition kernel_output (mem : kernel_ptr -> kernel_data) (w : monitor_data)
    (r : kernel_ptr) : list online_item :=
  if written mem w r then [item_mark 1; item_kernel (snapshot mem r)] else [].

Definition slot_output (mem : kernel_ptr -> kernel_data) (w : monitor_data)
    (q : queue_online) : list online_item :=
  flat_map (kernel_output mem w) (nodes_online q) ++ [item_mark 0].

Definition slot_kept (mem : kernel_ptr -> kernel_data) (w : monitor_data)
    (q : queue_online) : queue_online :=
  let l := filter (kept mem w) (nodes_online q) in
  mk_queue_online l (Z.of_nat (length l)).

(** The objects of a whole window, and the number of snapshots among
    them. *)
Definition online_output (mem : kernel_ptr -> kernel_data) (w : monitor_data)
    (online_queue : list queue_online) : list online_item :=
  [item_window w; item_mark NUM_SLOTS] ++ flat_map (slot_output mem w) online_queue.

Definition written_count (mem : kernel_ptr -> kernel_data) (w : monitor_data)
    (online_queue : list queue_online) : Z :=
  sum_Z (map (fun q => Z.of_nat (length (filter (written mem w) (nodes_online q))))
           online_queue).

(** The [size] field of a queue counts its nodes. *)
Definition queue_online_ok (q : queue_online) : Prop :=
  size_online q = Z.of_nat (length (nodes_online q)).

(** A window from 4.0 s to 4.5 s; record 0 still at the producer's
    initialisation, record 1 running from 4.2 s to 4.7 s, record 2 run from
    3.0 s to 3.5 s; slot 0 holds the three, slot 1 only record 1. *)
Definition sample_window : monitor_data :=
  mk_monitor_data (mk_timespec 1 0) (mk_timespec 4 0) (mk_timespec 4 500000000).

Definition sample_timed (label : Z) (t0 tf : timespec) : kernel_data :=
  mk_kernel_data (mk_timespec 1 0) 0 label 1 0 (mk_timespec 0 0)
    t0 tf (mk_timespec 0 0) (mk_timespec 0 0) 1 1.

Definition sample_mem (r : kernel_ptr) : kernel_data :=
  match r with
  | O => sample_kernel 3 1
  | S O => sample_timed 4 (mk_timespec 4 200000000) (mk_timespec 4 700000000)
  | _ => sample_timed 5 (mk_timespec 3 0) (mk_timespec 3 500000000)
  end.

Definition sample_online_queue : list queue_online :=
  [mk_queue_online [0%nat; 1%nat; 2%nat] 3; mk_queue_online [1%nat] 1].

(** Six kernels of width 8 that ran one after the other within the window
    of [sample_window], 40 ms each and 50 ms apart; each is registered in
    the queue of every one of the 8 slots. *)
Definition overrun_mem (r : kernel_ptr) : kernel_data :=
  if (r <? 6)%nat
  then mk_kernel_data (mk_timespec 1 0) (Z.of_nat r) 4 1 0 (mk_timespec 0 0)
         (mk_timespec 4 (50000000 * Z.of_nat r))
         (mk_timespec 4 (50000000 * Z.of_nat r + 40000000))
         (mk_timespec 0 0) (mk_timespec 0 0) 8 255
  else sample_kernel 3 1.

Definition overrun_online_queue : list queue_online :=
  repeat (mk_queue_online [0%nat; 1%nat; 2%nat; 3%nat; 4%nat; 5%nat] 6) 8.

(** The same window with a seventh kernel, of width 1 and not started yet,
    in the queue of slot 0. *)
Definition overrun_pending_queue : list queue_online :=
  mk_queue_online [0%nat; 1%nat; 2%nat; 3%nat; 4%nat; 5%nat; 6%nat] 7
  :: repeat (mk_queue_online [0%nat; 1%nat; 2%nat; 3%nat; 4%nat; 5%nat] 6) 7.

(** The static [buffers] of a ring of [M] segments with the cursor at
    segment [cursor]. *)
Definition ring_at (M power traces online : Z) (cursor : Z)
  : execution_modes_buffers_t :=
  mk_buffers power (power + POWER_FILE_SIZE * cursor)
    traces (traces + TRACES_FILE_SIZE * cursor)
    online (online + ONLINE_FILE_SIZE * cursor) M cursor.

(** The allocation policy in the words of the specification: the first
    [cu] free slots, lowest index first, are marked busy and their bits
    make the mask. *)
Definition first_free (width : Z) (slots : list Z) : list Z :=
  firstn (Z.to_nat width) (free_indices slots).

Definition chosen_in (chosen : list Z) (i : Z) : bool := existsb (Z.eqb i) chosen.

Definition mask_of (chosen : list Z) : Z :=
  fold_right (fun i m => Z.lor (Z.shiftl 1 i) m) 0 chosen.

Fixpoint mark_from (i : Z) (chosen : list Z) (slots : list Z) : list Z :=
  match slots with
  | [] => []
  | in_use :: rest =>
      (if chosen_in chosen i then 1 else in_use) :: mark_from (i + 1) chosen rest
  end.

(** Release in the words of the specification: every slot whose bit is in
    the mask is cleared. *)
Fixpoint clear_from (j : Z) (mask : Z) (slots : list Z) : list Z :=
  match slots with
  | [] => []
  | in_use :: rest =>
      (if Z.testbit mask j then 0 else in_use) :: clear_from (j + 1) mask rest
  end.

(** ** Invariants of the transition system *)

Definition bit (mask k : Z) : Z := if Z.testbit mask k then 1 else 0.

(** Number of live records that hold slot [k]. *)
Definition owners (live : list kernel_data) (k : Z) : Z :=
  sum_Z (map (fun r => bit (slot_id r) k) live).

(** What [main] guarantees of every record it generates. *)
Definition producer_record (k : kernel_data) : Prop :=
  In (cu k) tmp_cu /\ slot_id k = 0.

Record slots_ok (slots : list Z) (free : Z) (live : list kernel_data) : Prop :=
  mk_slots_ok {
    ok_length : length slots = Z.to_nat NUM_SLOTS;
    ok_binary : forall x, In x slots -> x = 0 \/ x = 1;
    ok_owners : forall k, 0 <= k -> entry slots k = owners live k;
    ok_free : free = count_free slots;
    ok_popcount : forall r, In r live -> popcount (slot_id r) = cu r;
    ok_conservation :
      sum_Z (map (fun r => popcount (slot_id r)) live) + free = NUM_SLOTS
  }.

Record invariant (s : state) : Prop := mk_invariant {
  inv_slots :
    slots_ok (slots_in_use s) (count_free (slots_in_use s)) (live_records s);
  inv_free :
    count_free (slots_in_use s) = free_slots_variable s + in_transit s;
  inv_nonneg : 0 <= free_slots_variable s;
  inv_pointers :
    forall p, In p (running s ++ released s ++ signalling s) ->
              (p < length (nodes (kernel_output_queue s)))%nat;
  inv_output :
    forall k, In k (nodes (kernel_output_queue s)) -> 1 <= cu k;
  inv_generated :
    forall k, In k (nodes (kernel_generation_queue s)) -> producer_record k;
  inv_pending :
    forall k, In k (nodes (kernel_execution_queue s)) -> producer_record k;
  inv_manager :
    match manager s with
    | pc_wait | pc_served => True
    | pc_copy free_slots_tmp => free_slots_tmp <= free_slots_variable s
    | pc_scan free_slots_tmp _ => free_slots_tmp <= free_slots_variable s
    | pc_found | pc_mark | pc_reserve =>
        producer_record (kernel_tmp s) /\
        cu (kernel_tmp s) <= free_slots_variable s
    | pc_select => producer_record (kernel_tmp s)
    | pc_handoff => 1 <= cu (kernel_tmp s)
    end
}.

(** ** Scheduling of the threads *)

(** The steps of the producer and of the workers that store 1 into
    [kernels_are_executable_variable]. *)
Definition sets_flag (e : event) : bool :=
  match e with
  | ev_signal | ev_complete _ => true
  | _ => false
  end.

Definition other_thread (e : event) : Prop := e <> ev_manager.

(** The positions of the manager past the store of 1 into the flag. *)
Definition dispatching (pc : manager_pc) : bool :=
  match pc with
  | pc_mark | pc_reserve | pc_select | pc_handoff | pc_served => true
  | _ => false
  end.

(** One pass of the queue manager through the body of its [while] loop,
    from the condition wait until it is back there (after [continue] or
    at the end of the body); the other threads run the events of the
    [n]-th gap after the manager's [n]-th step.  The result carries the
    values the manager stored into [kernels_are_executable_variable], in
    order. *)
Fixpoint iteration (gaps : list (list event)) (s : state) : option (state * list Z) :=
  match gaps with
  | [] => None
  | gap :: rest =>
      match queue_manager_thread s with
      | None => None
      | Some (s1, log1) =>
          match manager s1 with
          | pc_wait => Some (s1, log1)
          | _ =>
              match run gap s1 with
              | None => None
              | Some s2 =>
                  match iteration rest s2 with
                  | None => None
                  | Some (s3, log) => Some (s3, log1 ++ log)
                  end
              end
          end
      end
  end.

(** [n] consecutive steps of the manager. *)
Definition manager_steps (n : nat) : list event := repeat ev_manager n.

(** A run that generates two kernels (label 3 of width 2, label 4 of
    width 1) and lets them arrive, dispatches the first and takes the
    manager to the selection of the slots of the second. *)
Definition sample_events : list event :=
  [ev_generate (mk_timespec 1 0) 0 3 5 10 1;
   ev_generate (mk_timespec 1 0) 1 4 5 10 0;
   ev_arrival no_record; ev_signal; ev_arrival no_record; ev_signal]
  ++ manager_steps 9 ++ manager_steps 6.

Definition sample_state : state :=
  match run sample_events (initial_state no_record (mk_timespec 1 0)) with
  | Some s => s
  | None => initial_state no_record (mk_timespec 1 0)
  end.

(** The same run one step of the manager earlier: the manager is about to
    take the slot of the second kernel from [free_slots_variable]. *)
Definition sample_reserve_events : list event :=
  [ev_generate (mk_timespec 1 0) 0 3 5 10 1;
   ev_generate (mk_timespec 1 0) 1 4 5 10 0;
   ev_arrival no_record; ev_signal; ev_arrival no_record; ev_signal]
  ++ manager_steps 9 ++ manager_steps 5.

Definition sample_reserve_state : state :=
  match run sample_reserve_events (initial_state no_record (mk_timespec 1 0)) with
  | Some s => s
  | None => initial_state no_record (mk_timespec 1 0)
  end.

(** The run of [sample_events] followed by the first two critical sections
    of the worker of the first kernel: its slots are released and not
    given back, and the manager still stands before the selection. *)
Definition sample_completing_events : list event :=
  sample_events ++ [ev_release 0%nat; ev_unmark 0%nat].

Definition sample_completing_state : state :=
  match run sample_completing_events (initial_state no_record (mk_timespec 1 0)) with
  | Some s => s
  | None => initial_state no_record (mk_timespec 1 0)
  end.

(** After the completion of the first kernel. *)
Definition sample_transit_state : state :=
  match step (ev_complete 0%nat) sample_completing_state with
  | Some s => s
  | None => sample_completing_state
  end.

(** After the selection of the slot of the second kernel instead. *)
Definition sample_allocated_state : state :=
  match step ev_manager sample_completing_state with
  | Some s => s
  | None => sample_completing_state
  end.

(** A kernel of label 3 is running on slots 0 and 1 and a second kernel
    of label 3 has just arrived; during the manager's next pass the worker
    of the first kernel completes after the manager has copied the
    duplication table. *)
Definition sample_wait_state : state :=
  match run ([ev_generate (mk_timespec 1 0) 0 3 5 10 1; ev_arrival no_record;
              ev_signal]
             ++ manager_steps 9
             ++ [ev_generate (mk_timespec 1 0) 1 3 5 10 1; ev_arrival no_record;
                 ev_signal])
          (initial_state no_record (mk_timespec 1 0)) with
  | Some s => s
  | None => initial_state no_record (mk_timespec 1 0)
  end.

Definition sample_gaps : list (list event) :=
  [[]; [ev_release 0%nat; ev_unmark 0%nat; ev_complete 0%nat]; []].

Definition sample_after_pass : state :=
  match iteration sample_gaps sample_wait_state with
  | Some (s, _) => s
  | None => sample_wait_state
  end.

(** A state in which [main] has generated a record with label 11 and no
    execution. *)
Definition sample_generated_state : state :=
  match step (ev_generate (mk_timespec 1 0) 0 11 0 10 1)
          (initial_state no_record (mk_timespec 1 0)) with
  | Some s => s
  | None => initial_state no_record (mk_timespec 1 0)
  end.

(** ** support.c: the remaining timespec helpers *)

(** [stop] is the parameter [end] of the source. *)
Definition diff_timespec (start stop : timespec) : timespec :=
  if tv_nsec stop - tv_nsec start <? 0
  then mk_timespec (tv_sec stop - tv_sec start - 1)
         (NS_PER_SECOND + tv_nsec stop - tv_nsec start)
  else mk_timespec (tv_sec stop - tv_sec start) (tv_nsec stop - tv_nsec start).

(** A value computed in [long] (64 bits); a result outside its range is
    a signed overflow, which is undefined behaviour: [None]. *)
Definition checked_long (z : Z) : option Z :=
  if (- LONG_MAX - 1 <=? z) && (z <=? LONG_MAX) then Some z else None.

(** The product, the sum and the quotient of [nsec] are computed in
    [long], the [int] [divisor] being converted to [long].  [None]: an
    overflow of one of them, or the division by zero. *)
Definition divide_timespec (divident : timespec) (divisor : Z) : option timespec :=
  match checked_long (tv_sec divident * NS_PER_SECOND) with
  | None => None
  | Some product =>
      match checked_long (product + tv_nsec divident) with
      | None => None
      | Some total =>
          if divisor =? 0 then None
          else
            match checked_long (Z.quot total divisor) with
            | None => None
            | Some nsec =>
                Some (mk_timespec (Z.quot nsec NS_PER_SECOND)
                        (Z.rem nsec NS_PER_SECOND))
            end
      end
  end.

(** The accumulation of the monitoring loop of setup.c,
    [total_online_time = add_timespec(total_online_time, elapsed_online)]
    with [elapsed_online = diff_timespec(start_online, end_online)], over
    the (start, end) stamps of the successive iterations.  [total] is the
    content of the local [total_online_time] when the loop is entered; the
    code does not initialise it. *)
Fixpoint total_elapsed (total : timespec) (stamps : list (timespec * timespec))
  : timespec :=
  match stamps with
  | [] => total
  | (start, stop) :: rest =>
      total_elapsed (add_timespec total (diff_timespec start stop)) rest
  end.

(** ** queue_ll.c: inspection of the queue *)

(** The [while (i <= pos)] walk of [get_kernel_info_from], with [steps]
    iterations still to run; [tmp] is the node the walk stands on. *)
Fixpoint walk_to (steps : nat) (tmp : kernel_data) (next : list kernel_data)
  : option kernel_data :=
  match steps with
  | O => Some tmp
  | S k =>
      match next with
      | [] => None
      | tmp1 :: after => walk_to k tmp1 after
      end
  end.

(** Return code and contents of the out-parameter [d]. *)
Definition get_kernel_info_from (q : queue) (pos : Z) (d : kernel_data)
  : Z * kernel_data :=
  match nodes q with
  | [] => (-1, d)
  | head :: next =>
      match walk_to (Z.to_nat pos) head next with
      | None => (-1, d)
      | Some found => (0, found)
      end
  end.

Definition is_queue_empty (q : queue) : Z :=
  match nodes q with
  | [] => 1
  | _ :: _ => 0
  end.

(** ** support.c: [save_output]

    The file is the sequence of the records written into it; [fopen] and
    [fwrite] succeed.  [None]: the function called [exit(1)]. *)

(** The [for (i = 0; i < num_kernels; i++)] loop, with [count] iterations
    still to run. *)
Fixpoint save_records (count : nat) (output_queue : queue) (kernel_tmp : kernel_data)
    (file : list kernel_data) : option (queue * list kernel_data) :=
  match count with
  | O => Some (output_queue, file)
  | S count' =>
      let '(ret, q1, kernel_tmp1) := dequeue output_queue kernel_tmp in
      if ret <? 0 then None
      else save_records count' q1 kernel_tmp1 (file ++ [kernel_tmp1])
  end.

Definition save_output (output_queue : queue) (kernel_tmp : kernel_data)
  : option (queue * list kernel_data) :=
  let num_kernels := get_size_queue output_queue in
  match save_records (Z.to_nat num_kernels) output_queue kernel_tmp [] with
  | None => None
  | Some (q1, file) => Some (clean_queue q1, file)
  end.

(** The [size] field of a kernel queue counts its nodes. *)
Definition queue_ok (q : queue) : Prop := size q = Z.of_nat (length (nodes q)).

(** The queue after the records of [ds] have been enqueued in order. *)
Definition enqueue_all (q : queue) (ds : list kernel_data) : queue :=
  fold_left (fun q1 d => snd (enqueue q1 d)) ds q.

(** The chain of a queue without its node at position [pos]. *)
Definition without_nth (pos : nat) (l : list kernel_data) : list kernel_data :=
  firstn pos l ++ skipn (S pos) l.

(** ** queue_traces.c: the queue of monitoring windows *)

Record queue_monitor : Type :=
  mk_queue_monitor { nodes_monitor : list monitor_data; size_monitor : Z }.

Definition init_queue_monitor : queue_monitor := mk_queue_monitor [] 0.

Definition clean_queue_monitor (q : queue_monitor) : queue_monitor :=
  mk_queue_monitor [] 0.

Definition enqueue_monitor (q : queue_monitor) (d : monitor_data)
  : Z * queue_monitor :=
  (0, mk_queue_monitor (nodes_monitor q ++ [d]) (size_monitor q + 1)).

Definition enqueue_and_modify_monitor (q : queue_monitor) (d : monitor_data)
  : nat * queue_monitor :=
  (length (nodes_monitor q),
   mk_queue_monitor (nodes_monitor q ++ [d]) (size_monitor q + 1)).

Definition dequeue_monitor (q : queue_monitor) (d : monitor_data)
  : Z * queue_monitor * monitor_data :=
  match nodes_monitor q with
  | [] => (-1, q, d)
  | tmp :: next => (0, mk_queue_monitor next (size_monitor q - 1), tmp)
  end.

Definition is_queue_empty_monitor (q : queue_monitor) : Z :=
  match nodes_monitor q with
  | [] => 1
  | _ :: _ => 0
  end.

Definition get_size_queue_monitor (q : queue_monitor) : Z := size_monitor q.

(** setup.c, [monitoring_thread]: what the loop over the monitoring windows
    does with [monitor_info_queue] and [monitorization_count], [windows]
    being the windows measured in the successive iterations. *)
Fixpoint monitor_windows (windows : list monitor_data)
    (monitor_info_queue : queue_monitor) (monitorization_count : Z)
  : queue_monitor * Z :=
  match windows with
  | [] => (monitor_info_queue, monitorization_count)
  | monitor_window :: rest =>
      monitor_windows rest (snd (enqueue_monitor monitor_info_queue monitor_window))
        (monitorization_count + 1)
  end.

(** setup.c, [monitoring_thread] (build with [TRACES_ROM]): the loop
    [for (i = 0; i < monitorization_count; i++)] that writes the windows to
    the monitor info file, with [count] iterations still to run.  [None]:
    [exit(1)]. *)
Fixpoint write_monitor_info (count : nat) (monitor_info_queue : queue_monitor)
    (monitor_window : monitor_data) (file : list monitor_data)
  : option (queue_monitor * list monitor_data) :=
  match count with
  | O => Some (monitor_info_queue, file)
  | S count' =>
      let '(ret, q1, monitor_window1) :=
        dequeue_monitor monitor_info_queue monitor_window in
      if ret <? 0 then None
      else write_monitor_info count' q1 monitor_window1 (file ++ [monitor_window1])
  end.

(** ** queue_online.c: [clean_queue_online] *)

Definition clean_queue_online (q : queue_online) : queue_online :=
  mk_queue_online [] 0.

(** ** kernels_support.c: [_kernel_to_online_queue]

    The loop [for (i = 0, j = 0; i < kernel->cu; j++)] over the part of the
    array [online_queue] from index [j] on; [kernel] is the pointer that is
    enqueued.  Like the release loop it has no bound on [j]: [None] when
    [j] leaves the array with [i < cu], or when [enqueue_online] fails. *)
Fixpoint kernel_to_online_queue_from (kernel_cu kernel_slot_id : Z)
    (kernel : kernel_ptr) (i j : Z) (online_queue : list queue_online)
  : option (list queue_online) :=
  if i <? kernel_cu then
    match online_queue with
    | [] => None
    | q :: rest =>
        if Z.land kernel_slot_id (Z.shiftl 1 j) >? 0 then
          let '(ret, q1) := enqueue_online q kernel in
          if negb (ret =? 0) then None
          else
            match kernel_to_online_queue_from kernel_cu kernel_slot_id kernel
                    (i + 1) (j + 1) rest with
            | None => None
            | Some rest1 => Some (q1 :: rest1)
            end
        else
          match kernel_to_online_queue_from kernel_cu kernel_slot_id kernel
                  i (j + 1) rest with
          | None => None
          | Some rest1 => Some (q :: rest1)
          end
    end
  else Some online_queue.

(** [mem] gives the record the pointer [kernel] refers to. *)
Definition _kernel_to_online_queue (mem : kernel_ptr -> kernel_data)
    (online_queue : list queue_online) (kernel : kernel_ptr)
  : option (Z * list queue_online) :=
  match kernel_to_online_queue_from (cu (mem kernel)) (slot_id (mem kernel))
          kernel 0 0 online_queue with
  | None => None
  | Some online_queue1 => Some (0, online_queue1)
  end.

(** The array of the per-slot queues with [kernel] added to the queue of
    every slot of the mask. *)
Fixpoint register_from (j : Z) (mask : Z) (kernel : kernel_ptr)
    (online_queue : list queue_online) : list queue_online :=
  match online_queue with
  | [] => []
  | q :: rest =>
      (if Z.testbit mask j then snd (enqueue_online q kernel) else q)
      :: register_from (j + 1) mask kernel rest
  end.

(** ** execution_modes_buffers.c: [execution_modes_buffers_clean]

    The regions handed to [munmap] ([_close_buffer_file]) as (address,
    length) pairs, [munmap] and [shm_unlink] succeeding; [None]: a length
    outside the range of [int]. *)
Definition execution_modes_buffers_clean (remove_buffers : Z)
    (buffers : execution_modes_buffers_t)
  : option (Z * execution_modes_buffers_t * list (Z * Z)) :=
  match checked_int (POWER_FILE_SIZE * total_iterations buffers),
        checked_int (TRACES_FILE_SIZE * total_iterations buffers),
        checked_int (ONLINE_FILE_SIZE * total_iterations buffers) with
  | Some power_size, Some traces_size, Some online_size =>
      Some (0,
            mk_buffers 0 0 0 0 0 0 (total_iterations buffers) 0,
            [(power_base_ptr buffers, power_size);
             (traces_base_ptr buffers, traces_size);
             (online_base_ptr buffers, online_size)])
  | _, _, _ => None
  end.

(** The regions [execution_modes_buffers_init] maps with
    [_create_buffer_file]: the address [mmap] returned and the length it
    was asked for. *)
Definition execution_modes_buffers_mapped (measurements_per_training : Z)
    (power traces online : Z) : list (Z * Z) :=
  [(power, POWER_FILE_SIZE * measurements_per_training);
   (traces, TRACES_FILE_SIZE * measurements_per_training);
   (online, ONLINE_FILE_SIZE * measurements_per_training)].

(** setup.c, [monitoring_thread]: the end of one monitoring window with
    the ring of buffers: the toggle, the increment of
    [monitorization_count] and the test
    [monitorization_count % measurements_per_training == 0] that starts a
    training.  Result: the buffers, the out-parameters, the count and
    whether a training starts. *)
Definition monitoring_window_end (measurements_per_training : Z)
    (buffers : execution_modes_buffers_t) (monitorization_count : Z)
  : option (execution_modes_buffers_t * (Z * Z * Z) * Z * bool) :=
  match execution_modes_buffers_toggle buffers with
  | None => None
  | Some (_, buffers1, out) =>
      let count1 := monitorization_count + 1 in
      if measurements_per_training =? 0 then None
      else Some (buffers1, out, count1,
                 Z.rem count1 measurements_per_training =? 0)
  end.

(** [n] monitoring windows in a row. *)
Fixpoint monitoring_windows (n : nat) (measurements_per_training : Z)
    (buffers : execution_modes_buffers_t) (out : Z * Z * Z)
    (monitorization_count : Z)
  : option (execution_modes_buffers_t * (Z * Z * Z) * Z * bool) :=
  match n with
  | O => Some (buffers, out, monitorization_count, false)
  | S n' =>
      match monitoring_windows n' measurements_per_training buffers out
              monitorization_count with
      | None => None
      | Some (buffers1, _, count1, _) =>
          monitoring_window_end measurements_per_training buffers1 count1
      end
  end.

(** ** ping_pong_buffers.c

    Pointers are addresses, [NULL] is 0.  The three [*_current_ptr] fields
    carry the prefix [pp_] here, their names being taken by the fields of
    [execution_modes_buffers_t]. *)

Record _ping_pong_buffers_t : Type := mk_ping_pong {
  power_ping_ptr : Z;
  power_pong_ptr : Z;
  pp_power_current_ptr : Z;
  traces_ping_ptr : Z;
  traces_pong_ptr : Z;
  pp_traces_current_ptr : Z;
  online_ping_ptr : Z;
  online_pong_ptr : Z;
  pp_online_current_ptr : Z
}.

(** The six arguments are the addresses [mmap] returned for the six files,
    in the order of the calls; a [NULL] makes the function call [exit(1)].
    Result: return code, the static [buffers], the three out-parameters. *)
Definition ping_pong_buffers_init
    (power_ping power_pong traces_ping traces_pong online_ping online_pong : Z)
  : option (Z * _ping_pong_buffers_t * (Z * Z * Z)) :=
  if (power_ping =? 0) || (power_pong =? 0) || (traces_ping =? 0)
     || (traces_pong =? 0) || (online_ping =? 0) || (online_pong =? 0)
  then None
  else Some (0,
             mk_ping_pong power_ping power_pong power_ping
               traces_ping traces_pong traces_ping
               online_ping online_pong online_ping,
             (power_ping, traces_ping, online_ping)).

(** One of the three blocks of [ping_pong_buffers_toggle]. *)
Definition toggle_ptr (current ping pong : Z) : option Z :=
  if negb (current =? ping) && negb (current =? pong) then None
  else if current =? ping then Some pong else Some ping.

Definition ping_pong_buffers_toggle (buffers : _ping_pong_buffers_t)
  : option (Z * _ping_pong_buffers_t * (Z * Z * Z)) :=
  match toggle_ptr (pp_power_current_ptr buffers) (power_ping_ptr buffers)
          (power_pong_ptr buffers) with
  | None => None
  | Some power =>
      match toggle_ptr (pp_traces_current_ptr buffers) (traces_ping_ptr buffers)
              (traces_pong_ptr buffers) with
      | None => None
      | Some traces =>
          match toggle_ptr (pp_online_current_ptr buffers) (online_ping_ptr buffers)
                  (online_pong_ptr buffers) with
          | None => None
          | Some online =>
              Some (0,
                    mk_ping_pong (power_ping_ptr buffers) (power_pong_ptr buffers) power
                      (traces_ping_ptr buffers) (traces_pong_ptr buffers) traces
                      (online_ping_ptr buffers) (online_pong_ptr buffers) online,
                    (power, traces, online))
          end
      end
  end.

(** The regions handed to [munmap] and the static [buffers] afterwards,
    [munmap] and [shm_unlink] succeeding. *)
Definition ping_pong_buffers_clean (remove_buffers : Z) (buffers : _ping_pong_buffers_t)
  : Z * _ping_pong_buffers_t * list (Z * Z) :=
  (0,
   mk_ping_pong 0 0 0 0 0 0 0 0 0,
   [(power_ping_ptr buffers, POWER_FILE_SIZE);
    (power_pong_ptr buffers, POWER_FILE_SIZE);
    (traces_ping_ptr buffers, TRACES_FILE_SIZE);
    (traces_pong_ptr buffers, TRACES_FILE_SIZE);
    (online_ping_ptr buffers, ONLINE_FILE_SIZE);
    (online_pong_ptr buffers, ONLINE_FILE_SIZE)]).

(** [n] consecutive calls of [ping_pong_buffers_toggle]. *)
Fixpoint ping_pong_toggles (n : nat) (buffers : _ping_pong_buffers_t) (out : Z * Z * Z)
  : option (_ping_pong_buffers_t * (Z * Z * Z)) :=
  match n with
  | O => Some (buffers, out)
  | S n' =>
      match ping_pong_toggles n' buffers out with
      | None => None
      | Some (buffers1, _) =>
          match ping_pong_buffers_toggle buffers1 with
          | None => None
          | Some (_, buffers2, out2) => Some (buffers2, out2)
          end
      end
  end.

(** ** Bookkeeping of the scheduler

    Further invariants of the transition system of setup.c. *)

(** 1 while the manager holds a record it has taken from the pending
    queue and has not finished dispatching. *)
Definition in_hand (pc : manager_pc) : Z :=
  match pc with
  | pc_found | pc_mark | pc_reserve | pc_select | pc_handoff | pc_served => 1
  | _ => 0
  end.

Record counters_ok (s : state) : Prop := mk_counters_ok {
  co_generation : queue_ok (kernel_generation_queue s);
  co_execution : queue_ok (kernel_execution_queue s);
  co_output : queue_ok (kernel_output_queue s);
  co_to_serve :
    kernels_to_serve_variable s + (if arrival_pending s then 1 else 0)
    = Z.of_nat (length (nodes (kernel_execution_queue s))) + in_hand (manager s);
  co_nonneg : 0 <= kernels_to_serve_variable s;
  co_pass : manager s <> pc_wait -> 1 <= kernels_to_serve_variable s
}.

(** 1 between the hand-over of a record to a worker and the increment of
    [kernels_count]. *)
Definition handed_over (pc : manager_pc) : Z :=
  match pc with
  | pc_served => 1
  | _ => 0
  end.

(** *** The loop over the workloads

    [queue_manager_thread] runs its [while (kernels_count < NUM_KERNELS)]
    loop once per workload, inside [for (workload_index = 0; ...)].  The
    bound of the [while] loop is the parameter [num_kernels] below;
    [NUM_KERNELS] is its value in setup.c. *)
Definition NUM_KERNELS : Z := 20000.

(** The manager between two workloads: the [while] loop has ended, the
    pending queue is cleaned, and the next turn of the [for] loop sets
    [kernels_count] to 0; [kernel_output_queue] is left as it is.  The
    spin on [isdone(tpool)] and the hand-shake with [main] over
    [workload_finished_flag] are left out: the step is possible whatever
    the workers and [main] do, which allows every interleaving of the code
    and more.  [None]: the manager is not at the test of the [while] loop,
    or the test holds. *)
Definition queue_manager_workload (num_kernels : Z) (s : state) : option state :=
  match manager s with
  | pc_wait =>
      if kernels_count s <? num_kernels then None
      else Some (set_manager (clean_queue (kernel_execution_queue s)) 0
                   (kernel_tmp s) pc_wait s)
  | _ => None
  end.

Inductive workload_event : Type :=
  | wl_thread (e : event)   (* a step of one of the threads, as in [step] *)
  | wl_next.                (* the manager goes over to the next workload *)

(** [step] with the test of the [while] loop: the manager enters a pass
    only while [kernels_count < num_kernels]. *)
Definition workload_step (num_kernels : Z) (e : workload_event) (s : state)
  : option state :=
  match e with
  | wl_thread e1 =>
      match e1, manager s with
      | ev_manager, pc_wait =>
          if kernels_count s <? num_kernels then step e1 s else None
      | _, _ => step e1 s
      end
  | wl_next => queue_manager_workload num_kernels s
  end.

Fixpoint workload_run (num_kernels : Z) (es : list workload_event) (s : state)
  : option state :=
  match es with
  | [] => Some s
  | e :: rest =>
      match workload_step num_kernels e s with
      | None => None
      | Some s1 => workload_run num_kernels rest s1
      end
  end.

Definition workload_reachable (num_kernels : Z) (s : state) : Prop :=
  exists local timer es,
    workload_run num_kernels es (initial_state local timer) = Some s.

(** The records the manager has put into the output queue during the
    workload in progress. *)
Definition dispatched (s : state) : Z :=
  kernels_count s + handed_over (manager s).

Record identifiers_ok (num_kernels : Z) (s : state) : Prop := mk_identifiers_ok {
  id_queue : queue_ok (kernel_output_queue s);
  id_count : 0 <= kernels_count s <= num_kernels;
  id_pass : manager s <> pc_wait -> kernels_count s < num_kernels;
  id_length : dispatched s <= Z.of_nat (length (nodes (kernel_output_queue s)));
  id_output :
    forall i k, nth_error (nodes (kernel_output_queue s)) i = Some k ->
                Z.of_nat (length (nodes (kernel_output_queue s))) - dispatched s
                <= Z.of_nat i ->
                temp_id k
                = Z.of_nat i
                  - (Z.of_nat (length (nodes (kernel_output_queue s)))
                     - dispatched s);
  id_hand :
    match manager s with
    | pc_reserve | pc_select | pc_handoff => temp_id (kernel_tmp s) = kernels_count s
    | _ => True
    end
}.

(** Two workloads of one kernel each: the first kernel (label 3) is
    dispatched and completes, the manager goes over to the second
    workload, and the second kernel (label 4) is dispatched. *)
Definition sample_workload_events : list workload_event :=
  map wl_thread
    ([ev_generate (mk_timespec 1 0) 0 3 5 10 1; ev_arrival no_record; ev_signal]
     ++ manager_steps 9
     ++ [ev_release 0%nat; ev_unmark 0%nat; ev_complete 0%nat])
  ++ [wl_next]
  ++ map wl_thread
       ([ev_generate (mk_timespec 1 0) 0 4 5 10 0; ev_arrival no_record; ev_signal]
        ++ manager_steps 9).

Definition sample_workload_state : state :=
  match workload_run 1 sample_workload_events
          (initial_state no_record (mk_timespec 1 0)) with
  | Some s => s
  | None => initial_state no_record (mk_timespec 1 0)
  end.

(** The record a pointer refers to carries the label [label]. *)
Definition has_label (s : state) (label : Z) (kernel : kernel_ptr) : bool :=
  kernel_label (record_at s kernel) =? label.

(** 1 when the manager has marked the label of the record in its hand in
    the duplication table and has not handed the record to a worker yet. *)
Definition marked_in_hand (s : state) (label : Z) : Z :=
  match manager s with
  | pc_reserve | pc_select | pc_handoff =>
      if kernel_label (kernel_tmp s) =? label then 1 else 0
  | _ => 0
  end.

(** Number of kernels of a label in flight: marked by the manager, and not
    yet unmarked by their worker. *)
Definition in_flight (s : state) (label : Z) : Z :=
  Z.of_nat (length (filter (has_label s label) (running s ++ released s)))
  + marked_in_hand s label.

Record labels_ok (s : state) : Prop := mk_labels_ok {
  lb_table : forall label, duplicated_kernel_variable s label = in_flight s label;
  lb_binary :
    forall label, duplicated_kernel_variable s label = 0
                  \/ duplicated_kernel_variable s label = 1;
  lb_manager :
    match manager s with
    | pc_scan _ duplicated_kernels_tmp =>
        forall label,
          (duplicated_kernels_tmp label = 0 \/ duplicated_kernels_tmp label = 1) /\
          duplicated_kernel_variable s label <= duplicated_kernels_tmp label
    | pc_found | pc_mark =>
        duplicated_kernel_variable s (kernel_label (kernel_tmp s)) = 0
    | _ => True
    end
}.

(** A label is an index into [duplicated_kernel_variable] and into the
    manager's copy [duplicated_kernels_tmp], arrays of [TYPES_OF_KERNELS]
    [int]s. *)
Definition label_ok (k : kernel_data) : Prop :=
  0 <= kernel_label k < TYPES_OF_KERNELS.

(** The events of a run in which every label [main] reads from the
    workload files is such an index. *)
Definition label_in_range (e : event) : Prop :=
  match e with
  | ev_generate _ _ label _ _ _ => 0 <= label < TYPES_OF_KERNELS
  | _ => True
  end.

(** Every record of the queues and the record in the manager's hand
    carry a label within the tables. *)
Record labels_in_range (s : state) : Prop := mk_labels_in_range {
  lr_generation : forall k, In k (nodes (kernel_generation_queue s)) -> label_ok k;
  lr_execution : forall k, In k (nodes (kernel_execution_queue s)) -> label_ok k;
  lr_output : forall k, In k (nodes (kernel_output_queue s)) -> label_ok k;
  lr_hand :
    match manager s with
    | pc_found | pc_mark | pc_reserve | pc_select | pc_handoff | pc_served =>
        label_ok (kernel_tmp s)
    | _ => True
    end
}.

Definition sample_scan_events : list event :=
  [ev_generate (mk_timespec 1 0) 0 3 5 10 1; ev_arrival no_record; ev_signal]
  ++ manager_steps 2.

(** A state in which the manager is about to scan the pending queue: one
    kernel of label 3 and width 2 has arrived and the manager has copied
    the duplication table. *)
Definition sample_scan_state : state :=
  match run ([ev_generate (mk_timespec 1 0) 0 3 5 10 1; ev_arrival no_record;
              ev_signal] ++ manager_steps 2)
          (initial_state no_record (mk_timespec 1 0)) with
  | Some s => s
  | None => initial_state no_record (mk_timespec 1 0)
  end.

(** What the flag [kernels_are_executable_variable] promises at each
    position of the manager: while it is 0 the values the manager scans
    with are current, and once the manager is back at its wait no pending
    record is executable unless a producer or a worker is about to set the
    flag. *)
Definition wakeup_ok (s : state) : Prop :=
  match manager s with
  | pc_wait =>
      kernels_are_executable_variable s = 0 ->
      arrival_pending s = false -> signalling s = [] ->
      forall x, In x (nodes (kernel_execution_queue s)) ->
                free_slots_variable s < cu x
                \/ duplicated_kernel_variable s (kernel_label x) <> 0
  | pc_copy free_slots_tmp =>
      kernels_are_executable_variable s = 0 ->
      free_slots_tmp = free_slots_variable s
  | pc_scan free_slots_tmp duplicated_kernels_tmp =>
      kernels_are_executable_variable s = 0 ->
      free_slots_tmp = free_slots_variable s /\
      (signalling s = [] ->
       forall label, duplicated_kernels_tmp label = duplicated_kernel_variable s label)
  | pc_found => True
  | pc_mark | pc_reserve | pc_select | pc_handoff | pc_served =>
      kernels_are_executable_variable s = 1
  end.

(** A kernel of label 3 is running on slots 0 and 1, a second kernel of
    label 3 has arrived, and the manager has scanned the pending queue
    without finding an executable record. *)
Definition sample_blocked_state : state :=
  match run ([ev_generate (mk_timespec 1 0) 0 3 5 10 1; ev_arrival no_record;
              ev_signal]
             ++ manager_steps 9
             ++ [ev_generate (mk_timespec 1 0) 1 3 5 10 1; ev_arrival no_record;
                 ev_signal]
             ++ manager_steps 3)
          (initial_state no_record (mk_timespec 1 0)) with
  | Some s => s
  | None => initial_state no_record (mk_timespec 1 0)
  end.

(** ** queue_ll.c, the later revision: [dequeue_first_executable_kernel]

    The revision of queue_ll.c that also holds the model-driven schedulers
    tests [duplicated_kernels[...] > 0] in the loop past the head; the rest
    of the function is unchanged. *)

Module queue_ll_revised.

Fixpoint scan_rest (free_slots : Z) (duplicated_kernels : Z -> Z)
    (prev : kernel_data) (next : list kernel_data)
  : option (kernel_data * list kernel_data) :=
  match next with
  | [] => None
  | tmp :: after =>
      if (cu tmp >? free_slots) || (duplicated_kernels (kernel_label tmp) >? 0)
      then match scan_rest free_slots duplicated_kernels tmp after with
           | None => None
           | Some (found, chain) => Some (found, prev :: chain)
           end
      else Some (tmp, prev :: after)
  end.

Definition dequeue_first_executable_kernel (q : queue) (free_slots : Z)
    (duplicated_kernels : Z -> Z) (d : kernel_data)
  : Z * queue * kernel_data :=
  match nodes q with
  | [] => (-1, q, d)
  | tmp :: next =>
      if (cu tmp <=? free_slots) && (duplicated_kernels (kernel_label tmp) =? 0)
      then (0, mk_queue next (size q - 1), tmp)
      else match scan_rest free_slots duplicated_kernels tmp next with
           | None => (-1, q, d)
           | Some (found, chain) => (0, mk_queue chain (size q - 1), found)
           end
  end.

End queue_ll_revised.

(** ** thread_pool.c: the hand-over of a task from [dispatch] to a worker

    A transition system like the one of the scheduler: each step is one
    critical section under [pool->lock] of a worker ([_do_work]) or of the
    thread that calls [dispatch], with the unlocked statements next to it.
    A thread blocked in [pthread_cond_wait] may return from it at any time
    it can take the lock again (a signal, a broadcast or a spurious
    wake-up), which is more than the signals of the code allow and so
    covers them.  The pthread calls and [malloc] succeed.  Worker ids are
    the integers from 0 to [num_threads - 1]. *)

Definition MAXT_IN_POOL : Z := 20.

Record work_t : Type := mk_work { routine : Z; arg : Z }.

(** Where a worker stands in [_do_work]. *)
Inductive worker_pc : Type :=
  | w_start                (* before the initialisations at the top *)
  | w_lock                 (* about to lock at the top of the outer loop *)
  | w_wait                 (* blocked in [pthread_cond_wait] on [cond] *)
  | w_work (todo : work_t) (* running the routine of the task, unlocked *)
  | w_exit.                (* after [pthread_exit] *)

(** Where the caller of [dispatch] stands. *)
Inductive dispatch_pc : Type :=
  | d_idle                 (* outside [dispatch] *)
  | d_wait.                (* blocked in [pthread_cond_wait] on [ack] *)

(** The field [running] is [pool_running] here, its name being taken by a
    field of the scheduler state; [task] is [None] for [NULL]. *)
Record thread_pool : Type := mk_thread_pool {
  num_threads : Z;
  executed_tasks_per_thread : Z -> Z;
  pool_running : Z -> Z;
  wake_up : Z;
  shutdown : Z;
  task : option work_t;
  workers : Z -> worker_pc;
  dispatcher : dispatch_pc
}.

Definition set_worker (id : Z) (pc : worker_pc) (running_flag : Z -> Z)
    (pool : thread_pool) : thread_pool :=
  mk_thread_pool (num_threads pool) (executed_tasks_per_thread pool) running_flag
    (wake_up pool) (shutdown pool) (task pool)
    (fun x => if x =? id then pc else workers pool x) (dispatcher pool).

Definition set_executed (executed : Z -> Z) (pool : thread_pool) : thread_pool :=
  mk_thread_pool (num_threads pool) executed (pool_running pool)
    (wake_up pool) (shutdown pool) (task pool) (workers pool) (dispatcher pool).

Definition set_task (todo : option work_t) (wake : Z) (pool : thread_pool)
  : thread_pool :=
  mk_thread_pool (num_threads pool) (executed_tasks_per_thread pool)
    (pool_running pool) wake (shutdown pool) todo (workers pool) (dispatcher pool).

Definition set_dispatcher (pc : dispatch_pc) (pool : thread_pool) : thread_pool :=
  mk_thread_pool (num_threads pool) (executed_tasks_per_thread pool)
    (pool_running pool) (wake_up pool) (shutdown pool) (task pool) (workers pool) pc.

Definition set_shutdown (flag : Z) (pool : thread_pool) : thread_pool :=
  mk_thread_pool (num_threads pool) (executed_tasks_per_thread pool)
    (pool_running pool) (wake_up pool) flag (task pool) (workers pool)
    (dispatcher pool).

(** [create_thread_pool]: [None] is the [NULL] it returns.  The arrays and
    [pool->task] come from [malloc] and are not initialised here: their
    contents are the arguments [executed], [flags] and [todo]. *)
Definition create_thread_pool (num_threads_in_pool : Z) (executed flags : Z -> Z)
    (todo : option work_t) : option thread_pool :=
  if (num_threads_in_pool <=? 0) || (num_threads_in_pool >? MAXT_IN_POOL) then None
  else Some (mk_thread_pool num_threads_in_pool executed flags 0 0 todo
               (fun _ => w_start) d_idle).

(** What a step lets the outside see. *)
Inductive pool_action : Type :=
  | act_posted (todo : work_t)             (* [dispatch] has published the task *)
  | act_taken (id : Z) (todo : work_t)     (* a worker has taken it *)
  | act_returned                           (* [dispatch] has returned 0 *)
  | act_finished (id : Z) (todo : work_t). (* the routine has returned *)

(** [_do_work], the inner [while (pool->wake_up == 0)] entered with the
    lock held, up to the unlock: the worker goes to wait, exits on a
    shutdown, or takes the task and acknowledges it.  [None]: the task
    pointer it would call through is [NULL]. *)
Definition wait_or_take (id : Z) (running_flag : Z -> Z) (pool : thread_pool)
  : option (thread_pool * list pool_action) :=
  if wake_up pool =? 0 then
    let flags := array_update running_flag id 0 in
    if negb (shutdown pool =? 0)
    then Some (set_worker id w_exit flags pool, [])
    else Some (set_worker id w_wait flags pool, [])
  else
    match task pool with
    | None => None
    | Some todo =>
        Some (set_worker id (w_work todo) running_flag (set_task None 0 pool),
              [act_taken id todo])
    end.

Inductive pool_event : Type :=
  | pe_start (id : Z)        (* the initialisations at the top of [_do_work] *)
  | pe_lock (id : Z)         (* lock at the top of the outer loop *)
  | pe_wake (id : Z)         (* return from the wait on [cond] *)
  | pe_finish (id : Z)       (* the routine returns *)
  | pe_dispatch (todo : work_t)  (* [dispatch] up to its wait on [ack] *)
  | pe_ack                   (* return from the wait on [ack] *)
  | pe_destroy.              (* [destroy_threadpool] up to its unlock *)

(** [None]: the thread is not at that position, or undefined behaviour. *)
Definition pool_step (e : pool_event) (pool : thread_pool)
  : option (thread_pool * list pool_action) :=
  match e with
  | pe_start id =>
      if (0 <=? id) && (id <? num_threads pool) then
        match workers pool id with
        | w_start =>
            Some (set_worker id w_lock (array_update (pool_running pool) id 0)
                    (set_executed
                       (array_update (executed_tasks_per_thread pool) id 0) pool),
                  [])
        | _ => None
        end
      else None
  | pe_lock id =>
      if (0 <=? id) && (id <? num_threads pool) then
        match workers pool id with
        | w_lock => wait_or_take id (pool_running pool) pool
        | _ => None
        end
      else None
  | pe_wake id =>
      if (0 <=? id) && (id <? num_threads pool) then
        match workers pool id with
        | w_wait => wait_or_take id (array_update (pool_running pool) id 1) pool
        | _ => None
        end
      else None
  | pe_finish id =>
      if (0 <=? id) && (id <? num_threads pool) then
        match workers pool id with
        | w_work todo =>
            Some (set_worker id w_lock (pool_running pool)
                    (set_executed
                       (array_update (executed_tasks_per_thread pool) id
                          (executed_tasks_per_thread pool id + 1)) pool),
                  [act_finished id todo])
        | _ => None
        end
      else None
  | pe_dispatch todo =>
      match dispatcher pool with
      | d_idle => Some (set_dispatcher d_wait (set_task (Some todo) 1 pool),
                        [act_posted todo])
      | d_wait => None
      end
  | pe_ack =>
      match dispatcher pool with
      | d_wait =>
          if wake_up pool =? 1 then Some (pool, [])
          else Some (set_dispatcher d_idle pool, [act_returned])
      | d_idle => None
      end
  | pe_destroy => Some (set_shutdown 1 pool, [])
  end.

Fixpoint pool_run (es : list pool_event) (pool : thread_pool)
  : option (thread_pool * list pool_action) :=
  match es with
  | [] => Some (pool, [])
  | e :: rest =>
      match pool_step e pool with
      | None => None
      | Some (pool1, acts1) =>
          match pool_run rest pool1 with
          | None => None
          | Some (pool2, acts2) => Some (pool2, acts1 ++ acts2)
          end
      end
  end.

(** The tasks published by [dispatch] and the tasks taken by the workers,
    in order. *)
Definition tasks_posted (acts : list pool_action) : list work_t :=
  flat_map (fun a => match a with act_posted todo => [todo] | _ => [] end) acts.

Definition tasks_taken (acts : list pool_action) : list work_t :=
  flat_map (fun a => match a with act_taken _ todo => [todo] | _ => [] end) acts.

(** The task published and not taken yet. *)
Definition task_waiting (pool : thread_pool) : list work_t :=
  if wake_up pool =? 0 then []
  else match task pool with
       | Some todo => [todo]
       | None => []
       end.

(** [posted] and [taken] are the tasks published and taken before the
    pool reached this state. *)
Definition handoff_ok (posted taken : list work_t) (pool : thread_pool) : Prop :=
  (wake_up pool = 0 \/ wake_up pool = 1) /\
  (wake_up pool = 1 -> task pool <> None /\ dispatcher pool = d_wait) /\
  posted = taken ++ task_waiting pool.

(** [isdone]: the loop [for (i = 0; i < pool->num_threads; i++)], with
    [count] iterations still to run from index [i]. *)
Fixpoint isdone_from (count : nat) (i : Z) (pool : thread_pool) : Z :=
  match count with
  | O => 1
  | S count' => if pool_running pool i >? 0 then 0 else isdone_from count' (i + 1) pool
  end.

Definition isdone (pool : thread_pool) : Z :=
  isdone_from (Z.to_nat (num_threads pool)) 0 pool.

(** A pool of two workers in which worker 0 has started, gone to wait,
    and taken a first task on waking, and a second task has just been
    published. *)
Definition sample_pool : thread_pool :=
  mk_thread_pool 2 (fun _ => 0) (fun _ => 7) 0 0 None (fun _ => w_start) d_idle.

Definition sample_pool_events : list pool_event :=
  [pe_start 0; pe_lock 0; pe_dispatch (mk_work 100 1); pe_wake 0; pe_ack;
   pe_dispatch (mk_work 100 2)].

Definition sample_pool_state : thread_pool :=
  match pool_run sample_pool_events sample_pool with
  | Some (pool, _) => pool
  | None => sample_pool
  end.

Definition sample_pool_actions : list pool_action :=
  [act_posted (mk_work 100 1); act_taken 0 (mk_work 100 1); act_returned;
   act_posted (mk_work 100 2)].

(** A worker blocked in its wait, or gone, is not counted as running. *)
Definition flags_ok (pool : thread_pool) : Prop :=
  forall id, workers pool id = w_wait \/ workers pool id = w_exit ->
             pool_running pool id = 0.

(** A pool of one worker that has started and finds a task published the
    first time it locks. *)
Definition sample_single_pool : thread_pool :=
  mk_thread_pool 1 (fun _ => 0) (fun _ => 7) 0 0 None (fun _ => w_start) d_idle.

Definition sample_unwaited_pool : thread_pool :=
  match pool_run [pe_start 0; pe_dispatch (mk_work 100 1)] sample_single_pool with
  | Some (pool, _) => pool
  | None => sample_single_pool
  end.

(* ================================================================== *)
(** * Part II. Properties                                              *)
(* ================================================================== *)

(** ** Timespec helpers *)

Lemma greater_than_timespec_spec (a b : timespec) :
  greater_than_timespec a b = true <-> timespec_lt b a.
Proof.
  unfold greater_than_timespec, timespec_lt.
  destruct (Z.eqb_spec (tv_sec a) (tv_sec b)) as [E | E].
  - rewrite Z.gtb_lt. lia.
  - rewrite Z.gtb_lt. lia.
Qed.

Lemma less_than_timespec_spec (a b : timespec) :
  less_than_timespec a b = true <-> timespec_lt a b.
Proof.
  unfold less_than_timespec, timespec_lt.
  destruct (Z.eqb_spec (tv_sec a) (tv_sec b)) as [E | E].
  - rewrite Z.ltb_lt. lia.
  - rewrite Z.ltb_lt. lia.
Qed.

Lemma equal_to_timespec_spec (a b : timespec) :
  equal_to_timespec a b = true <-> a = b.
Proof.
  unfold equal_to_timespec. destruct a as [sa na], b as [sb nb]; simpl.
  destruct (Z.eqb_spec sa sb) as [E | E], (Z.eqb_spec na nb) as [F | F]; simpl;
    split; intros H; try discriminate; try congruence.
Qed.

(** The sum in nanoseconds is exact whatever the carry. *)
Lemma add_timespec_ns (a b : timespec) :
  timespec_ns (add_timespec a b) = timespec_ns a + timespec_ns b.
Proof.
  unfold add_timespec, timespec_ns.
  destruct (tv_nsec a + tv_nsec b >? NS_PER_SECOND); simpl; lia.
Qed.

(** The result is in normal form unless the nanoseconds add up to exactly
    one second. *)
Lemma add_timespec_normalized (a b : timespec) :
  normalized a -> normalized b ->
  tv_nsec a + tv_nsec b <> NS_PER_SECOND ->
  normalized (add_timespec a b).
Proof.
  unfold normalized, add_timespec. intros Ha Hb Hne.
  destruct (Z.gtb_spec (tv_nsec a + tv_nsec b) NS_PER_SECOND); simpl; lia.
Qed.

(** C10, at the failing input: two half seconds.  Both arguments are in
    normal form and the nanosecond total is exact, but the result keeps
    [tv_nsec = NS_PER_SECOND], outside [[0, NS_PER_SECOND)]: the carry test
    is [>] where [update_timer_ms] has [>=]. *)
Theorem add_timespec_half_seconds :
  let a := mk_timespec 0 500000000 in
  let b := mk_timespec 0 500000000 in
  normalized a /\ normalized b /\
  add_timespec a b = mk_timespec 0 NS_PER_SECOND /\
  timespec_ns (add_timespec a b) = timespec_ns a + timespec_ns b /\
  ~ normalized (add_timespec a b).
Proof.
  cbv zeta. unfold normalized. simpl.
  repeat split; try reflexivity; unfold NS_PER_SECOND; lia.
Qed.

(** ** The kernel queue *)

Lemma dequeue_nonempty (q : queue) (d tmp : kernel_data) (next : list kernel_data) :
  nodes q = tmp :: next ->
  dequeue q d = (0, mk_queue next (size q - 1), tmp).
Proof. intros H. unfold dequeue. rewrite H. reflexivity. Qed.

(** C9, what the code does: on a non-empty queue [dequeue_from] at position
    0 returns 0, unlinks the head and stores its data exactly as [dequeue]
    does, but [size] is decremented twice (once inside [dequeue], once at
    the end of [dequeue_from]), so it ends one below the [size] that
    [dequeue] leaves. *)
Theorem dequeue_from_head_size (q : queue) (d : kernel_data) :
  nodes q <> [] ->
  exists tmp next,
    nodes q = tmp :: next /\
    dequeue q d = (0, mk_queue next (size q - 1), tmp) /\
    dequeue_from q 0 d = Some (0, mk_queue next (size q - 2), tmp).
Proof.
  intros Hne. destruct (nodes q) as [| tmp next] eqn:E; [congruence |].
  exists tmp, next. split; [reflexivity |].
  split; [apply dequeue_nonempty; exact E |].
  unfold dequeue_from. rewrite E. simpl.
  rewrite (dequeue_nonempty q d tmp next E). simpl.
  f_equal. f_equal. f_equal. f_equal. lia.
Qed.

Lemma dequeue_from_head_size_witness :
  let q := mk_queue [sample_kernel 0 1] 1 in
  nodes q <> [] /\
  exists tmp next,
    nodes q = tmp :: next /\
    dequeue q (sample_kernel 5 2) = (0, mk_queue next (size q - 1), tmp) /\
    dequeue_from q 0 (sample_kernel 5 2) = Some (0, mk_queue next (size q - 2), tmp).
Proof.
  cbv zeta. split; [simpl; discriminate |].
  apply (dequeue_from_head_size (mk_queue [sample_kernel 0 1] 1) (sample_kernel 5 2)).
  simpl; discriminate.
Defined.

(** On a one-element queue whose [size] is right, position 0 leaves an empty
    queue with [size = -1]. *)
Lemma dequeue_from_singleton :
  dequeue_from (mk_queue [sample_kernel 0 1] 1) 0 (sample_kernel 5 2)
  = Some (0, mk_queue [] (-1), sample_kernel 0 1).
Proof. reflexivity. Qed.

(** The [do ... while] against the reference scan, for a table whose
    entries at the labels in the chain are 0 or 1. *)
Lemma scan_rest_refines (free_slots : Z) (dup : Z -> Z) (next : list kernel_data) :
  (forall k, In k next -> dup (kernel_label k) = 0 \/ dup (kernel_label k) = 1) ->
  forall prev,
    scan_rest free_slots dup prev next =
    match scan_and_remove_first_executable free_slots dup next with
    | None => None
    | Some (found, rest1) => Some (found, prev :: rest1)
    end.
Proof.
  induction next as [| tmp after IH]; intros Hdup prev; simpl; [reflexivity |].
  assert (Ht : dup (kernel_label tmp) = 0 \/ dup (kernel_label tmp) = 1)
    by (apply Hdup; left; reflexivity).
  assert (Hcond : (cu tmp >? free_slots) || (dup (kernel_label tmp) =? 1)
                  = negb (executable free_slots dup tmp)).
  { unfold executable. rewrite Z.gtb_ltb, Z.leb_antisym.
    destruct Ht as [Ht | Ht]; rewrite Ht; simpl;
      destruct (free_slots <? cu tmp); reflexivity. }
  rewrite Hcond. destruct (executable free_slots dup tmp); simpl; [reflexivity |].
  rewrite IH by (intros k Hk; apply Hdup; right; exact Hk).
  destruct (scan_and_remove_first_executable free_slots dup after) as [[found rest1] |];
    reflexivity.
Qed.

(** With a 0/1 duplication table (the only tables the queue manager ever
    passes) the function is the reference scan. *)
Lemma dequeue_first_executable_kernel_refines
    (q : queue) (free_slots : Z) (dup : Z -> Z) (d : kernel_data) :
  (forall k, In k (nodes q) -> dup (kernel_label k) = 0 \/ dup (kernel_label k) = 1) ->
  dequeue_first_executable_kernel q free_slots dup d =
  match scan_and_remove_first_executable free_slots dup (nodes q) with
  | None => (-1, q, d)
  | Some (found, rest) => (0, mk_queue rest (size q - 1), found)
  end.
Proof.
  intros Hdup. unfold dequeue_first_executable_kernel.
  destruct (nodes q) as [| tmp next] eqn:E; simpl; [reflexivity |].
  fold (executable free_slots dup tmp).
  destruct (executable free_slots dup tmp); [reflexivity |].
  rewrite scan_rest_refines by (intros k Hk; apply Hdup; right; exact Hk).
  destruct (scan_and_remove_first_executable free_slots dup next) as [[found rest1] |];
    reflexivity.
Qed.

(** C1, at the failing input: two pending records of width 1, one free
    slot, and a table that counts one running kernel of label 0 and two of
    label 1.  No record is executable (the reference scan finds none), yet
    the function returns 0 and removes the second record, whose table entry
    is 2: the loop past the head tests [== 1] where the head tests
    [== 0]. *)
Theorem dequeue_first_executable_kernel_count_two :
  let q := mk_queue [sample_kernel 0 1; sample_kernel 1 1] 2 in
  let dup := fun label => if label =? 0 then 1 else if label =? 1 then 2 else 0 in
  scan_and_remove_first_executable 1 dup (nodes q) = None /\
  dequeue_first_executable_kernel q 1 dup (sample_kernel 5 2)
  = (0, mk_queue [sample_kernel 0 1] 1, sample_kernel 1 1) /\
  dup (kernel_label (sample_kernel 1 1)) <> 0.
Proof.
  cbv zeta. split; [reflexivity |]. split; [reflexivity |]. simpl. discriminate.
Qed.

(** ** Monitoring-window attribution *)

Lemma online_cloud_bytes_app (a b : list online_item) :
  online_cloud_bytes (a ++ b) = online_cloud_bytes a + online_cloud_bytes b.
Proof.
  induction a as [| x a IH]; cbn [app online_cloud_bytes]; lia.
Qed.

Lemma sizeof_item_bounds (x : online_item) : 4 <= sizeof_item x <= 48.
Proof.
  destruct x; unfold sizeof_item, sizeof_monitor_data, sizeof_int, sizeof_online_data;
    lia.
Qed.

Lemma online_cloud_bytes_nonneg (buf : list online_item) :
  0 <= online_cloud_bytes buf.
Proof.
  induction buf as [| x buf IH]; cbn [online_cloud_bytes]; [lia |].
  pose proof (sizeof_item_bounds x). lia.
Qed.

Lemma copy_item_spec (buf : list online_item) (x : online_item) :
  copy_item buf x
  = if online_cloud_bytes (buf ++ [x]) <=? ONLINE_FILE_SIZE
    then Some (buf ++ [x]) else None.
Proof.
  unfold copy_item. rewrite online_cloud_bytes_app. cbn [online_cloud_bytes].
  rewrite Z.add_0_r. reflexivity.
Qed.

Section OnlineProcessing.

Variable mem : kernel_ptr -> kernel_data.
Variable w : monitor_data.

Lemma last_cons (r kernel_tmp : kernel_ptr) (l : list kernel_ptr) :
  last (r :: l) kernel_tmp = last l r.
Proof.
  revert r kernel_tmp. induction l as [| x l IHl]; intros r kernel_tmp; [reflexivity |].
  change (last (r :: x :: l) kernel_tmp) with (last (x :: l) kernel_tmp).
  rewrite (IHl x kernel_tmp), (IHl x r). reflexivity.
Qed.

(** The two copies of a written record: the mark, then the snapshot. *)
Lemma copy_kernel_output (r : kernel_ptr) (buf : list online_item) :
  online_cloud_bytes buf <= ONLINE_FILE_SIZE ->
  (if written mem w r
   then match copy_item buf (item_mark 1) with
        | None => None
        | Some buf1 => copy_item buf1 (item_kernel (snapshot mem r))
        end
   else Some buf)
  = if online_cloud_bytes (buf ++ kernel_output mem w r) <=? ONLINE_FILE_SIZE
    then Some (buf ++ kernel_output mem w r) else None.
Proof.
  intros Hbuf. unfold kernel_output. destruct (written mem w r).
  - rewrite copy_item_spec.
    rewrite !online_cloud_bytes_app. cbn [online_cloud_bytes sizeof_item].
    destruct (Z.leb_spec (online_cloud_bytes buf + (sizeof_int + 0)) ONLINE_FILE_SIZE)
      as [Hm | Hm].
    + rewrite copy_item_spec. rewrite <- app_assoc. cbn [app].
      rewrite online_cloud_bytes_app. cbn [online_cloud_bytes sizeof_item].
      reflexivity.
    + destruct (Z.leb_spec
                  (online_cloud_bytes buf + (sizeof_int + (sizeof_online_data + 0)))
                  ONLINE_FILE_SIZE) as [Hk | Hk]; [| reflexivity].
      unfold sizeof_online_data in Hk. lia.
  - rewrite app_nil_r.
    destruct (Z.leb_spec (online_cloud_bytes buf) ONLINE_FILE_SIZE); [reflexivity | lia].
Qed.

Lemma process_kernel_spec (r : kernel_ptr) (rest : list kernel_ptr) (sz : Z)
    (kernel_tmp : kernel_ptr) (buf : list online_item) :
  online_cloud_bytes buf <= ONLINE_FILE_SIZE ->
  process_kernel mem w kernel_tmp (mk_queue_online (r :: rest) sz) buf
  = if online_cloud_bytes (buf ++ kernel_output mem w r) <=? ONLINE_FILE_SIZE
    then Some (r,
               (if kept mem w r
                then mk_queue_online (rest ++ [r]) (sz - 1 + 1)
                else mk_queue_online rest (sz - 1)),
               buf ++ kernel_output mem w r)
    else None.
Proof.
  intros Hbuf. unfold process_kernel, dequeue_online.
  cbn [nodes_online size_online]. cbn [Z.ltb Z.compare].
  fold (written mem w r). fold (kept mem w r). fold (snapshot mem r).
  rewrite (copy_kernel_output r buf Hbuf).
  destruct (online_cloud_bytes (buf ++ kernel_output mem w r) <=? ONLINE_FILE_SIZE);
    [| reflexivity].
  destruct (kept mem w r); reflexivity.
Qed.

(** The [cont] loop over the nodes [l] present when the size was read;
    [extra] are the pointers already put back behind them. *)
Lemma process_kernels_spec (l : list kernel_ptr) :
  forall (extra : list kernel_ptr) (sz : Z) (kernel_tmp : kernel_ptr)
         (buf : list online_item),
    online_cloud_bytes buf <= ONLINE_FILE_SIZE ->
    process_kernels (length l) mem w kernel_tmp
      (mk_queue_online (l ++ extra) sz) buf
    = if online_cloud_bytes (buf ++ flat_map (kernel_output mem w) l)
         <=? ONLINE_FILE_SIZE
      then Some (last l kernel_tmp,
                 mk_queue_online (extra ++ filter (kept mem w) l)
                   (sz - Z.of_nat (length l)
                    + Z.of_nat (length (filter (kept mem w) l))),
                 buf ++ flat_map (kernel_output mem w) l)
      else None.
Proof.
  induction l as [| r l IH]; intros extra sz kernel_tmp buf Hbuf.
  - cbn [length process_kernels flat_map filter last app]. rewrite !app_nil_r.
    destruct (Z.leb_spec (online_cloud_bytes buf) ONLINE_FILE_SIZE); [| lia].
    replace (sz - Z.of_nat 0 + Z.of_nat 0) with sz by lia. reflexivity.
  - cbn [length process_kernels app]. rewrite (process_kernel_spec r _ sz _ buf Hbuf).
    rewrite last_cons. cbn [flat_map filter]. rewrite app_assoc.
    pose proof (online_cloud_bytes_nonneg (flat_map (kernel_output mem w) l)) as Hpos.
    destruct (Z.leb_spec (online_cloud_bytes (buf ++ kernel_output mem w r))
                ONLINE_FILE_SIZE) as [Hr | Hr].
    + destruct (kept mem w r) eqn:Ek.
      * rewrite <- app_assoc. rewrite (IH (extra ++ [r]) _ _ _ Hr).
        destruct (online_cloud_bytes
                    ((buf ++ kernel_output mem w r) ++ flat_map (kernel_output mem w) l)
                  <=? ONLINE_FILE_SIZE); [| reflexivity].
        rewrite <- !app_assoc. cbn [app length].
        match goal with
        | |- Some (_, mk_queue_online _ ?a, _) = Some (_, mk_queue_online _ ?b, _) =>
            replace a with b by lia
        end.
        reflexivity.
      * rewrite (IH extra _ _ _ Hr).
        destruct (online_cloud_bytes
                    ((buf ++ kernel_output mem w r) ++ flat_map (kernel_output mem w) l)
                  <=? ONLINE_FILE_SIZE); [| reflexivity].
        cbn [length].
        match goal with
        | |- Some (_, mk_queue_online _ ?a, _) = Some (_, mk_queue_online _ ?b, _) =>
            replace a with b by lia
        end.
        reflexivity.
    + destruct (Z.leb_spec
                  (online_cloud_bytes
                     ((buf ++ kernel_output mem w r)
                      ++ flat_map (kernel_output mem w) l))
                  ONLINE_FILE_SIZE) as [Hall | Hall]; [| reflexivity].
      rewrite online_cloud_bytes_app in Hall. lia.
Qed.

Lemma process_slot_spec (q : queue_online) (kernel_tmp : kernel_ptr)
    (buf : list online_item) :
  queue_online_ok q ->
  online_cloud_bytes buf <= ONLINE_FILE_SIZE ->
  process_slot mem w kernel_tmp q buf
  = if online_cloud_bytes (buf ++ slot_output mem w q) <=? ONLINE_FILE_SIZE
    then Some (last (nodes_online q) kernel_tmp, slot_kept mem w q,
               buf ++ slot_output mem w q)
    else None.
Proof.
  intros Hok Hbuf. unfold process_slot, get_size_queue_online.
  rewrite Hok, Nat2Z.id.
  destruct q as [l sz]. cbn [nodes_online size_online] in *.
  pose proof (process_kernels_spec l [] sz kernel_tmp buf Hbuf) as H.
  rewrite app_nil_r in H. rewrite H. clear H. cbn [app].
  unfold slot_kept, slot_output. cbn [nodes_online].
  rewrite app_assoc.
  destruct (Z.leb_spec (online_cloud_bytes (buf ++ flat_map (kernel_output mem w) l))
              ONLINE_FILE_SIZE) as [Hl | Hl].
  - rewrite copy_item_spec.
    destruct (online_cloud_bytes
                ((buf ++ flat_map (kernel_output mem w) l) ++ [item_mark 0])
              <=? ONLINE_FILE_SIZE); [| reflexivity].
    unfold queue_online_ok in Hok. cbn [nodes_online size_online] in Hok.
    match goal with
    | |- Some (_, mk_queue_online _ ?a, _) = Some (_, mk_queue_online _ ?b, _) =>
        replace a with b by lia
    end.
    reflexivity.
  - destruct (Z.leb_spec
                (online_cloud_bytes
                   ((buf ++ flat_map (kernel_output mem w) l) ++ [item_mark 0]))
                ONLINE_FILE_SIZE) as [Hall | Hall]; [| reflexivity].
    rewrite online_cloud_bytes_app in Hall.
    pose proof (online_cloud_bytes_nonneg [item_mark 0]). lia.
Qed.

Lemma process_slots_spec (online_queue : list queue_online) :
  Forall queue_online_ok online_queue ->
  forall (kernel_tmp : kernel_ptr) (buf : list online_item),
    online_cloud_bytes buf <= ONLINE_FILE_SIZE ->
    process_slots mem w kernel_tmp online_queue buf
    = if online_cloud_bytes (buf ++ flat_map (slot_output mem w) online_queue)
         <=? ONLINE_FILE_SIZE
      then Some (map (slot_kept mem w) online_queue,
                 buf ++ flat_map (slot_output mem w) online_queue)
      else None.
Proof.
  induction 1 as [| q others Hq Hothers IH]; intros kernel_tmp buf Hbuf.
  - cbn [process_slots flat_map map]. rewrite app_nil_r.
    destruct (Z.leb_spec (online_cloud_bytes buf) ONLINE_FILE_SIZE); [reflexivity | lia].
  - cbn [process_slots]. rewrite (process_slot_spec q kernel_tmp buf Hq Hbuf).
    cbn [map flat_map]. rewrite app_assoc.
    pose proof (online_cloud_bytes_nonneg (flat_map (slot_output mem w) others)) as Hpos.
    destruct (Z.leb_spec (online_cloud_bytes (buf ++ slot_output mem w q))
                ONLINE_FILE_SIZE) as [Hs | Hs].
    + rewrite (IH _ _ Hs).
      destruct (online_cloud_bytes
                  ((buf ++ slot_output mem w q) ++ flat_map (slot_output mem w) others)
                <=? ONLINE_FILE_SIZE); reflexivity.
    + destruct (Z.leb_spec
                  (online_cloud_bytes
                     ((buf ++ slot_output mem w q)
                      ++ flat_map (slot_output mem w) others))
                  ONLINE_FILE_SIZE) as [Hall | Hall]; [| reflexivity].
      rewrite online_cloud_bytes_app in Hall. lia.
Qed.

(** [online_processing] in closed form: the whole output when it fits the
    buffer, and a copy past the end of the buffer when it does not. *)
Lemma online_processing_spec (online_queue : list queue_online)
    (kernel_tmp : kernel_ptr) :
  Forall queue_online_ok online_queue ->
  online_processing mem w kernel_tmp online_queue
  = if online_cloud_bytes (online_output mem w online_queue) <=? ONLINE_FILE_SIZE
    then Some (0, map (slot_kept mem w) online_queue,
               online_output mem w online_queue)
    else None.
Proof.
  intros Hok. unfold online_processing, online_output.
  change (copy_item [] (item_window w)) with (Some [item_window w]).
  cbv beta iota.
  change (copy_item [item_window w] (item_mark NUM_SLOTS))
    with (Some [item_window w; item_mark NUM_SLOTS]).
  cbv beta iota.
  rewrite (process_slots_spec online_queue Hok);
    [| cbn [online_cloud_bytes sizeof_item];
       unfold sizeof_monitor_data, sizeof_int, ONLINE_FILE_SIZE; lia].
  destruct (online_cloud_bytes
              ([item_window w; item_mark NUM_SLOTS]
               ++ flat_map (slot_output mem w) online_queue)
            <=? ONLINE_FILE_SIZE); reflexivity.
Qed.

(** The bytes of a window: 52 of the header, 4 per slot, 44 per written
    record. *)
Lemma online_cloud_bytes_kernels (l : list kernel_ptr) :
  online_cloud_bytes (flat_map (kernel_output mem w) l)
  = (sizeof_int + sizeof_online_data)
    * Z.of_nat (length (filter (written mem w) l)).
Proof.
  induction l as [| r l IH]; [reflexivity |].
  cbn [flat_map filter]. rewrite online_cloud_bytes_app, IH.
  unfold kernel_output. destruct (written mem w r).
  - cbn [online_cloud_bytes sizeof_item length]. lia.
  - cbn [online_cloud_bytes]. lia.
Qed.

Lemma online_cloud_bytes_output (online_queue : list queue_online) :
  online_cloud_bytes (online_output mem w online_queue)
  = sizeof_monitor_data + sizeof_int
    + sizeof_int * Z.of_nat (length online_queue)
    + (sizeof_int + sizeof_online_data) * written_count mem w online_queue.
Proof.
  unfold online_output, written_count. rewrite online_cloud_bytes_app.
  cbn [online_cloud_bytes sizeof_item].
  assert (H : online_cloud_bytes (flat_map (slot_output mem w) online_queue)
              = sizeof_int * Z.of_nat (length online_queue)
                + (sizeof_int + sizeof_online_data)
                  * sum_Z (map (fun q => Z.of_nat
                                  (length (filter (written mem w) (nodes_online q))))
                             online_queue)).
  { induction online_queue as [| q others IH]; [reflexivity |].
    cbn [flat_map map length]. unfold sum_Z in *. cbn [fold_right].
    rewrite online_cloud_bytes_app, IH. unfold slot_output.
    rewrite online_cloud_bytes_app, online_cloud_bytes_kernels.
    cbn [online_cloud_bytes sizeof_item]. lia. }
  rewrite H. lia.
Qed.

(** A kernel snapshot is in the buffer exactly when some queued pointer
    with that snapshot was decided to be written. *)
Lemma item_kernel_in_output (online_queue : list queue_online) (k : online_data) :
  In (item_kernel k) (online_output mem w online_queue)
  <-> exists q r, In q online_queue /\ In r (nodes_online q) /\
                  written mem w r = true /\ snapshot mem r = k.
Proof.
  unfold online_output. split.
  - intros [H | [H | H]]; try discriminate.
    apply in_flat_map in H. destruct H as (q & Hq & H).
    unfold slot_output in H. apply in_app_or in H.
    destruct H as [H | [H | []]]; [| discriminate].
    apply in_flat_map in H. destruct H as (r & Hr & H).
    unfold kernel_output in H.
    destruct (written mem w r) eqn:Ew; [| destruct H].
    destruct H as [H | [H | []]]; [discriminate |].
    exists q, r. repeat split; try assumption. congruence.
  - intros (q & r & Hq & Hr & Ew & Hk).
    right. right. apply in_flat_map. exists q. split; [exact Hq |].
    unfold slot_output. apply in_or_app. left.
    apply in_flat_map. exists r. split; [exact Hr |].
    unfold kernel_output. rewrite Ew. right. left. congruence.
Qed.

Lemma written_spec (r : kernel_ptr) :
  written mem w r = true <->
  timespec_lt (measured_starting_time w) (measured_finish_time (mem r)) /\
  timespec_lt (measured_arrival_time (mem r)) (window_measured_finish_time w).
Proof.
  unfold written, write_decision.
  rewrite andb_true_iff, greater_than_timespec_spec, less_than_timespec_spec.
  reflexivity.
Qed.

Lemma kept_spec (r : kernel_ptr) :
  kept mem w r = true <->
  timespec_lt (window_measured_finish_time w) (measured_finish_time (mem r)) \/
  measured_arrival_time (mem r) = measured_finish_time (mem r).
Proof.
  unfold kept, keep_decision.
  rewrite orb_true_iff, greater_than_timespec_spec, equal_to_timespec_spec.
  reflexivity.
Qed.

(** A record still at the producer's initialisation is kept and not
    written, whatever the window (its bounds are [long] values). *)
Lemma sentinel_decisions (r : kernel_ptr) :
  measured_arrival_time (mem r) = sentinel ->
  measured_finish_time (mem r) = sentinel ->
  tv_sec (window_measured_finish_time w) <= LONG_MAX ->
  tv_nsec (window_measured_finish_time w) <= LONG_MAX ->
  kept mem w r = true /\ written mem w r = false.
Proof.
  intros Ha Hf Hs Hn. split.
  - apply kept_spec. right. congruence.
  - destruct (written mem w r) eqn:E; [| reflexivity].
    apply written_spec in E. destruct E as [_ E].
    rewrite Ha in E. unfold timespec_lt, sentinel in E. simpl in E. lia.
Qed.

End OnlineProcessing.

(** C2, what the code does: for slot queues whose size field counts
    their nodes, [online_processing] has to copy 52 bytes for the window
    and the number of slots, 4 bytes per slot and 44 bytes per record whose
    snapshot it writes.  When these bytes fit the [ONLINE_FILE_SIZE] bytes of the
    buffer it returns 0, and for every pointer [r] it took from a slot's
    queue the buffer holds [r]'s snapshot (label, arrival, finish) if and
    only if the window start is lexicographically below [r]'s finish time
    and [r]'s arrival time is lexicographically below the window finish.
    When they do not fit, which is so from 45 written snapshots on with 8
    slots, a copy runs past the end of the buffer. *)
Theorem online_processing_writes_overlapping
    (mem : kernel_ptr -> kernel_data) (w : monitor_data)
    (kernel_tmp : kernel_ptr) (online_queue : list queue_online) :
  Forall queue_online_ok online_queue ->
  exists online_queue1 buf,
    online_cloud_bytes buf
    = sizeof_monitor_data + sizeof_int
      + sizeof_int * Z.of_nat (length online_queue)
      + (sizeof_int + sizeof_online_data) * written_count mem w online_queue /\
    online_processing mem w kernel_tmp online_queue
    = (if online_cloud_bytes buf <=? ONLINE_FILE_SIZE
       then Some (0, online_queue1, buf)
       else None) /\
    forall q r, In q online_queue -> In r (nodes_online q) ->
      (In (item_kernel (snapshot mem r)) buf <->
       timespec_lt (measured_starting_time w) (measured_finish_time (mem r)) /\
       timespec_lt (measured_arrival_time (mem r)) (window_measured_finish_time w)).
Proof.
  intros Hok.
  exists (map (slot_kept mem w) online_queue), (online_output mem w online_queue).
  split; [apply online_cloud_bytes_output |].
  split; [apply online_processing_spec; exact Hok |].
  intros q r Hq Hr. rewrite item_kernel_in_output. split.
  - intros (q' & r' & _ & _ & Hw & Hs).
    apply written_spec in Hw. unfold snapshot in Hs.
    injection Hs as _ Ha Hf. rewrite <- Ha, <- Hf. exact Hw.
  - intros H. exists q, r. repeat split; try assumption.
    apply written_spec. exact H.
Qed.

(** Six kernels of width 8 within one window: 48 snapshots, 2196 bytes. *)
Lemma online_processing_writes_overlapping_witness :
  Forall queue_online_ok overrun_online_queue /\
  written_count overrun_mem sample_window overrun_online_queue = 48 /\
  online_processing overrun_mem sample_window 7%nat overrun_online_queue = None.
Proof.
  assert (Hok : Forall queue_online_ok overrun_online_queue)
    by (repeat constructor).
  assert (Hcount : written_count overrun_mem sample_window overrun_online_queue = 48)
    by (vm_compute; reflexivity).
  split; [exact Hok |]. split; [exact Hcount |].
  destruct (online_processing_writes_overlapping overrun_mem sample_window 7%nat
              overrun_online_queue Hok) as (online_queue1 & buf & Hbytes & Hrun & _).
  rewrite Hrun, Hbytes, Hcount. reflexivity.
Defined.

(** The run on the sample: only record 1 is written (once per slot), and
    records 0 and 1 stay queued. *)
Lemma online_processing_sample :
  online_processing sample_mem sample_window 7%nat sample_online_queue
  = Some (0,
          [mk_queue_online [0%nat; 1%nat] 2; mk_queue_online [1%nat] 1],
          [item_window sample_window; item_mark 8;
           item_mark 1; item_kernel (snapshot sample_mem 1%nat); item_mark 0;
           item_mark 1; item_kernel (snapshot sample_mem 1%nat); item_mark 0]).
Proof. vm_compute. reflexivity. Qed.

(** With 44 snapshots to write the 2020 bytes of the window fit the
    buffer; the 45th snapshot does not. *)
Lemma online_processing_capacity
    (mem : kernel_ptr -> kernel_data) (w : monitor_data)
    (kernel_tmp : kernel_ptr) (online_queue : list queue_online) :
  Forall queue_online_ok online_queue ->
  length online_queue = Z.to_nat NUM_SLOTS ->
  (online_processing mem w kernel_tmp online_queue <> None
   <-> written_count mem w online_queue <= 44).
Proof.
  intros Hok Hlen. rewrite (online_processing_spec mem w online_queue kernel_tmp Hok).
  rewrite online_cloud_bytes_output, Hlen.
  unfold sizeof_monitor_data, sizeof_int, sizeof_online_data, ONLINE_FILE_SIZE.
  change (Z.of_nat (Z.to_nat NUM_SLOTS)) with 8.
  destruct (Z.leb_spec (48 + 4 + 4 * 8 + (4 + 40) * written_count mem w online_queue)
              (2 * 1024)) as [H | H].
  - split; [intros _; lia | intros _; discriminate].
  - split; [intros Hn; contradiction Hn; reflexivity | intros Hc; lia].
Qed.

(** C3, what the code does: for slot queues whose size field counts
    their nodes and a window whose finish is a pair of [long] values,
    [online_processing], when the bytes it has to copy fit the
    [ONLINE_FILE_SIZE] bytes of the buffer, leaves in each slot's queue,
    in their former order, exactly the pointers [r] it held whose finish
    time is lexicographically above the window finish or whose arrival
    and finish times are equal; a record whose two times are still the
    producer's [(LONG_MAX, LONG_MAX)] is among them, and its snapshot is
    not in the buffer.  When the bytes do not fit, a copy runs past the end
    of the buffer and no queue is returned. *)
Theorem online_processing_keeps_unfinished
    (mem : kernel_ptr -> kernel_data) (w : monitor_data)
    (kernel_tmp : kernel_ptr) (online_queue : list queue_online) :
  Forall queue_online_ok online_queue ->
  tv_sec (window_measured_finish_time w) <= LONG_MAX ->
  tv_nsec (window_measured_finish_time w) <= LONG_MAX ->
  exists buf,
    online_cloud_bytes buf
    = sizeof_monitor_data + sizeof_int
      + sizeof_int * Z.of_nat (length online_queue)
      + (sizeof_int + sizeof_online_data) * written_count mem w online_queue /\
    online_processing mem w kernel_tmp online_queue
    = (if online_cloud_bytes buf <=? ONLINE_FILE_SIZE
       then Some (0, map (slot_kept mem w) online_queue, buf)
       else None) /\
    (forall q, queue_online_ok (slot_kept mem w q) /\
               nodes_online (slot_kept mem w q)
               = filter (kept mem w) (nodes_online q)) /\
    (forall q r,
        In r (nodes_online (slot_kept mem w q)) <->
        In r (nodes_online q) /\
        (timespec_lt (window_measured_finish_time w) (measured_finish_time (mem r)) \/
         measured_arrival_time (mem r) = measured_finish_time (mem r))) /\
    (forall q r,
        In q online_queue -> In r (nodes_online q) ->
        measured_arrival_time (mem r) = sentinel ->
        measured_finish_time (mem r) = sentinel ->
        In r (nodes_online (slot_kept mem w q)) /\
        ~ In (item_kernel (snapshot mem r)) buf).
Proof.
  intros Hok Hs Hn. exists (online_output mem w online_queue).
  split; [apply online_cloud_bytes_output |].
  split; [apply online_processing_spec; exact Hok |].
  split; [intros q; split; reflexivity |].
  assert (Hin : forall q r,
             In r (nodes_online (slot_kept mem w q)) <->
             In r (nodes_online q) /\ kept mem w r = true).
  { intros q r. unfold slot_kept. cbn [nodes_online]. apply filter_In. }
  split.
  - intros q r. rewrite Hin, kept_spec. reflexivity.
  - intros q r Hq Hr Ha Hf.
    destruct (sentinel_decisions mem w r Ha Hf Hs Hn) as [Hk Hw].
    split; [apply Hin; split; assumption |].
    rewrite item_kernel_in_output. intros (q' & r' & _ & _ & Hw' & Hsnap).
    apply written_spec in Hw'. unfold snapshot in Hsnap.
    injection Hsnap as _ Ha' Hf'. rewrite Ha', Hf' in Hw'.
    apply written_spec in Hw'. congruence.
Qed.

(** The same six kernels with a seventh, not started yet, queued on slot
    0: the 48 snapshots do not fit, and the call does not return the queue
    with the seventh kernel. *)
Lemma online_processing_keeps_unfinished_witness :
  Forall queue_online_ok overrun_pending_queue /\
  tv_sec (window_measured_finish_time sample_window) <= LONG_MAX /\
  tv_nsec (window_measured_finish_time sample_window) <= LONG_MAX /\
  In 6%nat (nodes_online (hd init_queue_online overrun_pending_queue)) /\
  measured_arrival_time (overrun_mem 6%nat) = sentinel /\
  measured_finish_time (overrun_mem 6%nat) = sentinel /\
  written_count overrun_mem sample_window overrun_pending_queue = 48 /\
  online_processing overrun_mem sample_window 7%nat overrun_pending_queue = None.
Proof.
  assert (Hok : Forall queue_online_ok overrun_pending_queue)
    by (repeat constructor).
  assert (Hs : tv_sec (window_measured_finish_time sample_window) <= LONG_MAX)
    by (cbn; unfold LONG_MAX; lia).
  assert (Hn : tv_nsec (window_measured_finish_time sample_window) <= LONG_MAX)
    by (cbn; unfold LONG_MAX; lia).
  assert (Hcount : written_count overrun_mem sample_window overrun_pending_queue = 48)
    by (vm_compute; reflexivity).
  split; [exact Hok |]. split; [exact Hs |]. split; [exact Hn |].
  split; [cbn; tauto |]. split; [reflexivity |]. split; [reflexivity |].
  split; [exact Hcount |].
  destruct (online_processing_keeps_unfinished overrun_mem sample_window 7%nat
              overrun_pending_queue Hok Hs Hn) as (buf & Hbytes & Hrun & _).
  rewrite Hrun, Hbytes, Hcount. reflexivity.
Defined.

(** ** The ring of execution-mode buffers *)

Lemma checked_int_some (z : Z) :
  - INT_MAX - 1 <= z <= INT_MAX -> checked_int z = Some z.
Proof.
  intros H. unfold checked_int.
  destruct (Z.leb_spec (- INT_MAX - 1) z); [| lia].
  destruct (Z.leb_spec z INT_MAX); [reflexivity | lia].
Qed.

Lemma checked_int_inv (z y : Z) :
  checked_int z = Some y -> y = z /\ - INT_MAX - 1 <= z <= INT_MAX.
Proof.
  unfold checked_int.
  destruct (Z.leb_spec (- INT_MAX - 1) z) as [Hlo | Hlo]; simpl; [| discriminate].
  destruct (Z.leb_spec z INT_MAX) as [Hhi | Hhi]; [| discriminate].
  intros E. injection E as <-. unfold INT_MAX in *. lia.
Qed.

Lemma execution_modes_buffers_init_inv (M power traces online : Z)
    (ret : Z) (b : execution_modes_buffers_t) (out : Z * Z * Z) :
  execution_modes_buffers_init M power traces online = Some (ret, b, out) ->
  ret = 0 /\ b = ring_at M power traces online 0 /\ out = (power, traces, online) /\
  POWER_FILE_SIZE * M <= INT_MAX.
Proof.
  unfold execution_modes_buffers_init.
  destruct (checked_int (POWER_FILE_SIZE * M)) as [p |] eqn:Ep; [| discriminate].
  destruct (checked_int (TRACES_FILE_SIZE * M)); [| discriminate].
  destruct (checked_int (ONLINE_FILE_SIZE * M)); [| discriminate].
  destruct ((power =? 0) || (traces =? 0) || (online =? 0)); [discriminate |].
  intros H. injection H as <- <- <-.
  apply checked_int_inv in Ep.
  split; [reflexivity |]. split.
  - unfold ring_at. rewrite !Z.mul_0_r, !Z.add_0_r. reflexivity.
  - split; [reflexivity | lia].
Qed.

(** One call on a ring whose cursor is in range. *)
Lemma execution_modes_buffers_toggle_step (M power traces online cursor : Z) :
  1 < M -> POWER_FILE_SIZE * M <= INT_MAX -> 0 <= cursor < M ->
  execution_modes_buffers_toggle (ring_at M power traces online cursor)
  = Some (0, ring_at M power traces online ((cursor + 1) mod M),
          (power + POWER_FILE_SIZE * ((cursor + 1) mod M),
           traces + TRACES_FILE_SIZE * ((cursor + 1) mod M),
           online + ONLINE_FILE_SIZE * ((cursor + 1) mod M))).
Proof.
  intros HM Hfit Hc.
  pose proof (Z.mod_pos_bound (cursor + 1) M ltac:(lia)) as Hm.
  unfold execution_modes_buffers_toggle, ring_at.
  cbn [current_iteration total_iterations power_base_ptr traces_base_ptr online_base_ptr].
  unfold POWER_FILE_SIZE, TRACES_FILE_SIZE, ONLINE_FILE_SIZE, INT_MAX in *.
  rewrite checked_int_some by (unfold INT_MAX; lia).
  destruct (Z.eqb_spec M 0) as [E | _]; [lia |].
  rewrite Z.rem_mod_nonneg by lia.
  rewrite !checked_int_some by (unfold INT_MAX; lia).
  reflexivity.
Qed.

Lemma toggles_from_init (M power traces online : Z) (n : nat) :
  1 < M -> POWER_FILE_SIZE * M <= INT_MAX ->
  toggles n (ring_at M power traces online 0) (power, traces, online)
  = Some (ring_at M power traces online (Z.of_nat n mod M),
          (power + POWER_FILE_SIZE * (Z.of_nat n mod M),
           traces + TRACES_FILE_SIZE * (Z.of_nat n mod M),
           online + ONLINE_FILE_SIZE * (Z.of_nat n mod M))).
Proof.
  intros HM Hfit. induction n as [| n IH].
  - cbn [toggles]. change (Z.of_nat 0) with 0. rewrite Z.mod_0_l by lia.
    rewrite !Z.mul_0_r, !Z.add_0_r. reflexivity.
  - cbn [toggles]. rewrite IH.
    rewrite execution_modes_buffers_toggle_step
      by (try assumption; apply Z.mod_pos_bound; lia).
    replace ((Z.of_nat n mod M + 1) mod M) with (Z.of_nat (S n) mod M).
    + reflexivity.
    + rewrite Nat2Z.inj_succ. unfold Z.succ.
      rewrite (Z.add_mod (Z.of_nat n) 1 M) by lia.
      rewrite (Z.add_mod (Z.of_nat n mod M) 1 M) by lia.
      rewrite Z.mod_mod by lia. reflexivity.
Qed.

(** C8: with [M > 1] segments, after a successful initialisation every
    call of [execution_modes_buffers_toggle] succeeds; the [n]-th call
    leaves the cursor at [n mod M], one segment (modulo [M]) after the
    cursor the previous call left, so the cursor is back at the same
    segment after [M] more calls and at segment 0 after the first [M]; and
    the three pointers the call returns are the base pointers plus the
    segment sizes times that cursor. *)
Theorem execution_modes_buffers_toggle_round_robin
    (M power traces online : Z) (b0 : execution_modes_buffers_t) (out0 : Z * Z * Z) :
  1 < M ->
  execution_modes_buffers_init M power traces online = Some (0, b0, out0) ->
  (forall n : nat,
      exists b,
        toggles n b0 out0
        = Some (b, (power_base_ptr b + POWER_FILE_SIZE * current_iteration b,
                    traces_base_ptr b + TRACES_FILE_SIZE * current_iteration b,
                    online_base_ptr b + ONLINE_FILE_SIZE * current_iteration b)) /\
        power_base_ptr b = power /\ traces_base_ptr b = traces /\
        online_base_ptr b = online /\ total_iterations b = M /\
        current_iteration b = Z.of_nat n mod M /\
        exists b1 out1,
          execution_modes_buffers_toggle b = Some (0, b1, out1) /\
          toggles (S n) b0 out0 = Some (b1, out1) /\
          current_iteration b1 = (current_iteration b + 1) mod M /\
          out1 = (power_current_ptr b1, traces_current_ptr b1, online_current_ptr b1)) /\
  (forall n : nat,
      exists b b', toggles n b0 out0 = Some b /\
                   toggles (n + Z.to_nat M) b0 out0 = Some b' /\
                   current_iteration (fst b') = current_iteration (fst b)) /\
  (exists b, toggles (Z.to_nat M) b0 out0 = Some b /\ current_iteration (fst b) = 0).
Proof.
  intros HM Hinit.
  apply execution_modes_buffers_init_inv in Hinit.
  destruct Hinit as (_ & -> & -> & Hfit).
  assert (Hrun := fun n => toggles_from_init M power traces online n HM Hfit).
  split; [| split].
  - intros n. exists (ring_at M power traces online (Z.of_nat n mod M)).
    split; [rewrite Hrun; reflexivity |].
    cbn [ring_at power_base_ptr traces_base_ptr online_base_ptr
         total_iterations current_iteration].
    repeat split.
    eexists. eexists. split.
    + apply execution_modes_buffers_toggle_step; try assumption.
      apply Z.mod_pos_bound; lia.
    + split.
      * cbn [toggles]. rewrite Hrun.
        rewrite execution_modes_buffers_toggle_step
          by (try assumption; apply Z.mod_pos_bound; lia).
        reflexivity.
      * split; reflexivity.
  - intros n. eexists. eexists.
    split; [apply Hrun |]. split; [apply Hrun |].
    cbn [fst ring_at current_iteration].
    rewrite Nat2Z.inj_add, Z2Nat.id by lia.
    replace (Z.of_nat n + M) with (Z.of_nat n + 1 * M) by lia.
    apply Z.mod_add. lia.
  - eexists. split; [apply Hrun |].
    cbn [fst ring_at current_iteration].
    rewrite Z2Nat.id by lia. apply Z.mod_same. lia.
Qed.

Lemma execution_modes_buffers_toggle_round_robin_witness :
  let M := 3 in
  let power := 4096 in
  let traces := 2000000 in
  let online := 3000000 in
  let b0 := ring_at M power traces online 0 in
  let out0 := (power, traces, online) in
  1 < M /\
  execution_modes_buffers_init M power traces online = Some (0, b0, out0) /\
  (forall n : nat,
      exists b,
        toggles n b0 out0
        = Some (b, (power_base_ptr b + POWER_FILE_SIZE * current_iteration b,
                    traces_base_ptr b + TRACES_FILE_SIZE * current_iteration b,
                    online_base_ptr b + ONLINE_FILE_SIZE * current_iteration b)) /\
        power_base_ptr b = power /\ traces_base_ptr b = traces /\
        online_base_ptr b = online /\ total_iterations b = M /\
        current_iteration b = Z.of_nat n mod M /\
        exists b1 out1,
          execution_modes_buffers_toggle b = Some (0, b1, out1) /\
          toggles (S n) b0 out0 = Some (b1, out1) /\
          current_iteration b1 = (current_iteration b + 1) mod M /\
          out1 = (power_current_ptr b1, traces_current_ptr b1, online_current_ptr b1)) /\
  (forall n : nat,
      exists b b', toggles n b0 out0 = Some b /\
                   toggles (n + Z.to_nat M) b0 out0 = Some b' /\
                   current_iteration (fst b') = current_iteration (fst b)) /\
  (exists b, toggles (Z.to_nat M) b0 out0 = Some b /\ current_iteration (fst b) = 0).
Proof.
  cbv zeta.
  split; [lia |]. split; [reflexivity |].
  apply (execution_modes_buffers_toggle_round_robin 3 4096 2000000 3000000
           (ring_at 3 4096 2000000 3000000 0) (4096, 2000000, 3000000)).
  - lia.
  - reflexivity.
Defined.

(** Segments 0, 1, 2, 0, 1 of a three-segment ring: the fourth call returns
    the pointers of segment 1. *)
Lemma toggles_sample :
  toggles 4 (ring_at 3 4096 2000000 3000000 0) (4096, 2000000, 3000000)
  = Some (ring_at 3 4096 2000000 3000000 1,
          (4096 + 537600, 2000000 + 20480, 3000000 + 2048)).
Proof. reflexivity. Qed.

(** ** The slot table *)

Lemma free_from_bounds (slots : list Z) :
  forall i x, In x (free_from i slots) -> i <= x < i + Z.of_nat (length slots).
Proof.
  induction slots as [| s rest IH]; intros i x Hx; [destruct Hx |].
  cbn [free_from length] in *. rewrite Nat2Z.inj_succ.
  destruct (s =? 0).
  - destruct Hx as [<- | Hx]; [lia |]. apply IH in Hx. lia.
  - apply IH in Hx. lia.
Qed.

Lemma free_from_length (slots : list Z) :
  forall i k, length (free_from i slots) = length (free_from k slots).
Proof.
  induction slots as [| s rest IH]; intros i k; [reflexivity |].
  cbn [free_from]. destruct (s =? 0); cbn [length];
    rewrite (IH (i + 1) (k + 1)); reflexivity.
Qed.

Lemma In_firstn (A : Type) (n : nat) (l : list A) (x : A) :
  In x (firstn n l) -> In x l.
Proof.
  intros H. rewrite <- (firstn_skipn n l). apply in_or_app. left. exact H.
Qed.

Lemma chosen_in_true (chosen : list Z) (i : Z) :
  chosen_in chosen i = true <-> In i chosen.
Proof.
  unfold chosen_in. rewrite existsb_exists. split.
  - intros (x & Hx & E). apply Z.eqb_eq in E. subst. exact Hx.
  - intros H. exists i. split; [exact H | apply Z.eqb_refl].
Qed.

Lemma chosen_in_false (chosen : list Z) (i : Z) :
  (forall x, In x chosen -> x <> i) -> chosen_in chosen i = false.
Proof.
  intros H. destruct (chosen_in chosen i) eqn:E; [| reflexivity].
  apply chosen_in_true in E. apply H in E. congruence.
Qed.

Lemma mark_from_skip (slots : list Z) :
  forall i chosen, (forall x, In x chosen -> x < i) -> mark_from i chosen slots = slots.
Proof.
  induction slots as [| s rest IH]; intros i chosen H; [reflexivity |].
  cbn [mark_from].
  assert (E : chosen_in chosen i = false).
  { destruct (chosen_in chosen i) eqn:E; [| reflexivity].
    apply chosen_in_true in E. apply H in E. lia. }
  rewrite E, IH; [reflexivity |]. intros x Hx. apply H in Hx. lia.
Qed.

Lemma mark_from_cons_below (slots : list Z) :
  forall i c chosen, c < i ->
    mark_from i (c :: chosen) slots = mark_from i chosen slots.
Proof.
  induction slots as [| s rest IH]; intros i c chosen Hc; [reflexivity |].
  cbn [mark_from]. rewrite IH by lia.
  unfold chosen_in. cbn [existsb].
  destruct (Z.eqb_spec i c) as [E | _]; [lia | reflexivity].
Qed.

(** The loop, entered at index [i] with [j] slots already taken, marks the
    first [cu - j] free slots of the rest of the table and ORs their bits
    into the mask. *)
Lemma select_slots_closed (kernel_cu : Z) (slots : list Z) :
  forall i j m, j < kernel_cu ->
    let chosen := firstn (Z.to_nat (kernel_cu - j)) (free_from i slots) in
    select_slots kernel_cu i j slots m
    = (mark_from i chosen slots, Z.lor m (mask_of chosen)).
Proof.
  induction slots as [| s rest IH]; intros i j m Hj; cbv zeta.
  - cbn. rewrite firstn_nil. cbn. rewrite Z.lor_0_r. reflexivity.
  - cbn [select_slots free_from mark_from].
    destruct (Z.to_nat (kernel_cu - j)) as [| n] eqn:En; [lia |].
    destruct (Z.eqb_spec s 0) as [Es | Es].
    + cbn [firstn]. unfold chosen_in at 1. cbn [existsb]. rewrite Z.eqb_refl.
      cbn [orb mask_of fold_right].
      destruct (Z.eqb_spec kernel_cu (j + 1)) as [Ec | Ec].
      * assert (n = 0%nat) by lia. subst n. cbn [firstn fold_right].
        rewrite mark_from_skip by (intros x [<- | []]; lia).
        rewrite Z.lor_0_r. reflexivity.
      * specialize (IH (i + 1) (j + 1) (Z.lor m (Z.shiftl 1 i)) ltac:(lia)).
        cbv zeta in IH. rewrite IH.
        replace (Z.to_nat (kernel_cu - (j + 1))) with n by lia.
        rewrite mark_from_cons_below by lia.
        fold (mask_of (firstn n (free_from (i + 1) rest))).
        rewrite Z.lor_assoc. reflexivity.
    + specialize (IH (i + 1) j m Hj). cbv zeta in IH. rewrite IH, En.
      rewrite chosen_in_false; [reflexivity |].
      intros x Hx. apply In_firstn, free_from_bounds in Hx. lia.
Qed.

Lemma mark_from_length (slots : list Z) :
  forall i chosen, length (mark_from i chosen slots) = length slots.
Proof.
  induction slots as [| s rest IH]; intros i chosen; [reflexivity |].
  cbn [mark_from length]. rewrite IH. reflexivity.
Qed.

Lemma nth_mark_from (slots : list Z) :
  forall i chosen n, (n < length slots)%nat ->
    nth n (mark_from i chosen slots) 0
    = if chosen_in chosen (i + Z.of_nat n) then 1 else nth n slots 0.
Proof.
  induction slots as [| s rest IH]; intros i chosen n Hn; [cbn in Hn; lia |].
  cbn [mark_from]. destruct n as [| n].
  - cbn [nth]. rewrite Z.add_0_r. reflexivity.
  - cbn [nth]. cbn [length] in Hn. rewrite IH by lia.
    replace (i + 1 + Z.of_nat n) with (i + Z.of_nat (S n)) by lia. reflexivity.
Qed.

Lemma entry_mark_from (slots chosen : list Z) (i : Z) :
  (forall x, In x chosen -> 0 <= x < Z.of_nat (length slots)) ->
  entry (mark_from 0 chosen slots) i = if chosen_in chosen i then 1 else entry slots i.
Proof.
  intros Hc. unfold entry.
  destruct (Z.ltb_spec i 0) as [Hi | Hi].
  - rewrite chosen_in_false; [reflexivity |].
    intros x Hx. apply Hc in Hx. lia.
  - destruct (Nat.lt_ge_cases (Z.to_nat i) (length slots)) as [Hlt | Hge].
    + rewrite nth_mark_from by exact Hlt.
      rewrite Z.add_0_l, Z2Nat.id by lia. reflexivity.
    + rewrite !nth_overflow by (try rewrite mark_from_length; exact Hge).
      destruct (chosen_in chosen i) eqn:E; [| reflexivity].
      apply chosen_in_true, Hc in E. lia.
Qed.

Lemma testbit_shiftl_1 (i k : Z) :
  0 <= i -> Z.testbit (Z.shiftl 1 i) k = (k =? i).
Proof.
  intros Hi. rewrite Z.shiftl_1_l, Z.pow2_bits_eqb by exact Hi. apply Z.eqb_sym.
Qed.

Lemma testbit_mask_of (chosen : list Z) (k : Z) :
  (forall x, In x chosen -> 0 <= x) ->
  Z.testbit (mask_of chosen) k = chosen_in chosen k.
Proof.
  induction chosen as [| c chosen IH]; intros H.
  - cbn. apply Z.bits_0.
  - unfold chosen_in in *. cbn [mask_of fold_right existsb].
    rewrite Z.lor_spec, testbit_shiftl_1 by (apply H; left; reflexivity).
    fold (mask_of chosen). rewrite IH by (intros x Hx; apply H; right; exact Hx).
    reflexivity.
Qed.

Lemma bits_from_zero (width : nat) :
  forall j m, (forall k, j <= k -> Z.testbit m k = false) -> bits_from j width m = 0.
Proof.
  induction width as [| w IH]; intros j m H; [reflexivity |].
  cbn [bits_from]. rewrite (H j) by lia. rewrite IH; [reflexivity |].
  intros k Hk. apply H. lia.
Qed.

Lemma bits_from_app (a b : nat) :
  forall j m,
    bits_from j (a + b) m = bits_from j a m + bits_from (j + Z.of_nat a) b m.
Proof.
  induction a as [| a IH]; intros j m.
  - cbn. rewrite Z.add_0_r. reflexivity.
  - cbn [Nat.add bits_from]. rewrite IH.
    replace (j + 1 + Z.of_nat a) with (j + Z.of_nat (S a)) by lia. lia.
Qed.

Lemma bits_from_bounds (width : nat) :
  forall j m, 0 <= bits_from j width m <= Z.of_nat width.
Proof.
  induction width as [| w IH]; intros j m; [cbn; lia |].
  cbn [bits_from]. specialize (IH (j + 1) m).
  destruct (Z.testbit m j); lia.
Qed.

(** The bits of the first [n] free slots, counted over the table. *)
Lemma bits_from_first_free (slots : list Z) :
  forall i n m,
    (forall k, i <= k -> Z.testbit m k = chosen_in (firstn n (free_from i slots)) k) ->
    bits_from i (length slots) m = Z.of_nat (length (firstn n (free_from i slots))).
Proof.
  induction slots as [| s rest IH]; intros i n m H.
  - cbn. rewrite firstn_nil. reflexivity.
  - cbn [length bits_from free_from] in *.
    destruct (s =? 0).
    + destruct n as [| n].
      * cbn [firstn length]. rewrite (H i) by lia. cbn.
        rewrite (IH (i + 1) 0%nat m); [reflexivity |].
        intros k Hk. rewrite (H k) by lia. reflexivity.
      * cbn [firstn length] in *. rewrite (H i) by lia.
        unfold chosen_in at 1. cbn [existsb]. rewrite Z.eqb_refl. cbn [orb].
        rewrite (IH (i + 1) n m); [lia |].
        intros k Hk. rewrite (H k) by lia.
        unfold chosen_in. cbn [existsb].
        destruct (Z.eqb_spec k i) as [E | _]; [lia | reflexivity].
    + rewrite (H i) by lia.
      rewrite chosen_in_false
        by (intros x Hx; apply In_firstn, free_from_bounds in Hx; lia).
      rewrite (IH (i + 1) n m); [lia |].
      intros k Hk. apply H. lia.
Qed.

Lemma free_indices_spec (slots : list Z) (x : Z) :
  In x (free_indices slots) <->
  0 <= x < Z.of_nat (length slots) /\ entry slots x = 0.
Proof.
  unfold free_indices.
  assert (G : forall l i,
             In x (free_from i l) <->
             i <= x < i + Z.of_nat (length l) /\ nth (Z.to_nat (x - i)) l 1 = 0).
  { induction l as [| s rest IH]; intros i.
    - cbn. split; [intros [] | intros [H _]; lia].
    - cbn [free_from length]. rewrite Nat2Z.inj_succ.
      destruct (Z.eqb_spec s 0) as [Es | Es].
      + cbn [In]. rewrite IH. split.
        * intros [<- | [Hb Hn]].
          -- rewrite Z.sub_diag. cbn. split; [lia | exact Es].
          -- split; [lia |].
             replace (Z.to_nat (x - i)) with (S (Z.to_nat (x - (i + 1)))) by lia.
             exact Hn.
        * intros [Hb Hn]. destruct (Z.eq_dec i x) as [E | E]; [left; exact E | right].
          split; [lia |].
          replace (Z.to_nat (x - i)) with (S (Z.to_nat (x - (i + 1)))) in Hn by lia.
          exact Hn.
      + rewrite IH. split.
        * intros [Hb Hn]. split; [lia |].
          replace (Z.to_nat (x - i)) with (S (Z.to_nat (x - (i + 1)))) by lia.
          exact Hn.
        * intros [Hb Hn]. destruct (Z.eq_dec i x) as [E | E].
          -- subst. rewrite Z.sub_diag in Hn. cbn in Hn. contradiction.
          -- split; [lia |].
             replace (Z.to_nat (x - i)) with (S (Z.to_nat (x - (i + 1)))) in Hn by lia.
             exact Hn. }
  rewrite G. unfold entry. rewrite Z.add_0_l, Z.sub_0_r.
  split; intros [Hb Hn]; (split; [exact Hb |]).
  - destruct (Z.ltb_spec x 0); [lia |].
    rewrite (nth_indep slots 0 1) by lia. exact Hn.
  - destruct (Z.ltb_spec x 0); [lia |].
    rewrite (nth_indep slots 1 0) by lia. exact Hn.
Qed.

Lemma free_from_sorted (slots : list Z) :
  forall i, StronglySorted Z.lt (free_from i slots).
Proof.
  induction slots as [| s rest IH]; intros i; [constructor |].
  cbn [free_from]. destruct (s =? 0); [| apply IH].
  constructor; [apply IH |].
  apply Forall_forall. intros x Hx. apply free_from_bounds in Hx. lia.
Qed.

Lemma first_free_bounds (width : Z) (slots : list Z) (x : Z) :
  In x (first_free width slots) -> 0 <= x < Z.of_nat (length slots).
Proof.
  intros Hx. apply In_firstn, free_from_bounds in Hx. lia.
Qed.

Lemma popcount_first_free (width : Z) (slots : list Z) :
  0 <= width <= count_free slots ->
  (length slots <= 31)%nat ->
  popcount (mask_of (first_free width slots)) = width.
Proof.
  intros Hw Hlen. unfold count_free in Hw. unfold popcount.
  replace 31%nat with (length slots + (31 - length slots))%nat by lia.
  rewrite bits_from_app.
  assert (Hbits : forall k, 0 <= k ->
             Z.testbit (mask_of (first_free width slots)) k
             = chosen_in (first_free width slots) k).
  { intros k Hk. apply testbit_mask_of.
    intros x Hx. apply first_free_bounds in Hx. lia. }
  rewrite (bits_from_first_free slots 0 (Z.to_nat width)) by exact Hbits.
  rewrite bits_from_zero.
  - fold (free_indices slots). rewrite length_firstn. lia.
  - intros k Hk. rewrite Hbits by lia. apply chosen_in_false.
    intros x Hx. apply first_free_bounds in Hx. lia.
Qed.

(** C6: when the record's width [cu] is at least 1 and at least [cu]
    entries of the slot table are 0, the selection loop of the queue manager
    marks exactly the [cu] lowest-indexed free slots (the first [cu] of the
    increasing list of free indices) and leaves every other entry as it
    was, ORs exactly their bit positions into the record's mask, and for a
    record whose mask was 0, as the producer leaves it, the popcount of the
    mask is [cu]. *)
Theorem select_slots_lowest_free (kernel_cu : Z) (slots : list Z) (kernel_slot_id : Z) :
  1 <= kernel_cu <= count_free slots ->
  (length slots <= 31)%nat ->
  exists slots1 slot_id1,
    select_slots kernel_cu 0 0 slots kernel_slot_id = (slots1, slot_id1) /\
    let chosen := first_free kernel_cu slots in
    Z.of_nat (length chosen) = kernel_cu /\
    StronglySorted Z.lt chosen /\
    (forall i, In i chosen -> In i (free_indices slots)) /\
    (forall i x, In i chosen -> In x (free_indices slots) -> x < i -> In x chosen) /\
    length slots1 = length slots /\
    (forall i, entry slots1 i = if chosen_in chosen i then 1 else entry slots i) /\
    (forall i, 0 <= i ->
               Z.testbit slot_id1 i = Z.testbit kernel_slot_id i || chosen_in chosen i) /\
    (kernel_slot_id = 0 -> popcount slot_id1 = kernel_cu).
Proof.
  intros [Hcu Hfree] Hlen. unfold count_free in Hfree.
  pose proof (select_slots_closed kernel_cu slots 0 0 kernel_slot_id ltac:(lia)) as Hsel.
  cbv zeta in Hsel. rewrite Z.sub_0_r in Hsel.
  fold (free_indices slots) in Hsel. fold (first_free kernel_cu slots) in Hsel.
  eexists. eexists. split; [exact Hsel |]. cbv zeta.
  assert (Hin : forall x, In x (first_free kernel_cu slots) ->
                          0 <= x < Z.of_nat (length slots)).
  { intros x Hx. apply In_firstn, free_from_bounds in Hx. lia. }
  assert (Hn : Z.of_nat (length (first_free kernel_cu slots)) = kernel_cu).
  { unfold first_free. rewrite length_firstn. lia. }
  split; [exact Hn |].
  split.
  { unfold first_free. pose proof (free_from_sorted slots 0) as Hs.
    fold (free_indices slots) in Hs.
    rewrite <- (firstn_skipn (Z.to_nat kernel_cu) (free_indices slots)) in Hs.
    revert Hs. generalize (firstn (Z.to_nat kernel_cu) (free_indices slots)).
    intros l. induction l as [| a l IHl]; intros Hs; [constructor |].
    cbn [app] in Hs. inversion Hs as [| ? ? Hs' Hall]; subst.
    constructor; [apply IHl; exact Hs' |].
    apply Forall_forall. intros x Hx.
    rewrite Forall_forall in Hall. apply Hall. apply in_or_app. left. exact Hx. }
  split; [intros i Hi; apply In_firstn in Hi; exact Hi |].
  split.
  { intros i x Hi Hx Hlt. unfold first_free in *.
    pose proof (free_from_sorted slots 0) as Hs. fold (free_indices slots) in Hs.
    rewrite <- (firstn_skipn (Z.to_nat kernel_cu) (free_indices slots)) in Hs, Hx.
    apply in_app_or in Hx. destruct Hx as [Hx | Hx]; [exact Hx | exfalso].
    revert Hs Hi Hx. generalize (firstn (Z.to_nat kernel_cu) (free_indices slots)).
    generalize (skipn (Z.to_nat kernel_cu) (free_indices slots)).
    intros tl hd. induction hd as [| a hd IHhd]; intros Hs Hi Hx; [destruct Hi |].
    cbn [app] in Hs. inversion Hs as [| ? ? Hs' Hall]; subst.
    destruct Hi as [<- | Hi]; [| apply IHhd; assumption].
    rewrite Forall_forall in Hall.
    specialize (Hall x (in_or_app _ _ _ (or_intror Hx))). lia. }
  split; [apply mark_from_length |].
  split; [intros i; apply entry_mark_from; exact Hin |].
  split.
  { intros i Hi. rewrite Z.lor_spec, testbit_mask_of; [reflexivity |].
    intros x Hx. apply Hin in Hx. lia. }
  intros ->. rewrite Z.lor_0_l.
  apply popcount_first_free; [unfold count_free; lia | exact Hlen].
Qed.

Lemma select_slots_lowest_free_witness :
  let slots := [1; 0; 0; 1; 0; 0; 0; 0] in
  1 <= 2 <= count_free slots /\
  (length slots <= 31)%nat /\
  exists slots1 slot_id1,
    select_slots 2 0 0 slots 0 = (slots1, slot_id1) /\
    let chosen := first_free 2 slots in
    Z.of_nat (length chosen) = 2 /\
    StronglySorted Z.lt chosen /\
    (forall i, In i chosen -> In i (free_indices slots)) /\
    (forall i x, In i chosen -> In x (free_indices slots) -> x < i -> In x chosen) /\
    length slots1 = length slots /\
    (forall i, entry slots1 i = if chosen_in chosen i then 1 else entry slots i) /\
    (forall i, 0 <= i ->
               Z.testbit slot_id1 i = Z.testbit 0 i || chosen_in chosen i) /\
    (0 = 0 -> popcount slot_id1 = 2).
Proof.
  cbv zeta.
  split; [unfold count_free; simpl; lia |].
  split; [simpl; lia |].
  apply (select_slots_lowest_free 2 [1; 0; 0; 1; 0; 0; 0; 0] 0).
  - unfold count_free; simpl; lia.
  - simpl; lia.
Defined.

(** Slots 1 and 2 are taken: mask 6. *)
Lemma select_slots_sample :
  select_slots 2 0 0 [1; 0; 0; 1; 0; 0; 0; 0] 0 = ([1; 1; 1; 1; 0; 0; 0; 0], 6).
Proof. reflexivity. Qed.

(** ** Release of slots *)

Lemma land_shiftl_test (m j : Z) :
  0 <= j -> (Z.land m (Z.shiftl 1 j) >? 0) = Z.testbit m j.
Proof.
  intros Hj.
  assert (E : Z.land m (Z.shiftl 1 j) = if Z.testbit m j then Z.shiftl 1 j else 0).
  { apply Z.bits_inj'. intros k Hk. rewrite Z.land_spec, testbit_shiftl_1 by exact Hj.
    destruct (Z.eqb_spec k j) as [-> | Hne].
    - rewrite andb_true_r. destruct (Z.testbit m j) eqn:Eb.
      + rewrite testbit_shiftl_1 by exact Hj. symmetry. apply Z.eqb_refl.
      + symmetry. apply Z.bits_0.
    - rewrite andb_false_r. destruct (Z.testbit m j).
      + rewrite testbit_shiftl_1 by exact Hj. symmetry. apply Z.eqb_neq. exact Hne.
      + symmetry. apply Z.bits_0. }
  rewrite E. destruct (Z.testbit m j); [| reflexivity].
  rewrite Z.shiftl_1_l. apply Z.gtb_lt. apply Z.pow_pos_nonneg; lia.
Qed.

Lemma clear_from_length (m : Z) (slots : list Z) :
  forall j, length (clear_from j m slots) = length slots.
Proof.
  induction slots as [| s rest IH]; intros j; [reflexivity |].
  cbn [clear_from length]. rewrite IH. reflexivity.
Qed.

Lemma clear_from_id (m : Z) (slots : list Z) :
  forall j, bits_from j (length slots) m = 0 -> clear_from j m slots = slots.
Proof.
  induction slots as [| s rest IH]; intros j H; [reflexivity |].
  cbn [clear_from length bits_from] in *.
  pose proof (bits_from_bounds (length rest) (j + 1) m) as Hb.
  destruct (Z.testbit m j); [lia |].
  rewrite IH by lia. reflexivity.
Qed.

(** The release loop, entered at index [j] with [i] slots already
    released, when the mask holds exactly the [cu - i] slots that remain
    to be released inside the table. *)
Lemma release_slots_closed (kernel_cu m : Z) (slots : list Z) :
  forall i j, 0 <= j ->
    bits_from j (length slots) m = kernel_cu - i ->
    release_slots kernel_cu m i j slots = Some (clear_from j m slots).
Proof.
  induction slots as [| s rest IH]; intros i j Hj Hbits.
  - cbn in *. destruct (Z.ltb_spec i kernel_cu); [lia | reflexivity].
  - cbn [release_slots]. destruct (Z.ltb_spec i kernel_cu) as [Hi | Hi].
    + rewrite land_shiftl_test by exact Hj.
      cbn [length bits_from clear_from] in *.
      destruct (Z.testbit m j).
      * rewrite (IH (i + 1) (j + 1)) by lia. reflexivity.
      * rewrite (IH i (j + 1)) by lia. reflexivity.
    + pose proof (bits_from_bounds (length (s :: rest)) j m) as Hb.
      rewrite clear_from_id by lia. reflexivity.
Qed.

Lemma nth_clear_from (m : Z) (slots : list Z) :
  forall j n, (n < length slots)%nat ->
    nth n (clear_from j m slots) 0
    = if Z.testbit m (j + Z.of_nat n) then 0 else nth n slots 0.
Proof.
  induction slots as [| s rest IH]; intros j n Hn; [cbn in Hn; lia |].
  cbn [clear_from]. destruct n as [| n].
  - cbn [nth]. rewrite Z.add_0_r. reflexivity.
  - cbn [nth]. cbn [length] in Hn. rewrite IH by lia.
    replace (j + 1 + Z.of_nat n) with (j + Z.of_nat (S n)) by lia. reflexivity.
Qed.

Lemma entry_clear_from (m : Z) (slots : list Z) (k : Z) :
  0 <= k ->
  entry (clear_from 0 m slots) k = if Z.testbit m k then 0 else entry slots k.
Proof.
  intros Hk. unfold entry. destruct (Z.ltb_spec k 0); [lia |].
  destruct (Nat.lt_ge_cases (Z.to_nat k) (length slots)) as [Hlt | Hge].
  - rewrite nth_clear_from by exact Hlt.
    rewrite Z.add_0_l, Z2Nat.id by lia. reflexivity.
  - rewrite !nth_overflow by (try rewrite clear_from_length; exact Hge).
    destruct (Z.testbit m k); reflexivity.
Qed.

Lemma In_clear_from (m : Z) (slots : list Z) :
  forall j x, In x (clear_from j m slots) -> x = 0 \/ In x slots.
Proof.
  induction slots as [| s rest IH]; intros j x Hx; [destruct Hx |].
  cbn [clear_from] in Hx. destruct Hx as [Hx | Hx].
  - destruct (Z.testbit m j); [left; congruence | right; left; exact Hx].
  - apply IH in Hx. destruct Hx as [Hx | Hx]; [left; exact Hx | right; right; exact Hx].
Qed.

Lemma In_mark_from (chosen slots : list Z) :
  forall i x, In x (mark_from i chosen slots) -> x = 1 \/ In x slots.
Proof.
  induction slots as [| s rest IH]; intros i x Hx; [destruct Hx |].
  cbn [mark_from] in Hx. destruct Hx as [Hx | Hx].
  - destruct (chosen_in chosen i); [left; congruence | right; left; exact Hx].
  - apply IH in Hx. destruct Hx as [Hx | Hx]; [left; exact Hx | right; right; exact Hx].
Qed.

(** Free slots after a release: one more for every bit of the mask, when
    the slots the mask names are busy. *)
Lemma free_from_clear_length (m : Z) (slots : list Z) :
  forall j,
    (forall n, (n < length slots)%nat ->
               Z.testbit m (j + Z.of_nat n) = true -> nth n slots 0 <> 0) ->
    Z.of_nat (length (free_from j (clear_from j m slots)))
    = Z.of_nat (length (free_from j slots)) + bits_from j (length slots) m.
Proof.
  induction slots as [| s rest IH]; intros j H; [reflexivity |].
  cbn [clear_from free_from length bits_from].
  assert (IH' : Z.of_nat (length (free_from (j + 1) (clear_from (j + 1) m rest)))
                = Z.of_nat (length (free_from (j + 1) rest))
                  + bits_from (j + 1) (length rest) m).
  { apply IH. intros n Hn Hb. apply (H (S n)); [cbn [length]; lia |].
    replace (j + Z.of_nat (S n)) with (j + 1 + Z.of_nat n) by lia. exact Hb. }
  destruct (Z.testbit m j) eqn:Eb.
  - assert (Hs : s <> 0).
    { apply (H 0%nat); [cbn [length]; lia |]. rewrite Z.add_0_r. exact Eb. }
    destruct (Z.eqb_spec s 0) as [E | _]; [contradiction |].
    cbn [Z.eqb length]. lia.
  - destruct (s =? 0); cbn [length]; lia.
Qed.

(** Free slots after a selection: the first [n] free indices are gone. *)
Lemma free_from_mark (slots : list Z) :
  forall i n,
    free_from i (mark_from i (firstn n (free_from i slots)) slots)
    = skipn n (free_from i slots).
Proof.
  induction slots as [| s rest IH]; intros i n.
  - cbn. rewrite skipn_nil. reflexivity.
  - cbn [free_from]. destruct (Z.eqb_spec s 0) as [Es | Es].
    + destruct n as [| n].
      * cbn [firstn skipn]. rewrite mark_from_skip by (intros x []).
        cbn [free_from]. subst s. reflexivity.
      * cbn [firstn skipn mark_from]. unfold chosen_in at 1. cbn [existsb].
        rewrite Z.eqb_refl. cbn [orb free_from Z.eqb].
        rewrite mark_from_cons_below by lia. apply IH.
    + cbn [mark_from]. rewrite chosen_in_false
        by (intros x Hx; apply In_firstn, free_from_bounds in Hx; lia).
      cbn [free_from]. destruct (Z.eqb_spec s 0) as [E | _]; [contradiction |].
      apply IH.
Qed.

(** ** Conservation of slots *)

Lemma sum_Z_app (l1 l2 : list Z) : sum_Z (l1 ++ l2) = sum_Z l1 + sum_Z l2.
Proof.
  induction l1 as [| x l1 IH]; cbn [app sum_Z fold_right]; [reflexivity |].
  fold (sum_Z (l1 ++ l2)). fold (sum_Z l1). lia.
Qed.

Lemma bit_bounds (m k : Z) : 0 <= bit m k <= 1.
Proof. unfold bit. destruct (Z.testbit m k); lia. Qed.

Lemma owners_app (l1 l2 : list kernel_data) (k : Z) :
  owners (l1 ++ l2) k = owners l1 k + owners l2 k.
Proof. unfold owners. rewrite map_app. apply sum_Z_app. Qed.

Lemma owners_cons (r : kernel_data) (l : list kernel_data) (k : Z) :
  owners (r :: l) k = bit (slot_id r) k + owners l k.
Proof. reflexivity. Qed.

Lemma owners_nonneg (live : list kernel_data) (k : Z) : 0 <= owners live k.
Proof.
  induction live as [| r live IH]; [cbn; lia |].
  rewrite owners_cons. pose proof (bit_bounds (slot_id r) k). lia.
Qed.

Lemma entry_binary (slots : list Z) (k : Z) :
  (forall x, In x slots -> x = 0 \/ x = 1) ->
  entry slots k = 0 \/ entry slots k = 1.
Proof.
  intros H. unfold entry. destruct (k <? 0); [left; reflexivity |].
  destruct (nth_in_or_default (Z.to_nat k) slots 0) as [Hin | ->];
    [apply H; exact Hin | left; reflexivity].
Qed.

Lemma entry_overflow (slots : list Z) (k : Z) :
  Z.of_nat (length slots) <= k -> entry slots k = 0.
Proof.
  intros H. unfold entry. destruct (k <? 0); [reflexivity |].
  apply nth_overflow. lia.
Qed.

Lemma producer_record_width (k : kernel_data) :
  producer_record k -> 1 <= cu k <= 8.
Proof.
  intros [H _]. unfold tmp_cu in H. cbn [In] in H.
  destruct H as [H | [H | [H | [H | []]]]]; lia.
Qed.

Lemma slots_ok_initial :
  slots_ok (repeat 0 (Z.to_nat NUM_SLOTS)) NUM_SLOTS [].
Proof.
  constructor.
  - apply repeat_length.
  - intros x Hx. apply repeat_spec in Hx. left. exact Hx.
  - intros k Hk. cbn [owners map sum_Z fold_right]. unfold entry.
    destruct (k <? 0); [reflexivity |]. apply nth_repeat.
  - reflexivity.
  - intros r [].
  - reflexivity.
Qed.

(** A dispatch: the slot bookkeeping of the queue manager for a record
    [k] that fits in the free slots. *)
Lemma slots_ok_dispatch (slots : list Z) (free : Z) (live : list kernel_data)
    (k k1 : kernel_data) :
  slots_ok slots free live ->
  producer_record k -> cu k <= free ->
  slot_id k1 = snd (select_slots (cu k) 0 0 slots (slot_id k)) ->
  cu k1 = cu k ->
  slots_ok (fst (select_slots (cu k) 0 0 slots (slot_id k))) (free - cu k)
    (live ++ [k1]) /\
  popcount (slot_id k1) = cu k /\
  (forall i, 0 <= i ->
             entry (fst (select_slots (cu k) 0 0 slots (slot_id k))) i
             = entry slots i + bit (slot_id k1) i).
Proof.
  intros Hok Hk Hfit Hmask Hcu.
  pose proof (producer_record_width k Hk) as Hw. destruct Hk as [_ Hzero].
  destruct Hok as [Hlen Hbin Hown Hfree Hpop Hcons].
  pose proof (select_slots_closed (cu k) slots 0 0 (slot_id k) ltac:(lia)) as Hsel.
  cbv zeta in Hsel. rewrite Z.sub_0_r in Hsel.
  fold (free_indices slots) in Hsel. fold (first_free (cu k) slots) in Hsel.
  rewrite Hsel in *. cbn [fst snd] in *. rewrite Hzero, Z.lor_0_l in Hmask.
  set (chosen := first_free (cu k) slots) in *.
  assert (Hlen31 : (length slots <= 31)%nat)
    by (rewrite Hlen; unfold NUM_SLOTS; lia).
  assert (Hpk : popcount (slot_id k1) = cu k).
  { rewrite Hmask. apply popcount_first_free; [lia | exact Hlen31]. }
  assert (Hbit : forall i, 0 <= i ->
             bit (slot_id k1) i = if chosen_in chosen i then 1 else 0).
  { intros i Hi. unfold bit. rewrite Hmask, testbit_mask_of; [reflexivity |].
    intros x Hx. apply first_free_bounds in Hx. lia. }
  assert (Hentry : forall i, 0 <= i ->
             entry (mark_from 0 chosen slots) i = entry slots i + bit (slot_id k1) i).
  { intros i Hi. rewrite entry_mark_from by (apply first_free_bounds).
    rewrite Hbit by exact Hi.
    destruct (chosen_in chosen i) eqn:Ec; [| lia].
    apply chosen_in_true, In_firstn, free_indices_spec in Ec. lia. }
  split; [| split; [exact Hpk | exact Hentry]].
  constructor.
  - rewrite mark_from_length. exact Hlen.
  - intros x Hx. apply In_mark_from in Hx.
    destruct Hx as [Hx | Hx]; [right; exact Hx | apply Hbin; exact Hx].
  - intros i Hi. rewrite Hentry by exact Hi. rewrite owners_app, owners_cons.
    rewrite Hown by exact Hi. cbn [owners map sum_Z fold_right]. lia.
  - unfold count_free, free_indices, chosen, first_free, free_indices.
    rewrite free_from_mark, length_skipn.
    rewrite Hfree in Hfit. unfold count_free, free_indices in Hfit, Hfree. lia.
  - intros r Hr. apply in_app_or in Hr. destruct Hr as [Hr | [<- | []]].
    + apply Hpop. exact Hr.
    + rewrite Hcu. exact Hpk.
  - rewrite map_app, sum_Z_app. cbn [map sum_Z fold_right]. lia.
Qed.

(** A completion: the slot bookkeeping of a worker for a live record. *)
Lemma slots_ok_release (slots : list Z) (free : Z)
    (l1 l2 : list kernel_data) (r : kernel_data) :
  slots_ok slots free (l1 ++ r :: l2) ->
  release_slots (cu r) (slot_id r) 0 0 slots
  = Some (clear_from 0 (slot_id r) slots) /\
  slots_ok (clear_from 0 (slot_id r) slots) (free + cu r) (l1 ++ l2) /\
  (forall i, 0 <= i ->
             entry (clear_from 0 (slot_id r) slots) i
             = entry slots i - bit (slot_id r) i).
Proof.
  intros [Hlen Hbin Hown Hfree Hpop Hcons].
  set (m := slot_id r) in *.
  assert (Hsplit : forall i, 0 <= i ->
             entry slots i = owners l1 i + bit m i + owners l2 i).
  { intros i Hi. rewrite Hown by exact Hi. rewrite owners_app, owners_cons.
    fold m. lia. }
  assert (Hbusy : forall i, 0 <= i -> Z.testbit m i = true -> entry slots i = 1).
  { intros i Hi Hb. pose proof (Hsplit i Hi) as E. unfold bit in E. rewrite Hb in E.
    pose proof (owners_nonneg l1 i). pose proof (owners_nonneg l2 i).
    destruct (entry_binary slots i Hbin); lia. }
  assert (Hhigh : forall i, Z.of_nat (length slots) <= i -> Z.testbit m i = false).
  { intros i Hi. destruct (Z.testbit m i) eqn:Eb; [| reflexivity].
    pose proof (Hbusy i ltac:(lia) Eb) as E1.
    pose proof (entry_overflow slots i Hi) as E2. lia. }
  assert (Hcount : bits_from 0 (length slots) m = cu r).
  { rewrite <- (Hpop r) by (apply in_or_app; right; left; reflexivity).
    fold m. unfold popcount.
    replace 31%nat with (length slots + (31 - length slots))%nat
      by (rewrite Hlen; unfold NUM_SLOTS; lia).
    rewrite bits_from_app, (bits_from_zero (31 - length slots)); [lia |].
    intros i Hi. apply Hhigh. lia. }
  assert (Hentry : forall i, 0 <= i ->
             entry (clear_from 0 m slots) i = entry slots i - bit m i).
  { intros i Hi. rewrite entry_clear_from by exact Hi. unfold bit.
    destruct (Z.testbit m i) eqn:Eb; [| lia].
    rewrite (Hbusy i Hi Eb). reflexivity. }
  split; [apply release_slots_closed; lia |].
  split; [| exact Hentry].
  constructor.
  - rewrite clear_from_length. exact Hlen.
  - intros x Hx. apply In_clear_from in Hx.
    destruct Hx as [Hx | Hx]; [left; exact Hx | apply Hbin; exact Hx].
  - intros i Hi. rewrite Hentry, Hsplit by exact Hi. rewrite owners_app. lia.
  - unfold count_free, free_indices. rewrite free_from_clear_length.
    + rewrite Hcount. unfold count_free, free_indices in Hfree. lia.
    + intros n Hn Hb. rewrite Z.add_0_l in Hb.
      pose proof (Hbusy (Z.of_nat n) ltac:(lia) Hb) as E. unfold entry in E.
      destruct (Z.ltb_spec (Z.of_nat n) 0); [lia |].
      rewrite Nat2Z.id in E. lia.
  - intros x Hx. apply Hpop. apply in_app_or in Hx. apply in_or_app.
    destruct Hx as [Hx | Hx]; [left; exact Hx | right; right; exact Hx].
  - rewrite map_app, sum_Z_app in *. cbn [map sum_Z fold_right] in Hcons.
    fold (sum_Z (map (fun r0 => popcount (slot_id r0)) l2)) in Hcons.
    rewrite (Hpop r) in Hcons by (apply in_or_app; right; left; reflexivity).
    lia.
Qed.

(** ** The invariant is kept by every step *)

Ltac state_fields :=
  unfold live_bits, live_records, in_transit, record_at,
    set_generation, set_arrival, set_service, set_duplicated, set_slots,
    set_mode, set_manager, set_output, set_workers in *;
  cbn [kernel_generation_queue schedule_timer arrival_pending
       kernel_execution_queue kernel_output_queue duplicated_kernel_variable
       kernels_to_serve_variable kernels_are_executable_variable
       free_slots_variable slots_in_use operating_mode kernels_count kernel_tmp
       running released signalling manager nodes size] in *.

Lemma scan_rest_found (free_slots : Z) (dup : Z -> Z) (next : list kernel_data) :
  forall prev found chain,
    scan_rest free_slots dup prev next = Some (found, chain) ->
    In found next /\ cu found <= free_slots /\
    (forall x, In x chain -> x = prev \/ In x next).
Proof.
  induction next as [| tmp after IH]; intros prev found chain H; [discriminate |].
  cbn [scan_rest] in H.
  destruct ((cu tmp >? free_slots) || (dup (kernel_label tmp) =? 1)) eqn:Ec.
  - destruct (scan_rest free_slots dup tmp after) as [[f c] |] eqn:Er; [| discriminate].
    injection H as <- <-. apply IH in Er. destruct Er as (Hin & Hcu & Hchain).
    split; [right; exact Hin |]. split; [exact Hcu |].
    intros x [<- | Hx]; [left; reflexivity |].
    apply Hchain in Hx. destruct Hx as [-> | Hx]; right; [left | right]; auto.
  - injection H as <- <-. apply orb_false_iff in Ec. destruct Ec as [Ec _].
    split; [left; reflexivity |]. split.
    + destruct (Z.gtb_spec (cu tmp) free_slots); [discriminate | lia].
    + intros x [<- | Hx]; [left; reflexivity | right; right; exact Hx].
Qed.

(** Whatever the table, a record the function returns was pending and fits
    in [free_slots], the other records stay, and a failure changes
    nothing. *)
Lemma dequeue_first_executable_kernel_found
    (q : queue) (free_slots : Z) (dup : Z -> Z) (d : kernel_data)
    (ret : Z) (q1 : queue) (d1 : kernel_data) :
  dequeue_first_executable_kernel q free_slots dup d = (ret, q1, d1) ->
  (ret = -1 /\ q1 = q /\ d1 = d) \/
  (ret = 0 /\ In d1 (nodes q) /\ cu d1 <= free_slots /\
   forall x, In x (nodes q1) -> In x (nodes q)).
Proof.
  unfold dequeue_first_executable_kernel.
  destruct (nodes q) as [| tmp next] eqn:E.
  - intros H. injection H as <- <- <-. left. auto.
  - destruct ((cu tmp <=? free_slots) && (dup (kernel_label tmp) =? 0)) eqn:Ec.
    + intros H. injection H as <- <- <-. right.
      apply andb_true_iff in Ec. destruct Ec as [Ec _]. apply Z.leb_le in Ec.
      split; [reflexivity |]. split; [left; reflexivity |]. split; [exact Ec |].
      cbn [nodes]. intros x Hx. right. exact Hx.
    + destruct (scan_rest free_slots dup tmp next) as [[found chain] |] eqn:Er.
      * intros H. injection H as <- <- <-. right.
        apply scan_rest_found in Er. destruct Er as (Hin & Hcu & Hchain).
        split; [reflexivity |]. split; [right; exact Hin |]. split; [exact Hcu |].
        cbn [nodes]. intros x Hx. apply Hchain in Hx.
        destruct Hx as [-> | Hx]; [left; reflexivity | right; exact Hx].
      * intros H. injection H as <- <- <-. left. auto.
Qed.

Lemma remove_first_split (p : kernel_ptr) (l : list kernel_ptr) :
  In p l -> exists l1 l2, l = l1 ++ p :: l2 /\ remove_first p l = l1 ++ l2.
Proof.
  induction l as [| x l IH]; intros H; [destruct H |].
  cbn [remove_first]. destruct (Nat.eqb_spec x p) as [-> | Hne].
  - exists [], l. split; reflexivity.
  - destruct H as [H | H]; [contradiction |].
    destruct (IH H) as (l1 & l2 & -> & Hr).
    exists (x :: l1), l2. split; [reflexivity |]. rewrite Hr. reflexivity.
Qed.

Lemma holds_spec (p : kernel_ptr) (l : list kernel_ptr) :
  holds p l = true <-> In p l.
Proof.
  unfold holds. rewrite existsb_exists. split.
  - intros (x & Hx & E). apply Nat.eqb_eq in E. subst. exact Hx.
  - intros H. exists p. split; [exact H | apply Nat.eqb_refl].
Qed.

Lemma sum_Z_nonneg (A : Type) (f : A -> Z) (l : list A) :
  (forall x, In x l -> 0 <= f x) -> 0 <= sum_Z (map f l).
Proof.
  induction l as [| x l IH]; intros H; [cbn; lia |].
  cbn [map sum_Z fold_right]. fold (sum_Z (map f l)).
  pose proof (H x (or_introl eq_refl)).
  assert (0 <= sum_Z (map f l)) by (apply IH; intros y Hy; apply H; right; exact Hy).
  lia.
Qed.

Lemma sum_Z_split (A : Type) (f : A -> Z) (l1 l2 : list A) (x : A) :
  sum_Z (map f (l1 ++ x :: l2)) = sum_Z (map f (l1 ++ l2)) + f x.
Proof.
  rewrite !map_app, !sum_Z_app. cbn [map]. unfold sum_Z. cbn [fold_right]. lia.
Qed.

Lemma record_lookup (s : state) (p : kernel_ptr) :
  (p < length (nodes (kernel_output_queue s)))%nat ->
  nth_error (nodes (kernel_output_queue s)) p = Some (record_at s p).
Proof. intros H. apply nth_error_nth'. exact H. Qed.

Lemma record_at_width (s : state) (p : kernel_ptr) :
  (forall k, In k (nodes (kernel_output_queue s)) -> 1 <= cu k) ->
  (p < length (nodes (kernel_output_queue s)))%nat ->
  1 <= cu (record_at s p).
Proof. intros Hout Hp. apply Hout. unfold record_at. apply nth_In. exact Hp. Qed.

Lemma invariant_initial (local : kernel_data) (timer : timespec) :
  invariant (initial_state local timer).
Proof.
  constructor; unfold initial_state; state_fields;
    cbn [map init_queue nodes app sum_Z fold_right].
  - apply slots_ok_initial.
  - reflexivity.
  - unfold NUM_SLOTS. lia.
  - intros p [].
  - intros k [].
  - intros k [].
  - intros k [].
  - exact I.
Qed.

Lemma new_kernel_producer_record (initial : timespec) (i label executions inter : Z)
    (rand : nat) (timer : timespec) :
  producer_record (fst (new_kernel initial i label executions inter rand timer)).
Proof.
  unfold producer_record, new_kernel. cbn [fst cu slot_id]. split; [| reflexivity].
  apply nth_In. cbn [tmp_cu length]. apply Nat.mod_upper_bound. discriminate.
Qed.

Lemma invariant_generate (initial : timespec) (i label executions inter : Z)
    (rand : nat) (s s1 : state) :
  invariant s ->
  main_generate initial i label executions inter rand s = Some s1 ->
  invariant s1.
Proof.
  intros [Hs Hf Hn Hp Ho Hg Hq Hm] H. unfold main_generate in H.
  pose proof (new_kernel_producer_record initial i label executions inter rand
                (schedule_timer s)) as Hnew.
  destruct (new_kernel initial i label executions inter rand (schedule_timer s))
    as [aux timer1].
  cbn [fst] in Hnew. unfold enqueue in H. cbn in H. injection H as <-.
  constructor; state_fields; try assumption.
  intros k Hk. apply in_app_or in Hk. destruct Hk as [Hk | [<- | []]]; auto.
Qed.

Lemma invariant_arrival (aux0 : kernel_data) (s s1 : state) :
  invariant s -> main_arrival aux0 s = Some s1 -> invariant s1.
Proof.
  intros [Hs Hf Hn Hp Ho Hg Hq Hm] H. unfold main_arrival, dequeue in H.
  destruct (arrival_pending s); [discriminate |].
  destruct (nodes (kernel_generation_queue s)) as [| tmp next] eqn:E;
    [cbn in H; discriminate |].
  unfold enqueue in H. cbn in H. injection H as <-.
  constructor; state_fields; try assumption.
  - intros k Hk. apply Hg. right. exact Hk.
  - intros k Hk. apply in_app_or in Hk.
    destruct Hk as [Hk | [<- | []]]; [apply Hq; exact Hk | apply Hg; left; reflexivity].
Qed.

Lemma invariant_signal (s s1 : state) :
  invariant s -> main_signal s = Some s1 -> invariant s1.
Proof.
  intros [Hs Hf Hn Hp Ho Hg Hq Hm] H. unfold main_signal in H.
  destruct (arrival_pending s); [| discriminate]. injection H as <-.
  constructor; state_fields; assumption.
Qed.

Lemma invariant_monitor (m : operating_mode_enum) (s s1 : state) :
  invariant s -> monitoring_thread m s = Some s1 -> invariant s1.
Proof.
  intros [Hs Hf Hn Hp Ho Hg Hq Hm] H. unfold monitoring_thread in H.
  injection H as <-. constructor; state_fields; assumption.
Qed.

(** The manager takes the width of the record in its hand from
    [free_slots_variable]. *)
Lemma manager_reserve_step (s : state) :
  invariant s -> manager s = pc_reserve ->
  exists s1,
    queue_manager_thread s = Some (s1, []) /\
    invariant s1 /\
    free_slots_variable s1 = free_slots_variable s - cu (kernel_tmp s) /\
    slots_in_use s1 = slots_in_use s /\
    live_records s1 = live_records s /\
    in_transit s1 = in_transit s + cu (kernel_tmp s).
Proof.
  intros [Hs Hf Hn Hp Ho Hg Hq Hm] Hpc.
  unfold live_records, in_transit in *. rewrite Hpc in *.
  destruct Hm as [Hrec Hfit].
  unfold queue_manager_thread. rewrite Hpc.
  eexists. split; [reflexivity |]. state_fields.
  split; [| repeat split; lia].
  constructor; state_fields; try assumption; lia.
Qed.

(** The manager selects the slots of the record in its hand. *)
Lemma manager_select_step (s : state) :
  invariant s -> manager s = pc_select ->
  exists s1,
    queue_manager_thread s = Some (s1, []) /\
    invariant s1 /\
    free_slots_variable s1 = free_slots_variable s /\
    live_records s1 = live_records s ++ [kernel_tmp s1] /\
    cu (kernel_tmp s1) = cu (kernel_tmp s) /\
    popcount (slot_id (kernel_tmp s1)) = cu (kernel_tmp s) /\
    (forall i, 0 <= i ->
               entry (slots_in_use s1) i
               = entry (slots_in_use s) i + bit (slot_id (kernel_tmp s1)) i) /\
    in_transit s1 = in_transit s - cu (kernel_tmp s).
Proof.
  intros [Hs Hf Hn Hp Ho Hg Hq Hm] Hpc.
  unfold live_records, in_transit in *. rewrite Hpc in *.
  rewrite app_nil_r in Hs.
  assert (Hsum : 0 <= sum_Z (map (fun p => cu (record_at s p))
                               (released s ++ signalling s))).
  { apply sum_Z_nonneg. intros p Hin.
    pose proof (record_at_width s p Ho) as Hw.
    assert (In p (running s ++ released s ++ signalling s))
      by (apply in_or_app; right; exact Hin).
    specialize (Hw (Hp p H)). lia. }
  set (k := kernel_tmp s) in *.
  pose proof (producer_record_width k Hm) as Hw.
  unfold queue_manager_thread. rewrite Hpc. fold k.
  destruct (select_slots (cu k) 0 0 (slots_in_use s) (slot_id k))
    as [slots1 slot_id1] eqn:Esel.
  eexists. split; [reflexivity |].
  pose proof (slots_ok_dispatch (slots_in_use s) (count_free (slots_in_use s))
                (map (record_at s) (running s)) k (set_slot_id slot_id1 k)
                Hs Hm ltac:(lia)) as Hd.
  rewrite Esel in Hd. cbn [fst snd set_slot_id slot_id cu] in Hd.
  specialize (Hd eq_refl eq_refl). destruct Hd as (Hok & Hpop & Hentry).
  pose proof (ok_free _ _ _ Hok) as Hfree1.
  state_fields. cbn [set_slot_id cu slot_id]. rewrite ?Hpc, ?app_nil_r.
  split; [| split; [reflexivity | split; [reflexivity | split; [reflexivity |
             split; [exact Hpop | split; [exact Hentry | lia]]]]]].
  constructor; state_fields; try assumption.
  - rewrite <- Hfree1. exact Hok.
  - lia.
  - cbn [set_slot_id cu]. lia.
Qed.

(** The manager stores the record in the output queue and hands it to a
    worker. *)
Lemma manager_handoff_step (s : state) :
  invariant s -> manager s = pc_handoff ->
  exists s1,
    queue_manager_thread s = Some (s1, []) /\
    invariant s1 /\
    free_slots_variable s1 = free_slots_variable s /\
    slots_in_use s1 = slots_in_use s /\
    live_records s1 = live_records s /\
    in_transit s1 = in_transit s.
Proof.
  intros [Hs Hf Hn Hp Ho Hg Hq Hm] Hpc.
  unfold live_records, in_transit in *. rewrite Hpc in *.
  set (k := kernel_tmp s) in *.
  unfold queue_manager_thread, enqueue_and_modify. rewrite Hpc. fold k.
  eexists. split; [reflexivity |].
  assert (Hold : forall p, In p (running s ++ released s ++ signalling s) ->
                 nth p (nodes (kernel_output_queue s) ++ [k]) no_record
                 = record_at s p).
  { intros p Hin. apply app_nth1. apply Hp. exact Hin. }
  assert (Hlive :
    map (fun p : kernel_ptr =>
           nth p (nodes (kernel_output_queue s) ++ [k]) no_record)
      (running s ++ [length (nodes (kernel_output_queue s))]) ++ []
    = map (record_at s) (running s) ++ [k]).
  { rewrite app_nil_r, map_app. cbn [map]. rewrite nth_middle. f_equal.
    apply map_ext_in. intros p Hin. apply Hold. apply in_or_app. left. exact Hin. }
  assert (Htransit :
    map (fun p : kernel_ptr =>
           cu (nth p (nodes (kernel_output_queue s) ++ [k]) no_record))
      (released s ++ signalling s)
    = map (fun p => cu (record_at s p)) (released s ++ signalling s)).
  { apply map_ext_in. intros p Hin. rewrite Hold; [reflexivity |].
    apply in_or_app. right. exact Hin. }
  state_fields.
  split; [| split; [reflexivity | split; [reflexivity | split; [exact Hlive |]]]].
  - constructor; state_fields; try assumption.
    + rewrite Hlive. exact Hs.
    + rewrite Htransit. exact Hf.
    + intros p Hin. rewrite length_app. cbn [length].
      rewrite <- app_assoc in Hin. cbn [app] in Hin.
      apply in_app_or in Hin. destruct Hin as [Hin | Hin].
      * assert (Hall : In p (running s ++ released s ++ signalling s))
          by (apply in_or_app; left; exact Hin).
        apply Hp in Hall. lia.
      * destruct Hin as [<- | Hin]; [lia |].
        assert (Hall : In p (running s ++ released s ++ signalling s))
          by (apply in_or_app; right; exact Hin).
        apply Hp in Hall. lia.
    + intros x Hx. apply in_app_or in Hx.
      destruct Hx as [Hx | [<- | []]]; [apply Ho; exact Hx | exact Hm].
    + exact I.
  - rewrite Htransit. reflexivity.
Qed.

Lemma invariant_manager (s s1 : state) (log : list Z) :
  invariant s -> queue_manager_thread s = Some (s1, log) -> invariant s1.
Proof.
  intros Hinv H. destruct (manager s) eqn:Hpc.
  - destruct Hinv as [Hs Hf Hn Hp Ho Hg Hq Hm].
    unfold live_records, in_transit in *. rewrite Hpc in *.
    unfold queue_manager_thread in H. rewrite Hpc in H.
    destruct ((kernels_to_serve_variable s =? 0)
              || (kernels_are_executable_variable s =? 0)
              || (free_slots_variable s =? 0)
              || match operating_mode s with TRAIN => true | EXECUTION => false end);
      [discriminate |].
    injection H as <- <-. constructor; state_fields; try assumption. lia.
  - destruct Hinv as [Hs Hf Hn Hp Ho Hg Hq Hm].
    unfold live_records, in_transit in *. rewrite Hpc in *.
    unfold queue_manager_thread in H. rewrite Hpc in H.
    injection H as <- <-. constructor; state_fields; assumption.
  - destruct Hinv as [Hs Hf Hn Hp Ho Hg Hq Hm].
    unfold live_records, in_transit in *. rewrite Hpc in *.
    unfold queue_manager_thread in H. rewrite Hpc in H.
    destruct (dequeue_first_executable_kernel (kernel_execution_queue s)
                free_slots_tmp duplicated_kernels_tmp (kernel_tmp s))
      as [[ret q1] d1] eqn:Ed.
    apply dequeue_first_executable_kernel_found in Ed.
    destruct Ed as [(-> & -> & ->) | (-> & Hin & Hcu & Hsub)];
      cbn in H; injection H as <- <-; constructor; state_fields; try assumption.
    + exact I.
    + intros k Hk. apply Hq, Hsub. exact Hk.
    + split; [apply Hq; exact Hin | lia].
  - destruct Hinv as [Hs Hf Hn Hp Ho Hg Hq Hm].
    unfold live_records, in_transit in *. rewrite Hpc in *.
    unfold queue_manager_thread in H. rewrite Hpc in H.
    injection H as <- <-. constructor; state_fields; assumption.
  - destruct Hinv as [Hs Hf Hn Hp Ho Hg Hq Hm].
    unfold live_records, in_transit in *. rewrite Hpc in *.
    unfold queue_manager_thread in H. rewrite Hpc in H.
    injection H as <- <-. constructor; state_fields; assumption.
  - destruct (manager_reserve_step s Hinv Hpc) as (s2 & Hstep & Hinv2 & _).
    rewrite Hstep in H. injection H as <- <-. exact Hinv2.
  - destruct (manager_select_step s Hinv Hpc) as (s2 & Hstep & Hinv2 & _).
    rewrite Hstep in H. injection H as <- <-. exact Hinv2.
  - destruct (manager_handoff_step s Hinv Hpc) as (s2 & Hstep & Hinv2 & _).
    rewrite Hstep in H. injection H as <- <-. exact Hinv2.
  - destruct Hinv as [Hs Hf Hn Hp Ho Hg Hq Hm].
    unfold live_records, in_transit in *. rewrite Hpc in *.
    unfold queue_manager_thread in H. rewrite Hpc in H.
    injection H as <- <-. constructor; state_fields; assumption.
Qed.

(** A worker releases the slots of its record. *)
Lemma worker_release_step (s : state) (p : kernel_ptr) :
  invariant s -> In p (running s) ->
  exists s1,
    execution_thread_release p s = Some s1 /\
    invariant s1 /\
    free_slots_variable s1 = free_slots_variable s /\
    popcount (slot_id (record_at s p)) = cu (record_at s p) /\
    (forall i, 0 <= i ->
               entry (slots_in_use s1) i
               = entry (slots_in_use s) i - bit (slot_id (record_at s p)) i) /\
    live_bits s1 = live_bits s - cu (record_at s p) /\
    in_transit s1 = in_transit s + cu (record_at s p).
Proof.
  intros [Hs Hf Hn Hp Ho Hg Hq Hm] Hin.
  assert (Hlt : (p < length (nodes (kernel_output_queue s)))%nat)
    by (apply Hp; apply in_or_app; left; exact Hin).
  unfold execution_thread_release.
  rewrite (proj2 (holds_spec p (running s)) Hin). cbn [negb].
  rewrite (record_lookup s p Hlt).
  set (r := record_at s p) in *.
  set (rest := match manager s with pc_handoff => [kernel_tmp s] | _ => [] end).
  destruct (remove_first_split p (running s) Hin) as (l1 & l2 & Hrun & Hrem).
  assert (Hlive : live_records s
                  = map (record_at s) l1 ++ r :: (map (record_at s) l2 ++ rest)).
  { unfold live_records. fold rest. rewrite Hrun, map_app. cbn [map].
    rewrite <- app_assoc. reflexivity. }
  rewrite Hlive in Hs.
  destruct (slots_ok_release _ _ _ _ _ Hs) as (Hrel & Hok & Hentry).
  rewrite Hrel. eexists. split; [reflexivity |].
  assert (Hpop : popcount (slot_id r) = cu r).
  { apply (ok_popcount _ _ _ Hs). apply in_or_app. right. left. reflexivity. }
  pose proof (ok_free _ _ _ Hok) as Hfree1.
  assert (Hlive1 :
    map (fun q : kernel_ptr => nth q (nodes (kernel_output_queue s)) no_record)
      (remove_first p (running s)) ++ rest
    = map (record_at s) l1 ++ map (record_at s) l2 ++ rest).
  { rewrite Hrem, map_app, <- app_assoc. reflexivity. }
  assert (Htransit :
    sum_Z (map (fun q : kernel_ptr =>
                  cu (nth q (nodes (kernel_output_queue s)) no_record))
             ((released s ++ [p]) ++ signalling s))
    = sum_Z (map (fun q => cu (record_at s q)) (released s ++ signalling s)) + cu r).
  { rewrite <- app_assoc. cbn [app].
    apply (sum_Z_split _ (fun q => cu (record_at s q))). }
  split; [| split; [reflexivity | split; [exact Hpop | split; [exact Hentry |]]]].
  - constructor; state_fields; fold rest; try assumption.
    + rewrite Hlive1, <- Hfree1. exact Hok.
    + rewrite Htransit. fold rest in Hf. lia.
    + intros q Hq'. apply Hp. rewrite Hrun. rewrite Hrem in Hq'.
      rewrite !in_app_iff in *. cbn [In] in *. intuition.
  - split.
    + unfold live_bits. rewrite Hlive. state_fields. fold rest. rewrite Hlive1.
      rewrite (sum_Z_split _ (fun k => popcount (slot_id k))). lia.
    + state_fields. rewrite Htransit. lia.
Qed.

(** A worker decrements the entry of its label in the duplication table. *)
Lemma worker_unmark_step (s : state) (p : kernel_ptr) :
  invariant s -> In p (released s) ->
  exists s1,
    execution_thread_unmark p s = Some s1 /\
    invariant s1 /\
    free_slots_variable s1 = free_slots_variable s /\
    slots_in_use s1 = slots_in_use s /\
    live_records s1 = live_records s /\
    in_transit s1 = in_transit s.
Proof.
  intros [Hs Hf Hn Hp Ho Hg Hq Hm] Hin.
  assert (Hlt : (p < length (nodes (kernel_output_queue s)))%nat).
  { apply Hp. rewrite !in_app_iff. auto. }
  unfold execution_thread_unmark.
  rewrite (proj2 (holds_spec p (released s)) Hin). cbn [negb].
  rewrite (record_lookup s p Hlt).
  destruct (remove_first_split p (released s) Hin) as (l1 & l2 & Hrel & Hrem).
  eexists. split; [reflexivity |].
  assert (Htransit :
    sum_Z (map (fun q : kernel_ptr =>
                  cu (nth q (nodes (kernel_output_queue s)) no_record))
             (remove_first p (released s) ++ signalling s ++ [p]))
    = sum_Z (map (fun q => cu (record_at s q)) (released s ++ signalling s))).
  { rewrite Hrem, Hrel. unfold record_at.
    rewrite <- !app_assoc. cbn [app].
    rewrite (sum_Z_split _ _ l1 (l2 ++ signalling s) p).
    rewrite !map_app, !sum_Z_app. cbn [map]. unfold sum_Z. cbn [fold_right]. lia. }
  state_fields.
  split; [| split; [reflexivity | split; [reflexivity | split; [reflexivity |]]]].
  - constructor; state_fields; try assumption.
    + rewrite Htransit. exact Hf.
    + intros q Hq'. apply Hp. rewrite Hrel. rewrite Hrem in Hq'.
      rewrite !in_app_iff in *. cbn [In] in *. intuition.
  - rewrite Htransit. reflexivity.
Qed.

(** A worker gives the width of its record back to [free_slots_variable]
    and returns. *)
Lemma worker_signal_step (s : state) (p : kernel_ptr) :
  invariant s -> In p (signalling s) ->
  exists s1,
    execution_thread_signal p s = Some s1 /\
    invariant s1 /\
    free_slots_variable s1 = free_slots_variable s + cu (record_at s p) /\
    slots_in_use s1 = slots_in_use s /\
    live_records s1 = live_records s /\
    in_transit s1 = in_transit s - cu (record_at s p).
Proof.
  intros [Hs Hf Hn Hp Ho Hg Hq Hm] Hin.
  assert (Hlt : (p < length (nodes (kernel_output_queue s)))%nat).
  { apply Hp. rewrite !in_app_iff. auto. }
  pose proof (record_at_width s p Ho Hlt) as Hw.
  unfold execution_thread_signal.
  rewrite (proj2 (holds_spec p (signalling s)) Hin). cbn [negb].
  rewrite (record_lookup s p Hlt).
  set (r := record_at s p) in *.
  destruct (remove_first_split p (signalling s) Hin) as (l1 & l2 & Hsig & Hrem).
  eexists. split; [reflexivity |].
  assert (Htransit :
    sum_Z (map (fun q : kernel_ptr =>
                  cu (nth q (nodes (kernel_output_queue s)) no_record))
             (released s ++ remove_first p (signalling s)))
    = sum_Z (map (fun q => cu (record_at s q)) (released s ++ signalling s)) - cu r).
  { rewrite Hrem, Hsig. unfold r, record_at.
    rewrite !app_assoc.
    rewrite (sum_Z_split _ _ (released s ++ l1) l2 p). lia. }
  state_fields.
  split; [| split; [reflexivity | split; [reflexivity | split; [reflexivity |]]]].
  - constructor; state_fields; try assumption.
    + rewrite Htransit. lia.
    + lia.
    + intros q Hq'. apply Hp. rewrite Hsig. rewrite Hrem in Hq'.
      rewrite !in_app_iff in *. cbn [In] in *. intuition.
    + destruct (manager s); try exact I; try lia; try assumption;
        (destruct Hm as [Hrec Hfit]; split; [exact Hrec | lia]).
  - rewrite Htransit. lia.
Qed.

Lemma invariant_step (e : event) (s s1 : state) :
  invariant s -> step e s = Some s1 -> invariant s1.
Proof.
  intros Hinv H. destruct e; cbn [step] in H.
  - eapply invariant_generate; eassumption.
  - eapply invariant_arrival; eassumption.
  - eapply invariant_signal; eassumption.
  - destruct (queue_manager_thread s) as [[s2 log] |] eqn:E; [| discriminate].
    injection H as <-. eapply invariant_manager; eassumption.
  - assert (Hin : In kernel (running s)).
    { unfold execution_thread_release in H.
      destruct (holds kernel (running s)) eqn:Ex; [| discriminate].
      apply holds_spec. exact Ex. }
    destruct (worker_release_step s kernel Hinv Hin) as (s2 & Hstep & Hinv2 & _).
    rewrite Hstep in H. injection H as <-. exact Hinv2.
  - assert (Hin : In kernel (released s)).
    { unfold execution_thread_unmark in H.
      destruct (holds kernel (released s)) eqn:Ex; [| discriminate].
      apply holds_spec. exact Ex. }
    destruct (worker_unmark_step s kernel Hinv Hin) as (s2 & Hstep & Hinv2 & _).
    rewrite Hstep in H. injection H as <-. exact Hinv2.
  - assert (Hin : In kernel (signalling s)).
    { unfold execution_thread_signal in H.
      destruct (holds kernel (signalling s)) eqn:Ex; [| discriminate].
      apply holds_spec. exact Ex. }
    destruct (worker_signal_step s kernel Hinv Hin) as (s2 & Hstep & Hinv2 & _).
    rewrite Hstep in H. injection H as <-. exact Hinv2.
  - eapply invariant_monitor; eassumption.
Qed.

Lemma invariant_run (es : list event) :
  forall s s1, invariant s -> run es s = Some s1 -> invariant s1.
Proof.
  induction es as [| e es IH]; intros s s1 Hinv H; cbn [run] in H.
  - injection H as <-. exact Hinv.
  - destruct (step e s) as [s2 |] eqn:E; [| discriminate].
    apply (IH s2 s1); [eapply invariant_step; eassumption | exact H].
Qed.

Lemma invariant_reachable (s : state) : reachable s -> invariant s.
Proof.
  intros (local & timer & es & H).
  apply (invariant_run es _ _ (invariant_initial local timer) H).
Qed.

Lemma sum_Z_positive (A : Type) (f : A -> Z) (l : list A) :
  (forall x, In x l -> 1 <= f x) -> Z.of_nat (length l) <= sum_Z (map f l).
Proof.
  induction l as [| x l IH]; intros H; [cbn; lia |].
  cbn [map sum_Z fold_right length]. fold (sum_Z (map f l)).
  pose proof (H x (or_introl eq_refl)).
  assert (Z.of_nat (length l) <= sum_Z (map f l))
    by (apply IH; intros y Hy; apply H; right; exact Hy).
  lia.
Qed.

(** The slots in transit are those of the workers between the release of
    their slots and the increment of [free_slots_variable], and those of
    the manager between the decrement and the selection. *)
Lemma in_transit_zero (s : state) :
  invariant s ->
  0 <= in_transit s /\
  (in_transit s = 0 <->
   manager s <> pc_select /\ released s = [] /\ signalling s = []).
Proof.
  intros [Hs Hf Hn Hp Ho Hg Hq Hm]. unfold in_transit.
  set (workers := sum_Z (map (fun p => cu (record_at s p))
                           (released s ++ signalling s))).
  assert (Hw : Z.of_nat (length (released s ++ signalling s)) <= workers).
  { apply sum_Z_positive. intros p Hin. apply record_at_width; [exact Ho |].
    apply Hp. rewrite !in_app_iff in *. tauto. }
  assert (Hempty : released s = [] /\ signalling s = [] -> workers = 0).
  { intros [E1 E2]. unfold workers. rewrite E1, E2. reflexivity. }
  assert (Hnone : workers = 0 -> released s = [] /\ signalling s = []).
  { intros Hz. rewrite length_app in Hw.
    destruct (released s); destruct (signalling s); cbn [length] in Hw;
      try lia. split; reflexivity. }
  destruct (manager s) eqn:Hpc;
    try (split; [lia |]; split;
         [ intros Hz; split; [discriminate | apply Hnone; lia]
         | intros (_ & E1 & E2); rewrite (Hempty (conj E1 E2)); reflexivity ]).
  pose proof (producer_record_width _ Hm) as Hcu.
  split; [lia |]. split; [intros Hz; lia |].
  intros (Hne & _). contradiction Hne. reflexivity.
Qed.

(** C4, amended: in every reachable state the bits set in the slot masks
    of the live records, [free_slots_variable] and the slots in transit
    make [NUM_SLOTS].  The slots in transit are those a dispatch has taken
    from [free_slots_variable] without having selected them yet, and those
    a worker has released without having given them back yet; there are
    none exactly when the manager does not stand between the two and no
    worker does, and at these points the live bits plus
    [free_slots_variable] equal [NUM_SLOTS].  Every slot is busy exactly
    when one live record holds it.  A dispatch of a record of width [cu]
    takes [cu] from [free_slots_variable] and then turns exactly the [cu]
    slots of the new mask from free to busy; the completion of a live
    record of width [cu] turns exactly the [cu] slots of its mask from busy
    to free and then adds [cu] to [free_slots_variable].  None of these
    steps fails. *)
Theorem slot_conservation (s : state) :
  reachable s ->
  live_bits s + free_slots_variable s + in_transit s = NUM_SLOTS /\
  0 <= in_transit s /\
  (in_transit s = 0 <->
   manager s <> pc_select /\ released s = [] /\ signalling s = []) /\
  (in_transit s = 0 -> live_bits s + free_slots_variable s = NUM_SLOTS) /\
  (forall i, 0 <= i -> entry (slots_in_use s) i = owners (live_records s) i) /\
  (forall i, entry (slots_in_use s) i = 0 \/ entry (slots_in_use s) i = 1) /\
  (manager s = pc_reserve ->
   exists s1,
     step ev_manager s = Some s1 /\
     manager s1 = pc_select /\
     free_slots_variable s1 = free_slots_variable s - cu (kernel_tmp s) /\
     slots_in_use s1 = slots_in_use s /\
     live_records s1 = live_records s /\
     in_transit s1 = in_transit s + cu (kernel_tmp s)) /\
  (manager s = pc_select ->
   exists s1,
     step ev_manager s = Some s1 /\
     free_slots_variable s1 = free_slots_variable s /\
     live_records s1 = live_records s ++ [kernel_tmp s1] /\
     live_bits s1 = live_bits s + cu (kernel_tmp s) /\
     cu (kernel_tmp s1) = cu (kernel_tmp s) /\
     popcount (slot_id (kernel_tmp s1)) = cu (kernel_tmp s1) /\
     (forall i, 0 <= i ->
                entry (slots_in_use s1) i
                = entry (slots_in_use s) i + bit (slot_id (kernel_tmp s1)) i) /\
     in_transit s1 = in_transit s - cu (kernel_tmp s)) /\
  (forall p, In p (running s) ->
   exists s1,
     step (ev_release p) s = Some s1 /\
     free_slots_variable s1 = free_slots_variable s /\
     popcount (slot_id (record_at s p)) = cu (record_at s p) /\
     (forall i, 0 <= i ->
                entry (slots_in_use s1) i
                = entry (slots_in_use s) i - bit (slot_id (record_at s p)) i) /\
     live_bits s1 = live_bits s - cu (record_at s p) /\
     in_transit s1 = in_transit s + cu (record_at s p)) /\
  (forall p, In p (signalling s) ->
   exists s1,
     step (ev_complete p) s = Some s1 /\
     free_slots_variable s1 = free_slots_variable s + cu (record_at s p) /\
     slots_in_use s1 = slots_in_use s /\
     live_records s1 = live_records s /\
     in_transit s1 = in_transit s - cu (record_at s p)).
Proof.
  intros Hreach. pose proof (invariant_reachable s Hreach) as Hinv.
  pose proof (inv_slots s Hinv) as Hs.
  assert (Hall : live_bits s + free_slots_variable s + in_transit s = NUM_SLOTS).
  { pose proof (ok_conservation _ _ _ Hs) as Hc.
    pose proof (inv_free s Hinv) as Hf. unfold live_bits. lia. }
  destruct (in_transit_zero s Hinv) as [Hpos Hzero].
  split; [exact Hall |].
  split; [exact Hpos |].
  split; [exact Hzero |].
  split; [intros Hz; lia |].
  split; [exact (ok_owners _ _ _ Hs) |].
  split; [intros i; apply entry_binary; exact (ok_binary _ _ _ Hs) |].
  split; [| split; [| split]].
  - intros Hpc.
    destruct (manager_reserve_step s Hinv Hpc)
      as (s1 & Hstep & _ & Hfree & Hslots & Hlive & Htr).
    exists s1. cbn [step]. rewrite Hstep.
    split; [reflexivity |].
    split; [| auto].
    unfold queue_manager_thread in Hstep. rewrite Hpc in Hstep.
    injection Hstep as <-. reflexivity.
  - intros Hpc.
    destruct (manager_select_step s Hinv Hpc)
      as (s1 & Hstep & _ & Hfree & Hlive & Hcu & Hpop & Hentry & Htr).
    exists s1. cbn [step]. rewrite Hstep.
    split; [reflexivity |]. split; [exact Hfree |]. split; [exact Hlive |].
    split.
    { unfold live_bits. rewrite Hlive, map_app, sum_Z_app.
      cbn [map sum_Z fold_right]. rewrite Hpop. lia. }
    split; [exact Hcu |]. split; [rewrite Hcu; exact Hpop |].
    split; [exact Hentry | exact Htr].
  - intros p Hin.
    destruct (worker_release_step s p Hinv Hin)
      as (s1 & Hstep & _ & Hfree & Hpop & Hentry & Hbits & Htr).
    exists s1. cbn [step]. auto 10.
  - intros p Hin.
    destruct (worker_signal_step s p Hinv Hin)
      as (s1 & Hstep & _ & Hfree & Hslots & Hlive & Htr).
    exists s1. cbn [step]. auto 10.
Qed.

Lemma sample_state_reachable : reachable sample_state.
Proof.
  exists no_record, (mk_timespec 1 0), sample_events. vm_compute. reflexivity.
Qed.

(** On the sample: the record of width 2 holds slots 0 and 1 (mask 3), 5
    slots are counted free, and the slot of the record of width 1 in the
    manager's hand is reserved but not selected yet. *)
Lemma sample_state_values :
  manager sample_state = pc_select /\
  cu (kernel_tmp sample_state) = 1 /\
  slots_in_use sample_state = [1; 1; 0; 0; 0; 0; 0; 0] /\
  free_slots_variable sample_state = 5 /\
  in_transit sample_state = 1 /\
  map slot_id (live_records sample_state) = [3] /\
  running sample_state = [0%nat].
Proof. vm_compute. repeat split; reflexivity. Qed.

Lemma sample_reserve_state_reachable : reachable sample_reserve_state.
Proof.
  exists no_record, (mk_timespec 1 0), sample_reserve_events.
  vm_compute. reflexivity.
Qed.

Lemma sample_completing_state_reachable : reachable sample_completing_state.
Proof.
  exists no_record, (mk_timespec 1 0), sample_completing_events.
  vm_compute. reflexivity.
Qed.

(** The four steps of C4 on the run of the sample.  The manager, about to
    reserve the slot of the second kernel with 6 slots counted free,
    leaves 5; its selection then marks slot 2 (mask 4) and the live bits
    go from 2 to 3.  The worker of the first kernel frees slots 0 and 1
    (mask 3), the live bits go from 2 to 0, and its completion takes
    [free_slots_variable] from 5 to 7. *)
Lemma slot_conservation_witness :
  (reachable sample_reserve_state /\
   manager sample_reserve_state = pc_reserve /\
   free_slots_variable sample_reserve_state = 6 /\
   exists s1,
     step ev_manager sample_reserve_state = Some s1 /\
     manager s1 = pc_select /\
     free_slots_variable s1 = 5 /\
     slots_in_use s1 = [1; 1; 0; 0; 0; 0; 0; 0] /\
     in_transit s1 = 1) /\
  (reachable sample_state /\
   manager sample_state = pc_select /\
   live_bits sample_state + free_slots_variable sample_state = 7 /\
   (exists s1,
      step ev_manager sample_state = Some s1 /\
      free_slots_variable s1 = 5 /\
      live_bits s1 = 3 /\
      slot_id (kernel_tmp s1) = 4 /\
      slots_in_use s1 = [1; 1; 1; 0; 0; 0; 0; 0] /\
      in_transit s1 = 0) /\
   (exists s1,
      step (ev_release 0%nat) sample_state = Some s1 /\
      free_slots_variable s1 = 5 /\
      live_bits s1 = 0 /\
      slots_in_use s1 = [0; 0; 0; 0; 0; 0; 0; 0] /\
      in_transit s1 = 3)) /\
  (reachable sample_completing_state /\
   signalling sample_completing_state = [0%nat] /\
   exists s1,
     step (ev_complete 0%nat) sample_completing_state = Some s1 /\
     free_slots_variable s1 = 7 /\
     slots_in_use s1 = [0; 0; 0; 0; 0; 0; 0; 0] /\
     in_transit s1 = 1).
Proof.
  split; [| split].
  - pose proof sample_reserve_state_reachable as Hr.
    destruct (slot_conservation sample_reserve_state Hr)
      as (_ & _ & _ & _ & _ & _ & Hres & _).
    destruct (Hres eq_refl) as (s1 & Hstep & Hpc & Hfree & Hslots & _ & Htr).
    split; [exact Hr |]. split; [vm_compute; reflexivity |]. split; [vm_compute; reflexivity |].
    exists s1. split; [exact Hstep |]. split; [exact Hpc |].
    split; [rewrite Hfree; vm_compute; reflexivity |].
    split; [rewrite Hslots; vm_compute; reflexivity |].
    rewrite Htr. vm_compute. reflexivity.
  - pose proof sample_state_reachable as Hr.
    destruct (slot_conservation sample_state Hr)
      as (_ & _ & _ & _ & _ & _ & _ & Hsel & Hrel & _).
    split; [exact Hr |]. split; [vm_compute; reflexivity |]. split; [vm_compute; reflexivity |].
    split.
    + destruct (Hsel eq_refl)
        as (s1 & Hstep & Hfree & _ & Hbits & _ & _ & _ & Htr).
      exists s1. split; [exact Hstep |].
      split; [rewrite Hfree; vm_compute; reflexivity |].
      split; [rewrite Hbits; vm_compute; reflexivity |].
      assert (Hs1 : Some s1 = step ev_manager sample_state)
        by (symmetry; exact Hstep).
      vm_compute in Hs1. injection Hs1 as ->.
      split; [vm_compute; reflexivity |]. split; vm_compute; reflexivity.
    + assert (Hin : In 0%nat (running sample_state))
        by (vm_compute; left; reflexivity).
      destruct (Hrel 0%nat Hin)
        as (s1 & Hstep & Hfree & _ & _ & Hbits & Htr).
      exists s1. split; [exact Hstep |].
      split; [rewrite Hfree; vm_compute; reflexivity |].
      split; [rewrite Hbits; vm_compute; reflexivity |].
      assert (Hs1 : Some s1 = step (ev_release 0%nat) sample_state)
        by (symmetry; exact Hstep).
      vm_compute in Hs1. injection Hs1 as ->.
      split; vm_compute; reflexivity.
  - pose proof sample_completing_state_reachable as Hr.
    destruct (slot_conservation sample_completing_state Hr)
      as (_ & _ & _ & _ & _ & _ & _ & _ & _ & Hsig).
    split; [exact Hr |]. split; [vm_compute; reflexivity |].
    assert (Hin : In 0%nat (signalling sample_completing_state))
      by (vm_compute; left; reflexivity).
    destruct (Hsig 0%nat Hin)
      as (s1 & Hstep & Hfree & Hslots & _ & Htr).
    exists s1. split; [exact Hstep |].
    split; [rewrite Hfree; vm_compute; reflexivity |].
    split; [rewrite Hslots; vm_compute; reflexivity |].
    rewrite Htr. vm_compute. reflexivity.
Defined.

(** C4 as stated fails: two points at which the live bits and
    [free_slots_variable] do not make [NUM_SLOTS].  Right after the completion of the first kernel has
    given its 2 slots back, while the manager has taken the slot of the
    second kernel from [free_slots_variable] and not selected it yet: no
    live bit, 7 slots counted free.  Right after the manager has selected
    the slot of the second kernel, while the worker of the first has
    released its 2 slots and not given them back yet: 1 live bit, 5 slots
    counted free. *)
Lemma slot_conservation_in_transit :
  (reachable sample_completing_state /\
   step (ev_complete 0%nat) sample_completing_state = Some sample_transit_state /\
   reachable sample_transit_state /\
   live_bits sample_transit_state = 0 /\
   free_slots_variable sample_transit_state = 7 /\
   live_bits sample_transit_state + free_slots_variable sample_transit_state
   <> NUM_SLOTS) /\
  (step ev_manager sample_completing_state = Some sample_allocated_state /\
   reachable sample_allocated_state /\
   live_bits sample_allocated_state = 1 /\
   free_slots_variable sample_allocated_state = 5 /\
   live_bits sample_allocated_state + free_slots_variable sample_allocated_state
   <> NUM_SLOTS).
Proof.
  split.
  - split; [exact sample_completing_state_reachable |].
    split; [vm_compute; reflexivity |].
    split; [exists no_record, (mk_timespec 1 0),
              (sample_completing_events ++ [ev_complete 0%nat]);
            vm_compute; reflexivity |].
    split; [vm_compute; reflexivity |]. split; [vm_compute; reflexivity |].
    vm_compute. discriminate.
  - split; [vm_compute; reflexivity |].
    split; [exists no_record, (mk_timespec 1 0),
              (sample_completing_events ++ [ev_manager]);
            vm_compute; reflexivity |].
    split; [vm_compute; reflexivity |]. split; [vm_compute; reflexivity |].
    vm_compute. discriminate.
Qed.

(** ** The wake-up flag *)

(** What a step of another thread leaves of the manager's position and
    locals, and what it does to the flag. *)
Lemma other_step_frame (e : event) (s s1 : state) :
  other_thread e -> step e s = Some s1 ->
  manager s1 = manager s /\ kernels_count s1 = kernels_count s /\
  kernel_tmp s1 = kernel_tmp s /\
  kernels_are_executable_variable s1
  = if sets_flag e then 1 else kernels_are_executable_variable s.
Proof.
  intros He H. destruct e; cbn [step sets_flag] in *.
  - unfold main_generate in H.
    destruct (new_kernel initial i label executions inter_arrival rand
                (schedule_timer s)) as [aux timer1].
    unfold enqueue in H. cbn in H. injection H as <-. state_fields. auto.
  - unfold main_arrival, dequeue in H.
    destruct (arrival_pending s); [discriminate |].
    destruct (nodes (kernel_generation_queue s)); [cbn in H; discriminate |].
    unfold enqueue in H. cbn in H. injection H as <-. state_fields. auto.
  - unfold main_signal in H.
    destruct (arrival_pending s); [| discriminate].
    injection H as <-. state_fields. auto.
  - exfalso. apply He. reflexivity.
  - unfold execution_thread_release in H.
    destruct (negb (holds kernel (running s))); [discriminate |].
    destruct (nth_error (nodes (kernel_output_queue s)) kernel) as [k |];
      [| discriminate].
    destruct (release_slots (cu k) (slot_id k) 0 0 (slots_in_use s)); [| discriminate].
    injection H as <-. state_fields. auto.
  - unfold execution_thread_unmark in H.
    destruct (negb (holds kernel (released s))); [discriminate |].
    destruct (nth_error (nodes (kernel_output_queue s)) kernel) as [k |];
      [| discriminate].
    injection H as <-. state_fields. auto.
  - unfold execution_thread_signal in H.
    destruct (negb (holds kernel (signalling s))); [discriminate |].
    destruct (nth_error (nodes (kernel_output_queue s)) kernel) as [k |];
      [| discriminate].
    injection H as <-. state_fields. auto.
  - unfold monitoring_thread in H. injection H as <-. state_fields. auto.
Qed.

Lemma other_run_frame (gap : list event) :
  Forall other_thread gap ->
  forall s s1, run gap s = Some s1 ->
    manager s1 = manager s /\ kernels_count s1 = kernels_count s /\
    kernel_tmp s1 = kernel_tmp s /\
    kernels_are_executable_variable s1
    = if existsb sets_flag gap then 1 else kernels_are_executable_variable s.
Proof.
  induction 1 as [| e gap He Hgap IH]; intros s s1 H; cbn [run existsb] in *.
  - injection H as <-. auto.
  - destruct (step e s) as [s2 |] eqn:E; [| discriminate].
    destruct (other_step_frame e s s2 He E) as (Hm & Hc & Hk & Hf).
    destruct (IH s2 s1 H) as (Hm1 & Hc1 & Hk1 & Hf1).
    rewrite Hm1, Hc1, Hk1, Hf1, Hm, Hc, Hk, Hf.
    repeat split. destruct (sets_flag e), (existsb sets_flag gap); reflexivity.
Qed.

(** Every step of the manager: where it goes and what it stores into the
    flag. *)
Lemma queue_manager_thread_flag (s s1 : state) (log : list Z) :
  queue_manager_thread s = Some (s1, log) ->
  match manager s with
  | pc_wait =>
      log = [0] /\ kernels_are_executable_variable s1 = 0 /\
      manager s1 = pc_copy (free_slots_variable s) /\
      kernels_count s1 = kernels_count s
  | pc_copy free_slots_tmp =>
      log = [] /\
      kernels_are_executable_variable s1 = kernels_are_executable_variable s /\
      manager s1 = pc_scan free_slots_tmp (duplicated_kernel_variable s) /\
      kernels_count s1 = kernels_count s
  | pc_scan free_slots_tmp duplicated_kernels_tmp =>
      log = [] /\
      kernels_are_executable_variable s1 = kernels_are_executable_variable s /\
      kernels_count s1 = kernels_count s /\
      let ret := fst (fst (dequeue_first_executable_kernel (kernel_execution_queue s)
                             free_slots_tmp duplicated_kernels_tmp (kernel_tmp s))) in
      (ret = -1 /\ manager s1 = pc_wait /\
       kernel_execution_queue s1 = kernel_execution_queue s) \/
      (ret = 0 /\ manager s1 = pc_found)
  | pc_found =>
      log = [1] /\ kernels_are_executable_variable s1 = 1 /\
      manager s1 = pc_mark /\ kernels_count s1 = kernels_count s
  | pc_served =>
      log = [] /\
      kernels_are_executable_variable s1 = kernels_are_executable_variable s /\
      manager s1 = pc_wait /\ kernels_count s1 = kernels_count s + 1
  | _ =>
      log = [] /\
      kernels_are_executable_variable s1 = kernels_are_executable_variable s /\
      dispatching (manager s1) = true /\ kernels_count s1 = kernels_count s
  end.
Proof.
  intros H. unfold queue_manager_thread in H.
  destruct (manager s) eqn:Hpc.
  - destruct ((kernels_to_serve_variable s =? 0)
              || (kernels_are_executable_variable s =? 0)
              || (free_slots_variable s =? 0)
              || match operating_mode s with TRAIN => true | EXECUTION => false end);
      [discriminate |].
    injection H as <- <-. state_fields. auto.
  - injection H as <- <-. state_fields. auto.
  - destruct (dequeue_first_executable_kernel (kernel_execution_queue s)
                free_slots_tmp duplicated_kernels_tmp (kernel_tmp s))
      as [[ret q1] d1] eqn:Ed.
    pose proof (dequeue_first_executable_kernel_found _ _ _ _ _ _ _ Ed) as Hd.
    cbv zeta. cbn [fst].
    destruct Hd as [(-> & -> & ->) | (-> & _)];
      cbn in H; injection H as <- <-; state_fields.
    + split; [reflexivity |]. split; [reflexivity |]. split; [reflexivity |].
      left. split; [reflexivity |]. split; [reflexivity |].
      destruct (kernel_execution_queue s); reflexivity.
    + split; [reflexivity |]. split; [reflexivity |]. split; [reflexivity |].
      right. split; reflexivity.
  - injection H as <- <-. state_fields. auto.
  - injection H as <- <-. state_fields. auto.
  - injection H as <- <-. state_fields. auto.
  - destruct (select_slots (cu (kernel_tmp s)) 0 0 (slots_in_use s)
                (slot_id (kernel_tmp s))) as [slots1 slot_id1].
    injection H as <- <-. state_fields. auto.
  - unfold enqueue_and_modify in H. injection H as <- <-. state_fields. auto.
  - injection H as <- <-. state_fields. auto.
Qed.

(** Past the condition wait no step of the manager blocks. *)
Lemma queue_manager_thread_progress (s : state) :
  manager s <> pc_wait -> exists s1 log, queue_manager_thread s = Some (s1, log).
Proof.
  intros Hpc. unfold queue_manager_thread.
  destruct (manager s); try congruence; try (eexists; eexists; reflexivity).
  - destruct (dequeue_first_executable_kernel (kernel_execution_queue s)
                free_slots_tmp duplicated_kernels_tmp (kernel_tmp s)) as [[ret q1] d1].
    eexists. eexists. reflexivity.
  - destruct (select_slots (cu (kernel_tmp s)) 0 0 (slots_in_use s)
                (slot_id (kernel_tmp s))) as [slots1 slot_id1].
    eexists. eexists. reflexivity.
Qed.

Lemma iteration_inv (gaps : list (list event)) (s s' : state) (log : list Z) :
  iteration gaps s = Some (s', log) ->
  exists gap rest s1 log1,
    gaps = gap :: rest /\ queue_manager_thread s = Some (s1, log1) /\
    ((manager s1 = pc_wait /\ s' = s1 /\ log = log1) \/
     (manager s1 <> pc_wait /\
      exists s2 log2, run gap s1 = Some s2 /\
                      iteration rest s2 = Some (s', log2) /\ log = log1 ++ log2)).
Proof.
  destruct gaps as [| gap rest]; [discriminate |]. cbn [iteration].
  destruct (queue_manager_thread s) as [[s1 log1] |]; [| discriminate].
  intros H. exists gap, rest, s1, log1. split; [reflexivity |]. split; [reflexivity |].
  destruct (manager s1) eqn:Hpc;
    try (right; split; [discriminate |];
         destruct (run gap s1) as [s2 |] eqn:Er; [| discriminate];
         destruct (iteration rest s2) as [[s3 log2] |] eqn:Ei; [| discriminate];
         injection H as <- <-; exists s2, log2; auto).
  left. injection H as <- <-. auto.
Qed.

(** Once the flag is back at 1 the rest of the pass stores nothing into
    it, and nothing can clear it. *)
Lemma iteration_dispatching (gaps : list (list event)) :
  Forall (Forall other_thread) gaps ->
  forall s s' log,
    dispatching (manager s) = true ->
    kernels_are_executable_variable s = 1 ->
    iteration gaps s = Some (s', log) ->
    manager s' = pc_wait /\ log = [] /\
    kernels_are_executable_variable s' = 1 /\
    kernels_count s' = kernels_count s + 1.
Proof.
  induction 1 as [| gap rest Hgap Hrest IH]; intros s s' log Hd Hflag Hit;
    [discriminate |].
  apply iteration_inv in Hit.
  destruct Hit as (g & r & s1 & l1 & E & Hq & Hcase). injection E as <- <-.
  pose proof (queue_manager_thread_flag _ _ _ Hq) as F.
  destruct (manager s) eqn:Hpc; try discriminate Hd.
  1-4: destruct F as (-> & Hf1 & Hd1 & Hc1);
       (destruct Hcase as [(Hw & _) | (_ & s2 & l2 & Hr & Hit2 & ->)];
        [rewrite Hw in Hd1; discriminate |]);
       destruct (other_run_frame gap Hgap _ _ Hr) as (Hm2 & Hc2 & _ & Hf2);
       (assert (Hflag2 : kernels_are_executable_variable s2 = 1)
          by (rewrite Hf2, Hf1, Hflag; destruct (existsb sets_flag gap); reflexivity));
       rewrite <- Hm2 in Hd1;
       destruct (IH s2 s' l2 Hd1 Hflag2 Hit2) as (Hw' & -> & Hf' & Hc');
       repeat split; try assumption; lia.
  destruct F as (-> & Hf1 & Hm1 & Hc1).
  destruct Hcase as [(_ & -> & ->) | (Hn & _)]; [| congruence].
  repeat split; try assumption; congruence.
Qed.

(** C5: in every pass of the queue manager through its loop body, with
    the other threads running between its critical sections, the manager
    stores 0 into [kernels_are_executable_variable] once, in its first
    step, before the scan of the queue.  When the scan finds no executable
    record the pass ends there: the manager has stored nothing else
    ([log = [0]]) and the flag is what the other threads made of it, 1 as
    soon as the producer or a worker stored it since the clearing.  When the
    scan finds a record the manager stores 1 ([log = [0; 1]]) and the pass
    ends with the flag at 1. *)
Theorem manager_iteration_flag (s s' : state) (gaps : list (list event))
    (log : list Z) :
  manager s = pc_wait ->
  Forall (Forall other_thread) gaps ->
  iteration gaps s = Some (s', log) ->
  exists s0 g1 g2 rest sA free_slots_tmp duplicated_kernels_tmp,
    queue_manager_thread s = Some (s0, [0]) /\
    kernels_are_executable_variable s0 = 0 /\
    gaps = g1 :: g2 :: rest /\
    manager sA = pc_scan free_slots_tmp duplicated_kernels_tmp /\
    kernels_are_executable_variable sA
    = (if existsb sets_flag (g1 ++ g2) then 1 else 0) /\
    manager s' = pc_wait /\
    let ret := fst (fst (dequeue_first_executable_kernel (kernel_execution_queue sA)
                           free_slots_tmp duplicated_kernels_tmp (kernel_tmp sA))) in
    (ret = -1 /\ queue_manager_thread sA = Some (s', []) /\ log = [0] /\
     kernels_are_executable_variable s' = kernels_are_executable_variable sA /\
     kernels_count s' = kernels_count s)
    \/
    (ret = 0 /\ log = [0; 1] /\ kernels_are_executable_variable s' = 1 /\
     kernels_count s' = kernels_count s + 1).
Proof.
  intros Hpc Hgaps Hit.
  (* first step: the flag is cleared *)
  apply iteration_inv in Hit. destruct Hit as (g1 & r1 & s0 & l0 & -> & Hq0 & Hcase).
  pose proof (queue_manager_thread_flag _ _ _ Hq0) as F0. rewrite Hpc in F0.
  destruct F0 as (-> & Hf0 & Hm0 & Hc0).
  destruct Hcase as [(Hw & _) | (_ & s0' & lg1 & Hr1 & Hit1 & ->)]; [congruence |].
  inversion Hgaps as [| ? ? Hg1 Hgaps1]; subst.
  destruct (other_run_frame g1 Hg1 _ _ Hr1) as (Hm1 & Hc1 & Hk1 & Hf1).
  (* second step: the table is copied *)
  apply iteration_inv in Hit1.
  destruct Hit1 as (g2 & r2 & sA0 & l1 & -> & Hq1 & Hcase1).
  pose proof (queue_manager_thread_flag _ _ _ Hq1) as F1. rewrite Hm1, Hm0 in F1.
  destruct F1 as (-> & Hf1' & Hm1' & Hc1').
  destruct Hcase1 as [(Hw & _) | (_ & sA & lg2 & Hr2 & Hit2 & ->)]; [congruence |].
  inversion Hgaps1 as [| ? ? Hg2 Hgaps2]; subst.
  destruct (other_run_frame g2 Hg2 _ _ Hr2) as (Hm2 & Hc2 & Hk2 & Hf2).
  (* third step: the scan *)
  apply iteration_inv in Hit2.
  destruct Hit2 as (g3 & r3 & sB & l2 & -> & Hq2 & Hcase2).
  pose proof (queue_manager_thread_flag _ _ _ Hq2) as F2. rewrite Hm2, Hm1' in F2.
  destruct F2 as (-> & Hf2' & Hc2' & Hret). cbv zeta in Hret.
  assert (HfA : kernels_are_executable_variable sA
                = if existsb sets_flag (g1 ++ g2) then 1 else 0).
  { rewrite Hf2, Hf1', Hf1, Hf0, existsb_app.
    destruct (existsb sets_flag g1), (existsb sets_flag g2); reflexivity. }
  exists s0, g1, g2, (g3 :: r3), sA, (free_slots_variable s),
    (duplicated_kernel_variable s0').
  split; [exact Hq0 |]. split; [exact Hf0 |]. split; [reflexivity |].
  split; [rewrite Hm2; exact Hm1' |]. split; [exact HfA |].
  cbv zeta. destruct Hret as [(Hret & HmB & _) | (Hret & HmB)].
  - (* dead end *)
    destruct Hcase2 as [(_ & -> & ->) | (Hn & _)]; [| congruence].
    split; [exact HmB |]. left.
    split; [exact Hret |]. split; [exact Hq2 |]. split; [reflexivity |].
    split; [exact Hf2' |]. congruence.
  - (* a record was found: the flag is set back, the rest stores nothing *)
    destruct Hcase2 as [(Hw & _) | (_ & sB' & lg3 & Hr3 & Hit3 & ->)]; [congruence |].
    inversion Hgaps2 as [| ? ? Hg3 Hgaps3]; subst.
    destruct (other_run_frame g3 Hg3 _ _ Hr3) as (Hm3 & Hc3 & Hk3 & Hf3).
    apply iteration_inv in Hit3.
    destruct Hit3 as (g4 & r4 & sC & l3 & -> & Hq3 & Hcase3).
    pose proof (queue_manager_thread_flag _ _ _ Hq3) as F3. rewrite Hm3, HmB in F3.
    destruct F3 as (-> & Hf3' & Hm3' & Hc3').
    destruct Hcase3 as [(Hw & _) | (_ & sC' & lg4 & Hr4 & Hit4 & ->)]; [congruence |].
    inversion Hgaps3 as [| ? ? Hg4 Hgaps4]; subst.
    destruct (other_run_frame g4 Hg4 _ _ Hr4) as (Hm4 & Hc4 & Hk4 & Hf4).
    assert (Hd4 : dispatching (manager sC') = true) by (rewrite Hm4, Hm3'; reflexivity).
    assert (Hflag4 : kernels_are_executable_variable sC' = 1)
      by (rewrite Hf4, Hf3'; destruct (existsb sets_flag g4); reflexivity).
    destruct (iteration_dispatching r4 Hgaps4 sC' s' lg4 Hd4 Hflag4 Hit4)
      as (Hw' & -> & Hf' & Hc').
    split; [exact Hw' |]. right.
    split; [exact Hret |]. split; [reflexivity |]. split; [exact Hf' | lia].
Qed.

Lemma manager_iteration_flag_witness :
  let s := sample_wait_state in
  let s' := sample_after_pass in
  let gaps := sample_gaps in
  let log := [0] in
  manager s = pc_wait /\
  Forall (Forall other_thread) gaps /\
  iteration gaps s = Some (s', log) /\
  exists s0 g1 g2 rest sA free_slots_tmp duplicated_kernels_tmp,
    queue_manager_thread s = Some (s0, [0]) /\
    kernels_are_executable_variable s0 = 0 /\
    gaps = g1 :: g2 :: rest /\
    manager sA = pc_scan free_slots_tmp duplicated_kernels_tmp /\
    kernels_are_executable_variable sA
    = (if existsb sets_flag (g1 ++ g2) then 1 else 0) /\
    manager s' = pc_wait /\
    let ret := fst (fst (dequeue_first_executable_kernel (kernel_execution_queue sA)
                           free_slots_tmp duplicated_kernels_tmp (kernel_tmp sA))) in
    (ret = -1 /\ queue_manager_thread sA = Some (s', []) /\ log = [0] /\
     kernels_are_executable_variable s' = kernels_are_executable_variable sA /\
     kernels_count s' = kernels_count s)
    \/
    (ret = 0 /\ log = [0; 1] /\ kernels_are_executable_variable s' = 1 /\
     kernels_count s' = kernels_count s + 1).
Proof.
  cbv zeta.
  assert (Hpc : manager sample_wait_state = pc_wait) by (vm_compute; reflexivity).
  assert (Hgaps : Forall (Forall other_thread) sample_gaps).
  { repeat constructor; discriminate. }
  assert (Hit : iteration sample_gaps sample_wait_state = Some (sample_after_pass, [0]))
    by (vm_compute; reflexivity).
  split; [exact Hpc |]. split; [exact Hgaps |]. split; [exact Hit |].
  exact (manager_iteration_flag sample_wait_state sample_after_pass sample_gaps [0]
           Hpc Hgaps Hit).
Defined.

(** On the sample the scan meets only the second kernel of label 3, which
    the copied table still shows as running: the pass ends at the tail, and
    the 1 the completing worker stored is still in the flag. *)
Lemma sample_pass_values :
  kernels_are_executable_variable sample_wait_state = 1 /\
  iteration sample_gaps sample_wait_state = Some (sample_after_pass, [0]) /\
  kernels_are_executable_variable sample_after_pass = 1 /\
  free_slots_variable sample_after_pass = 8 /\
  Z.of_nat (length (nodes (kernel_execution_queue sample_after_pass))) = 1.
Proof. vm_compute. repeat split; reflexivity. Qed.

(** ** Admission *)

(** C7 as stated fails: a record with label 11 (outside
    [[0, TYPES_OF_KERNELS)]) and 0 executions is generated and enqueued, and
    stands in the pending queue. *)
Lemma admission_accepts_any_record :
  exists s1 k,
    run [ev_generate (mk_timespec 1 0) 0 11 0 10 1; ev_arrival no_record; ev_signal]
      (initial_state no_record (mk_timespec 1 0)) = Some s1 /\
    nodes (kernel_execution_queue s1) = [k] /\
    kernels_to_serve_variable s1 = 1 /\
    kernel_label k = 11 /\ ~ (0 <= kernel_label k < TYPES_OF_KERNELS) /\
    num_executions k = 0 /\ ~ (0 < num_executions k).
Proof.
  eexists. eexists. split; [vm_compute; reflexivity |].
  split; [reflexivity |]. split; [reflexivity |].
  cbn [kernel_label num_executions]. unfold TYPES_OF_KERNELS.
  repeat split; lia.
Qed.

(** C7, amended: admission checks neither the label nor the executions
    count.  [main] generates a record with the label and the executions
    count of the workload files, whatever their values, and the admission
    of the record at the head of the generation queue always succeeds: the
    record is appended unchanged at the tail of the pending queue, then
    [kernels_to_serve_variable] is incremented and the flag is set. *)
Theorem admission_unconditional
    (initial : timespec) (i label executions inter_arrival : Z) (rand : nat)
    (aux0 : kernel_data) (s : state) :
  (exists s1 k,
      main_generate initial i label executions inter_arrival rand s = Some s1 /\
      nodes (kernel_generation_queue s1) = nodes (kernel_generation_queue s) ++ [k] /\
      kernel_label k = label /\ num_executions k = executions) /\
  (forall k rest,
      arrival_pending s = false ->
      nodes (kernel_generation_queue s) = k :: rest ->
      exists s1 s2,
        main_arrival aux0 s = Some s1 /\
        nodes (kernel_generation_queue s1) = rest /\
        nodes (kernel_execution_queue s1) = nodes (kernel_execution_queue s) ++ [k] /\
        main_signal s1 = Some s2 /\
        kernel_execution_queue s2 = kernel_execution_queue s1 /\
        kernels_to_serve_variable s2 = kernels_to_serve_variable s + 1 /\
        kernels_are_executable_variable s2 = 1).
Proof.
  split.
  - unfold main_generate, new_kernel, enqueue. cbn.
    eexists. eexists. split; [reflexivity |]. state_fields.
    split; [reflexivity |]. split; reflexivity.
  - intros k rest Hpend Hq. unfold main_arrival, dequeue, enqueue.
    rewrite Hpend, Hq. cbn.
    eexists. eexists. split; [reflexivity |]. state_fields.
    split; [reflexivity |]. split; [reflexivity |].
    unfold main_signal. state_fields. split; [reflexivity |]. state_fields. auto.
Qed.

(** Admission of the generated record with label 11 and no execution. *)
Lemma admission_sample :
  exists s1 k,
    main_arrival no_record sample_generated_state = Some s1 /\
    nodes (kernel_execution_queue s1) = [k] /\
    kernel_label k = 11 /\ num_executions k = 0.
Proof.
  eexists. eexists. split; [vm_compute; reflexivity |].
  repeat split; reflexivity.
Qed.

(* ================================================================== *)
(** * Part III. Further properties of the helpers and of the scheduler *)
(* ================================================================== *)

(** ** support.c: comparisons, differences and sums of timespecs *)

Ltac timespec_cases :=
  repeat match goal with
         | |- context [Z.eqb ?x ?y] => destruct (Z.eqb_spec x y)
         | |- context [Z.ltb ?x ?y] => destruct (Z.ltb_spec x y)
         | |- context [Z.leb ?x ?y] => destruct (Z.leb_spec x y)
         end.

(** X1: the three comparisons of support.c describe one total order: for
    any two timespecs exactly one of [greater_than_timespec],
    [less_than_timespec] and [equal_to_timespec] answers true, and
    "greater" is "less" with the arguments exchanged. *)
Theorem timespec_comparisons_trichotomy (a b : timespec) :
  greater_than_timespec a b = less_than_timespec b a /\
  ((greater_than_timespec a b = true /\ less_than_timespec a b = false /\
    equal_to_timespec a b = false) \/
   (greater_than_timespec a b = false /\ less_than_timespec a b = true /\
    equal_to_timespec a b = false) \/
   (greater_than_timespec a b = false /\ less_than_timespec a b = false /\
    equal_to_timespec a b = true)).
Proof.
  unfold greater_than_timespec, less_than_timespec, equal_to_timespec.
  rewrite !Z.gtb_ltb.
  split.
  - timespec_cases; cbn [andb]; try reflexivity; lia.
  - timespec_cases; cbn [andb]; try lia;
      first [ left; repeat split; reflexivity
            | right; left; repeat split; reflexivity
            | right; right; repeat split; reflexivity ].
Qed.

(** X2: on normalized timespecs (0 <= tv_nsec < NS_PER_SECOND) the three
    comparisons are the comparisons of the times in nanoseconds. *)
Theorem timespec_comparisons_nanoseconds (a b : timespec) :
  normalized a -> normalized b ->
  greater_than_timespec a b = (timespec_ns a >? timespec_ns b) /\
  less_than_timespec a b = (timespec_ns a <? timespec_ns b) /\
  equal_to_timespec a b = (timespec_ns a =? timespec_ns b).
Proof.
  unfold normalized, timespec_ns, greater_than_timespec, less_than_timespec,
    equal_to_timespec, NS_PER_SECOND.
  intros Ha Hb. rewrite !Z.gtb_ltb.
  repeat split; timespec_cases; cbn [andb]; try reflexivity; lia.
Qed.

Lemma timespec_comparisons_nanoseconds_witness :
  let a := mk_timespec 4 200000000 in
  let b := mk_timespec 3 900000000 in
  normalized a /\ normalized b /\
  greater_than_timespec a b = (timespec_ns a >? timespec_ns b) /\
  less_than_timespec a b = (timespec_ns a <? timespec_ns b) /\
  equal_to_timespec a b = (timespec_ns a =? timespec_ns b).
Proof.
  assert (Ha : normalized (mk_timespec 4 200000000))
    by (unfold normalized, NS_PER_SECOND; simpl; lia).
  assert (Hb : normalized (mk_timespec 3 900000000))
    by (unfold normalized, NS_PER_SECOND; simpl; lia).
  split; [exact Ha |]. split; [exact Hb |].
  exact (timespec_comparisons_nanoseconds _ _ Ha Hb).
Defined.

Lemma diff_timespec_spec (start stop : timespec) :
  normalized start -> normalized stop ->
  normalized (diff_timespec start stop) /\
  timespec_ns (diff_timespec start stop) = timespec_ns stop - timespec_ns start.
Proof.
  unfold normalized, timespec_ns, diff_timespec, NS_PER_SECOND.
  intros Ha Hb.
  destruct (Z.ltb_spec (tv_nsec stop - tv_nsec start) 0);
    cbn [tv_sec tv_nsec]; lia.
Qed.

(** X3: [diff_timespec] of two normalized timespecs is normalized and is
    exactly the difference in nanoseconds, whatever the order of the two;
    its [tv_sec] is negative exactly when the end precedes the start. *)
Theorem diff_timespec_exact (start stop : timespec) :
  normalized start -> normalized stop ->
  normalized (diff_timespec start stop) /\
  timespec_ns (diff_timespec start stop) = timespec_ns stop - timespec_ns start /\
  (tv_sec (diff_timespec start stop) < 0 <-> less_than_timespec stop start = true).
Proof.
  unfold normalized, timespec_ns, diff_timespec, less_than_timespec, NS_PER_SECOND.
  intros Ha Hb.
  destruct (Z.ltb_spec (tv_nsec stop - tv_nsec start) 0); cbn [tv_sec tv_nsec];
    (split; [lia |]); (split; [lia |]);
    timespec_cases; split; intros; try lia; try reflexivity; try discriminate.
Qed.

Lemma diff_timespec_exact_witness :
  let start := mk_timespec 4 700000000 in
  let stop := mk_timespec 6 200000000 in
  normalized start /\ normalized stop /\
  normalized (diff_timespec start stop) /\
  timespec_ns (diff_timespec start stop) = timespec_ns stop - timespec_ns start /\
  (tv_sec (diff_timespec start stop) < 0 <-> less_than_timespec stop start = true).
Proof.
  assert (Ha : normalized (mk_timespec 4 700000000))
    by (unfold normalized, NS_PER_SECOND; simpl; lia).
  assert (Hb : normalized (mk_timespec 6 200000000))
    by (unfold normalized, NS_PER_SECOND; simpl; lia).
  split; [exact Ha |]. split; [exact Hb |].
  exact (diff_timespec_exact _ _ Ha Hb).
Defined.

(** X4: adding an elapsed time back to its start, for normalized start and
    end: [add_timespec start (diff_timespec start end)] is [end] again
    unless [end] is on a whole second while [start] is not (then the sum
    carries NS_PER_SECOND in [tv_nsec] instead of the next second); in
    nanoseconds the sum is always the end. *)
Theorem add_diff_timespec_round_trip (start stop : timespec) :
  normalized start -> normalized stop ->
  timespec_ns (add_timespec start (diff_timespec start stop)) = timespec_ns stop /\
  (add_timespec start (diff_timespec start stop) = stop <->
   ~ (tv_nsec stop = 0 /\ 0 < tv_nsec start)) /\
  (tv_nsec stop = 0 -> 0 < tv_nsec start ->
   add_timespec start (diff_timespec start stop)
   = mk_timespec (tv_sec stop - 1) NS_PER_SECOND).
Proof.
  unfold normalized, timespec_ns, add_timespec, diff_timespec, NS_PER_SECOND.
  intros Ha Hb. destruct stop as [s2 n2], start as [s1 n1].
  cbn [tv_sec tv_nsec] in *.
  rewrite !Z.gtb_ltb.
  destruct (Z.ltb_spec (n2 - n1) 0); cbn [tv_sec tv_nsec];
    match goal with
    | |- context [Z.ltb ?x ?y] => destruct (Z.ltb_spec x y)
    end; cbn [tv_sec tv_nsec].
  all: split; [lia |].
  all: split;
    [ split;
      [ intros E; pose proof (f_equal tv_nsec E) as En; cbn [tv_nsec] in En; lia
      | intros N; try (apply f_equal2; lia);
        exfalso; apply N; lia ]
    | intros; try (apply f_equal2; lia); exfalso; lia ].
Qed.

Lemma add_diff_timespec_round_trip_witness :
  let start := mk_timespec 4 700000000 in
  let stop := mk_timespec 6 0 in
  normalized start /\ normalized stop /\
  timespec_ns (add_timespec start (diff_timespec start stop)) = timespec_ns stop /\
  (add_timespec start (diff_timespec start stop) = stop <->
   ~ (tv_nsec stop = 0 /\ 0 < tv_nsec start)) /\
  (tv_nsec stop = 0 -> 0 < tv_nsec start ->
   add_timespec start (diff_timespec start stop)
   = mk_timespec (tv_sec stop - 1) NS_PER_SECOND).
Proof.
  assert (Ha : normalized (mk_timespec 4 700000000))
    by (unfold normalized, NS_PER_SECOND; simpl; lia).
  assert (Hb : normalized (mk_timespec 6 0))
    by (unfold normalized, NS_PER_SECOND; simpl; lia).
  split; [exact Ha |]. split; [exact Hb |].
  exact (add_diff_timespec_round_trip _ _ Ha Hb).
Defined.

(** X5: [update_timer_ms] adds exactly [msec] milliseconds (in
    nanoseconds) to a normalized timer; the result is normalized exactly
    when the remainder of the milliseconds does not take [tv_nsec] below
    zero, in particular for every [msec >= 0]; a negative [msec] with a
    borrow leaves a negative [tv_nsec] in the timer. *)
Theorem update_timer_ms_exact (time : timespec) (msec : Z) :
  normalized time ->
  timespec_ns (update_timer_ms time msec) = timespec_ns time + msec * 1000000 /\
  (normalized (update_timer_ms time msec) <->
   0 <= tv_nsec time + Z.rem msec 1000 * 1000000) /\
  (0 <= msec -> normalized (update_timer_ms time msec)).
Proof.
  unfold normalized, timespec_ns, update_timer_ms, NS_PER_SECOND.
  intros Ht.
  pose proof (Z.quot_rem' msec 1000) as Hm.
  assert (Hr : -1000 < Z.rem msec 1000 < 1000).
  { pose proof (Z.rem_bound_abs msec 1000). lia. }
  assert (Hpos : 0 <= msec -> 0 <= Z.rem msec 1000).
  { intros Hp. pose proof (Z.rem_bound_pos msec 1000 Hp). lia. }
  set (nsec := tv_nsec time + Z.rem msec 1000 * 1000000) in *.
  destruct (Z.geb_spec nsec 1000000000) as [Hge | Hlt]; cbn [tv_sec tv_nsec].
  - pose proof (Z.quot_rem' nsec 1000000000) as Hq.
    assert (Hb : 0 <= Z.rem nsec 1000000000 < 1000000000)
      by (apply Z.rem_bound_pos; lia).
    repeat split; intros; lia.
  - repeat split; intros; lia.
Qed.

Lemma update_timer_ms_exact_witness :
  let time := mk_timespec 4 700000000 in
  normalized time /\
  timespec_ns (update_timer_ms time 2500) = timespec_ns time + 2500 * 1000000 /\
  (normalized (update_timer_ms time 2500) <->
   0 <= tv_nsec time + Z.rem 2500 1000 * 1000000) /\
  (0 <= 2500 -> normalized (update_timer_ms time 2500)).
Proof.
  assert (Ht : normalized (mk_timespec 4 700000000))
    by (unfold normalized, NS_PER_SECOND; simpl; lia).
  split; [exact Ht |].
  exact (update_timer_ms_exact _ 2500 Ht).
Defined.

(** X6: the running total of elapsed times kept by the monitoring loop
    ([add_timespec] of the [diff_timespec] of each iteration's stamps),
    started from a total whose [tv_nsec] is between 0 and NS_PER_SECOND
    inclusive, is exact in nanoseconds and keeps its [tv_nsec] in that
    range: the missing carry of [add_timespec] at exactly one second never
    accumulates. *)
Theorem total_elapsed_exact (stamps : list (timespec * timespec)) (total : timespec) :
  0 <= tv_nsec total <= NS_PER_SECOND ->
  Forall (fun p => normalized (fst p) /\ normalized (snd p)) stamps ->
  0 <= tv_nsec (total_elapsed total stamps) <= NS_PER_SECOND /\
  timespec_ns (total_elapsed total stamps)
  = timespec_ns total
    + sum_Z (map (fun p => timespec_ns (snd p) - timespec_ns (fst p)) stamps).
Proof.
  revert total.
  induction stamps as [| [start stop] rest IH]; intros total Ht Hs.
  - cbn [total_elapsed map]. unfold sum_Z. cbn [fold_right]. lia.
  - inversion Hs as [| ? ? [Ha Hb] Hrest]; subst. cbn [fst snd] in Ha, Hb.
    destruct (diff_timespec_spec start stop Ha Hb) as [Hn Hd].
    cbn [total_elapsed map fst snd].
    assert (Hstep : 0 <= tv_nsec (add_timespec total (diff_timespec start stop))
                    <= NS_PER_SECOND).
    { unfold add_timespec, normalized, NS_PER_SECOND in *. rewrite Z.gtb_ltb.
      match goal with
      | |- context [Z.ltb ?x ?y] => destruct (Z.ltb_spec x y)
      end; cbn [tv_sec tv_nsec]; lia. }
    destruct (IH _ Hstep Hrest) as [Hb1 Hb2].
    split; [exact Hb1 |].
    rewrite Hb2, add_timespec_ns, Hd.
    unfold sum_Z. cbn [fold_right]. fold (sum_Z (map (fun p => timespec_ns (snd p) - timespec_ns (fst p)) rest)). lia.
Qed.

Lemma total_elapsed_exact_witness :
  let stamps := [(mk_timespec 4 700000000, mk_timespec 5 200000000);
                 (mk_timespec 6 100000000, mk_timespec 6 600000000)] in
  let total := mk_timespec 0 0 in
  0 <= tv_nsec total <= NS_PER_SECOND /\
  Forall (fun p => normalized (fst p) /\ normalized (snd p)) stamps /\
  0 <= tv_nsec (total_elapsed total stamps) <= NS_PER_SECOND /\
  timespec_ns (total_elapsed total stamps)
  = timespec_ns total
    + sum_Z (map (fun p => timespec_ns (snd p) - timespec_ns (fst p)) stamps).
Proof.
  assert (Ht : 0 <= tv_nsec (mk_timespec 0 0) <= NS_PER_SECOND)
    by (unfold NS_PER_SECOND; simpl; lia).
  assert (Hs : Forall (fun p => normalized (fst p) /\ normalized (snd p))
                 [(mk_timespec 4 700000000, mk_timespec 5 200000000);
                  (mk_timespec 6 100000000, mk_timespec 6 600000000)])
    by (repeat constructor; unfold normalized, NS_PER_SECOND; simpl; lia).
  split; [exact Ht |]. split; [exact Hs |].
  exact (total_elapsed_exact _ _ Ht Hs).
Defined.

Lemma checked_long_some (z : Z) :
  - LONG_MAX - 1 <= z <= LONG_MAX -> checked_long z = Some z.
Proof.
  intros H. unfold checked_long.
  destruct (Z.leb_spec (- LONG_MAX - 1) z); [| lia].
  destruct (Z.leb_spec z LONG_MAX); [reflexivity | lia].
Qed.

(** X7: for a time of at least 0 and at most [LONG_MAX] nanoseconds whose
    seconds, taken in nanoseconds, are in the range of [long], and a
    positive divisor, [divide_timespec] returns a normalized, non-negative
    timespec that is the quotient in nanoseconds rounded down: divisor *
    result <= time < divisor * (result + 1 ns). *)
Theorem divide_timespec_floor (divident : timespec) (divisor : Z) :
  - LONG_MAX - 1 <= tv_sec divident * NS_PER_SECOND <= LONG_MAX ->
  0 <= timespec_ns divident <= LONG_MAX ->
  0 < divisor ->
  exists r,
    divide_timespec divident divisor = Some r /\
    normalized r /\ 0 <= tv_sec r /\
    divisor * timespec_ns r <= timespec_ns divident
    < divisor * timespec_ns r + divisor.
Proof.
  unfold timespec_ns, divide_timespec, normalized. intros Hp Ht Hd.
  rewrite (checked_long_some _ Hp).
  rewrite checked_long_some by lia.
  destruct (Z.eqb_spec divisor 0) as [E | _]; [lia |].
  set (total := tv_sec divident * NS_PER_SECOND + tv_nsec divident) in *.
  set (q := Z.quot total divisor).
  assert (Hq : 0 <= q) by (apply Z.quot_pos; lia).
  pose proof (Z.quot_rem' total divisor) as Hqr. fold q in Hqr.
  pose proof (Z.rem_bound_pos total divisor (proj1 Ht) Hd) as Hrem.
  assert (Hle : q <= total).
  { assert (1 * q <= divisor * q) by (apply Z.mul_le_mono_nonneg_r; lia). lia. }
  rewrite checked_long_some by lia.
  pose proof (Z.quot_rem' q NS_PER_SECOND) as Hq2.
  assert (Hr2 : 0 <= Z.rem q NS_PER_SECOND < NS_PER_SECOND)
    by (apply Z.rem_bound_pos; unfold NS_PER_SECOND; lia).
  assert (Hs : 0 <= Z.quot q NS_PER_SECOND)
    by (apply Z.quot_pos; unfold NS_PER_SECOND; lia).
  eexists. split; [reflexivity |]. cbn [tv_sec tv_nsec].
  split; [exact Hr2 |]. split; [exact Hs |].
  replace (Z.quot q NS_PER_SECOND * NS_PER_SECOND + Z.rem q NS_PER_SECOND) with q
    by lia.
  lia.
Qed.

Lemma divide_timespec_floor_witness :
  let divident := mk_timespec 7 500000000 in
  - LONG_MAX - 1 <= tv_sec divident * NS_PER_SECOND <= LONG_MAX /\
  0 <= timespec_ns divident <= LONG_MAX /\ 0 < 4 /\
  exists r,
    divide_timespec divident 4 = Some r /\
    normalized r /\ 0 <= tv_sec r /\
    4 * timespec_ns r <= timespec_ns divident < 4 * timespec_ns r + 4.
Proof.
  assert (Hp : - LONG_MAX - 1 <= tv_sec (mk_timespec 7 500000000) * NS_PER_SECOND
               <= LONG_MAX)
    by (unfold NS_PER_SECOND, LONG_MAX; cbn [tv_sec]; lia).
  assert (Ht : 0 <= timespec_ns (mk_timespec 7 500000000) <= LONG_MAX)
    by (unfold timespec_ns, NS_PER_SECOND, LONG_MAX; cbn [tv_sec tv_nsec]; lia).
  assert (Hd : 0 < 4) by lia.
  split; [exact Hp |]. split; [exact Ht |]. split; [exact Hd |].
  exact (divide_timespec_floor _ 4 Hp Ht Hd).
Defined.

(** From 9223372037 seconds on the product by [NS_PER_SECOND] leaves the
    range of [long]. *)
Lemma divide_timespec_overflow :
  divide_timespec (mk_timespec 9223372037 0) 1 = None /\
  divide_timespec (mk_timespec 9223372036 0) 1
  = Some (mk_timespec 9223372036 0).
Proof. split; vm_compute; reflexivity. Qed.

(** ** queue_ll.c: size field, positions, order *)

Lemma unlink_at_spec (next : list kernel_data) :
  forall (steps : nat) (prev : kernel_data),
    unlink_at steps prev next =
    match nth_error next steps with
    | Some found => Some (found, prev :: without_nth steps next)
    | None => None
    end.
Proof.
  induction next as [| tmp after IH]; intros steps prev.
  - destruct steps; reflexivity.
  - destruct steps as [| k]; [reflexivity |].
    cbn [unlink_at nth_error]. rewrite IH.
    destruct (nth_error after k); reflexivity.
Qed.

Lemma without_nth_length (l : list kernel_data) :
  forall (pos : nat) (found : kernel_data),
    nth_error l pos = Some found ->
    S (length (without_nth pos l)) = length l.
Proof.
  induction l as [| x l IH]; intros pos found H.
  - destruct pos; discriminate.
  - destruct pos as [| k].
    + reflexivity.
    + cbn [nth_error] in H. unfold without_nth in *.
      cbn [firstn skipn app length]. f_equal. exact (IH k found H).
Qed.

Lemma dequeue_from_closed (q : queue) (pos : Z) (d : kernel_data) :
  0 < pos ->
  dequeue_from q pos d =
  match nth_error (nodes q) (Z.to_nat pos) with
  | Some found =>
      Some (0, mk_queue (without_nth (Z.to_nat pos) (nodes q)) (size q - 1), found)
  | None => Some (-1, q, d)
  end.
Proof.
  intros Hpos. unfold dequeue_from.
  destruct (nodes q) as [| head next] eqn:Hq.
  - destruct (Z.to_nat pos); reflexivity.
  - destruct (Z.eqb_spec pos 0) as [E | _]; [lia |].
    destruct (Z.ltb_spec pos 0) as [E | _]; [lia |].
    rewrite unlink_at_spec.
    replace (Z.to_nat pos) with (S (Z.to_nat (pos - 1))) by lia.
    cbn [nth_error].
    destruct (nth_error next (Z.to_nat (pos - 1))); reflexivity.
Qed.

Lemma walk_to_spec (next : list kernel_data) :
  forall (steps : nat) (tmp : kernel_data),
    walk_to steps tmp next = nth_error (tmp :: next) steps.
Proof.
  induction next as [| x after IH]; intros steps tmp.
  - destruct steps as [| [| k]]; reflexivity.
  - destruct steps as [| k]; [reflexivity |].
    cbn [walk_to nth_error]. apply IH.
Qed.

Lemma get_kernel_info_from_closed (q : queue) (pos : Z) (d : kernel_data) :
  get_kernel_info_from q pos d =
  match nth_error (nodes q) (Z.to_nat pos) with
  | Some found => (0, found)
  | None => (-1, d)
  end.
Proof.
  unfold get_kernel_info_from.
  destruct (nodes q) as [| head next].
  - destruct (Z.to_nat pos); reflexivity.
  - rewrite walk_to_spec. reflexivity.
Qed.

Lemma scan_rest_split (free_slots : Z) (dup : Z -> Z) (next : list kernel_data) :
  forall prev,
    match scan_rest free_slots dup prev next with
    | Some (found, chain) =>
        exists l1 l2,
          next = l1 ++ found :: l2 /\ chain = prev :: l1 ++ l2 /\
          cu found <= free_slots /\ dup (kernel_label found) <> 1 /\
          forall x, In x l1 ->
                    free_slots < cu x \/ dup (kernel_label x) <> 0
    | None =>
        forall x, In x next -> free_slots < cu x \/ dup (kernel_label x) <> 0
    end.
Proof.
  induction next as [| tmp after IH]; intros prev.
  - cbn [scan_rest]. intros x [].
  - cbn [scan_rest]. rewrite Z.gtb_ltb.
    destruct (Z.ltb_spec free_slots (cu tmp)) as [Hw | Hw];
      [| destruct (Z.eqb_spec (dup (kernel_label tmp)) 1) as [Hd | Hd] ];
      cbn [orb].
    1, 2: specialize (IH tmp);
      destruct (scan_rest free_slots dup tmp after) as [[found chain] |];
      [ destruct IH as (l1 & l2 & E1 & E2 & Hfit & Hnot & Hskip);
        exists (tmp :: l1), l2; subst; repeat split; try assumption; try reflexivity;
        intros x [<- | Hx]; [ lia | exact (Hskip x Hx) ]
      | intros x [<- | Hx]; [ lia | exact (IH x Hx) ] ].
    exists [], after. repeat split; try reflexivity; try lia.
    intros x [].
Qed.

(** What a call of [dequeue_first_executable_kernel] does to the chain. *)
Lemma dequeue_first_executable_kernel_split
    (q : queue) (free_slots : Z) (dup : Z -> Z) (d : kernel_data)
    (ret : Z) (q1 : queue) (d1 : kernel_data) :
  dequeue_first_executable_kernel q free_slots dup d = (ret, q1, d1) ->
  (ret = -1 /\ q1 = q /\ d1 = d /\
   forall x, In x (nodes q) ->
             free_slots < cu x \/ dup (kernel_label x) <> 0) \/
  (ret = 0 /\
   exists l1 l2,
     nodes q = l1 ++ d1 :: l2 /\ nodes q1 = l1 ++ l2 /\
     size q1 = size q - 1 /\ cu d1 <= free_slots /\
     dup (kernel_label d1) <> 1 /\
     (forall x, In x l1 ->
                free_slots < cu x \/ dup (kernel_label x) <> 0)).
Proof.
  unfold dequeue_first_executable_kernel.
  destruct (nodes q) as [| tmp next] eqn:Hq.
  - intros H. injection H as <- <- <-. left. repeat split. intros x [].
  - destruct (Z.leb_spec (cu tmp) free_slots) as [Hw | Hw];
      [ destruct (Z.eqb_spec (dup (kernel_label tmp)) 0) as [Hd | Hd] |];
      cbn [andb].
    + intros H. injection H as <- <- <-. right. split; [reflexivity |].
      exists [], next. repeat split; try reflexivity; try assumption; try lia.
      intros x [].
    + pose proof (scan_rest_split free_slots dup next tmp) as Hs.
      destruct (scan_rest free_slots dup tmp next) as [[found chain] |];
        intros H; injection H as <- <- <-.
      * destruct Hs as (l1 & l2 & E1 & E2 & Hfit & Hnot & Hskip). subst. right.
        split; [reflexivity |]. exists (tmp :: l1), l2.
        repeat split; try reflexivity; try assumption.
        intros x [<- | Hx]; [right; exact Hd | exact (Hskip x Hx)].
      * left. repeat split.
        intros x [<- | Hx]; [right; exact Hd | exact (Hs x Hx)].
    + pose proof (scan_rest_split free_slots dup next tmp) as Hs.
      destruct (scan_rest free_slots dup tmp next) as [[found chain] |];
        intros H; injection H as <- <- <-.
      * destruct Hs as (l1 & l2 & E1 & E2 & Hfit & Hnot & Hskip). subst. right.
        split; [reflexivity |]. exists (tmp :: l1), l2.
        repeat split; try reflexivity; try assumption.
        intros x [<- | Hx]; [left; exact Hw | exact (Hskip x Hx)].
      * left. repeat split.
        intros x [<- | Hx]; [left; exact Hw | exact (Hs x Hx)].
Qed.

(** X8: the [size] field counts the nodes after every operation of
    queue_ll.c that adds or removes a record anywhere but through
    [dequeue_from] at position 0: [init_queue], [clean_queue], [enqueue],
    [enqueue_and_modify], [dequeue], [dequeue_from] at a position past the
    head and [dequeue_first_executable_kernel] keep it in step, and on such
    a queue [is_queue_empty] answers 1 exactly when [get_size_queue] is 0. *)
Theorem queue_size_counts_nodes (q : queue) (d : kernel_data) (pos free_slots : Z)
    (dup : Z -> Z) :
  queue_ok q ->
  queue_ok init_queue /\ queue_ok (clean_queue q) /\
  queue_ok (snd (enqueue q d)) /\
  queue_ok (snd (enqueue_and_modify q d)) /\
  queue_ok (snd (fst (dequeue q d))) /\
  (0 < pos -> forall ret q1 d1,
      dequeue_from q pos d = Some (ret, q1, d1) -> queue_ok q1) /\
  queue_ok (snd (fst (dequeue_first_executable_kernel q free_slots dup d))) /\
  (is_queue_empty q = 1 <-> get_size_queue q = 0).
Proof.
  unfold queue_ok. intros Hok.
  split; [reflexivity |]. split; [reflexivity |].
  split; [cbn [enqueue snd nodes size]; rewrite length_app; cbn [length]; lia |].
  split; [cbn [enqueue_and_modify snd nodes size]; rewrite length_app;
          cbn [length]; lia |].
  split.
  { unfold dequeue. destruct (nodes q) as [| tmp next] eqn:Hq.
    - cbn [fst snd]. rewrite Hq. exact Hok.
    - cbn [fst snd nodes size]. cbn [length] in Hok. lia. }
  split.
  { intros Hpos ret q1 d1 H. rewrite (dequeue_from_closed q pos d Hpos) in H.
    destruct (nth_error (nodes q) (Z.to_nat pos)) as [found |] eqn:Hn.
    - injection H as <- <- <-. cbn [nodes size].
      pose proof (without_nth_length _ _ _ Hn). lia.
    - injection H as <- <- <-. exact Hok. }
  split.
  { destruct (dequeue_first_executable_kernel q free_slots dup d)
      as [[ret q1] d1] eqn:Ed.
    apply dequeue_first_executable_kernel_split in Ed. cbn [fst snd].
    destruct Ed as [(_ & -> & _) | (_ & l1 & l2 & E1 & E2 & Es & _)];
      [exact Hok |].
    rewrite Es, E2. rewrite E1 in Hok. rewrite length_app in *.
    cbn [length] in Hok. lia. }
  unfold is_queue_empty, get_size_queue.
  destruct (nodes q) as [| tmp next]; cbn [length] in Hok; split; intros; lia.
Qed.

Lemma queue_size_counts_nodes_witness :
  let q := mk_queue [sample_kernel 0 1; sample_kernel 1 2] 2 in
  let d := sample_kernel 5 2 in
  queue_ok q /\
  queue_ok init_queue /\ queue_ok (clean_queue q) /\
  queue_ok (snd (enqueue q d)) /\
  queue_ok (snd (enqueue_and_modify q d)) /\
  queue_ok (snd (fst (dequeue q d))) /\
  (0 < 1 -> forall ret q1 d1,
      dequeue_from q 1 d = Some (ret, q1, d1) -> queue_ok q1) /\
  queue_ok (snd (fst (dequeue_first_executable_kernel q 1 (fun _ => 0) d))) /\
  (is_queue_empty q = 1 <-> get_size_queue q = 0).
Proof.
  assert (Hok : queue_ok (mk_queue [sample_kernel 0 1; sample_kernel 1 2] 2))
    by reflexivity.
  split; [exact Hok |].
  exact (queue_size_counts_nodes _ (sample_kernel 5 2) 1 1 (fun _ => 0) Hok).
Defined.

(** X9: [dequeue_from] at a position past the head removes exactly the
    record at that position (head == 0), keeps the order of the others and
    decrements [size] once; a position past the end returns -1 and leaves
    the queue and the out-parameter untouched. *)
Theorem dequeue_from_position (q : queue) (pos : Z) (d : kernel_data) :
  0 < pos ->
  (Z.to_nat pos < length (nodes q))%nat ->
  exists found,
    nth_error (nodes q) (Z.to_nat pos) = Some found /\
    dequeue_from q pos d
    = Some (0, mk_queue (firstn (Z.to_nat pos) (nodes q)
                         ++ skipn (S (Z.to_nat pos)) (nodes q)) (size q - 1),
            found) /\
    forall far, Z.of_nat (length (nodes q)) <= far ->
                dequeue_from q far d = Some (-1, q, d).
Proof.
  intros Hpos Hlen.
  destruct (nth_error (nodes q) (Z.to_nat pos)) as [found |] eqn:Hn.
  - exists found. split; [reflexivity |]. split.
    + rewrite (dequeue_from_closed q pos d Hpos), Hn. reflexivity.
    + intros far Hfar.
      assert (Hf : 0 < far) by lia.
      rewrite (dequeue_from_closed q far d Hf).
      assert (Hnone : nth_error (nodes q) (Z.to_nat far) = None)
        by (apply nth_error_None; lia).
      rewrite Hnone. reflexivity.
  - apply nth_error_None in Hn. lia.
Qed.

Lemma dequeue_from_position_witness :
  let q := mk_queue [sample_kernel 0 1; sample_kernel 1 2; sample_kernel 2 4] 3 in
  let d := sample_kernel 5 2 in
  0 < 1 /\
  (Z.to_nat 1 < length (nodes q))%nat /\
  exists found,
    nth_error (nodes q) (Z.to_nat 1) = Some found /\
    dequeue_from q 1 d
    = Some (0, mk_queue (firstn (Z.to_nat 1) (nodes q)
                         ++ skipn (S (Z.to_nat 1)) (nodes q)) (size q - 1),
            found) /\
    forall far, Z.of_nat (length (nodes q)) <= far ->
                dequeue_from q far d = Some (-1, q, d).
Proof.
  assert (Hpos : 0 < 1) by lia.
  assert (Hlen : (Z.to_nat 1
                  < length (nodes (mk_queue [sample_kernel 0 1; sample_kernel 1 2;
                                             sample_kernel 2 4] 3)))%nat)
    by (vm_compute; lia).
  split; [exact Hpos |]. split; [exact Hlen |].
  exact (dequeue_from_position _ 1 (sample_kernel 5 2) Hpos Hlen).
Defined.

(** X10: [get_kernel_info_from] copies the record at position [pos]
    (head == 0) without changing the queue, reads the head for a negative
    position, returns -1 with the out-parameter untouched past the end or
    on an empty queue, and reports exactly the record that [dequeue_from]
    removes at the same position. *)
Theorem get_kernel_info_from_position (q : queue) (pos : Z) (d : kernel_data) :
  get_kernel_info_from q pos d =
  match nth_error (nodes q) (Z.to_nat pos) with
  | Some found => (0, found)
  | None => (-1, d)
  end /\
  (pos < 0 -> get_kernel_info_from q pos d = get_kernel_info_from q 0 d) /\
  (0 <= pos -> forall ret q1 d1,
      dequeue_from q pos d = Some (ret, q1, d1) ->
      get_kernel_info_from q pos d = (ret, d1)).
Proof.
  split; [apply get_kernel_info_from_closed |]. split.
  - intros Hneg. rewrite !get_kernel_info_from_closed.
    replace (Z.to_nat pos) with (Z.to_nat 0) by lia. reflexivity.
  - intros Hpos ret q1 d1 H. rewrite get_kernel_info_from_closed.
    destruct (Z.eq_dec pos 0) as [-> | Hne].
    + unfold dequeue_from, dequeue in H. cbn [Z.to_nat].
      destruct (nodes q) as [| head next]; cbn [nth_error].
      * injection H as <- <- <-. reflexivity.
      * cbn [Z.eqb Z.ltb Z.compare] in H. injection H as <- <- <-. reflexivity.
    + assert (Hp : 0 < pos) by lia.
      rewrite (dequeue_from_closed q pos d Hp) in H.
      destruct (nth_error (nodes q) (Z.to_nat pos));
        injection H as <- <- <-; reflexivity.
Qed.

(** X11: [dequeue_first_executable_kernel], for any duplication table:
    the record it returns fits in the free slots, the records before it
    are all non-executable (too wide or their label marked), the order of
    the remaining records is kept, and it answers -1 only when no pending
    record is executable, leaving the queue unchanged. *)
Theorem dequeue_first_executable_kernel_fair
    (q : queue) (free_slots : Z) (dup : Z -> Z) (d : kernel_data)
    (ret : Z) (q1 : queue) (d1 : kernel_data) :
  dequeue_first_executable_kernel q free_slots dup d = (ret, q1, d1) ->
  (ret = -1 /\ q1 = q /\ d1 = d /\
   forall x, In x (nodes q) -> executable free_slots dup x = false) \/
  (ret = 0 /\
   exists l1 l2,
     nodes q = l1 ++ d1 :: l2 /\ nodes q1 = l1 ++ l2 /\
     size q1 = size q - 1 /\ cu d1 <= free_slots /\
     forall x, In x l1 -> executable free_slots dup x = false).
Proof.
  assert (Hex : forall x, free_slots < cu x \/ dup (kernel_label x) <> 0 ->
                          executable free_slots dup x = false).
  { intros x Hx. unfold executable.
    destruct (Z.leb_spec (cu x) free_slots); cbn [andb]; [| reflexivity].
    destruct (Z.eqb_spec (dup (kernel_label x)) 0); [lia | reflexivity]. }
  intros H. apply dequeue_first_executable_kernel_split in H.
  destruct H as [(-> & -> & -> & Hall)
                | (-> & l1 & l2 & E1 & E2 & Es & Hfit & _ & Hskip)].
  - left. repeat split. intros x Hx. apply Hex, Hall, Hx.
  - right. split; [reflexivity |]. exists l1, l2.
    repeat split; try assumption.
    intros x Hx. apply Hex, Hskip, Hx.
Qed.

Lemma dequeue_first_executable_kernel_fair_witness :
  let q := mk_queue [sample_kernel 0 4; sample_kernel 1 1; sample_kernel 2 1] 3 in
  let d := sample_kernel 5 2 in
  let q1 := mk_queue [sample_kernel 0 4; sample_kernel 2 1] 2 in
  let d1 := sample_kernel 1 1 in
  dequeue_first_executable_kernel q 2 (fun _ => 0) d = (0, q1, d1) /\
  ((0 = -1 /\ q1 = q /\ d1 = d /\
    forall x, In x (nodes q) -> executable 2 (fun _ => 0) x = false) \/
   (0 = 0 /\
    exists l1 l2,
      nodes q = l1 ++ d1 :: l2 /\ nodes q1 = l1 ++ l2 /\
      size q1 = size q - 1 /\ cu d1 <= 2 /\
      forall x, In x l1 -> executable 2 (fun _ => 0) x = false)).
Proof.
  assert (H : dequeue_first_executable_kernel
                (mk_queue [sample_kernel 0 4; sample_kernel 1 1; sample_kernel 2 1] 3)
                2 (fun _ => 0) (sample_kernel 5 2)
              = (0, mk_queue [sample_kernel 0 4; sample_kernel 2 1] 2,
                 sample_kernel 1 1))
    by reflexivity.
  split; [exact H |].
  exact (dequeue_first_executable_kernel_fair _ _ _ _ _ _ _ H).
Defined.

(** ** support.c: [save_output] *)

Lemma save_records_closed (count : nat) :
  forall (q : queue) (d : kernel_data) (file : list kernel_data),
    (count <= length (nodes q))%nat ->
    save_records count q d file
    = Some (mk_queue (skipn count (nodes q)) (size q - Z.of_nat count),
            file ++ firstn count (nodes q)).
Proof.
  induction count as [| c IH]; intros q d file Hc.
  - destruct q as [l sz]. cbn [save_records skipn firstn nodes size Z.of_nat].
    rewrite app_nil_r, Z.sub_0_r. reflexivity.
  - cbn [save_records]. unfold dequeue.
    destruct (nodes q) as [| tmp next] eqn:Hq; [cbn in Hc; lia |].
    cbn [Z.ltb Z.compare]. rewrite IH by (cbn [nodes length] in *; lia).
    cbn [nodes size skipn firstn]. rewrite <- app_assoc. cbn [app].
    do 2 f_equal. f_equal. lia.
Qed.

Lemma save_records_short (count : nat) :
  forall (q : queue) (d : kernel_data) (file : list kernel_data),
    (length (nodes q) < count)%nat -> save_records count q d file = None.
Proof.
  induction count as [| c IH]; intros q d file Hc; [lia |].
  cbn [save_records]. unfold dequeue.
  destruct (nodes q) as [| tmp next] eqn:Hq; [reflexivity |].
  cbn [Z.ltb Z.compare]. apply IH. cbn [nodes length] in *. lia.
Qed.

Lemma enqueue_all_closed (ds : list kernel_data) :
  forall q, enqueue_all q ds
            = mk_queue (nodes q ++ ds) (size q + Z.of_nat (length ds)).
Proof.
  unfold enqueue_all.
  induction ds as [| d ds IH]; intros q.
  - destruct q as [l sz]. cbn [fold_left nodes size length Z.of_nat].
    rewrite app_nil_r, Z.add_0_r. reflexivity.
  - cbn [fold_left]. rewrite IH. cbn [enqueue snd nodes size].
    rewrite <- app_assoc. cbn [app length]. f_equal. lia.
Qed.

(** X12: [save_output] writes the first [size] records of the queue, in
    queue order, and leaves the queue empty; records beyond the [size]
    field are freed unwritten by the final [clean_queue], and a [size]
    larger than the number of nodes makes it exit. *)
Theorem save_output_writes_size_records (q : queue) (d : kernel_data) :
  save_output q d =
  if (Z.to_nat (size q) <=? length (nodes q))%nat
  then Some (init_queue, firstn (Z.to_nat (size q)) (nodes q))
  else None.
Proof.
  unfold save_output, get_size_queue.
  destruct (Nat.leb_spec (Z.to_nat (size q)) (length (nodes q))) as [Hle | Hgt].
  - rewrite save_records_closed by exact Hle. reflexivity.
  - rewrite save_records_short by exact Hgt. reflexivity.
Qed.

(** X13: round trip through the kernel queue: after any records have been
    enqueued on a queue whose [size] counts its nodes, [save_output] writes
    the former content followed by the new records, each once and in the
    order of the [enqueue] calls, and empties the queue. *)
Theorem enqueue_save_output_round_trip (q : queue) (ds : list kernel_data)
    (d : kernel_data) :
  queue_ok q ->
  save_output (enqueue_all q ds) d = Some (init_queue, nodes q ++ ds).
Proof.
  unfold queue_ok. intros Hok.
  rewrite enqueue_all_closed. unfold save_output, get_size_queue.
  cbn [size nodes].
  assert (E : Z.to_nat (size q + Z.of_nat (length ds)) = length (nodes q ++ ds))
    by (rewrite length_app; lia).
  rewrite E, save_records_closed by (cbn [nodes]; lia).
  cbn [nodes app]. rewrite firstn_all. reflexivity.
Qed.

Lemma enqueue_save_output_round_trip_witness :
  let ds := [sample_kernel 0 1; sample_kernel 1 2] in
  queue_ok init_queue /\
  save_output (enqueue_all init_queue ds) (sample_kernel 5 2)
  = Some (init_queue, nodes init_queue ++ ds).
Proof.
  assert (Hok : queue_ok init_queue) by reflexivity.
  split; [exact Hok |].
  exact (enqueue_save_output_round_trip init_queue
           [sample_kernel 0 1; sample_kernel 1 2] (sample_kernel 5 2) Hok).
Defined.

(** ** queue_traces.c and the monitor info file *)

Lemma monitor_windows_closed (windows : list monitor_data) :
  forall (q : queue_monitor) (count : Z),
    monitor_windows windows q count
    = (mk_queue_monitor (nodes_monitor q ++ windows)
         (size_monitor q + Z.of_nat (length windows)),
       count + Z.of_nat (length windows)).
Proof.
  induction windows as [| w ws IH]; intros q count.
  - destruct q as [l sz].
    cbn [monitor_windows nodes_monitor size_monitor length Z.of_nat].
    rewrite app_nil_r, !Z.add_0_r. reflexivity.
  - cbn [monitor_windows]. rewrite IH.
    cbn [enqueue_monitor snd nodes_monitor size_monitor].
    rewrite <- app_assoc. cbn [app length]. f_equal; [f_equal |]; lia.
Qed.

Lemma write_monitor_info_closed (count : nat) :
  forall (q : queue_monitor) (w : monitor_data) (file : list monitor_data),
    (count <= length (nodes_monitor q))%nat ->
    write_monitor_info count q w file
    = Some (mk_queue_monitor (skipn count (nodes_monitor q))
              (size_monitor q - Z.of_nat count),
            file ++ firstn count (nodes_monitor q)).
Proof.
  induction count as [| c IH]; intros q w file Hc.
  - destruct q as [l sz].
    cbn [write_monitor_info skipn firstn nodes_monitor size_monitor Z.of_nat].
    rewrite app_nil_r, Z.sub_0_r. reflexivity.
  - cbn [write_monitor_info]. unfold dequeue_monitor.
    destruct (nodes_monitor q) as [| tmp next] eqn:Hq; [cbn in Hc; lia |].
    cbn [Z.ltb Z.compare]. rewrite IH by (cbn [nodes_monitor length] in *; lia).
    cbn [nodes_monitor size_monitor skipn firstn]. rewrite <- app_assoc. cbn [app].
    do 2 f_equal. f_equal. lia.
Qed.

(** X14: the monitoring thread enqueues one window per iteration and
    counts the iterations; at the end its loop of [monitorization_count]
    calls of [dequeue_monitor] never fails, writes every window once in
    the order measured, and leaves the queue empty with [size] 0. *)
Theorem monitor_info_round_trip (windows : list monitor_data) (w : monitor_data) :
  let monitor_info_queue := fst (monitor_windows windows init_queue_monitor 0) in
  let monitorization_count := snd (monitor_windows windows init_queue_monitor 0) in
  monitorization_count = Z.of_nat (length windows) /\
  get_size_queue_monitor monitor_info_queue = monitorization_count /\
  (is_queue_empty_monitor monitor_info_queue = 1 <-> windows = []) /\
  write_monitor_info (Z.to_nat monitorization_count) monitor_info_queue w []
  = Some (init_queue_monitor, windows).
Proof.
  cbv zeta. rewrite monitor_windows_closed.
  cbn [fst snd init_queue_monitor nodes_monitor size_monitor app].
  split; [lia |]. split; [reflexivity |]. split.
  - unfold is_queue_empty_monitor. cbn [nodes_monitor].
    destruct windows; split; intros; try reflexivity; try discriminate; lia.
  - rewrite write_monitor_info_closed by (cbn [nodes_monitor]; lia).
    cbn [nodes_monitor size_monitor app].
    replace (Z.to_nat (0 + Z.of_nat (length windows))) with (length windows) by lia.
    rewrite firstn_all, skipn_all. unfold init_queue_monitor.
    do 2 f_equal. f_equal. lia.
Qed.

(** ** setup.c: selection and release of slots together *)

Lemma release_slots_short (kernel_cu m : Z) (slots : list Z) :
  forall i j, 0 <= j ->
    bits_from j (length slots) m < kernel_cu - i ->
    release_slots kernel_cu m i j slots = None.
Proof.
  induction slots as [| s rest IH]; intros i j Hj Hbits.
  - cbn in *. destruct (Z.ltb_spec i kernel_cu); [reflexivity | lia].
  - cbn [release_slots]. cbn [length bits_from] in Hbits.
    pose proof (bits_from_bounds (length rest) (j + 1) m) as Hb.
    destruct (Z.ltb_spec i kernel_cu) as [Hi | Hi].
    + rewrite land_shiftl_test by exact Hj.
      destruct (Z.testbit m j).
      * rewrite (IH (i + 1) (j + 1)) by lia. reflexivity.
      * rewrite (IH i (j + 1)) by lia. reflexivity.
    + destruct (Z.testbit m j); lia.
Qed.

Lemma first_free_mask_bits (slots : list Z) (n : nat) :
  bits_from 0 (length slots) (mask_of (firstn n (free_indices slots)))
  = Z.of_nat (length (firstn n (free_indices slots))).
Proof.
  unfold free_indices. apply bits_from_first_free.
  intros k Hk. apply testbit_mask_of.
  intros x Hx. apply In_firstn in Hx. apply free_from_bounds in Hx. lia.
Qed.

Lemma clear_mark_first_free (slots : list Z) (n : nat) :
  clear_from 0 (mask_of (firstn n (free_indices slots)))
    (mark_from 0 (firstn n (free_indices slots)) slots)
  = slots.
Proof.
  set (chosen := firstn n (free_indices slots)).
  assert (Hbound : forall x, In x chosen -> 0 <= x)
    by (intros x Hx; apply In_firstn in Hx; apply free_from_bounds in Hx; lia).
  apply nth_ext with (d := 0) (d' := 0).
  - rewrite clear_from_length, mark_from_length. reflexivity.
  - intros k Hk. rewrite clear_from_length, mark_from_length in Hk.
    rewrite nth_clear_from by (rewrite mark_from_length; exact Hk).
    rewrite nth_mark_from by exact Hk.
    rewrite testbit_mask_of by exact Hbound. rewrite Z.add_0_l.
    destruct (chosen_in chosen (Z.of_nat k)) eqn:Hc; [| reflexivity].
    apply chosen_in_true in Hc. apply In_firstn in Hc.
    apply free_indices_spec in Hc. destruct Hc as [_ Hfree].
    unfold entry in Hfree. destruct (Z.ltb_spec (Z.of_nat k) 0); [lia |].
    rewrite Nat2Z.id in Hfree. symmetry. exact Hfree.
Qed.

(** X15: releasing what was just selected restores the slot table: when
    [cu] slots are free, the release loop of [execution_thread] run on the
    mask and the table produced by the selection loop of
    [queue_manager_thread] never leaves the table and gives back the table
    as it was before the selection. *)
Theorem select_release_round_trip (kernel_cu : Z) (slots : list Z) :
  1 <= kernel_cu <= count_free slots ->
  (length slots <= 31)%nat ->
  release_slots kernel_cu (snd (select_slots kernel_cu 0 0 slots 0)) 0 0
    (fst (select_slots kernel_cu 0 0 slots 0))
  = Some slots.
Proof.
  intros Hcu _. unfold count_free in Hcu.
  rewrite select_slots_closed by lia. cbn [fst snd].
  rewrite Z.sub_0_r, Z.lor_0_l. fold (free_indices slots).
  rewrite release_slots_closed.
  - rewrite clear_mark_first_free. reflexivity.
  - lia.
  - rewrite mark_from_length, first_free_mask_bits, length_firstn. lia.
Qed.

Lemma select_release_round_trip_witness :
  let slots := [1; 0; 0; 1; 0; 0; 0; 0] in
  1 <= 2 <= count_free slots /\
  (length slots <= 31)%nat /\
  release_slots 2 (snd (select_slots 2 0 0 slots 0)) 0 0
    (fst (select_slots 2 0 0 slots 0))
  = Some slots.
Proof.
  assert (H1 : 1 <= 2 <= count_free [1; 0; 0; 1; 0; 0; 0; 0]) by (vm_compute; split; discriminate).
  assert (H2 : (length [1; 0; 0; 1; 0; 0; 0; 0] <= 31)%nat) by (cbn [length]; lia).
  split; [exact H1 |]. split; [exact H2 |].
  exact (select_release_round_trip 2 _ H1 H2).
Defined.

(** X16: what the test [cu <= free_slots] of the scan protects: asked for
    more slots than are free, the selection loop takes every free slot,
    returns a mask with fewer than [cu] bits and reports nothing; the
    release loop run later on that mask walks off the end of the table. *)
Theorem select_slots_overcommitted (kernel_cu : Z) (slots : list Z) :
  count_free slots < kernel_cu ->
  (length slots <= 31)%nat ->
  let slots1 := fst (select_slots kernel_cu 0 0 slots 0) in
  let slot_id1 := snd (select_slots kernel_cu 0 0 slots 0) in
  count_free slots1 = 0 /\
  bits_from 0 (length slots) slot_id1 = count_free slots /\
  release_slots kernel_cu slot_id1 0 0 slots1 = None.
Proof.
  intros Hcu _. cbv zeta. unfold count_free in *.
  assert (Hpos : 0 < kernel_cu) by lia.
  rewrite select_slots_closed by lia. cbn [fst snd].
  rewrite Z.sub_0_r, Z.lor_0_l. fold (free_indices slots).
  assert (Hall : firstn (Z.to_nat kernel_cu) (free_indices slots) = free_indices slots)
    by (apply firstn_all2; lia).
  split; [| split].
  - unfold free_indices in *. rewrite free_from_mark.
    rewrite skipn_all2 by lia. reflexivity.
  - rewrite first_free_mask_bits, Hall. reflexivity.
  - apply release_slots_short; [lia |].
    rewrite mark_from_length, first_free_mask_bits, Hall. lia.
Qed.

Lemma select_slots_overcommitted_witness :
  let slots := [1; 0; 1; 1; 0; 1; 1; 1] in
  count_free slots < 4 /\
  (length slots <= 31)%nat /\
  count_free (fst (select_slots 4 0 0 slots 0)) = 0 /\
  bits_from 0 (length slots) (snd (select_slots 4 0 0 slots 0)) = count_free slots /\
  release_slots 4 (snd (select_slots 4 0 0 slots 0)) 0 0
    (fst (select_slots 4 0 0 slots 0)) = None.
Proof.
  assert (H1 : count_free [1; 0; 1; 1; 0; 1; 1; 1] < 4) by (vm_compute; reflexivity).
  assert (H2 : (length [1; 0; 1; 1; 0; 1; 1; 1] <= 31)%nat) by (cbn [length]; lia).
  split; [exact H1 |]. split; [exact H2 |].
  exact (select_slots_overcommitted 4 _ H1 H2).
Defined.

(** ** kernels_support.c: registration in the per-slot queues *)

Lemma register_from_id (m : Z) (kernel : kernel_ptr) (queues : list queue_online) :
  forall j, bits_from j (length queues) m = 0 -> register_from j m kernel queues = queues.
Proof.
  induction queues as [| q rest IH]; intros j H; [reflexivity |].
  cbn [register_from length bits_from] in *.
  pose proof (bits_from_bounds (length rest) (j + 1) m) as Hb.
  destruct (Z.testbit m j); [lia |].
  rewrite IH by lia. reflexivity.
Qed.

Lemma kernel_to_online_queue_closed (kernel_cu m : Z) (kernel : kernel_ptr)
    (queues : list queue_online) :
  forall i j, 0 <= j ->
    bits_from j (length queues) m = kernel_cu - i ->
    kernel_to_online_queue_from kernel_cu m kernel i j queues
    = Some (register_from j m kernel queues).
Proof.
  induction queues as [| q rest IH]; intros i j Hj Hbits.
  - cbn in *. destruct (Z.ltb_spec i kernel_cu); [lia | reflexivity].
  - cbn [kernel_to_online_queue_from].
    destruct (Z.ltb_spec i kernel_cu) as [Hi | Hi].
    + rewrite land_shiftl_test by exact Hj.
      cbn [length bits_from register_from] in *.
      destruct (Z.testbit m j).
      * cbn [enqueue_online Z.eqb negb snd].
        rewrite (IH (i + 1) (j + 1)) by lia. reflexivity.
      * rewrite (IH i (j + 1)) by lia. reflexivity.
    + pose proof (bits_from_bounds (length (q :: rest)) j m) as Hb.
      rewrite register_from_id by lia. reflexivity.
Qed.

Lemma kernel_to_online_queue_short (kernel_cu m : Z) (kernel : kernel_ptr)
    (queues : list queue_online) :
  forall i j, 0 <= j ->
    bits_from j (length queues) m < kernel_cu - i ->
    kernel_to_online_queue_from kernel_cu m kernel i j queues = None.
Proof.
  induction queues as [| q rest IH]; intros i j Hj Hbits.
  - cbn in *. destruct (Z.ltb_spec i kernel_cu); [reflexivity | lia].
  - cbn [kernel_to_online_queue_from]. cbn [length bits_from] in Hbits.
    pose proof (bits_from_bounds (length rest) (j + 1) m) as Hb.
    destruct (Z.ltb_spec i kernel_cu) as [Hi | Hi].
    + rewrite land_shiftl_test by exact Hj.
      destruct (Z.testbit m j).
      * cbn [enqueue_online Z.eqb negb].
        rewrite (IH (i + 1) (j + 1)) by lia. reflexivity.
      * rewrite (IH i (j + 1)) by lia. reflexivity.
    + destruct (Z.testbit m j); lia.
Qed.

Lemma register_from_length (m : Z) (kernel : kernel_ptr) (queues : list queue_online) :
  forall j, length (register_from j m kernel queues) = length queues.
Proof.
  induction queues as [| q rest IH]; intros j; [reflexivity |].
  cbn [register_from length]. rewrite IH. reflexivity.
Qed.

Lemma nth_register_from (m : Z) (kernel : kernel_ptr) (queues : list queue_online) :
  forall j n, (n < length queues)%nat ->
    nth n (register_from j m kernel queues) init_queue_online
    = if Z.testbit m (j + Z.of_nat n)
      then snd (enqueue_online (nth n queues init_queue_online) kernel)
      else nth n queues init_queue_online.
Proof.
  induction queues as [| q rest IH]; intros j n Hn; [cbn in Hn; lia |].
  cbn [register_from]. destruct n as [| n].
  - cbn [nth]. rewrite Z.add_0_r. reflexivity.
  - cbn [nth]. cbn [length] in Hn. rewrite IH by lia.
    replace (j + 1 + Z.of_nat n) with (j + Z.of_nat (S n)) by lia. reflexivity.
Qed.

Lemma register_from_ok (m : Z) (kernel : kernel_ptr) (queues : list queue_online) :
  forall j, Forall queue_online_ok queues ->
            Forall queue_online_ok (register_from j m kernel queues).
Proof.
  induction queues as [| q rest IH]; intros j H; [constructor |].
  inversion H as [| ? ? Hq Hrest]; subst.
  cbn [register_from]. constructor; [| apply IH; exact Hrest].
  destruct (Z.testbit m j); [| exact Hq].
  unfold queue_online_ok in *. cbn [enqueue_online snd nodes_online size_online].
  rewrite length_app. cbn [length]. lia.
Qed.

(** X17: [_kernel_to_online_queue] on a record whose mask holds exactly
    [cu] slots of the array: it succeeds, appends the kernel pointer once
    to the queue of every slot of the mask and leaves the other queues
    alone, keeping each [size] field in step; with fewer than [cu] bits in
    the mask its loop runs off the array. *)
Theorem kernel_to_online_queue_registers (mem : kernel_ptr -> kernel_data)
    (online_queue : list queue_online) (kernel : kernel_ptr) :
  Forall queue_online_ok online_queue ->
  (bits_from 0 (length online_queue) (slot_id (mem kernel)) = cu (mem kernel) ->
   exists online_queue1,
     _kernel_to_online_queue mem online_queue kernel = Some (0, online_queue1) /\
     length online_queue1 = length online_queue /\
     Forall queue_online_ok online_queue1 /\
     forall k, (k < length online_queue)%nat ->
       nodes_online (nth k online_queue1 init_queue_online)
       = nodes_online (nth k online_queue init_queue_online)
         ++ (if Z.testbit (slot_id (mem kernel)) (Z.of_nat k) then [kernel] else [])) /\
  (bits_from 0 (length online_queue) (slot_id (mem kernel)) < cu (mem kernel) ->
   _kernel_to_online_queue mem online_queue kernel = None).
Proof.
  intros Hok. unfold _kernel_to_online_queue. split.
  - intros Hbits.
    rewrite kernel_to_online_queue_closed by lia.
    eexists. split; [reflexivity |].
    split; [apply register_from_length |].
    split; [apply register_from_ok; exact Hok |].
    intros k Hk. rewrite nth_register_from by exact Hk. rewrite Z.add_0_l.
    destruct (Z.testbit (slot_id (mem kernel)) (Z.of_nat k)).
    + reflexivity.
    + rewrite app_nil_r. reflexivity.
  - intros Hbits. rewrite kernel_to_online_queue_short by lia. reflexivity.
Qed.

Lemma kernel_to_online_queue_registers_witness :
  let mem := fun _ : kernel_ptr => sample_timed 4 (mk_timespec 4 0) (mk_timespec 5 0) in
  let online_queue := [mk_queue_online [0%nat] 1; init_queue_online] in
  Forall queue_online_ok online_queue /\
  (bits_from 0 (length online_queue) (slot_id (mem 1%nat)) = cu (mem 1%nat) ->
   exists online_queue1,
     _kernel_to_online_queue mem online_queue 1%nat = Some (0, online_queue1) /\
     length online_queue1 = length online_queue /\
     Forall queue_online_ok online_queue1 /\
     forall k, (k < length online_queue)%nat ->
       nodes_online (nth k online_queue1 init_queue_online)
       = nodes_online (nth k online_queue init_queue_online)
         ++ (if Z.testbit (slot_id (mem 1%nat)) (Z.of_nat k) then [1%nat] else [])) /\
  (bits_from 0 (length online_queue) (slot_id (mem 1%nat)) < cu (mem 1%nat) ->
   _kernel_to_online_queue mem online_queue 1%nat = None).
Proof.
  assert (Hok : Forall queue_online_ok [mk_queue_online [0%nat] 1; init_queue_online])
    by (repeat constructor).
  split; [exact Hok |].
  exact (kernel_to_online_queue_registers
           (fun _ : kernel_ptr => sample_timed 4 (mk_timespec 4 0) (mk_timespec 5 0))
           _ 1%nat Hok).
Defined.

(** ** execution_modes_buffers.c and the monitoring loop *)

Lemma execution_modes_buffers_clean_ring (M power traces online cursor r : Z) :
  1 < M -> POWER_FILE_SIZE * M <= INT_MAX ->
  execution_modes_buffers_clean r (ring_at M power traces online cursor)
  = Some (0, mk_buffers 0 0 0 0 0 0 M 0,
          execution_modes_buffers_mapped M power traces online).
Proof.
  intros HM Hfit. unfold execution_modes_buffers_clean, ring_at.
  cbn [total_iterations power_base_ptr traces_base_ptr online_base_ptr].
  unfold POWER_FILE_SIZE, TRACES_FILE_SIZE, ONLINE_FILE_SIZE, INT_MAX in *.
  rewrite !checked_int_some by (unfold INT_MAX; lia).
  reflexivity.
Qed.

Lemma monitoring_windows_closed (M power traces online : Z) (n : nat) :
  1 < M -> POWER_FILE_SIZE * M <= INT_MAX ->
  monitoring_windows n M (ring_at M power traces online 0) (power, traces, online) 0
  = Some (ring_at M power traces online (Z.of_nat n mod M),
          (power + POWER_FILE_SIZE * (Z.of_nat n mod M),
           traces + TRACES_FILE_SIZE * (Z.of_nat n mod M),
           online + ONLINE_FILE_SIZE * (Z.of_nat n mod M)),
          Z.of_nat n,
          match n with
          | O => false
          | S _ => Z.of_nat n mod M =? 0
          end).
Proof.
  intros HM Hfit. induction n as [| n IH].
  - cbn [monitoring_windows]. change (Z.of_nat 0) with 0. rewrite Z.mod_0_l by lia.
    rewrite !Z.mul_0_r, !Z.add_0_r. reflexivity.
  - cbn [monitoring_windows]. rewrite IH. unfold monitoring_window_end.
    rewrite execution_modes_buffers_toggle_step
      by (try assumption; apply Z.mod_pos_bound; lia).
    destruct (Z.eqb_spec M 0) as [E | _]; [lia |].
    replace ((Z.of_nat n mod M + 1) mod M) with (Z.of_nat (S n) mod M).
    + rewrite Z.rem_mod_nonneg by lia.
      replace (Z.of_nat n + 1) with (Z.of_nat (S n)) by lia. reflexivity.
    + rewrite Nat2Z.inj_succ. unfold Z.succ.
      rewrite (Z.add_mod (Z.of_nat n) 1 M) by lia.
      rewrite (Z.add_mod (Z.of_nat n mod M) 1 M) by lia.
      rewrite Z.mod_mod by lia. reflexivity.
Qed.

(** X18: whatever the number of toggles since the initialisation of a
    ring of [M > 1] segments, [execution_modes_buffers_clean] unmaps
    exactly the three regions [execution_modes_buffers_init] mapped (the
    base addresses with the full lengths of [M] segments), every segment
    handed out in between lies inside its region, and the clean leaves the
    pointers [NULL] and the cursor 0. *)
Theorem execution_modes_buffers_clean_unmaps
    (M power traces online remove_buffers : Z)
    (b0 : execution_modes_buffers_t) (out0 : Z * Z * Z) (n : nat) :
  1 < M ->
  execution_modes_buffers_init M power traces online = Some (0, b0, out0) ->
  exists b power_ptr traces_ptr online_ptr b',
    toggles n b0 out0 = Some (b, (power_ptr, traces_ptr, online_ptr)) /\
    power <= power_ptr /\ power_ptr + POWER_FILE_SIZE <= power + POWER_FILE_SIZE * M /\
    traces <= traces_ptr /\
    traces_ptr + TRACES_FILE_SIZE <= traces + TRACES_FILE_SIZE * M /\
    online <= online_ptr /\
    online_ptr + ONLINE_FILE_SIZE <= online + ONLINE_FILE_SIZE * M /\
    execution_modes_buffers_clean remove_buffers b
    = Some (0, b', execution_modes_buffers_mapped M power traces online) /\
    b' = mk_buffers 0 0 0 0 0 0 M 0.
Proof.
  intros HM Hinit.
  apply execution_modes_buffers_init_inv in Hinit.
  destruct Hinit as (_ & -> & -> & Hfit).
  pose proof (Z.mod_pos_bound (Z.of_nat n) M ltac:(lia)) as Hm.
  do 5 eexists.
  split; [apply toggles_from_init; assumption |].
  unfold POWER_FILE_SIZE, TRACES_FILE_SIZE, ONLINE_FILE_SIZE.
  repeat (split; [lia |]).
  split; [| reflexivity].
  apply execution_modes_buffers_clean_ring; assumption.
Qed.

Lemma execution_modes_buffers_clean_unmaps_witness :
  let M := 3 in
  let power := 4096 in
  let traces := 2000000 in
  let online := 3000000 in
  1 < M /\
  execution_modes_buffers_init M power traces online
  = Some (0, ring_at M power traces online 0, (power, traces, online)) /\
  exists b power_ptr traces_ptr online_ptr b',
    toggles 4 (ring_at M power traces online 0) (power, traces, online)
    = Some (b, (power_ptr, traces_ptr, online_ptr)) /\
    power <= power_ptr /\ power_ptr + POWER_FILE_SIZE <= power + POWER_FILE_SIZE * M /\
    traces <= traces_ptr /\
    traces_ptr + TRACES_FILE_SIZE <= traces + TRACES_FILE_SIZE * M /\
    online <= online_ptr /\
    online_ptr + ONLINE_FILE_SIZE <= online + ONLINE_FILE_SIZE * M /\
    execution_modes_buffers_clean 0 b
    = Some (0, b', execution_modes_buffers_mapped M power traces online) /\
    b' = mk_buffers 0 0 0 0 0 0 M 0.
Proof.
  assert (HM : 1 < 3) by lia.
  assert (Hinit : execution_modes_buffers_init 3 4096 2000000 3000000
                  = Some (0, ring_at 3 4096 2000000 3000000 0,
                          (4096, 2000000, 3000000)))
    by reflexivity.
  split; [exact HM |]. split; [exact Hinit |].
  exact (execution_modes_buffers_clean_unmaps 3 4096 2000000 3000000 0 _ _ 4 HM Hinit).
Defined.

(** X19: in the monitoring loop the ring cursor and the training trigger
    stay in step: after the [n]-th window ([n >= 1]) the count is [n], the
    cursor is [n mod M], and the test
    [monitorization_count % measurements_per_training == 0] starts a
    training exactly when the cursor has just wrapped to segment 0, that
    is after every [M]-th window. *)
Theorem monitoring_training_on_wrap
    (M power traces online : Z) (b0 : execution_modes_buffers_t) (out0 : Z * Z * Z)
    (n : nat) :
  1 < M ->
  execution_modes_buffers_init M power traces online = Some (0, b0, out0) ->
  exists b out train,
    monitoring_windows (S n) M b0 out0 0 = Some (b, out, Z.of_nat (S n), train) /\
    current_iteration b = Z.of_nat (S n) mod M /\
    out = (power_current_ptr b, traces_current_ptr b, online_current_ptr b) /\
    train = (current_iteration b =? 0) /\
    (train = true <-> exists k, Z.of_nat (S n) = k * M).
Proof.
  intros HM Hinit.
  apply execution_modes_buffers_init_inv in Hinit.
  destruct Hinit as (_ & -> & -> & Hfit).
  do 3 eexists.
  split; [apply monitoring_windows_closed; assumption |].
  cbn [ring_at current_iteration power_current_ptr traces_current_ptr
       online_current_ptr].
  split; [reflexivity |]. split; [reflexivity |]. split; [reflexivity |].
  rewrite Z.eqb_eq. split.
  - intros H. exists (Z.of_nat (S n) / M).
    pose proof (Z.div_mod (Z.of_nat (S n)) M ltac:(lia)). lia.
  - intros [k Hk]. rewrite Hk. apply Z.mod_mul. lia.
Qed.

Lemma monitoring_training_on_wrap_witness :
  let M := 3 in
  let power := 4096 in
  let traces := 2000000 in
  let online := 3000000 in
  1 < M /\
  execution_modes_buffers_init M power traces online
  = Some (0, ring_at M power traces online 0, (power, traces, online)) /\
  exists b out train,
    monitoring_windows 6 M (ring_at M power traces online 0) (power, traces, online) 0
    = Some (b, out, Z.of_nat 6, train) /\
    current_iteration b = Z.of_nat 6 mod M /\
    out = (power_current_ptr b, traces_current_ptr b, online_current_ptr b) /\
    train = (current_iteration b =? 0) /\
    (train = true <-> exists k, Z.of_nat 6 = k * M).
Proof.
  assert (HM : 1 < 3) by lia.
  assert (Hinit : execution_modes_buffers_init 3 4096 2000000 3000000
                  = Some (0, ring_at 3 4096 2000000 3000000 0,
                          (4096, 2000000, 3000000)))
    by reflexivity.
  split; [exact HM |]. split; [exact Hinit |].
  exact (monitoring_training_on_wrap 3 4096 2000000 3000000 _ _ 5 HM Hinit).
Defined.

(** ** ping_pong_buffers.c *)

Lemma toggle_ptr_ping (ping pong : Z) : toggle_ptr ping ping pong = Some pong.
Proof.
  unfold toggle_ptr. rewrite Z.eqb_refl. reflexivity.
Qed.

Lemma toggle_ptr_pong (ping pong : Z) : toggle_ptr pong ping pong = Some ping.
Proof.
  unfold toggle_ptr. rewrite Z.eqb_refl.
  destruct (Z.eqb_spec pong ping) as [-> | _]; cbn [negb andb]; reflexivity.
Qed.

(** X20: after [ping_pong_buffers_init] every call of
    [ping_pong_buffers_toggle] succeeds and the three buffers switch
    together: the call number [n] returns the three pong buffers for odd
    [n] and the three ping buffers for even [n], the ping and pong
    addresses themselves never change, and [ping_pong_buffers_clean]
    unmaps each of the six buffers once with the length of its file.  The
    guard of the toggle does not notice cleaned buffers: on the all-[NULL]
    state it returns 0 and three [NULL] pointers. *)
Theorem ping_pong_buffers_toggle_alternates
    (power_ping power_pong traces_ping traces_pong online_ping online_pong : Z)
    (b0 : _ping_pong_buffers_t) (out0 : Z * Z * Z) (n : nat) (remove_buffers : Z) :
  ping_pong_buffers_init power_ping power_pong traces_ping traces_pong
    online_ping online_pong = Some (0, b0, out0) ->
  exists b,
    ping_pong_toggles n b0 out0
    = Some (b, if Nat.even n then (power_ping, traces_ping, online_ping)
               else (power_pong, traces_pong, online_pong)) /\
    (pp_power_current_ptr b, pp_traces_current_ptr b, pp_online_current_ptr b)
    = (if Nat.even n then (power_ping, traces_ping, online_ping)
       else (power_pong, traces_pong, online_pong)) /\
    (power_ping_ptr b, power_pong_ptr b, traces_ping_ptr b, traces_pong_ptr b,
     online_ping_ptr b, online_pong_ptr b)
    = (power_ping, power_pong, traces_ping, traces_pong, online_ping, online_pong) /\
    snd (ping_pong_buffers_clean remove_buffers b)
    = [(power_ping, POWER_FILE_SIZE); (power_pong, POWER_FILE_SIZE);
       (traces_ping, TRACES_FILE_SIZE); (traces_pong, TRACES_FILE_SIZE);
       (online_ping, ONLINE_FILE_SIZE); (online_pong, ONLINE_FILE_SIZE)] /\
    ping_pong_buffers_toggle (snd (fst (ping_pong_buffers_clean remove_buffers b)))
    = Some (0, mk_ping_pong 0 0 0 0 0 0 0 0 0, (0, 0, 0)).
Proof.
  unfold ping_pong_buffers_init.
  destruct ((power_ping =? 0) || (power_pong =? 0) || (traces_ping =? 0)
            || (traces_pong =? 0) || (online_ping =? 0) || (online_pong =? 0));
    [discriminate |].
  intros H. injection H as <- <-.
  assert (Hn : ping_pong_toggles n
                 (mk_ping_pong power_ping power_pong power_ping
                    traces_ping traces_pong traces_ping
                    online_ping online_pong online_ping)
                 (power_ping, traces_ping, online_ping)
               = Some (if Nat.even n
                       then mk_ping_pong power_ping power_pong power_ping
                              traces_ping traces_pong traces_ping
                              online_ping online_pong online_ping
                       else mk_ping_pong power_ping power_pong power_pong
                              traces_ping traces_pong traces_pong
                              online_ping online_pong online_pong,
                       if Nat.even n then (power_ping, traces_ping, online_ping)
                       else (power_pong, traces_pong, online_pong))).
  { induction n as [| n IH]; [reflexivity |].
    cbn [ping_pong_toggles]. rewrite IH. rewrite Nat.even_succ, <- Nat.negb_even.
    unfold ping_pong_buffers_toggle.
    destruct (Nat.even n); cbn [negb];
      cbn [pp_power_current_ptr pp_traces_current_ptr pp_online_current_ptr
           power_ping_ptr power_pong_ptr traces_ping_ptr traces_pong_ptr
           online_ping_ptr online_pong_ptr].
    - rewrite !toggle_ptr_ping. reflexivity.
    - rewrite !toggle_ptr_pong. reflexivity. }
  eexists. split; [exact Hn |].
  destruct (Nat.even n); repeat split; reflexivity.
Qed.

Lemma ping_pong_buffers_toggle_alternates_witness :
  ping_pong_buffers_init 4096 8192 12288 16384 20480 24576
  = Some (0, mk_ping_pong 4096 8192 4096 12288 16384 12288 20480 24576 20480,
          (4096, 12288, 20480)) /\
  exists b,
    ping_pong_toggles 3
      (mk_ping_pong 4096 8192 4096 12288 16384 12288 20480 24576 20480)
      (4096, 12288, 20480)
    = Some (b, if Nat.even 3 then (4096, 12288, 20480) else (8192, 16384, 24576)) /\
    (pp_power_current_ptr b, pp_traces_current_ptr b, pp_online_current_ptr b)
    = (if Nat.even 3 then (4096, 12288, 20480) else (8192, 16384, 24576)) /\
    (power_ping_ptr b, power_pong_ptr b, traces_ping_ptr b, traces_pong_ptr b,
     online_ping_ptr b, online_pong_ptr b)
    = (4096, 8192, 12288, 16384, 20480, 24576) /\
    snd (ping_pong_buffers_clean 0 b)
    = [(4096, POWER_FILE_SIZE); (8192, POWER_FILE_SIZE);
       (12288, TRACES_FILE_SIZE); (16384, TRACES_FILE_SIZE);
       (20480, ONLINE_FILE_SIZE); (24576, ONLINE_FILE_SIZE)] /\
    ping_pong_buffers_toggle (snd (fst (ping_pong_buffers_clean 0 b)))
    = Some (0, mk_ping_pong 0 0 0 0 0 0 0 0 0, (0, 0, 0)).
Proof.
  assert (Hinit : ping_pong_buffers_init 4096 8192 12288 16384 20480 24576
                  = Some (0, mk_ping_pong 4096 8192 4096 12288 16384 12288
                               20480 24576 20480,
                          (4096, 12288, 20480)))
    by reflexivity.
  split; [exact Hinit |].
  exact (ping_pong_buffers_toggle_alternates 4096 8192 12288 16384 20480 24576
           _ _ 3 0 Hinit).
Defined.

(** ** setup.c: the counters of the scheduler *)

(** An invariant that every step keeps, on states that satisfy the slot
    invariant, holds in every reachable state. *)
Lemma reachable_induction (P : state -> Prop) :
  (forall local timer, P (initial_state local timer)) ->
  (forall e s s1, invariant s -> P s -> step e s = Some s1 -> P s1) ->
  forall s, reachable s -> P s.
Proof.
  intros Hinit Hstep s (local & timer & es & H).
  assert (Hrun : forall es s0 s1,
             invariant s0 -> P s0 -> run es s0 = Some s1 -> P s1).
  { clear - Hstep. induction es as [| e es IH]; intros s0 s1 Hinv HP H; cbn [run] in H.
    - injection H as <-. exact HP.
    - destruct (step e s0) as [s2 |] eqn:E; [| discriminate].
      apply (IH s2 s1); [eapply invariant_step; eassumption
                        | eapply Hstep; eassumption | exact H]. }
  apply (Hrun es _ _ (invariant_initial local timer) (Hinit local timer) H).
Qed.

Lemma counters_ok_manager (s s1 : state) (log : list Z) :
  counters_ok s -> queue_manager_thread s = Some (s1, log) -> counters_ok s1.
Proof.
  intros [Hg He Ho Hts Hnn Hpass] H. unfold queue_manager_thread in H.
  unfold queue_ok in *.
  destruct (manager s) eqn:Hpc.
  - destruct ((kernels_to_serve_variable s =? 0)
              || (kernels_are_executable_variable s =? 0)
              || (free_slots_variable s =? 0)
              || match operating_mode s with TRAIN => true | EXECUTION => false end)
      eqn:Ec; [discriminate |].
    injection H as <- <-.
    apply orb_false_iff in Ec. destruct Ec as [Ec _].
    apply orb_false_iff in Ec. destruct Ec as [Ec _].
    apply orb_false_iff in Ec. destruct Ec as [Ec _].
    apply Z.eqb_neq in Ec.
    constructor; unfold queue_ok; state_fields; cbn [in_hand] in *;
      try assumption; intros; lia.
  - injection H as <- <-.
    constructor; unfold queue_ok; state_fields; cbn [in_hand] in *;
      try assumption.
    intros _. apply Hpass. discriminate.
  - destruct (dequeue_first_executable_kernel (kernel_execution_queue s)
                free_slots_tmp duplicated_kernels_tmp (kernel_tmp s))
      as [[ret q1] d1] eqn:Ed.
    assert (Hone : 1 <= kernels_to_serve_variable s) by (apply Hpass; discriminate).
    apply dequeue_first_executable_kernel_split in Ed.
    destruct Ed as [(-> & -> & -> & _) | (-> & l1 & l2 & E1 & E2 & Es & _)];
      cbn [Z.ltb Z.compare Z.eqb] in H; injection H as <- <-;
      constructor; unfold queue_ok; state_fields; cbn [in_hand] in *;
      try assumption; try (intros; lia).
    + rewrite Es, E2. rewrite E1 in He. rewrite length_app in *.
      cbn [length] in He. lia.
    + rewrite E2. rewrite E1 in Hts. rewrite length_app in *.
      cbn [length] in Hts. lia.
  - injection H as <- <-.
    constructor; unfold queue_ok; state_fields; cbn [in_hand] in *;
      try assumption.
    intros _. apply Hpass. discriminate.
  - injection H as <- <-.
    constructor; unfold queue_ok; state_fields; cbn [in_hand] in *;
      try assumption.
    intros _. apply Hpass. discriminate.
  - injection H as <- <-.
    constructor; unfold queue_ok; state_fields; cbn [in_hand] in *;
      try assumption.
    intros _. apply Hpass. discriminate.
  - destruct (select_slots (cu (kernel_tmp s)) 0 0 (slots_in_use s)
                (slot_id (kernel_tmp s))) as [slots1 slot_id1].
    injection H as <- <-.
    constructor; unfold queue_ok; state_fields; cbn [in_hand] in *;
      try assumption.
    intros _. apply Hpass. discriminate.
  - unfold enqueue_and_modify in H. injection H as <- <-.
    constructor; unfold queue_ok; state_fields; cbn [in_hand] in *;
      try assumption.
    + rewrite length_app. cbn [length]. lia.
    + intros _. apply Hpass. discriminate.
  - assert (Hone : 1 <= kernels_to_serve_variable s) by (apply Hpass; discriminate).
    injection H as <- <-.
    constructor; unfold queue_ok; state_fields; cbn [in_hand] in *;
      try assumption; try (intros; lia).
    intros Hne. contradiction Hne. reflexivity.
Qed.

Lemma counters_ok_step (e : event) (s s1 : state) :
  invariant s -> counters_ok s -> step e s = Some s1 -> counters_ok s1.
Proof.
  intros _ Hc H. destruct e; cbn [step] in H.
  - destruct Hc as [Hg He Ho Hts Hnn Hpass]. unfold main_generate in H.
    destruct (new_kernel initial i label executions inter_arrival rand
                (schedule_timer s)) as [aux timer1].
    unfold enqueue in H. cbn [Z.ltb Z.compare] in H. injection H as <-.
    constructor; unfold queue_ok in *; state_fields; try assumption.
    rewrite length_app. cbn [length]. lia.
  - destruct Hc as [Hg He Ho Hts Hnn Hpass]. unfold main_arrival, dequeue in H.
    destruct (arrival_pending s) eqn:Hp; [discriminate |].
    destruct (nodes (kernel_generation_queue s)) as [| tmp next] eqn:E;
      [cbn in H; discriminate |].
    unfold enqueue in H. cbn [Z.ltb Z.compare Z.eqb negb] in H. injection H as <-.
    constructor; unfold queue_ok in *; state_fields; try assumption.
    + rewrite E in Hg. cbn [length] in Hg. lia.
    + rewrite length_app. cbn [length]. lia.
    + rewrite length_app. cbn [length]. lia.
  - destruct Hc as [Hg He Ho Hts Hnn Hpass]. unfold main_signal in H.
    destruct (arrival_pending s) eqn:Hp; [| discriminate]. injection H as <-.
    constructor; unfold queue_ok in *; state_fields; try assumption; intros; lia.
  - destruct (queue_manager_thread s) as [[s2 log] |] eqn:E; [| discriminate].
    injection H as <-. eapply counters_ok_manager; eassumption.
  - destruct Hc as [Hg He Ho Hts Hnn Hpass]. unfold execution_thread_release in H.
    destruct (negb (holds kernel (running s))); [discriminate |].
    destruct (nth_error (nodes (kernel_output_queue s)) kernel); [| discriminate].
    destruct (release_slots (cu k) (slot_id k) 0 0 (slots_in_use s));
      [| discriminate].
    injection H as <-.
    constructor; unfold queue_ok in *; state_fields; assumption.
  - destruct Hc as [Hg He Ho Hts Hnn Hpass]. unfold execution_thread_unmark in H.
    destruct (negb (holds kernel (released s))); [discriminate |].
    destruct (nth_error (nodes (kernel_output_queue s)) kernel); [| discriminate].
    injection H as <-.
    constructor; unfold queue_ok in *; state_fields; assumption.
  - destruct Hc as [Hg He Ho Hts Hnn Hpass]. unfold execution_thread_signal in H.
    destruct (negb (holds kernel (signalling s))); [discriminate |].
    destruct (nth_error (nodes (kernel_output_queue s)) kernel); [| discriminate].
    injection H as <-.
    constructor; unfold queue_ok in *; state_fields; assumption.
  - destruct Hc as [Hg He Ho Hts Hnn Hpass]. unfold monitoring_thread in H.
    injection H as <-.
    constructor; unfold queue_ok in *; state_fields; assumption.
Qed.

Lemma counters_ok_initial (local : kernel_data) (timer : timespec) :
  counters_ok (initial_state local timer).
Proof.
  constructor; unfold initial_state, queue_ok; state_fields;
    cbn [init_queue nodes size length in_hand Z.of_nat]; try reflexivity; try lia.
  intros H. contradiction H. reflexivity.
Qed.

(** X21: in every reachable state of the scheduler the [size] fields of
    the generation, pending and output queues count their nodes, and
    [kernels_to_serve_variable] is never negative and counts the pending
    records: it equals the length of the pending queue, plus one while the
    manager holds a record it is dispatching, minus one while the producer
    is between enqueueing a record and signalling it.  So whenever the
    manager is at its wait and no arrival is in progress it is exactly
    [get_size_queue] of the pending queue. *)
Theorem kernels_to_serve_counts_pending (s : state) :
  reachable s ->
  queue_ok (kernel_generation_queue s) /\
  queue_ok (kernel_execution_queue s) /\
  queue_ok (kernel_output_queue s) /\
  0 <= kernels_to_serve_variable s /\
  kernels_to_serve_variable s + (if arrival_pending s then 1 else 0)
  = get_size_queue (kernel_execution_queue s) + in_hand (manager s) /\
  (manager s = pc_wait -> arrival_pending s = false ->
   kernels_to_serve_variable s = get_size_queue (kernel_execution_queue s)).
Proof.
  intros Hr.
  assert (Hc : counters_ok s).
  { revert s Hr. apply reachable_induction.
    - apply counters_ok_initial.
    - apply counters_ok_step. }
  destruct Hc as [Hg He Ho Hts Hnn Hpass].
  unfold get_size_queue. unfold queue_ok in He.
  repeat split; try assumption; try lia.
  intros Hpc Hp. rewrite Hpc, Hp in Hts. cbn [in_hand] in Hts. lia.
Qed.

Lemma kernels_to_serve_counts_pending_witness :
  let s := sample_state in
  reachable s /\
  queue_ok (kernel_generation_queue s) /\
  queue_ok (kernel_execution_queue s) /\
  queue_ok (kernel_output_queue s) /\
  0 <= kernels_to_serve_variable s /\
  kernels_to_serve_variable s + (if arrival_pending s then 1 else 0)
  = get_size_queue (kernel_execution_queue s) + in_hand (manager s) /\
  (manager s = pc_wait -> arrival_pending s = false ->
   kernels_to_serve_variable s = get_size_queue (kernel_execution_queue s)).
Proof.
  split; [exact sample_state_reachable |].
  exact (kernels_to_serve_counts_pending sample_state sample_state_reachable).
Defined.

(** ** setup.c: identifiers and the output queue *)

Lemma identifiers_ok_manager (num_kernels : Z) (s s1 : state) (log : list Z) :
  identifiers_ok num_kernels s ->
  (manager s = pc_wait -> kernels_count s < num_kernels) ->
  queue_manager_thread s = Some (s1, log) ->
  identifiers_ok num_kernels s1.
Proof.
  intros [Hq Hc Hp Hl Ho Hh] Hguard H. unfold queue_manager_thread in H.
  unfold queue_ok, dispatched in *.
  destruct (manager s) eqn:Hpc; cbn [handed_over] in *.
  - destruct ((kernels_to_serve_variable s =? 0)
              || (kernels_are_executable_variable s =? 0)
              || (free_slots_variable s =? 0)
              || match operating_mode s with TRAIN => true | EXECUTION => false end);
      [discriminate |].
    injection H as <- <-. specialize (Hguard eq_refl).
    constructor; unfold queue_ok, dispatched; state_fields; cbn [handed_over]; auto.
  - injection H as <- <-.
    assert (Hlt : kernels_count s < num_kernels) by (apply Hp; discriminate).
    constructor; unfold queue_ok, dispatched; state_fields; cbn [handed_over]; auto.
  - assert (Hlt : kernels_count s < num_kernels) by (apply Hp; discriminate).
    destruct (dequeue_first_executable_kernel (kernel_execution_queue s)
                free_slots_tmp duplicated_kernels_tmp (kernel_tmp s))
      as [[ret q1] d1].
    destruct (ret <? 0); cbn [Z.eqb] in H; injection H as <- <-;
      constructor; unfold queue_ok, dispatched; state_fields; cbn [handed_over];
      auto.
  - injection H as <- <-.
    assert (Hlt : kernels_count s < num_kernels) by (apply Hp; discriminate).
    constructor; unfold queue_ok, dispatched; state_fields; cbn [handed_over]; auto.
  - injection H as <- <-.
    assert (Hlt : kernels_count s < num_kernels) by (apply Hp; discriminate).
    constructor; unfold queue_ok, dispatched; state_fields; cbn [handed_over]; auto.
  - injection H as <- <-.
    assert (Hlt : kernels_count s < num_kernels) by (apply Hp; discriminate).
    constructor; unfold queue_ok, dispatched; state_fields; cbn [handed_over]; auto.
  - destruct (select_slots (cu (kernel_tmp s)) 0 0 (slots_in_use s)
                (slot_id (kernel_tmp s))) as [slots1 slot_id1].
    injection H as <- <-.
    assert (Hlt : kernels_count s < num_kernels) by (apply Hp; discriminate).
    constructor; unfold queue_ok, dispatched; state_fields; cbn [handed_over]; auto.
  - unfold enqueue_and_modify in H. injection H as <- <-.
    assert (Hlt : kernels_count s < num_kernels) by (apply Hp; discriminate).
    constructor; unfold queue_ok, dispatched; state_fields; cbn [handed_over]; auto.
    + rewrite length_app. cbn [length]. lia.
    + rewrite length_app. cbn [length]. lia.
    + intros i k Hn. rewrite length_app. cbn [length]. intros Hi.
      destruct (Nat.lt_ge_cases i (length (nodes (kernel_output_queue s))))
        as [Hlen | Hge].
      * rewrite nth_error_app1 in Hn by exact Hlen.
        rewrite (Ho i k Hn) by lia. lia.
      * rewrite nth_error_app2 in Hn by exact Hge.
        destruct (i - length (nodes (kernel_output_queue s)))%nat as [| m] eqn:Em.
        -- cbn [nth_error] in Hn. injection Hn as <-. lia.
        -- cbn [nth_error] in Hn. destruct m; discriminate.
  - injection H as <- <-.
    assert (Hlt : kernels_count s < num_kernels) by (apply Hp; discriminate).
    constructor; unfold queue_ok, dispatched; state_fields; cbn [handed_over]; auto.
    + lia.
    + intros Hne. contradiction Hne. reflexivity.
    + lia.
    + intros i k Hn Hi. rewrite (Ho i k Hn) by lia. lia.
Qed.

Lemma identifiers_ok_frame (num_kernels : Z) (s s1 : state) :
  identifiers_ok num_kernels s ->
  kernel_output_queue s1 = kernel_output_queue s ->
  kernels_count s1 = kernels_count s ->
  kernel_tmp s1 = kernel_tmp s ->
  manager s1 = manager s ->
  identifiers_ok num_kernels s1.
Proof.
  intros [Hq Hc Hp Hl Ho Hh] E1 E2 E3 E4.
  constructor; unfold dispatched in *; rewrite ?E1, ?E2, ?E3, ?E4; assumption.
Qed.

Lemma identifiers_ok_step (num_kernels : Z) (e : event) (s s1 : state) :
  identifiers_ok num_kernels s ->
  (e = ev_manager -> manager s = pc_wait -> kernels_count s < num_kernels) ->
  step e s = Some s1 ->
  identifiers_ok num_kernels s1.
Proof.
  intros Hc Hguard H.
  destruct e; cbn [step] in H;
    try (destruct (queue_manager_thread s) as [[s2 log] |] eqn:E; [| discriminate];
         injection H as <-;
         apply (identifiers_ok_manager num_kernels s s2 log Hc (Hguard eq_refl) E)).
  - unfold main_generate in H.
    destruct (new_kernel initial i label executions inter_arrival rand
                (schedule_timer s)) as [aux timer1].
    unfold enqueue in H. cbn [Z.ltb Z.compare] in H. injection H as <-.
    apply (identifiers_ok_frame num_kernels s); [exact Hc | reflexivity ..].
  - unfold main_arrival, dequeue in H.
    destruct (arrival_pending s); [discriminate |].
    destruct (nodes (kernel_generation_queue s)) as [| tmp next];
      [cbn in H; discriminate |].
    unfold enqueue in H. cbn [Z.ltb Z.compare Z.eqb negb] in H. injection H as <-.
    apply (identifiers_ok_frame num_kernels s); [exact Hc | reflexivity ..].
  - unfold main_signal in H.
    destruct (arrival_pending s); [| discriminate]. injection H as <-.
    apply (identifiers_ok_frame num_kernels s); [exact Hc | reflexivity ..].
  - unfold execution_thread_release in H.
    destruct (negb (holds kernel (running s))); [discriminate |].
    destruct (nth_error (nodes (kernel_output_queue s)) kernel); [| discriminate].
    destruct (release_slots (cu k) (slot_id k) 0 0 (slots_in_use s));
      [| discriminate].
    injection H as <-.
    apply (identifiers_ok_frame num_kernels s); [exact Hc | reflexivity ..].
  - unfold execution_thread_unmark in H.
    destruct (negb (holds kernel (released s))); [discriminate |].
    destruct (nth_error (nodes (kernel_output_queue s)) kernel); [| discriminate].
    injection H as <-.
    apply (identifiers_ok_frame num_kernels s); [exact Hc | reflexivity ..].
  - unfold execution_thread_signal in H.
    destruct (negb (holds kernel (signalling s))); [discriminate |].
    destruct (nth_error (nodes (kernel_output_queue s)) kernel); [| discriminate].
    injection H as <-.
    apply (identifiers_ok_frame num_kernels s); [exact Hc | reflexivity ..].
  - unfold monitoring_thread in H. injection H as <-.
    apply (identifiers_ok_frame num_kernels s); [exact Hc | reflexivity ..].
Qed.

(** The change of workload: [kernels_count] starts again from 0 and the
    records of the workloads before stay in the output queue. *)
Lemma identifiers_ok_workload (num_kernels : Z) (s s1 : state) :
  identifiers_ok num_kernels s ->
  queue_manager_workload num_kernels s = Some s1 ->
  identifiers_ok num_kernels s1.
Proof.
  intros [Hq Hc Hp Hl Ho Hh] H. unfold queue_manager_workload in H.
  destruct (manager s) eqn:Hpc; try discriminate.
  destruct (kernels_count s <? num_kernels); [discriminate |].
  injection H as <-.
  constructor; unfold queue_ok, dispatched in *; state_fields;
    cbn [handed_over]; auto.
  - lia.
  - intros Hne. contradiction Hne. reflexivity.
  - lia.
  - intros i k Hn Hi.
    assert (Hlen : (i < length (nodes (kernel_output_queue s)))%nat)
      by (apply nth_error_Some; congruence).
    lia.
Qed.

Lemma identifiers_ok_workload_step (num_kernels : Z) (e : workload_event)
    (s s1 : state) :
  identifiers_ok num_kernels s ->
  workload_step num_kernels e s = Some s1 ->
  identifiers_ok num_kernels s1.
Proof.
  intros Hc H. destruct e as [e |]; cbn [workload_step] in H.
  - destruct e; cbv beta iota in H;
      try (refine (identifiers_ok_step num_kernels _ s s1 Hc _ H);
           intros He; discriminate He).
    destruct (manager s) eqn:Hpc;
      try (apply (identifiers_ok_step num_kernels ev_manager s s1 Hc);
           [intros _ Hw; rewrite Hw in Hpc; discriminate Hpc | exact H]).
    destruct (kernels_count s <? num_kernels) eqn:Hlt; [| discriminate].
    apply Z.ltb_lt in Hlt.
    apply (identifiers_ok_step num_kernels ev_manager s s1 Hc);
      [intros _ _; exact Hlt | exact H].
  - apply (identifiers_ok_workload num_kernels s s1 Hc H).
Qed.

Lemma identifiers_ok_initial (num_kernels : Z) (local : kernel_data)
    (timer : timespec) :
  0 <= num_kernels -> identifiers_ok num_kernels (initial_state local timer).
Proof.
  intros Hn.
  constructor; unfold initial_state, queue_ok, dispatched; state_fields;
    cbn [init_queue nodes size length handed_over Z.of_nat]; try reflexivity;
    try lia.
  - intros Hne. contradiction Hne. reflexivity.
  - intros i k Hk. destruct i; discriminate.
Qed.

Lemma identifiers_ok_reachable (num_kernels : Z) (s : state) :
  0 <= num_kernels -> workload_reachable num_kernels s ->
  identifiers_ok num_kernels s.
Proof.
  intros Hn (local & timer & es & H).
  assert (Hrun : forall es s0 s1,
             identifiers_ok num_kernels s0 ->
             workload_run num_kernels es s0 = Some s1 ->
             identifiers_ok num_kernels s1).
  { clear. induction es as [| e es IH]; intros s0 s1 H0 H; cbn [workload_run] in H.
    - injection H as <-. exact H0.
    - destruct (workload_step num_kernels e s0) as [s2 |] eqn:E; [| discriminate].
      apply (IH s2 s1); [| exact H].
      apply (identifiers_ok_workload_step num_kernels e s0 s2 H0 E). }
  apply (Hrun es _ _ (identifiers_ok_initial num_kernels local timer Hn) H).
Qed.

(** X22: across the workloads, with [num_kernels] the bound of the
    manager's [while] loop ([NUM_KERNELS] in setup.c): [kernels_count]
    stays within [0, num_kernels]; the records dispatched in the workload
    in progress ([kernels_count] of them, plus one between the hand-over
    of a record and the increment) are the last records of the output
    queue, in dispatch order, the [j]-th of them carrying [temp_id] [j];
    the records of the workloads before stay in front of them; and
    [save_output] run on the queue would write every record once, in that
    order, without exiting. *)
Theorem output_queue_in_dispatch_order (num_kernels : Z) (s : state) :
  0 <= num_kernels ->
  workload_reachable num_kernels s ->
  0 <= kernels_count s <= num_kernels /\
  dispatched s <= Z.of_nat (length (nodes (kernel_output_queue s))) /\
  (forall i k,
      nth_error (nodes (kernel_output_queue s)) i = Some k ->
      Z.of_nat (length (nodes (kernel_output_queue s))) - dispatched s
      <= Z.of_nat i ->
      temp_id k
      = Z.of_nat i
        - (Z.of_nat (length (nodes (kernel_output_queue s))) - dispatched s)) /\
  (forall d, save_output (kernel_output_queue s) d
             = Some (init_queue, nodes (kernel_output_queue s))).
Proof.
  intros Hn Hr.
  destruct (identifiers_ok_reachable num_kernels s Hn Hr) as [Hq Hc Hp Hl Ho Hh].
  unfold queue_ok in Hq.
  split; [exact Hc |]. split; [exact Hl |]. split; [exact Ho |].
  intros d. unfold save_output, get_size_queue.
  rewrite save_records_closed by lia.
  rewrite Hq, Nat2Z.id, firstn_all. reflexivity.
Qed.

Lemma sample_workload_state_reachable : workload_reachable 1 sample_workload_state.
Proof.
  exists no_record, (mk_timespec 1 0), sample_workload_events.
  vm_compute. reflexivity.
Qed.

(** In the second of two workloads of one kernel each: the output queue
    holds the record of the first workload and then the one of the second,
    both with [temp_id] 0. *)
Lemma output_queue_in_dispatch_order_witness :
  let s := sample_workload_state in
  0 <= 1 /\
  workload_reachable 1 s /\
  kernels_count s = 1 /\
  map temp_id (nodes (kernel_output_queue s)) = [0; 0] /\
  map kernel_label (nodes (kernel_output_queue s)) = [3; 4] /\
  0 <= kernels_count s <= 1 /\
  dispatched s <= Z.of_nat (length (nodes (kernel_output_queue s))) /\
  (forall i k,
      nth_error (nodes (kernel_output_queue s)) i = Some k ->
      Z.of_nat (length (nodes (kernel_output_queue s))) - dispatched s
      <= Z.of_nat i ->
      temp_id k
      = Z.of_nat i
        - (Z.of_nat (length (nodes (kernel_output_queue s))) - dispatched s)) /\
  (forall d, save_output (kernel_output_queue s) d
             = Some (init_queue, nodes (kernel_output_queue s))).
Proof.
  cbv zeta.
  assert (Hn : 0 <= 1) by lia.
  split; [exact Hn |]. split; [exact sample_workload_state_reachable |].
  split; [vm_compute; reflexivity |]. split; [vm_compute; reflexivity |].
  split; [vm_compute; reflexivity |].
  exact (output_queue_in_dispatch_order 1 sample_workload_state Hn
           sample_workload_state_reachable).
Defined.

(** ** setup.c: the duplication table *)

Lemma in_flight_frame (s s1 : state) :
  kernel_output_queue s1 = kernel_output_queue s ->
  running s1 = running s -> released s1 = released s ->
  manager s1 = manager s -> kernel_tmp s1 = kernel_tmp s ->
  forall label, in_flight s1 label = in_flight s label.
Proof.
  unfold in_flight, marked_in_hand, has_label, record_at.
  intros -> -> -> -> -> label. reflexivity.
Qed.

Lemma labels_ok_frame (s s1 : state) :
  labels_ok s ->
  kernel_output_queue s1 = kernel_output_queue s ->
  running s1 = running s -> released s1 = released s ->
  manager s1 = manager s -> kernel_tmp s1 = kernel_tmp s ->
  duplicated_kernel_variable s1 = duplicated_kernel_variable s ->
  labels_ok s1.
Proof.
  intros [Ht Hb Hm] E1 E2 E3 E4 E5 E6. constructor.
  - intros label. rewrite E6, (in_flight_frame s s1) by assumption. apply Ht.
  - intros label. rewrite E6. apply Hb.
  - rewrite E4, E5, E6. exact Hm.
Qed.

(** The workers counted for a label when the manager's position and hand
    do not matter. *)
Lemma in_flight_workers (s : state) (label : Z) :
  in_flight s label
  = Z.of_nat (length (filter (has_label s label) (running s)))
    + Z.of_nat (length (filter (has_label s label) (released s)))
    + marked_in_hand s label.
Proof.
  unfold in_flight. rewrite filter_app, length_app. lia.
Qed.

Lemma filter_remove_first (f : kernel_ptr -> bool) (p : kernel_ptr)
    (l : list kernel_ptr) :
  In p l ->
  Z.of_nat (length (filter f l))
  = Z.of_nat (length (filter f (remove_first p l))) + (if f p then 1 else 0).
Proof.
  intros Hin. destruct (remove_first_split p l Hin) as (l1 & l2 & -> & ->).
  rewrite !filter_app, !length_app. cbn [filter].
  destruct (f p); cbn [length]; lia.
Qed.

Lemma filter_snoc (f : kernel_ptr -> bool) (p : kernel_ptr) (l : list kernel_ptr) :
  Z.of_nat (length (filter f (l ++ [p])))
  = Z.of_nat (length (filter f l)) + (if f p then 1 else 0).
Proof.
  rewrite filter_app, length_app. cbn [filter].
  destruct (f p); cbn [length]; lia.
Qed.

Lemma labels_ok_manager (s s1 : state) (log : list Z) :
  invariant s -> labels_ok s -> queue_manager_thread s = Some (s1, log) ->
  labels_ok s1.
Proof.
  intros Hinv [Ht Hb Hm] H. unfold queue_manager_thread in H.
  destruct (manager s) eqn:Hpc.
  - destruct ((kernels_to_serve_variable s =? 0)
              || (kernels_are_executable_variable s =? 0)
              || (free_slots_variable s =? 0)
              || match operating_mode s with TRAIN => true | EXECUTION => false end);
      [discriminate |].
    injection H as <- <-. constructor.
    + intros label. specialize (Ht label). rewrite in_flight_workers in Ht |- *.
      unfold marked_in_hand, has_label in *. rewrite Hpc in Ht. state_fields. exact Ht.
    + exact Hb.
    + state_fields. exact I.
  - injection H as <- <-. constructor.
    + intros label. specialize (Ht label). rewrite in_flight_workers in Ht |- *.
      unfold marked_in_hand, has_label in *. rewrite Hpc in Ht. state_fields. exact Ht.
    + exact Hb.
    + state_fields. intros label. split; [apply Hb | lia].
  - destruct (dequeue_first_executable_kernel (kernel_execution_queue s)
                free_slots_tmp duplicated_kernels_tmp (kernel_tmp s))
      as [[ret q1] d1] eqn:Ed.
    apply dequeue_first_executable_kernel_split in Ed.
    destruct Ed as [(-> & -> & -> & _) | (-> & l1 & l2 & E1 & E2 & Es & _ & Hnot & _)];
      cbn [Z.ltb Z.compare Z.eqb] in H; injection H as <- <-; constructor.
    + intros label. specialize (Ht label). rewrite in_flight_workers in Ht |- *.
      unfold marked_in_hand, has_label in *. rewrite Hpc in Ht. state_fields. exact Ht.
    + exact Hb.
    + state_fields. exact I.
    + intros label. specialize (Ht label). rewrite in_flight_workers in Ht |- *.
      unfold marked_in_hand, has_label in *. rewrite Hpc in Ht. state_fields. exact Ht.
    + exact Hb.
    + state_fields. destruct (Hm (kernel_label d1)) as [Hbin Hle].
      destruct (Hb (kernel_label d1)); lia.
  - injection H as <- <-. constructor.
    + intros label. specialize (Ht label). rewrite in_flight_workers in Ht |- *.
      unfold marked_in_hand, has_label in *. rewrite Hpc in Ht. state_fields. exact Ht.
    + exact Hb.
    + state_fields. exact Hm.
  - injection H as <- <-. constructor.
    + intros label. specialize (Ht label). rewrite in_flight_workers in Ht |- *.
      unfold marked_in_hand, has_label in *. rewrite Hpc in Ht. state_fields.
      cbn [kernel_label set_temp_id]. unfold array_update.
      destruct (Z.eqb_spec label (kernel_label (kernel_tmp s))) as [-> | Hne].
      * rewrite Z.eqb_refl. lia.
      * destruct (Z.eqb_spec (kernel_label (kernel_tmp s)) label); [congruence | lia].
    + intros label. state_fields. unfold array_update.
      destruct (Z.eqb_spec label (kernel_label (kernel_tmp s))) as [-> | Hne].
      * right. lia.
      * apply Hb.
    + state_fields. exact I.
  - injection H as <- <-. constructor.
    + intros label. specialize (Ht label). rewrite in_flight_workers in Ht |- *.
      unfold marked_in_hand, has_label in *. rewrite Hpc in Ht. state_fields. exact Ht.
    + exact Hb.
    + state_fields. exact I.
  - destruct (select_slots (cu (kernel_tmp s)) 0 0 (slots_in_use s)
                (slot_id (kernel_tmp s))) as [slots1 slot_id1].
    injection H as <- <-. constructor.
    + intros label. specialize (Ht label). rewrite in_flight_workers in Ht |- *.
      unfold marked_in_hand, has_label in *. rewrite Hpc in Ht. state_fields.
      cbn [kernel_label set_slot_id]. exact Ht.
    + exact Hb.
    + state_fields. exact I.
  - unfold enqueue_and_modify in H. injection H as <- <-.
    destruct Hinv as [_ _ _ Hp _ _ _ _].
    assert (Hold : forall label p,
               In p (running s ++ released s ++ signalling s) ->
               (kernel_label
                  (nth p (nodes (kernel_output_queue s) ++ [kernel_tmp s]) no_record)
                =? label)
               = has_label s label p).
    { intros label p Hin. unfold has_label, record_at.
      rewrite app_nth1 by (apply Hp; exact Hin). reflexivity. }
    constructor.
    + intros label. specialize (Ht label). rewrite in_flight_workers in Ht |- *.
      unfold marked_in_hand in *. rewrite Hpc in Ht.
      unfold has_label at 1 2. state_fields.
      rewrite filter_snoc.
      rewrite (filter_ext_in _ (has_label s label) (running s))
        by (intros p Hin; apply Hold; apply in_or_app; left; exact Hin).
      rewrite (filter_ext_in _ (has_label s label) (released s))
        by (intros p Hin; apply Hold; apply in_or_app; right;
            apply in_or_app; left; exact Hin).
      rewrite nth_middle. lia.
    + exact Hb.
    + state_fields. exact I.
  - injection H as <- <-. constructor.
    + intros label. specialize (Ht label). rewrite in_flight_workers in Ht |- *.
      unfold marked_in_hand, has_label in *. rewrite Hpc in Ht. state_fields. exact Ht.
    + exact Hb.
    + state_fields. exact I.
Qed.

Lemma labels_ok_unmark (kernel : kernel_ptr) (s s1 : state) :
  labels_ok s -> execution_thread_unmark kernel s = Some s1 -> labels_ok s1.
Proof.
  intros [Ht Hb Hm] H. unfold execution_thread_unmark in H.
  destruct (holds kernel (released s)) eqn:Hin; [| discriminate].
  apply holds_spec in Hin. cbn [negb] in H.
  destruct (nth_error (nodes (kernel_output_queue s)) kernel) as [k |] eqn:Hk;
    [| discriminate].
  injection H as <-.
  assert (Hrec : record_at s kernel = k)
    by (unfold record_at; apply nth_error_nth; exact Hk).
  assert (Hcount : forall label,
             Z.of_nat (length (filter (has_label s label) (released s)))
             = Z.of_nat (length (filter (has_label s label)
                                   (remove_first kernel (released s))))
               + (if kernel_label k =? label then 1 else 0)).
  { intros label. rewrite (filter_remove_first _ kernel (released s) Hin).
    unfold has_label. rewrite Hrec. reflexivity. }
  assert (Hone : duplicated_kernel_variable s (kernel_label k) = 1).
  { specialize (Ht (kernel_label k)). rewrite in_flight_workers in Ht.
    rewrite (Hcount (kernel_label k)), Z.eqb_refl in Ht.
    assert (0 <= marked_in_hand s (kernel_label k))
      by (unfold marked_in_hand; destruct (manager s); try lia;
          destruct (kernel_label (kernel_tmp s) =? kernel_label k); lia).
    destruct (Hb (kernel_label k)); lia. }
  constructor.
  - intros label. specialize (Ht label). rewrite in_flight_workers in Ht |- *.
    rewrite (Hcount label) in Ht.
    unfold marked_in_hand, has_label in *. state_fields. unfold array_update.
    destruct (Z.eqb_spec label (kernel_label k)) as [-> | Hne].
    + rewrite Z.eqb_refl in Ht. lia.
    + destruct (Z.eqb_spec (kernel_label k) label); [congruence | lia].
  - intros label. state_fields. unfold array_update.
    destruct (Z.eqb_spec label (kernel_label k)) as [-> | Hne].
    + left. lia.
    + apply Hb.
  - state_fields. unfold array_update.
    destruct (manager s); try exact I.
    + intros label. destruct (Hm label) as [Hbin Hle]. split; [exact Hbin |].
      destruct (Z.eqb_spec label (kernel_label k)) as [-> | Hne]; lia.
    + destruct (Z.eqb_spec (kernel_label (kernel_tmp s)) (kernel_label k))
        as [E | Hne]; [rewrite E in Hm; lia | exact Hm].
    + destruct (Z.eqb_spec (kernel_label (kernel_tmp s)) (kernel_label k))
        as [E | Hne]; [rewrite E in Hm; lia | exact Hm].
Qed.

Lemma labels_ok_release (kernel : kernel_ptr) (s s1 : state) :
  labels_ok s -> execution_thread_release kernel s = Some s1 -> labels_ok s1.
Proof.
  intros [Ht Hb Hm] H. unfold execution_thread_release in H.
  destruct (holds kernel (running s)) eqn:Hin; [| discriminate].
  apply holds_spec in Hin. cbn [negb] in H.
  destruct (nth_error (nodes (kernel_output_queue s)) kernel) as [k |];
    [| discriminate].
  destruct (release_slots (cu k) (slot_id k) 0 0 (slots_in_use s)); [| discriminate].
  injection H as <-.
  constructor.
  - intros label. specialize (Ht label). rewrite in_flight_workers in Ht |- *.
    rewrite (filter_remove_first _ kernel (running s) Hin) in Ht.
    unfold marked_in_hand in *. state_fields.
    rewrite filter_snoc. unfold has_label in *. state_fields. cbv beta in *. lia.
  - exact Hb.
  - state_fields. exact Hm.
Qed.

Lemma labels_ok_step (e : event) (s s1 : state) :
  invariant s -> labels_ok s -> step e s = Some s1 -> labels_ok s1.
Proof.
  intros Hinv Hc H. destruct e; cbn [step] in H.
  - unfold main_generate in H.
    destruct (new_kernel initial i label executions inter_arrival rand
                (schedule_timer s)) as [aux timer1].
    unfold enqueue in H. cbn [Z.ltb Z.compare] in H. injection H as <-.
    apply (labels_ok_frame s); [exact Hc | reflexivity ..].
  - unfold main_arrival, dequeue in H.
    destruct (arrival_pending s); [discriminate |].
    destruct (nodes (kernel_generation_queue s)) as [| tmp next];
      [cbn in H; discriminate |].
    unfold enqueue in H. cbn [Z.ltb Z.compare Z.eqb negb] in H. injection H as <-.
    apply (labels_ok_frame s); [exact Hc | reflexivity ..].
  - unfold main_signal in H.
    destruct (arrival_pending s); [| discriminate]. injection H as <-.
    apply (labels_ok_frame s); [exact Hc | reflexivity ..].
  - destruct (queue_manager_thread s) as [[s2 log] |] eqn:E; [| discriminate].
    injection H as <-. eapply labels_ok_manager; eassumption.
  - eapply labels_ok_release; eassumption.
  - eapply labels_ok_unmark; eassumption.
  - unfold execution_thread_signal in H.
    destruct (negb (holds kernel (signalling s))); [discriminate |].
    destruct (nth_error (nodes (kernel_output_queue s)) kernel); [| discriminate].
    injection H as <-.
    apply (labels_ok_frame s); [exact Hc | reflexivity ..].
  - unfold monitoring_thread in H. injection H as <-.
    apply (labels_ok_frame s); [exact Hc | reflexivity ..].
Qed.

Lemma labels_ok_initial (local : kernel_data) (timer : timespec) :
  labels_ok (initial_state local timer).
Proof.
  constructor.
  - intros label. reflexivity.
  - intros label. left. reflexivity.
  - exact I.
Qed.

Lemma labels_ok_reachable (s : state) : reachable s -> labels_ok s.
Proof.
  revert s. apply reachable_induction.
  - apply labels_ok_initial.
  - apply labels_ok_step.
Qed.

(** X23: the duplication table is exact: in every reachable state the
    entry of each label is the number of kernels of that label in flight
    (marked by the manager and not yet unmarked by their worker) and is 0
    or 1, so at most one kernel of a label is in flight at a time; the
    manager only ever marks a label whose entry is 0. *)
Theorem duplicated_kernel_table_exact (s : state) (label : Z) :
  reachable s ->
  duplicated_kernel_variable s label = in_flight s label /\
  (duplicated_kernel_variable s label = 0 \/ duplicated_kernel_variable s label = 1) /\
  (length (filter (has_label s label) (running s ++ released s)) <= 1)%nat /\
  (manager s = pc_mark ->
   duplicated_kernel_variable s (kernel_label (kernel_tmp s)) = 0).
Proof.
  intros Hr. destruct (labels_ok_reachable s Hr) as [Ht Hb Hm].
  split; [apply Ht |]. split; [apply Hb |]. split.
  - specialize (Ht label). unfold in_flight in Ht.
    assert (0 <= marked_in_hand s label)
      by (unfold marked_in_hand; destruct (manager s); try lia;
          destruct (kernel_label (kernel_tmp s) =? label); lia).
    destruct (Hb label); lia.
  - intros Hpc. rewrite Hpc in Hm. exact Hm.
Qed.

Lemma duplicated_kernel_table_exact_witness :
  let s := sample_state in
  reachable s /\
  duplicated_kernel_variable s 3 = in_flight s 3 /\
  (duplicated_kernel_variable s 3 = 0 \/ duplicated_kernel_variable s 3 = 1) /\
  (length (filter (has_label s 3) (running s ++ released s)) <= 1)%nat /\
  (manager s = pc_mark ->
   duplicated_kernel_variable s (kernel_label (kernel_tmp s)) = 0).
Proof.
  split; [exact sample_state_reachable |].
  exact (duplicated_kernel_table_exact sample_state 3 sample_state_reachable).
Defined.

(** *** Labels within the tables *)

Lemma labels_in_range_frame (s s1 : state) :
  labels_in_range s ->
  kernel_generation_queue s1 = kernel_generation_queue s ->
  kernel_execution_queue s1 = kernel_execution_queue s ->
  kernel_output_queue s1 = kernel_output_queue s ->
  kernel_tmp s1 = kernel_tmp s ->
  manager s1 = manager s ->
  labels_in_range s1.
Proof.
  intros [Hg He Ho Hh] E1 E2 E3 E4 E5.
  constructor; rewrite ?E1, ?E2, ?E3, ?E4, ?E5; assumption.
Qed.

Lemma labels_in_range_manager (s s1 : state) (log : list Z) :
  labels_in_range s -> queue_manager_thread s = Some (s1, log) ->
  labels_in_range s1.
Proof.
  intros [Hg He Ho Hh] H. unfold queue_manager_thread in H.
  destruct (manager s) eqn:Hpc.
  - destruct ((kernels_to_serve_variable s =? 0)
              || (kernels_are_executable_variable s =? 0)
              || (free_slots_variable s =? 0)
              || match operating_mode s with TRAIN => true | EXECUTION => false end);
      [discriminate |].
    injection H as <- <-. constructor; state_fields; auto.
  - injection H as <- <-. constructor; state_fields; auto.
  - destruct (dequeue_first_executable_kernel (kernel_execution_queue s)
                free_slots_tmp duplicated_kernels_tmp (kernel_tmp s))
      as [[ret q1] d1] eqn:Ed.
    apply dequeue_first_executable_kernel_found in Ed.
    destruct Ed as [(-> & -> & ->) | (-> & Hin & _ & Hsub)];
      cbn in H; injection H as <- <-; constructor; state_fields; auto.
  - injection H as <- <-. constructor; state_fields; auto.
  - injection H as <- <-. constructor; state_fields; auto.
  - injection H as <- <-. constructor; state_fields; auto.
  - destruct (select_slots (cu (kernel_tmp s)) 0 0 (slots_in_use s)
                (slot_id (kernel_tmp s))) as [slots1 slot_id1].
    injection H as <- <-. constructor; state_fields; auto.
  - unfold enqueue_and_modify in H. injection H as <- <-.
    constructor; state_fields; auto.
    intros k Hk. apply in_app_or in Hk.
    destruct Hk as [Hk | [<- | []]]; [apply Ho; exact Hk | exact Hh].
  - injection H as <- <-. constructor; state_fields; auto.
Qed.

Lemma labels_in_range_step (e : event) (s s1 : state) :
  label_in_range e -> labels_in_range s -> step e s = Some s1 ->
  labels_in_range s1.
Proof.
  intros Hl Hc H.
  destruct e; cbn [step] in H;
    try (destruct (queue_manager_thread s) as [[s2 log] |] eqn:E; [| discriminate];
         injection H as <-; eapply labels_in_range_manager; eassumption).
  - unfold main_generate, new_kernel in H.
    unfold enqueue in H. cbn [Z.ltb Z.compare] in H. injection H as <-.
    destruct Hc as [Hg He Ho Hh]. constructor; state_fields; auto.
    intros k Hk. apply in_app_or in Hk.
    destruct Hk as [Hk | [<- | []]]; [apply Hg; exact Hk |].
    unfold label_ok. cbn [kernel_label]. exact Hl.
  - unfold main_arrival, dequeue in H.
    destruct (arrival_pending s); [discriminate |].
    destruct (nodes (kernel_generation_queue s)) as [| tmp next] eqn:En;
      [cbn in H; discriminate |].
    unfold enqueue in H. cbn [Z.ltb Z.compare Z.eqb negb] in H. injection H as <-.
    destruct Hc as [Hg He Ho Hh]. rewrite En in Hg.
    constructor; state_fields; auto.
    + intros k Hk. apply Hg. right. exact Hk.
    + intros k Hk. apply in_app_or in Hk.
      destruct Hk as [Hk | [<- | []]]; [apply He; exact Hk |].
      apply Hg. left. reflexivity.
  - unfold main_signal in H.
    destruct (arrival_pending s); [| discriminate]. injection H as <-.
    apply (labels_in_range_frame s); [exact Hc | reflexivity ..].
  - unfold execution_thread_release in H.
    destruct (negb (holds kernel (running s))); [discriminate |].
    destruct (nth_error (nodes (kernel_output_queue s)) kernel); [| discriminate].
    destruct (release_slots (cu k) (slot_id k) 0 0 (slots_in_use s));
      [| discriminate].
    injection H as <-.
    apply (labels_in_range_frame s); [exact Hc | reflexivity ..].
  - unfold execution_thread_unmark in H.
    destruct (negb (holds kernel (released s))); [discriminate |].
    destruct (nth_error (nodes (kernel_output_queue s)) kernel); [| discriminate].
    injection H as <-.
    apply (labels_in_range_frame s); [exact Hc | reflexivity ..].
  - unfold execution_thread_signal in H.
    destruct (negb (holds kernel (signalling s))); [discriminate |].
    destruct (nth_error (nodes (kernel_output_queue s)) kernel); [| discriminate].
    injection H as <-.
    apply (labels_in_range_frame s); [exact Hc | reflexivity ..].
  - unfold monitoring_thread in H. injection H as <-.
    apply (labels_in_range_frame s); [exact Hc | reflexivity ..].
Qed.

Lemma labels_in_range_run (es : list event) :
  forall s s1,
    Forall label_in_range es -> labels_in_range s -> run es s = Some s1 ->
    labels_in_range s1.
Proof.
  induction es as [| e es IH]; intros s s1 Hl Hc H; cbn [run] in H.
  - injection H as <-. exact Hc.
  - destruct (step e s) as [s2 |] eqn:E; [| discriminate].
    inversion Hl as [| e' es' He Hes]; subst.
    apply (IH s2 s1 Hes); [| exact H].
    apply (labels_in_range_step e s s2 He Hc E).
Qed.

Lemma labels_in_range_initial (local : kernel_data) (timer : timespec) :
  labels_in_range (initial_state local timer).
Proof.
  constructor; unfold initial_state; state_fields; cbn [init_queue nodes];
    try (intros k []). exact I.
Qed.

(** X24: inside the scheduler the two tests of
    [dequeue_first_executable_kernel] agree.  Along a run in which every
    label [main] gives a record is an index of the duplication table
    ([0 <= label < TYPES_OF_KERNELS]), whenever the manager is about to
    scan: every pending record carries such a label, so the scan reads
    within the manager's copy of the table; the copy holds only 0 and 1;
    and the call returns exactly the first pending record with
    [cu <= free_slots] and a table entry of 0, or -1 when there is
    none. *)
Theorem manager_scan_first_executable (local : kernel_data) (timer : timespec)
    (es : list event) (s : state) (free_slots_tmp : Z)
    (duplicated_kernels_tmp : Z -> Z) :
  Forall label_in_range es ->
  run es (initial_state local timer) = Some s ->
  manager s = pc_scan free_slots_tmp duplicated_kernels_tmp ->
  (forall k, In k (nodes (kernel_execution_queue s)) ->
             0 <= kernel_label k < TYPES_OF_KERNELS) /\
  (forall label, duplicated_kernels_tmp label = 0 \/ duplicated_kernels_tmp label = 1) /\
  dequeue_first_executable_kernel (kernel_execution_queue s) free_slots_tmp
    duplicated_kernels_tmp (kernel_tmp s)
  = match scan_and_remove_first_executable free_slots_tmp duplicated_kernels_tmp
            (nodes (kernel_execution_queue s)) with
    | None => (-1, kernel_execution_queue s, kernel_tmp s)
    | Some (found, rest) =>
        (0, mk_queue rest (size (kernel_execution_queue s) - 1), found)
    end.
Proof.
  intros Hl Hrun Hpc.
  assert (Hr : reachable s) by (exists local, timer, es; exact Hrun).
  destruct (labels_ok_reachable s Hr) as [_ _ Hm].
  rewrite Hpc in Hm.
  pose proof (labels_in_range_run es _ _ Hl
                (labels_in_range_initial local timer) Hrun) as [_ He _ _].
  split; [exact He |].
  split; [intros label; apply Hm |].
  apply dequeue_first_executable_kernel_refines.
  intros k _. apply Hm.
Qed.

Lemma sample_scan_state_reachable : reachable sample_scan_state.
Proof.
  exists no_record, (mk_timespec 1 0),
    ([ev_generate (mk_timespec 1 0) 0 3 5 10 1; ev_arrival no_record; ev_signal]
     ++ manager_steps 2).
  vm_compute. reflexivity.
Qed.

(** One pending record, of label 3 and width 2, and 8 free slots: the scan
    takes it. *)
Lemma manager_scan_first_executable_witness :
  let s := sample_scan_state in
  let duplicated_kernels_tmp := fun _ : Z => 0 in
  Forall label_in_range sample_scan_events /\
  run sample_scan_events (initial_state no_record (mk_timespec 1 0)) = Some s /\
  manager s = pc_scan 8 duplicated_kernels_tmp /\
  map kernel_label (nodes (kernel_execution_queue s)) = [3] /\
  (forall k, In k (nodes (kernel_execution_queue s)) ->
             0 <= kernel_label k < TYPES_OF_KERNELS) /\
  (forall label, duplicated_kernels_tmp label = 0 \/ duplicated_kernels_tmp label = 1) /\
  dequeue_first_executable_kernel (kernel_execution_queue s) 8
    duplicated_kernels_tmp (kernel_tmp s)
  = match scan_and_remove_first_executable 8 duplicated_kernels_tmp
            (nodes (kernel_execution_queue s)) with
    | None => (-1, kernel_execution_queue s, kernel_tmp s)
    | Some (found, rest) =>
        (0, mk_queue rest (size (kernel_execution_queue s) - 1), found)
    end.
Proof.
  assert (Hl : Forall label_in_range sample_scan_events).
  { unfold sample_scan_events, manager_steps. cbn [app repeat].
    repeat (apply Forall_cons;
            [cbn [label_in_range]; unfold TYPES_OF_KERNELS; try lia; exact I |]).
    apply Forall_nil. }
  assert (Hrun : run sample_scan_events (initial_state no_record (mk_timespec 1 0))
                 = Some sample_scan_state)
    by (vm_compute; reflexivity).
  assert (Hpc : manager sample_scan_state = pc_scan 8 (fun _ : Z => 0))
    by (vm_compute; reflexivity).
  split; [exact Hl |]. split; [exact Hrun |]. split; [exact Hpc |].
  split; [vm_compute; reflexivity |].
  exact (manager_scan_first_executable no_record (mk_timespec 1 0)
           sample_scan_events sample_scan_state 8 (fun _ : Z => 0) Hl Hrun Hpc).
Defined.

(** ** setup.c: bounds of the free-slot counter *)

Lemma free_from_length_le (slots : list Z) :
  forall i, (length (free_from i slots) <= length slots)%nat.
Proof.
  induction slots as [| x rest IH]; intros i; [cbn; lia |].
  cbn [free_from]. specialize (IH (i + 1)).
  destruct (x =? 0); cbn [length]; lia.
Qed.

(** X25: [free_slots_variable] never over-reports: in every reachable
    state it lies between 0 and [NUM_SLOTS] and is at most the number of
    free entries of [slots_in_use] (the difference being the slots in
    transit), so when the manager reaches the selection loop the table
    holds at least [cu] free slots for the record in its hand. *)
Theorem free_slots_never_over_reported (s : state) :
  reachable s ->
  0 <= free_slots_variable s <= NUM_SLOTS /\
  free_slots_variable s <= count_free (slots_in_use s) /\
  count_free (slots_in_use s) - free_slots_variable s = in_transit s /\
  length (slots_in_use s) = Z.to_nat NUM_SLOTS /\
  (manager s = pc_select ->
   1 <= cu (kernel_tmp s) <= count_free (slots_in_use s)).
Proof.
  intros Hr. destruct (invariant_reachable s Hr) as [Hs Hf Hn Hp Ho Hg Hq Hm].
  destruct Hs as [Hlen _ _ _ _ _].
  assert (Hworkers : 0 <= sum_Z (map (fun p => cu (record_at s p))
                                   (released s ++ signalling s))).
  { apply sum_Z_nonneg. intros p Hin.
    assert (1 <= cu (record_at s p)); [| lia].
    apply record_at_width; [exact Ho |].
    apply Hp. apply in_or_app. right. exact Hin. }
  assert (Hcount : count_free (slots_in_use s) <= NUM_SLOTS).
  { unfold count_free, free_indices.
    pose proof (free_from_length_le (slots_in_use s) 0) as Hle.
    rewrite Hlen in Hle. unfold NUM_SLOTS in *. lia. }
  unfold in_transit in *.
  destruct (manager s) eqn:Hpc;
    try (repeat split; try lia; try exact Hlen; intros; discriminate).
  apply producer_record_width in Hm.
  repeat split; try lia; exact Hlen.
Qed.

Lemma free_slots_never_over_reported_witness :
  let s := sample_state in
  reachable s /\
  0 <= free_slots_variable s <= NUM_SLOTS /\
  free_slots_variable s <= count_free (slots_in_use s) /\
  count_free (slots_in_use s) - free_slots_variable s = in_transit s /\
  length (slots_in_use s) = Z.to_nat NUM_SLOTS /\
  (manager s = pc_select ->
   1 <= cu (kernel_tmp s) <= count_free (slots_in_use s)).
Proof.
  split; [exact sample_state_reachable |].
  exact (free_slots_never_over_reported sample_state sample_state_reachable).
Defined.

(** ** The workers and the per-slot queues *)

Lemma bit_le_owners (live : list kernel_data) (r : kernel_data) (k : Z) :
  In r live -> bit (slot_id r) k <= owners live k.
Proof.
  induction live as [| x live IH]; intros Hin; [destruct Hin |].
  rewrite owners_cons. pose proof (bit_bounds (slot_id x) k).
  pose proof (owners_nonneg live k).
  destruct Hin as [-> | Hin]; [lia | specialize (IH Hin); lia].
Qed.

(** X26: a kernel handed to a worker can always be registered: in every
    reachable state, for every worker that has not released its slots yet,
    [_kernel_to_online_queue] run on the [NUM_SLOTS] per-slot queues stays
    inside the array, appends the kernel pointer to the queues of exactly
    the slots of its mask, and each of those slots is marked busy in
    [slots_in_use]. *)
Theorem running_kernel_registers (s : state) (kernel : kernel_ptr)
    (online_queue : list queue_online) :
  reachable s ->
  In kernel (running s) ->
  length online_queue = Z.to_nat NUM_SLOTS ->
  _kernel_to_online_queue (record_at s) online_queue kernel
  = Some (0, register_from 0 (slot_id (record_at s kernel)) kernel online_queue) /\
  bits_from 0 (length online_queue) (slot_id (record_at s kernel))
  = cu (record_at s kernel) /\
  (forall k, 0 <= k -> Z.testbit (slot_id (record_at s kernel)) k = true ->
             k < NUM_SLOTS /\ entry (slots_in_use s) k = 1).
Proof.
  intros Hr Hin Hlen.
  destruct (invariant_reachable s Hr) as [Hs _ _ _ _ _ _ _].
  destruct Hs as [Hslots Hbin Hown _ Hpop _].
  set (r := record_at s kernel).
  assert (Hlive : In r (live_records s)).
  { unfold live_records. apply in_or_app. left. apply in_map. exact Hin. }
  assert (Hbit : forall k, 0 <= k -> Z.testbit (slot_id r) k = true ->
                           k < NUM_SLOTS /\ entry (slots_in_use s) k = 1).
  { intros k Hk Ht.
    pose proof (bit_le_owners (live_records s) r k Hlive) as Hle.
    unfold bit in Hle. rewrite Ht in Hle. rewrite <- (Hown k Hk) in Hle.
    destruct (entry_binary (slots_in_use s) k Hbin) as [E | E]; [lia |].
    split; [| exact E].
    destruct (Z.lt_ge_cases k NUM_SLOTS) as [Hlt | Hge]; [exact Hlt |].
    rewrite entry_overflow in E by (rewrite Hslots; unfold NUM_SLOTS in *; lia).
    discriminate. }
  assert (Hbits : bits_from 0 (length online_queue) (slot_id r) = cu r).
  { rewrite <- (Hpop r Hlive). unfold popcount.
    rewrite Hlen. change 31%nat with (Z.to_nat NUM_SLOTS + 23)%nat.
    rewrite bits_from_app.
    rewrite (bits_from_zero 23); [lia |].
    intros k Hk. destruct (Z.testbit (slot_id r) k) eqn:Ht; [| reflexivity].
    destruct (Hbit k) as [Hlt _]; [unfold NUM_SLOTS in *; lia | exact Ht |].
    unfold NUM_SLOTS in *. lia. }
  split; [| split; [exact Hbits | exact Hbit]].
  unfold _kernel_to_online_queue. fold r.
  rewrite kernel_to_online_queue_closed by lia. reflexivity.
Qed.

Lemma running_kernel_registers_witness :
  let s := sample_state in
  let online_queue := repeat init_queue_online 8 in
  reachable s /\
  In 0%nat (running s) /\
  length online_queue = Z.to_nat NUM_SLOTS /\
  _kernel_to_online_queue (record_at s) online_queue 0%nat
  = Some (0, register_from 0 (slot_id (record_at s 0%nat)) 0%nat online_queue) /\
  bits_from 0 (length online_queue) (slot_id (record_at s 0%nat))
  = cu (record_at s 0%nat) /\
  (forall k, 0 <= k -> Z.testbit (slot_id (record_at s 0%nat)) k = true ->
             k < NUM_SLOTS /\ entry (slots_in_use s) k = 1).
Proof.
  assert (Hin : In 0%nat (running sample_state)) by (vm_compute; left; reflexivity).
  assert (Hlen : length (repeat init_queue_online 8) = Z.to_nat NUM_SLOTS)
    by reflexivity.
  split; [exact sample_state_reachable |]. split; [exact Hin |].
  split; [exact Hlen |].
  exact (running_kernel_registers sample_state 0%nat _
           sample_state_reachable Hin Hlen).
Defined.

(** ** setup.c: the flag and the manager's wait *)

Lemma wakeup_ok_manager (s s1 : state) (log : list Z) :
  wakeup_ok s -> queue_manager_thread s = Some (s1, log) -> wakeup_ok s1.
Proof.
  unfold wakeup_ok. intros Hw H. unfold queue_manager_thread in H.
  destruct (manager s) eqn:Hpc.
  - destruct ((kernels_to_serve_variable s =? 0)
              || (kernels_are_executable_variable s =? 0)
              || (free_slots_variable s =? 0)
              || match operating_mode s with TRAIN => true | EXECUTION => false end);
      [discriminate |].
    injection H as <- <-. state_fields. intros _. reflexivity.
  - injection H as <- <-. state_fields. intros Hflag.
    split; [exact (Hw Hflag) | intros _ label; reflexivity].
  - destruct (dequeue_first_executable_kernel (kernel_execution_queue s)
                free_slots_tmp duplicated_kernels_tmp (kernel_tmp s))
      as [[ret q1] d1] eqn:Ed.
    apply dequeue_first_executable_kernel_split in Ed.
    destruct Ed as [(-> & -> & -> & Hall) | (-> & _)];
      cbn [Z.ltb Z.compare Z.eqb] in H; injection H as <- <-; state_fields;
      [| exact I].
    intros Hflag _ Hsig x Hx.
    destruct (Hw Hflag) as [<- Htmp]. rewrite <- (Htmp Hsig). exact (Hall x Hx).
  - injection H as <- <-. state_fields. reflexivity.
  - injection H as <- <-. state_fields. exact Hw.
  - injection H as <- <-. state_fields. exact Hw.
  - destruct (select_slots (cu (kernel_tmp s)) 0 0 (slots_in_use s)
                (slot_id (kernel_tmp s))) as [slots1 slot_id1].
    injection H as <- <-. state_fields. exact Hw.
  - unfold enqueue_and_modify in H. injection H as <- <-. state_fields. exact Hw.
  - injection H as <- <-. state_fields. intros Hflag. rewrite Hw in Hflag.
    discriminate.
Qed.

Lemma wakeup_ok_step (e : event) (s s1 : state) :
  invariant s -> wakeup_ok s -> step e s = Some s1 -> wakeup_ok s1.
Proof.
  intros _ Hw H. destruct e; cbn [step] in H.
  - unfold main_generate in H.
    destruct (new_kernel initial i label executions inter_arrival rand
                (schedule_timer s)) as [aux timer1].
    unfold enqueue in H. cbn [Z.ltb Z.compare] in H. injection H as <-.
    unfold wakeup_ok in *. state_fields. exact Hw.
  - unfold main_arrival, dequeue in H.
    destruct (arrival_pending s); [discriminate |].
    destruct (nodes (kernel_generation_queue s)) as [| tmp next];
      [cbn in H; discriminate |].
    unfold enqueue in H. cbn [Z.ltb Z.compare Z.eqb negb] in H. injection H as <-.
    unfold wakeup_ok in *. state_fields.
    destruct (manager s); try exact Hw.
    intros _ Hp. discriminate.
  - unfold main_signal in H.
    destruct (arrival_pending s); [| discriminate]. injection H as <-.
    unfold wakeup_ok in *. state_fields.
    destruct (manager s); try exact I; try reflexivity; intros Hflag; discriminate.
  - destruct (queue_manager_thread s) as [[s2 log] |] eqn:E; [| discriminate].
    injection H as <-. eapply wakeup_ok_manager; eassumption.
  - unfold execution_thread_release in H.
    destruct (negb (holds kernel (running s))); [discriminate |].
    destruct (nth_error (nodes (kernel_output_queue s)) kernel); [| discriminate].
    destruct (release_slots (cu k) (slot_id k) 0 0 (slots_in_use s));
      [| discriminate].
    injection H as <-. unfold wakeup_ok in *. state_fields. exact Hw.
  - unfold execution_thread_unmark in H.
    destruct (negb (holds kernel (released s))); [discriminate |].
    destruct (nth_error (nodes (kernel_output_queue s)) kernel); [| discriminate].
    injection H as <-. unfold wakeup_ok in *. state_fields.
    destruct (manager s); try exact Hw.
    + intros _ _ Hsig. destruct (signalling s); discriminate.
    + intros Hflag. split; [apply Hw; exact Hflag |].
      intros Hsig. destruct (signalling s); discriminate.
  - unfold execution_thread_signal in H.
    destruct (negb (holds kernel (signalling s))); [discriminate |].
    destruct (nth_error (nodes (kernel_output_queue s)) kernel); [| discriminate].
    injection H as <-. unfold wakeup_ok in *. state_fields.
    destruct (manager s); try exact I; try reflexivity; intros Hflag; discriminate.
  - unfold monitoring_thread in H. injection H as <-.
    unfold wakeup_ok in *. state_fields. exact Hw.
Qed.

Lemma wakeup_ok_initial (local : kernel_data) (timer : timespec) :
  wakeup_ok (initial_state local timer).
Proof.
  unfold wakeup_ok, initial_state. state_fields. intros Hflag. discriminate.
Qed.

(** X27: no wake-up is lost: in every reachable state in which the
    manager is at its wait with [kernels_are_executable_variable] cleared,
    while no arrival is waiting to be signalled and no worker stands
    between its table decrement and its signal, no pending record is
    executable (each is wider than [free_slots_variable] or has its label
    marked in [duplicated_kernel_variable]).  While the manager dispatches
    a record the flag is 1. *)
Theorem no_lost_wakeup (s : state) :
  reachable s ->
  (manager s = pc_wait ->
   kernels_are_executable_variable s = 0 ->
   arrival_pending s = false -> signalling s = [] ->
   forall x, In x (nodes (kernel_execution_queue s)) ->
             executable (free_slots_variable s) (duplicated_kernel_variable s) x
             = false) /\
  (dispatching (manager s) = true -> kernels_are_executable_variable s = 1).
Proof.
  intros Hr.
  assert (Hw : wakeup_ok s).
  { revert s Hr. apply reachable_induction.
    - apply wakeup_ok_initial.
    - apply wakeup_ok_step. }
  unfold wakeup_ok in Hw. split.
  - intros Hpc Hflag Hp Hsig x Hx. rewrite Hpc in Hw.
    specialize (Hw Hflag Hp Hsig x Hx). unfold executable.
    destruct (Z.leb_spec (cu x) (free_slots_variable s)); cbn [andb]; [| reflexivity].
    destruct (Z.eqb_spec (duplicated_kernel_variable s (kernel_label x)) 0);
      [lia | reflexivity].
  - intros Hd. destruct (manager s); try discriminate; exact Hw.
Qed.

Lemma sample_blocked_state_reachable : reachable sample_blocked_state.
Proof.
  exists no_record, (mk_timespec 1 0),
    ([ev_generate (mk_timespec 1 0) 0 3 5 10 1; ev_arrival no_record; ev_signal]
     ++ manager_steps 9
     ++ [ev_generate (mk_timespec 1 0) 1 3 5 10 1; ev_arrival no_record; ev_signal]
     ++ manager_steps 3).
  vm_compute. reflexivity.
Qed.

Lemma sample_blocked_state_values :
  manager sample_blocked_state = pc_wait /\
  kernels_are_executable_variable sample_blocked_state = 0 /\
  arrival_pending sample_blocked_state = false /\
  signalling sample_blocked_state = [] /\
  map kernel_label (nodes (kernel_execution_queue sample_blocked_state)) = [3] /\
  duplicated_kernel_variable sample_blocked_state 3 = 1 /\
  free_slots_variable sample_blocked_state = 6.
Proof.
  vm_compute. repeat split; reflexivity.
Qed.

Lemma no_lost_wakeup_witness :
  let s := sample_blocked_state in
  reachable s /\
  (manager s = pc_wait ->
   kernels_are_executable_variable s = 0 ->
   arrival_pending s = false -> signalling s = [] ->
   forall x, In x (nodes (kernel_execution_queue s)) ->
             executable (free_slots_variable s) (duplicated_kernel_variable s) x
             = false) /\
  (dispatching (manager s) = true -> kernels_are_executable_variable s = 1).
Proof.
  split; [exact sample_blocked_state_reachable |].
  exact (no_lost_wakeup sample_blocked_state sample_blocked_state_reachable).
Defined.

(** ** queue_ll.c, the later revision *)

Lemma scan_rest_revised_refines (free_slots : Z) (dup : Z -> Z)
    (next : list kernel_data) :
  (forall k, In k next -> 0 <= dup (kernel_label k)) ->
  forall prev,
    queue_ll_revised.scan_rest free_slots dup prev next =
    match scan_and_remove_first_executable free_slots dup next with
    | None => None
    | Some (found, rest1) => Some (found, prev :: rest1)
    end.
Proof.
  induction next as [| tmp after IH]; intros Hdup prev; [reflexivity |].
  cbn [queue_ll_revised.scan_rest scan_and_remove_first_executable].
  unfold executable.
  assert (Htmp : 0 <= dup (kernel_label tmp)) by (apply Hdup; left; reflexivity).
  rewrite IH by (intros k Hk; apply Hdup; right; exact Hk).
  rewrite !Z.gtb_ltb.
  destruct (Z.ltb_spec free_slots (cu tmp)), (Z.leb_spec (cu tmp) free_slots);
    try lia;
    destruct (Z.ltb_spec 0 (dup (kernel_label tmp))),
             (Z.eqb_spec (dup (kernel_label tmp)) 0);
    try lia; cbn [orb andb];
    try reflexivity;
    destruct (scan_and_remove_first_executable free_slots dup after)
      as [[found rest1] |]; reflexivity.
Qed.

(** X28: the later revision of [dequeue_first_executable_kernel] (loop
    test [> 0]) removes and returns exactly the first pending record with
    [cu <= free_slots] and a duplication entry of 0, or returns -1 and
    changes nothing when there is none, for every table without negative
    entries among the pending labels; on such tables with entries of 0 and
    1 only it agrees with the earlier revision. *)
Theorem dequeue_first_executable_kernel_revised_refines
    (q : queue) (free_slots : Z) (dup : Z -> Z) (d : kernel_data) :
  (forall k, In k (nodes q) -> 0 <= dup (kernel_label k)) ->
  queue_ll_revised.dequeue_first_executable_kernel q free_slots dup d =
  match scan_and_remove_first_executable free_slots dup (nodes q) with
  | None => (-1, q, d)
  | Some (found, rest) => (0, mk_queue rest (size q - 1), found)
  end /\
  ((forall k, In k (nodes q) -> dup (kernel_label k) <= 1) ->
   queue_ll_revised.dequeue_first_executable_kernel q free_slots dup d
   = dequeue_first_executable_kernel q free_slots dup d).
Proof.
  intros Hdup.
  assert (Hrev : queue_ll_revised.dequeue_first_executable_kernel q free_slots dup d =
                 match scan_and_remove_first_executable free_slots dup (nodes q) with
                 | None => (-1, q, d)
                 | Some (found, rest) => (0, mk_queue rest (size q - 1), found)
                 end).
  { unfold queue_ll_revised.dequeue_first_executable_kernel.
    destruct (nodes q) as [| tmp next] eqn:Hq; [reflexivity |].
    cbn [scan_and_remove_first_executable]. unfold executable.
    destruct ((cu tmp <=? free_slots) && (dup (kernel_label tmp) =? 0));
      [reflexivity |].
    rewrite scan_rest_revised_refines
      by (intros k Hk; apply Hdup; right; exact Hk).
    destruct (scan_and_remove_first_executable free_slots dup next)
      as [[found rest1] |]; reflexivity. }
  split; [exact Hrev |].
  intros Hone. rewrite Hrev. symmetry.
  apply dequeue_first_executable_kernel_refines.
  intros k Hk. specialize (Hdup k Hk). specialize (Hone k Hk). lia.
Qed.

Lemma dequeue_first_executable_kernel_revised_refines_witness :
  let q := mk_queue [sample_kernel 0 1; sample_kernel 1 1] 2 in
  let dup := fun label => if label =? 0 then 1 else if label =? 1 then 2 else 0 in
  let d := sample_kernel 5 2 in
  (forall k, In k (nodes q) -> 0 <= dup (kernel_label k)) /\
  queue_ll_revised.dequeue_first_executable_kernel q 1 dup d =
  match scan_and_remove_first_executable 1 dup (nodes q) with
  | None => (-1, q, d)
  | Some (found, rest) => (0, mk_queue rest (size q - 1), found)
  end /\
  ((forall k, In k (nodes q) -> dup (kernel_label k) <= 1) ->
   queue_ll_revised.dequeue_first_executable_kernel q 1 dup d
   = dequeue_first_executable_kernel q 1 dup d).
Proof.
  assert (Hdup : forall k,
             In k (nodes (mk_queue [sample_kernel 0 1; sample_kernel 1 1] 2)) ->
             0 <= (fun label => if label =? 0 then 1
                                else if label =? 1 then 2 else 0)
                    (kernel_label k)).
  { intros k [<- | [<- | []]]; vm_compute; discriminate. }
  split; [exact Hdup |].
  exact (dequeue_first_executable_kernel_revised_refines _ 1 _ (sample_kernel 5 2) Hdup).
Defined.

(** ** thread_pool.c: the hand-over of tasks *)

Ltac pool_fields :=
  unfold set_worker, set_executed, set_task, set_dispatcher, set_shutdown in *;
  cbn [num_threads executed_tasks_per_thread pool_running wake_up shutdown task
       workers dispatcher] in *.

Lemma tasks_posted_app (a b : list pool_action) :
  tasks_posted (a ++ b) = tasks_posted a ++ tasks_posted b.
Proof.
  unfold tasks_posted. apply flat_map_app.
Qed.

Lemma tasks_taken_app (a b : list pool_action) :
  tasks_taken (a ++ b) = tasks_taken a ++ tasks_taken b.
Proof.
  unfold tasks_taken. apply flat_map_app.
Qed.

Lemma handoff_ok_wait_or_take (posted taken : list work_t) (id : Z)
    (flags : Z -> Z) (pool pool1 : thread_pool) (acts : list pool_action) :
  handoff_ok posted taken pool ->
  wait_or_take id flags pool = Some (pool1, acts) ->
  handoff_ok (posted ++ tasks_posted acts) (taken ++ tasks_taken acts) pool1.
Proof.
  unfold handoff_ok, task_waiting, wait_or_take. intros (Hw & Hone & Hlog) H.
  destruct (Z.eqb_spec (wake_up pool) 0) as [E0 | Hne].
  - destruct (negb (shutdown pool =? 0)); injection H as <- <-; pool_fields;
      cbn [tasks_posted tasks_taken flat_map]; rewrite !app_nil_r;
      rewrite E0 in *; cbn [Z.eqb] in *; repeat split; auto; discriminate.
  - assert (E1 : wake_up pool = 1) by lia.
    destruct (task pool) as [todo |] eqn:Et; [| discriminate].
    injection H as <- <-. pool_fields.
    cbn [tasks_posted tasks_taken flat_map app Z.eqb].
    rewrite Hlog, !app_nil_r.
    repeat split; auto; discriminate.
Qed.

Lemma handoff_ok_step (posted taken : list work_t) (e : pool_event)
    (pool pool1 : thread_pool) (acts : list pool_action) :
  handoff_ok posted taken pool ->
  pool_step e pool = Some (pool1, acts) ->
  handoff_ok (posted ++ tasks_posted acts) (taken ++ tasks_taken acts) pool1.
Proof.
  intros Hok H. destruct e; cbn [pool_step] in H.
  - destruct ((0 <=? id) && (id <? num_threads pool)); [| discriminate].
    destruct (workers pool id); try discriminate. injection H as <- <-.
    unfold handoff_ok, task_waiting in *. pool_fields.
    cbn [tasks_posted tasks_taken flat_map]. rewrite !app_nil_r. exact Hok.
  - destruct ((0 <=? id) && (id <? num_threads pool)); [| discriminate].
    destruct (workers pool id); try discriminate.
    eapply handoff_ok_wait_or_take; eassumption.
  - destruct ((0 <=? id) && (id <? num_threads pool)); [| discriminate].
    destruct (workers pool id); try discriminate.
    eapply handoff_ok_wait_or_take; eassumption.
  - destruct ((0 <=? id) && (id <? num_threads pool)); [| discriminate].
    destruct (workers pool id); try discriminate. injection H as <- <-.
    unfold handoff_ok, task_waiting in *. pool_fields.
    cbn [tasks_posted tasks_taken flat_map]. rewrite !app_nil_r. exact Hok.
  - destruct (dispatcher pool) eqn:Hd; [| discriminate]. injection H as <- <-.
    unfold handoff_ok, task_waiting in *. pool_fields.
    destruct Hok as (Hw & Hone & Hlog).
    assert (E0 : wake_up pool = 0).
    { destruct Hw as [E | E]; [exact E |].
      destruct (Hone E) as [_ Hd1]. rewrite Hd in Hd1. discriminate. }
    rewrite E0 in Hlog. cbn [Z.eqb] in Hlog. rewrite app_nil_r in Hlog.
    cbn [tasks_posted tasks_taken flat_map app Z.eqb]. rewrite app_nil_r.
    repeat split; auto; [discriminate | congruence].
  - destruct (dispatcher pool) eqn:Hd; [discriminate |].
    unfold handoff_ok, task_waiting in *.
    destruct Hok as (Hw & Hone & Hlog).
    destruct (Z.eqb_spec (wake_up pool) 1) as [E1 | Hne]; injection H as <- <-;
      pool_fields; cbn [tasks_posted tasks_taken flat_map]; rewrite !app_nil_r.
    + split; [exact Hw |]. split; [exact Hone | exact Hlog].
    + split; [exact Hw |]. split; [intros E; contradiction | exact Hlog].
  - injection H as <- <-.
    unfold handoff_ok, task_waiting in *. pool_fields.
    cbn [tasks_posted tasks_taken flat_map]. rewrite !app_nil_r. exact Hok.
Qed.

Lemma handoff_ok_run (es : list pool_event) :
  forall (posted taken : list work_t) (pool pool1 : thread_pool)
         (acts : list pool_action),
    handoff_ok posted taken pool ->
    pool_run es pool = Some (pool1, acts) ->
    handoff_ok (posted ++ tasks_posted acts) (taken ++ tasks_taken acts) pool1.
Proof.
  induction es as [| e es IH]; intros posted taken pool pool1 acts Hok H;
    cbn [pool_run] in H.
  - injection H as <- <-. cbn [tasks_posted tasks_taken flat_map].
    rewrite !app_nil_r. exact Hok.
  - destruct (pool_step e pool) as [[pool2 acts1] |] eqn:Es; [| discriminate].
    destruct (pool_run es pool2) as [[pool3 acts2] |] eqn:Er; [| discriminate].
    injection H as <- <-.
    rewrite tasks_posted_app, tasks_taken_app, !app_assoc.
    eapply IH; [| exact Er]. eapply handoff_ok_step; eassumption.
Qed.

Lemma thread_pool_handoff_invariant (num_threads_in_pool : Z)
    (executed flags : Z -> Z) (todo : option work_t) (es : list pool_event)
    (pool pool1 : thread_pool) (acts : list pool_action) :
  create_thread_pool num_threads_in_pool executed flags todo = Some pool ->
  pool_run es pool = Some (pool1, acts) ->
  wake_up pool1 = 1 -> task pool1 <> None /\ dispatcher pool1 = d_wait.
Proof.
  intros Hc Hrun. unfold create_thread_pool in Hc.
  destruct ((num_threads_in_pool <=? 0) || (num_threads_in_pool >? MAXT_IN_POOL));
    [discriminate |].
  injection Hc as <-.
  assert (Hinit : handoff_ok [] []
                    (mk_thread_pool num_threads_in_pool executed flags 0 0 todo
                       (fun _ => w_start) d_idle)).
  { unfold handoff_ok, task_waiting. pool_fields. cbn [Z.eqb app].
    repeat split; auto; discriminate. }
  pose proof (handoff_ok_run es _ _ _ _ _ Hinit Hrun) as (_ & Hone & _).
  exact Hone.
Qed.

(** X29: [dispatch] hands every task to exactly one worker, in order: in
    any run of the pool from its creation the tasks taken by the workers
    are the tasks published by [dispatch], in the same order, but for the
    one task (at most) that is published and waiting to be taken; a task
    is never overwritten before it is taken, a worker never takes a [NULL]
    task, and [dispatch] has returned only when nothing is waiting. *)
Theorem thread_pool_handoff (num_threads_in_pool : Z) (executed flags : Z -> Z)
    (todo : option work_t) (es : list pool_event) (pool pool1 : thread_pool)
    (acts : list pool_action) :
  create_thread_pool num_threads_in_pool executed flags todo = Some pool ->
  pool_run es pool = Some (pool1, acts) ->
  tasks_posted acts = tasks_taken acts ++ task_waiting pool1 /\
  (length (task_waiting pool1) <= 1)%nat /\
  (wake_up pool1 = 0 \/ wake_up pool1 = 1) /\
  (wake_up pool1 = 1 -> task pool1 <> None /\ dispatcher pool1 = d_wait) /\
  (dispatcher pool1 = d_idle -> tasks_taken acts = tasks_posted acts).
Proof.
  intros Hc Hrun. unfold create_thread_pool in Hc.
  destruct ((num_threads_in_pool <=? 0) || (num_threads_in_pool >? MAXT_IN_POOL));
    [discriminate |].
  injection Hc as <-.
  assert (Hinit : handoff_ok [] []
                    (mk_thread_pool num_threads_in_pool executed flags 0 0 todo
                       (fun _ => w_start) d_idle)).
  { unfold handoff_ok, task_waiting. pool_fields. cbn [Z.eqb app].
    repeat split; auto; discriminate. }
  pose proof (handoff_ok_run es _ _ _ _ _ Hinit Hrun) as (Hw & Hone & Hlog).
  cbn [app] in Hlog.
  split; [exact Hlog |]. split.
  - unfold task_waiting. destruct (wake_up pool1 =? 0); [cbn; lia |].
    destruct (task pool1); cbn; lia.
  - split; [exact Hw |]. split; [exact Hone |].
    intros Hd. rewrite Hlog. unfold task_waiting.
    destruct Hw as [E | E].
    + rewrite E. cbn [Z.eqb]. rewrite app_nil_r. reflexivity.
    + destruct (Hone E) as [_ Hd1]. rewrite Hd in Hd1. discriminate.
Qed.

Lemma sample_pool_run :
  pool_run sample_pool_events sample_pool
  = Some (sample_pool_state, sample_pool_actions).
Proof.
  vm_compute. reflexivity.
Qed.

Lemma thread_pool_handoff_witness :
  create_thread_pool 2 (fun _ => 0) (fun _ => 7) None = Some sample_pool /\
  pool_run sample_pool_events sample_pool
  = Some (sample_pool_state, sample_pool_actions) /\
  tasks_posted sample_pool_actions
  = tasks_taken sample_pool_actions ++ task_waiting sample_pool_state /\
  (length (task_waiting sample_pool_state) <= 1)%nat /\
  (wake_up sample_pool_state = 0 \/ wake_up sample_pool_state = 1) /\
  (wake_up sample_pool_state = 1 ->
   task sample_pool_state <> None /\ dispatcher sample_pool_state = d_wait) /\
  (dispatcher sample_pool_state = d_idle ->
   tasks_taken sample_pool_actions = tasks_posted sample_pool_actions).
Proof.
  assert (Hc : create_thread_pool 2 (fun _ => 0) (fun _ => 7) None = Some sample_pool)
    by reflexivity.
  split; [exact Hc |]. split; [exact sample_pool_run |].
  exact (thread_pool_handoff 2 _ _ None sample_pool_events sample_pool
           sample_pool_state sample_pool_actions Hc sample_pool_run).
Defined.

(** ** thread_pool.c: the running flags and [isdone] *)

Lemma flags_ok_wait_or_take (id : Z) (flags : Z -> Z)
    (pool pool1 : thread_pool) (acts : list pool_action) :
  (forall x, x <> id ->
             workers pool x = w_wait \/ workers pool x = w_exit -> flags x = 0) ->
  wait_or_take id flags pool = Some (pool1, acts) ->
  flags_ok pool1.
Proof.
  unfold flags_ok, wait_or_take. intros Hok H.
  destruct (wake_up pool =? 0).
  - destruct (negb (shutdown pool =? 0)); injection H as <- <-; pool_fields;
      intros x Hx; unfold array_update;
      destruct (Z.eqb_spec x id) as [E | Hne]; try reflexivity;
      apply Hok; assumption.
  - destruct (task pool) as [todo |]; [| discriminate].
    injection H as <- <-. pool_fields. intros x Hx.
    destruct (Z.eqb_spec x id) as [E | Hne].
    + destruct Hx; discriminate.
    + apply Hok; assumption.
Qed.

Lemma flags_ok_step (e : pool_event) (pool pool1 : thread_pool)
    (acts : list pool_action) :
  flags_ok pool -> pool_step e pool = Some (pool1, acts) -> flags_ok pool1.
Proof.
  intros Hok H. destruct e; cbn [pool_step] in H.
  - destruct ((0 <=? id) && (id <? num_threads pool)); [| discriminate].
    destruct (workers pool id) eqn:Hpc; try discriminate. injection H as <- <-.
    unfold flags_ok in *. pool_fields. intros x Hx. unfold array_update.
    destruct (Z.eqb_spec x id) as [E | Hne]; [reflexivity | apply Hok; exact Hx].
  - destruct ((0 <=? id) && (id <? num_threads pool)); [| discriminate].
    destruct (workers pool id) eqn:Hpc; try discriminate.
    eapply flags_ok_wait_or_take; [| exact H].
    intros x _ Hx. apply Hok. exact Hx.
  - destruct ((0 <=? id) && (id <? num_threads pool)); [| discriminate].
    destruct (workers pool id) eqn:Hpc; try discriminate.
    eapply flags_ok_wait_or_take; [| exact H].
    intros x Hne Hx. unfold array_update.
    destruct (Z.eqb_spec x id); [contradiction | apply Hok; exact Hx].
  - destruct ((0 <=? id) && (id <? num_threads pool)); [| discriminate].
    destruct (workers pool id) eqn:Hpc; try discriminate. injection H as <- <-.
    unfold flags_ok in *. pool_fields. intros x Hx.
    destruct (Z.eqb_spec x id) as [E | Hne];
      [destruct Hx; discriminate | apply Hok; exact Hx].
  - destruct (dispatcher pool); [| discriminate]. injection H as <- <-.
    unfold flags_ok in *. pool_fields. exact Hok.
  - destruct (dispatcher pool); [discriminate |].
    destruct (wake_up pool =? 1); injection H as <- <-;
      unfold flags_ok in *; pool_fields; exact Hok.
  - injection H as <- <-. unfold flags_ok in *. pool_fields. exact Hok.
Qed.

Lemma flags_ok_run (es : list pool_event) :
  forall (pool pool1 : thread_pool) (acts : list pool_action),
    flags_ok pool -> pool_run es pool = Some (pool1, acts) -> flags_ok pool1.
Proof.
  induction es as [| e es IH]; intros pool pool1 acts Hok H; cbn [pool_run] in H.
  - injection H as <- <-. exact Hok.
  - destruct (pool_step e pool) as [[pool2 acts1] |] eqn:Es; [| discriminate].
    destruct (pool_run es pool2) as [[pool3 acts2] |] eqn:Er; [| discriminate].
    injection H as <- <-.
    eapply IH; [| exact Er]. eapply flags_ok_step; eassumption.
Qed.

Lemma isdone_from_flags (count : nat) :
  forall (i : Z) (pool pool1 : thread_pool),
    (forall x, pool_running pool1 x = pool_running pool x) ->
    isdone_from count i pool1 = isdone_from count i pool.
Proof.
  induction count as [| c IH]; intros i pool pool1 Hf; [reflexivity |].
  cbn [isdone_from]. rewrite Hf, (IH (i + 1) pool pool1 Hf). reflexivity.
Qed.

(** X30: what [isdone] sees.  In any run of the pool from its creation a
    worker blocked in its wait has its [running] flag at 0; but a worker
    that finds a task published when it locks at the top of its loop takes
    the task without touching its flag, so [isdone] returns the same
    answer before and after: when it answered 1, it still answers 1 while
    that worker runs the task. *)
Theorem isdone_blind_to_unwaited_worker
    (num_threads_in_pool : Z) (executed flags : Z -> Z) (todo : option work_t)
    (es : list pool_event) (pool pool1 : thread_pool) (acts : list pool_action)
    (id : Z) :
  create_thread_pool num_threads_in_pool executed flags todo = Some pool ->
  pool_run es pool = Some (pool1, acts) ->
  (forall x, workers pool1 x = w_wait -> pool_running pool1 x = 0) /\
  (0 <= id < num_threads pool1 ->
   workers pool1 id = w_lock -> wake_up pool1 = 1 ->
   exists todo1 pool2,
     pool_step (pe_lock id) pool1 = Some (pool2, [act_taken id todo1]) /\
     workers pool2 id = w_work todo1 /\
     pool_running pool2 id = pool_running pool1 id /\
     isdone pool2 = isdone pool1).
Proof.
  intros Hc Hrun.
  pose proof (thread_pool_handoff_invariant num_threads_in_pool executed flags todo
                es pool pool1 acts Hc Hrun) as Hone.
  unfold create_thread_pool in Hc.
  destruct ((num_threads_in_pool <=? 0) || (num_threads_in_pool >? MAXT_IN_POOL));
    [discriminate |].
  injection Hc as <-.
  assert (Hinit : flags_ok (mk_thread_pool num_threads_in_pool executed flags 0 0
                              todo (fun _ => w_start) d_idle)).
  { unfold flags_ok. pool_fields. intros x [Hx | Hx]; discriminate. }
  pose proof (flags_ok_run es _ _ _ Hinit Hrun) as Hf.
  split; [intros x Hx; apply Hf; left; exact Hx |].
  intros Hid Hpc Hw. cbn [pool_step].
  destruct (Z.leb_spec 0 id); [| lia].
  destruct (Z.ltb_spec id (num_threads pool1)); [| lia]. cbn [andb].
  rewrite Hpc. unfold wait_or_take. rewrite Hw. cbn [Z.eqb].
  destruct (task pool1) as [todo1 |] eqn:Et; [| destruct (Hone Hw); congruence].
  exists todo1. eexists. split; [reflexivity |]. pool_fields.
  rewrite Z.eqb_refl. split; [reflexivity |]. split; [reflexivity |].
  unfold isdone. pool_fields. apply isdone_from_flags. intros x. reflexivity.
Qed.

Lemma sample_unwaited_pool_run :
  pool_run [pe_start 0; pe_dispatch (mk_work 100 1)] sample_single_pool
  = Some (sample_unwaited_pool, [act_posted (mk_work 100 1)]).
Proof.
  vm_compute. reflexivity.
Qed.

Lemma sample_unwaited_pool_values :
  isdone sample_unwaited_pool = 1 /\
  workers sample_unwaited_pool 0 = w_lock /\
  wake_up sample_unwaited_pool = 1 /\
  num_threads sample_unwaited_pool = 1.
Proof.
  vm_compute. repeat split; reflexivity.
Qed.

Lemma isdone_blind_to_unwaited_worker_witness :
  create_thread_pool 1 (fun _ => 0) (fun _ => 7) None = Some sample_single_pool /\
  pool_run [pe_start 0; pe_dispatch (mk_work 100 1)] sample_single_pool
  = Some (sample_unwaited_pool, [act_posted (mk_work 100 1)]) /\
  (forall x, workers sample_unwaited_pool x = w_wait ->
             pool_running sample_unwaited_pool x = 0) /\
  (0 <= 0 < num_threads sample_unwaited_pool ->
   workers sample_unwaited_pool 0 = w_lock -> wake_up sample_unwaited_pool = 1 ->
   exists todo1 pool2,
     pool_step (pe_lock 0) sample_unwaited_pool
     = Some (pool2, [act_taken 0 todo1]) /\
     workers pool2 0 = w_work todo1 /\
     pool_running pool2 0 = pool_running sample_unwaited_pool 0 /\
     isdone pool2 = isdone sample_unwaited_pool).
Proof.
  assert (Hc : create_thread_pool 1 (fun _ => 0) (fun _ => 7) None
               = Some sample_single_pool)
    by reflexivity.
  split; [exact Hc |]. split; [exact sample_unwaited_pool_run |].
  exact (isdone_blind_to_unwaited_worker 1 _ _ None _ _ _ _ 0 Hc
           sample_unwaited_pool_run).
Defined.

